(* ===== verification/_CoqProject ===== *)
-Q . S2P
Prelude.v
StdMap.v
Util.v
Crc32.v
Hash.v
Config.v
Log.v
Net.v
ConnPool.v
ProtocolBinary.v
Packets.v
Extension.v
Memcached.v
MemcachedBinary.v
MemcachedTerm.v
MemcachedForward.v
MemcachedText.v
ConnQueue.v
Server.v
Listener.v
Failover.v
Request.v
Backend.v
BackendRead.v
Evbuf.v
Evbuffer.v
EvbufferIO.v
Bufferevent.v
KvProxy.v
Transparency.v
MultiHost.v
Main.v
Setup.v
Clients.v
Service.v
Sharing.v
Descriptors.v
EventData.v
MinHeap.v
Epoll.v
EventCore.v
EventInv.v
EventLoop.v
EventRun.v
EventSafe.v
EventBase.v
EventApi.v
EventTurn.v
EventLife.v
