(* ===== verification/Prelude.v ===== *)
(** * kvproxy: a verification library

    kvproxy is a proxy in front of key-value servers.  Clients connect to one port; worker threads
    read their requests, an extension (a shared object, here memcached's) splits them, a consistent
    hash ring picks a host for each key, the requests are sent on over pooled connections, and the
    extension puts the hosts' responses together for the client.  Updates are copied to backup hosts,
    at once or later, and a health thread takes hosts that fail off the rings and brings them back.

    ** The parts and their files

    - Prelude: results of running C++ ([outcome]: a value, [exit], undefined behaviour by cause, or
      no fuel), memory ([mem_read], [mem_write]), machine integers ([u32], [i32], [int_add]), and
      lemmas that the components share.  StdMap: [std::map], with iterators and [operator[]].
    - Util (util.h, util.cpp), Crc32 and Hash (hash.h, hash.cpp), Config (config.h, config.cpp), Log
      (log.h, log.cpp): the same names, one definition per function.
    - Net: the socket calls as an interface, with a scripted network that implements it.  ConnPool
      (conn_pool.h, conn_pool.cpp): connections per thread, host and port.
    - Extension (extension.h, extension.cpp): the types shared with an extension, the loader.
    - ProtocolBinary, Packets (ext/memcached/protocol_binary.h), Memcached (memcached.h,
      memcached.cpp): the wire format, the parsers and builders; MemcachedBinary, MemcachedTerm,
      MemcachedForward and MemcachedText prove them correct.
    - ConnQueue and Server (serv.h, serv.cpp): a worker's list of connections on an explicit heap,
      the listener, the pipes to the workers and the callbacks, as steps taken in any order.
      Listener (deps/libevent2/listener.c): the port, and the loop that accepts its connections.
    - Failover, Request, Backend, KvProxy (kvproxy.h, kvproxy.cpp): hosts and health, routing, the
      traffic with a host, and the class with [readEvent]; BackendRead proves the reading loop,
      Transparency and MultiHost what a client sees.  Main (kvproxy.cpp, serv.cpp): [main], the
      command line, the callbacks; Setup proves what [main] leaves in place, Clients what runs of the
      program keep.
    - Evbuf: a connection's byte queues as an interface; Evbuffer (deps/libevent2/buffer.c and
      evbuffer-internal.h): libevent's chains, an instance of it.  EvbufferIO (buffer.c): filling the
      chains from a descriptor and emptying them into one.  Bufferevent (bufferevent_sock.c,
      bufferevent.c): the read and write events of a client's socket.  Service (serv.cpp): the
      callbacks the program registers there, and a client served from socket to socket.  Sharing: the
      clients of all workers, with the events that libevent's loops report, in any order, where nothing
      goes wrong; Descriptors: where the clients' descriptors are, whatever goes wrong.
    - libevent's core (deps/libevent2): EventData (event-internal.h, event_struct.h: [struct event], the
      store of events, times), MinHeap (minheap-internal.h: the timers), Epoll (epoll.c, evmap.c: the
      map of descriptors and [epoll_ctl]), EventCore (event.c: adding, deleting and activating events,
      the queues), EventLoop (event.c, epoll.c: the loop), EventBase (event.c: making and freeing
      a base and what a program does with it in between).  EventInv, EventRun, EventSafe and EventTurn
      prove the invariants; EventApi has programs that use a base, and EventLife the theorems.

    [main] builds [program]: the proxy, the server, the log.  libevent then calls
    [listenerEventCb], [on_notify] (a worker's [threadProcess] with [connectionEvent]), [readEventCb]
    (with [readEvent]), [on_close]; [prog_step] is the relation of these events.  [readEvent] calls
    [parse_req], [createReqGroup], then [talkToBackend] for the hosts and, for synchronous copies, for
    the backup hosts; [push_async] hands the other copies to [asyncReqThread].  [talkToBackend] calls
    [create_req], [getConnection] (ConnPool's), [writeToBackend], [readFromBackend], [countFail] and
    [create_resp].  [checkHealth_round] calls [failover], which edits the rings of Hash.

    ** Interfaces

    Code outside of the program is a class: [Net] (sockets), [Dl] (the dynamic linker), [Ext] (the
    functions an extension exports), [Libevent] and [Threads] (event bases, pipes, threads), [Evbuf]
    (byte queues).  What the proofs rely on is a class of laws: [NetOk] (descriptors and lengths, as
    POSIX has them), [NetPatience] (calls fail finitely often), [EvbufOk] (a queue of bytes), [Framed]
    (an extension's response parser knows when a response is complete).  Memcached implements [Dl] and
    [Ext], [sim] implements [Net] with its laws, [plain] and [evbuffer] implement [Evbuf] with its
    ([in_ok] and [out_ok] are the invariants of a buffer that is read into and of one that is written
    from).  [Malloc] is what the allocator gives; [EvIO], with the laws [EvIOOk] and [EvIOLog], stands
    for [readv], [writev] and [ioctl] on a client's descriptor, and [socket_io] derives it from [Net];
    [Listen], with [ListenOk], for the calls on the port.  An event base runs on [EvOs] ([realloc], the
    clocks, [epoll_ctl], [epoll_wait]), with the laws [EpollOk] and [EpollKeeps] (the kernel's list of
    descriptors, what may be reported, that interest can always be taken off an entry that is there: the
    ENOMEM that epoll_ctl(2) documents is excluded for that, not for adding interest)
    and [ClockOk] (the clocks answer); [Evsig] is signal.c.  The callbacks of a base are functions on it,
    with [callbacks_ok] or [calm] as their contract; [script_ok] shows that callbacks which are programs
    of calls themselves ([client]) satisfy it.  EventLife has a kernel, [kernel], with these laws.

    ** The theorems

    - From socket to socket: [client_served] (a request that arrives in pieces, its service, and the
      answer into the output and out of it), [client_answered] (the output is written and the write
      event goes), [client_leaves] (a client that goes leaves nothing behind), and [clients_apart] (all
      clients together, their events interleaved: each gets its own answers); [main_site_ok] starts
      such a run with what [main] builds.  [descriptors_kept]: in every run at all, where each accepted
      descriptor is.  [listener_deals]: from the port to the workers' pipes.
    - Inside of the proxy: [readEvent_forwards] (a request reaches its host and the response the client,
      byte for byte, however the network cuts them), [readEvent_refuses] (what is not forwarded
      disturbs nothing), [push_async_copies], [main_ready] (what [main] leaves in place),
      [client_count] (an invariant of every run).
    - The event base: [base_life] (from [event_base_new] through the calls of a program, with events for
      timeouts, reading and writing, and the loop to [event_base_free], nothing goes wrong and nothing is left), [event_base_loop_safe] (the loop keeps
      the invariant and ends only for the reasons it may), [timeout_process_fires] (exactly the timers
      that are due run, in order), [epoll_dispatch_rouses] (a report makes exactly the events that want
      it active), [loop_turn_returns] (a turn ends), [heap_refines] (the heap is a bag of timers whose
      top is due first).
    - Hashing and failover: [find_nearest], [addHost_minimal] (a new host takes only the keys of its
      points), [setHosts_builds] (the ring of a configuration), [crc32_bitwise], [failover_spec] and
      [checkHealth_round_spec] (what taking hosts off and bringing them back do, and when they are
      undefined), [createReqGroup_routes].
    - Parsers and builders: [parse_create_req], [parse_req_stream], [parse_req_fuel],
      [parse_text_request], [create_resp_bounded], [packet_overlay],
      [loadConf_render], [loadConf_total], [logx_line].
    - Loops to a host and resources: [writeToBackend_delivers], [readFromBackend_returns],
      [pool_invariant].
    - Refinement: [ConnQueue_refines] (the linked list is a list), [evbuffer_refines] and
      [evbuffer_io_refines] (the chains are a queue of bytes, for the program and for descriptors).
    - What the code does and hardly means to: [parse_req_truncated], [parse_req_diverges],
      [writeToBackend_resumes], [delHost_undefined], [createConnection_leak],
      [talk_overwrites], [talk_stale_request].

    ** Fuel

    - [parse_fuel size] is size + 2: a turn of the extension's loop moves to another position among
      the received bytes or ends, so a run that ends takes at most one turn per byte
      ([parse_req_fuel]); a run that exceeds it does not end ([parse_req_diverges]).
    - The loops to a host take their fuel as an argument.  [writeToBackend_delivers] needs a turn per
      byte and per failed call, [readFromBackend_returns] the same with the free bytes of the response
      buffer; [patience] bounds the failed calls.  [readEvent_forwards] adds them up.
    - [heap_fuel] is one more than the heap has elements: a hole moves up or down past one element per
      step, and [timeout_loop] takes one element off per turn.  [event_add_internal] calls itself once,
      for the timer of a list of common timeouts, and [run_callback] likewise: their depth is two.  A
      turn of the loop needs more fuel than the base has events ([loop_turn_returns]); how many turns the
      loop takes is up to the events, so that [event_base_loop_safe] and [base_life] say of every
      number of turns that the loop has ended well or is still running.
    - [loadConf] reads with as much fuel as the file has bytes ([loadConf_total]), [getopt] with as much
      as there are arguments.

    ** Modelling decisions

    - Undefined behaviour is a result of its own, with a cause: accesses outside of an object, signed
      overflow, use of an erased iterator, reads
      of uninitialised memory, division by zero, null pointers.
    - Threads interleave by whole callbacks.  A mutex or rwlock is a flag; what happens when another
      thread holds it is modelled where the code goes on regardless (Hash, ConnPool, [failover_busy]); where
      the code waits for it ([push_async]), it is taken as free, since no other callback runs in between.
    - Requests and responses point into the proxy's buffers: they are offsets, read through the buffer
      as it is at the time.
    - A bufferevent's callbacks run when the operation that caused them is over; the callbacks of the
      output buffer are kept in a log ([cb_log]) and run then ([run_outbuf_cbs]).
    - An event base is one thread's: the program installs no thread functions, so libevent neither locks
      nor notifies.  No flags are set on a base and the changelist is off, as [event_base_new] has it.
      The theorems are for a monotonic clock ([use_monotonic = true]), as on Linux, and for events that are
      neither for signals nor edge-triggered, without common timeouts; the definitions have all of them.
    - Buffer contents after [malloc] and on the stack are arguments ([malloc], [fast]).

    ** Not modelled

    - Races inside a callback: counters and queues that workers share without a lock are updated as if
      each callback ran alone.
    - Of libevent's core, signal.c, other backends than epoll, the changelist, threads and their
      notification, [event_reinit], [event_config] and debugging, and the making of lists of common
      timeouts.  The server and the bufferevents see the loop as [Libevent] and as steps in any order: any
      order that EventLoop produces is among them, but the two are not linked by a theorem.
    - Of bufferevents, rate limits, deferred callbacks, timers, the setting of watermarks, and the kinds
      that are not sockets; of buffer.c, the calls that neither the program nor a bufferevent makes - search, prepending,
      references, file segments, locking; gperftools, which only replaces [malloc].
    - libevent's HTTP, DNS and RPC, which the program does not call.
    - The text that [help], [show_version] and log messages print ([vsnprintf] and the clock are
      parameters).
    - The sleeping of the health thread and of [asyncReqThread] (a turn of each loop is a definition),
      and the timer that [main] registers, whose callback [timeOutCb] is empty and whose result is
      dropped ([addTimerEvent] is modelled on its own). *)
From stdpp Require Export prelude gmap strings list sorting relations.
From Stdlib Require Export Strings.Byte ZArith.

#[global] Open Scope Z_scope.

(** * Outcomes *)

(** What C++ leaves undefined, by cause. *)
Inductive ub :=
  | OutOfBounds        (** a read or write outside the object *)
  | StaleIterator      (** use of an iterator whose element was erased *)
  | Indeterminate      (** a read of a variable that was never written *)
  | IntOverflow        (** signed overflow, or an unrepresentable conversion *)
  | DivByZero
  | NullPointer.

(** The result of running a piece of the program: a value, [exit(code)],
    undefined behaviour, or a loop that did not finish within the fuel. *)
Inductive outcome (A : Type) :=
  | Ret (a : A)
  | Exit (code : Z)
  | Undef (why : ub)
  | NoFuel.
Arguments Ret {A} a.
Arguments Exit {A} code.
Arguments Undef {A} why.
Arguments NoFuel {A}.

#[export] Instance outcome_ret : MRet outcome := @Ret.
#[export] Instance outcome_bind : MBind outcome := λ A B f m,
  match m with
  | Ret a => f a
  | Exit c => Exit c
  | Undef w => Undef w
  | NoFuel => NoFuel
  end.
#[export] Instance outcome_fmap : FMap outcome := λ A B f m,
  match m with
  | Ret a => Ret (f a)
  | Exit c => Exit c
  | Undef w => Undef w
  | NoFuel => NoFuel
  end.

Definition EXIT_FAILURE : Z := 1.
Definition EXIT_SUCCESS : Z := 0.

(** * Bytes *)

Abbreviation bytes := (list byte).

#[export] Instance byte_eq_dec : EqDecision byte := Byte.byte_eq_dec.
#[export] Program Instance byte_countable : Countable byte :=
  inj_countable Byte.to_N Byte.of_N _.
Next Obligation. intros x. apply Byte.of_to_N. Qed.

(** A C string literal, without its terminator. *)
Definition bs (s : string) : bytes := String.list_byte_of_string s.

(** [(unsigned char)c], and [c] itself: [char] is signed on the platforms the
    makefile builds for. *)
Definition uchar (b : byte) : Z := Z.of_N (Byte.to_N b).
Definition schar (b : byte) : Z := if decide (uchar b < 128) then uchar b else uchar b - 256.

(** Conversion of an integer to [char]: the low eight bits. *)
Definition to_char (z : Z) : byte := default x00 (Byte.of_N (Z.to_N (z mod 256))).

(** * Machine integers *)

Definition u16 (z : Z) : Z := z mod 2 ^ 16.
Definition u32 (z : Z) : Z := z mod 2 ^ 32.
Definition INT_MAX : Z := 2 ^ 31 - 1.
Definition INT_MIN : Z := - 2 ^ 31.

(** Conversion to [int] (modular, as gcc and clang define it). *)
Definition i32 (z : Z) : Z := (z + 2 ^ 31) mod 2 ^ 32 - 2 ^ 31.

Definition is_int (z : Z) : Prop := INT_MIN <= z <= INT_MAX.
#[export] Instance is_int_dec z : Decision (is_int z).
Proof. unfold is_int. apply _. Defined.

(** Signed addition: overflow is undefined. *)
Definition int_add (x y : Z) : outcome Z :=
  if decide (is_int (x + y)) then Ret (x + y) else Undef IntOverflow.

(** * Memory *)

(** [n] bytes at offset [off] of the object [m]. *)
Definition mem_read (m : bytes) (off n : Z) : outcome bytes :=
  if decide (0 <= n /\ 0 <= off /\ off + n <= Z.of_nat (length m))
  then Ret (take (Z.to_nat n) (drop (Z.to_nat off) m))
  else Undef OutOfBounds.

(** [memcpy(m + off, d, |d|)]. *)
Definition mem_write (m : bytes) (off : Z) (d : bytes) : outcome bytes :=
  if decide (0 <= off /\ off + Z.of_nat (length d) <= Z.of_nat (length m))
  then Ret (take (Z.to_nat off) m ++ d ++ drop (Z.to_nat off + length d) m)
  else Undef OutOfBounds.

(** One byte. *)
Definition mem_get (m : bytes) (off : Z) : outcome byte :=
  if decide (0 <= off)
  then match m !! Z.to_nat off with Some b => Ret b | None => Undef OutOfBounds end
  else Undef OutOfBounds.

(** * Automation *)

Create HintDb kv discriminated.
Create Rewrite HintDb kv_rw.

Ltac case_outcome :=
  match goal with
  | H : context [match ?m with Ret _ => _ | Exit _ => _ | Undef _ => _ | NoFuel => _ end] |- _ =>
      let E := fresh "E" in destruct m eqn:E
  | |- context [match ?m with Ret _ => _ | Exit _ => _ | Undef _ => _ | NoFuel => _ end] =>
      let E := fresh "E" in destruct m eqn:E
  end.

(** Splits a [Ret] result of a chain of binds into its stages. *)
Ltac inv_ret :=
  unfold mbind, outcome_bind, mret, outcome_ret in *;
  repeat (case_outcome; try discriminate); simplify_eq/=.

(** * Generic lemmas *)

Lemma bind_Ret_inv {A B} (m : outcome A) (f : A → outcome B) b :
  (m ≫= f) = Ret b → ∃ a, m = Ret a ∧ f a = Ret b.
Proof. destruct m; cbn; try discriminate. eauto. Qed.

(** Whether a computation returns. *)
Definition is_ret {A} (m : outcome A) : bool := match m with Ret _ => true | _ => false end.

Lemma is_ret_inv {A} (m : outcome A) : is_ret m = true → ∃ a, m = Ret a.
Proof. destruct m; try discriminate. eauto. Qed.

Lemma bind_assoc {A B C} (m : outcome A) (f : A → outcome B) (g : B → outcome C) :
  (m ≫= f) ≫= g = m ≫= (λ a, f a ≫= g).
Proof. by destruct m. Qed.

Lemma uchar_range b : 0 <= uchar b < 256.
Proof. unfold uchar. pose proof (Byte.to_N_bounded b). lia. Qed.

Lemma schar_range b : -128 <= schar b < 128.
Proof. unfold schar. pose proof (uchar_range b). case_decide; lia. Qed.

Lemma uchar_inj b c : uchar b = uchar c → b = c.
Proof.
  unfold uchar. intros H. assert (Byte.to_N b = Byte.to_N c) as E by lia.
  pose proof (Byte.of_to_N b) as Hb. rewrite E, Byte.of_to_N in Hb. congruence.
Qed.

Lemma uchar_to_char z : uchar (to_char z) = z mod 256.
Proof.
  unfold uchar, to_char.
  pose proof (Z.mod_pos_bound z 256 ltac:(lia)) as Hz.
  destruct (Byte.of_N (Z.to_N (z mod 256))) as [b|] eqn:E; cbn.
  - apply Byte.to_of_N in E. rewrite E. lia.
  - exfalso. apply Byte.of_N_None_iff in E. lia.
Qed.

Lemma to_char_uchar b : to_char (uchar b) = b.
Proof.
  apply uchar_inj. rewrite uchar_to_char, Z.mod_small; [done|]. apply uchar_range.
Qed.

Lemma u32_range z : 0 <= u32 z < 2 ^ 32.
Proof. apply Z.mod_pos_bound. lia. Qed.

Lemma u32_small z : 0 <= z < 2 ^ 32 → u32 z = z.
Proof. apply Z.mod_small. Qed.

Lemma u16_small z : 0 <= z < 2 ^ 16 → u16 z = z.
Proof. apply Z.mod_small. Qed.

Lemma i32_range z : is_int (i32 z).
Proof.
  unfold is_int, i32, INT_MIN, INT_MAX.
  pose proof (Z.mod_pos_bound (z + 2 ^ 31) (2 ^ 32) ltac:(lia)). lia.
Qed.

Lemma i32_small z : is_int z → i32 z = z.
Proof.
  unfold is_int, i32, INT_MIN, INT_MAX. intros H. rewrite Z.mod_small; lia.
Qed.

Lemma int_add_small x y : is_int (x + y) → int_add x y = Ret (x + y).
Proof. intros H. unfold int_add. by rewrite decide_True. Qed.

Lemma mem_read_ok m off n :
  0 <= n → 0 <= off → off + n <= Z.of_nat (length m) →
  mem_read m off n = Ret (take (Z.to_nat n) (drop (Z.to_nat off) m)).
Proof. intros. unfold mem_read. by rewrite decide_True by lia. Qed.

Lemma mem_read_length m off n d : mem_read m off n = Ret d → Z.of_nat (length d) = n.
Proof.
  unfold mem_read. case_decide; [|done]. intros [= <-].
  rewrite length_take, length_drop. lia.
Qed.

Lemma mem_write_length m off d m' :
  mem_write m off d = Ret m' → length m' = length m.
Proof.
  unfold mem_write. case_decide; [|done]. intros [= <-].
  rewrite !length_app, length_take, length_drop. lia.
Qed.

(** A write followed by a read of the same range returns what was written. *)
Lemma mem_read_write m off d m' :
  mem_write m off d = Ret m' → mem_read m' off (Z.of_nat (length d)) = Ret d.
Proof.
  intros H. pose proof (mem_write_length _ _ _ _ H) as L.
  unfold mem_write in H. case_decide as D; [|done]. simplify_eq.
  rewrite mem_read_ok by lia. f_equal.
  rewrite drop_app_ge; rewrite length_take; [|lia].
  replace (Z.to_nat off - Z.to_nat off `min` length m)%nat with 0%nat by lia.
  rewrite drop_0, Nat2Z.id, take_app_length. done.
Qed.

(** A write at the end of the part filled so far extends it. *)
Lemma mem_write_append (pre rest d : bytes) :
  (length d <= length rest)%nat →
  mem_write (pre ++ rest) (Z.of_nat (length pre)) d = Ret ((pre ++ d) ++ drop (length d) rest).
Proof.
  intros Hl. unfold mem_write. rewrite decide_True.
  - rewrite Nat2Z.id, take_app_length, drop_app_add, <- app_assoc. done.
  - rewrite length_app. lia.
Qed.

Lemma mem_read_prefix (pre rest : bytes) :
  mem_read (pre ++ rest) 0 (Z.of_nat (length pre)) = Ret pre.
Proof.
  rewrite mem_read_ok by (rewrite ?length_app; lia).
  change (Z.to_nat 0) with 0%nat. by rewrite drop_0, Nat2Z.id, take_app_length.
Qed.

(** [n]-bit words are closed under exclusive or. *)
Lemma lxor_range n x y :
  0 <= n → 0 <= x < 2 ^ n → 0 <= y < 2 ^ n → 0 <= Z.lxor x y < 2 ^ n.
Proof.
  intros Hn Hx Hy.
  assert (Z.lxor x y = Z.land (Z.lxor x y) (Z.ones n)) as ->.
  { rewrite <- (Z.mod_small x (2 ^ n)), <- (Z.mod_small y (2 ^ n)), <- !Z.land_ones by done.
    apply Z.bits_inj'. intros k _. rewrite !Z.land_spec, !Z.lxor_spec, !Z.land_spec.
    by destruct (Z.testbit x k), (Z.testbit y k), (Z.testbit (Z.ones n) k). }
  rewrite Z.land_ones by done. apply Z.mod_pos_bound. lia.
Qed.

(** In a strongly sorted list, an earlier entry is related to a later one. *)
Lemma StronglySorted_lookup_lt {A} (R : relation A) (l : list A) i j x y :
  StronglySorted R l → (i < j)%nat → l !! i = Some x → l !! j = Some y → R x y.
Proof.
  intros Hs. revert i j. induction Hs as [|z l Hs IH Hz]; intros i j Hij Hi Hj; [done|].
  destruct j as [|j]; [lia|]. destruct i as [|i]; cbn in *; simplify_eq.
  - rewrite Forall_forall in Hz. apply Hz. by eapply list_elem_of_lookup_2.
  - apply (IH i j); [lia|done..].
Qed.

#[export] Hint Resolve uchar_range schar_range u32_range i32_range : kv.
#[export] Hint Rewrite to_char_uchar uchar_to_char : kv_rw.
