(* ===== verification/StdMap.v ===== *)
(** [std::map]: a [gmap] for the contents and a sorted view for what the code
    does with iterators.

    [OrdKey] is what [std::less] promises about a key type; [elems m] lists a
    map the way [begin()] to [end()] visits it, [lower_bound] and [begin_] are
    the iterators the program takes, and [at_] is [operator[]], which inserts a
    default value when the key is absent. *)
From S2P Require Import Prelude.

(** * Ordered keys *)

Class OrdKey (K : Type) := {
  kcmp : K → K → comparison;
  kcmp_eq x y : kcmp x y = Eq ↔ x = y;
  kcmp_opp x y : kcmp y x = CompOpp (kcmp x y);
  kcmp_trans x y z : kcmp x y = Lt → kcmp y z = Lt → kcmp x z = Lt
}.

(** [std::less]: strict, and its reflexive closure. *)
Definition klt {K} `{OrdKey K} (x y : K) : Prop := kcmp x y = Lt.
Definition kle {K} `{OrdKey K} (x y : K) : Prop := kcmp x y ≠ Gt.

#[export] Instance klt_dec {K} `{OrdKey K} : RelDecision (@klt K _).
Proof. intros x y. unfold klt. solve_decision. Defined.
#[export] Instance kle_dec {K} `{OrdKey K} : RelDecision (@kle K _).
Proof. intros x y. unfold kle. solve_decision. Defined.

(** ** Instances: [uint32_t] and [int], [char] as [std::string] compares it,
    sequences lexicographically, pairs lexicographically *)

#[export] Program Instance Z_ord : OrdKey Z := {| kcmp := Z.compare |}.
Next Obligation. intros. apply Z.compare_eq_iff. Qed.
Next Obligation. intros. apply Z.compare_antisym. Qed.
Next Obligation. intros x y z. rewrite !Z.compare_lt_iff. lia. Qed.

#[export] Program Instance byte_ord : OrdKey byte :=
  {| kcmp x y := Z.compare (uchar x) (uchar y) |}.
Next Obligation.
  intros. rewrite Z.compare_eq_iff. split; [apply uchar_inj | by intros ->].
Qed.
Next Obligation. intros. apply Z.compare_antisym. Qed.
Next Obligation. intros x y z. rewrite !Z.compare_lt_iff. lia. Qed.

Fixpoint list_cmp {K} `{OrdKey K} (l k : list K) : comparison :=
  match l, k with
  | [], [] => Eq
  | [], _ :: _ => Lt
  | _ :: _, [] => Gt
  | x :: l, y :: k => match kcmp x y with Eq => list_cmp l k | c => c end
  end.

Section list_ord.
Context {K} `{OrdKey K}.

Lemma list_cmp_eq (l k : list K) : list_cmp l k = Eq ↔ l = k.
Proof.
  revert k. induction l as [|x l IH]; intros [|y k]; cbn; try done.
  destruct (kcmp x y) eqn:E.
  - apply kcmp_eq in E as ->. rewrite IH. naive_solver.
  - split; [done|]. intros [= -> ->].
    by rewrite (proj2 (kcmp_eq _ _) eq_refl) in E.
  - split; [done|]. intros [= -> ->].
    by rewrite (proj2 (kcmp_eq _ _) eq_refl) in E.
Qed.

Lemma list_cmp_opp (l k : list K) : list_cmp k l = CompOpp (list_cmp l k).
Proof.
  revert k. induction l as [|x l IH]; intros [|y k]; cbn; try done.
  rewrite (kcmp_opp x y). destruct (kcmp x y); cbn; auto.
Qed.

Lemma list_cmp_trans (l k n : list K) :
  list_cmp l k = Lt → list_cmp k n = Lt → list_cmp l n = Lt.
Proof.
  revert k n. induction l as [|x l IH]; intros [|y k] [|z n]; cbn; try done.
  destruct (kcmp x y) eqn:E1; try done; destruct (kcmp y z) eqn:E2; try done.
  - apply kcmp_eq in E1 as ->. rewrite E2. eauto.
  - apply kcmp_eq in E1 as ->. by rewrite E2.
  - apply kcmp_eq in E2 as ->. by rewrite E1.
  - by rewrite (kcmp_trans _ _ _ E1 E2).
Qed.
End list_ord.

#[export] Instance list_ord {K} `{OrdKey K} : OrdKey (list K) :=
  {| kcmp := list_cmp; kcmp_eq := list_cmp_eq; kcmp_opp := list_cmp_opp;
     kcmp_trans := list_cmp_trans |}.

Definition prod_cmp {A B} `{OrdKey A, OrdKey B} (x y : A * B) : comparison :=
  match kcmp x.1 y.1 with Eq => kcmp x.2 y.2 | c => c end.

Section prod_ord.
Context {A B} `{OrdKey A, OrdKey B}.

Lemma prod_cmp_eq (x y : A * B) : prod_cmp x y = Eq ↔ x = y.
Proof.
  destruct x as [a b], y as [a' b']. unfold prod_cmp; cbn.
  destruct (kcmp a a') eqn:E.
  - apply kcmp_eq in E as ->. rewrite kcmp_eq. naive_solver.
  - split; [done|]. intros [= -> ->]. by rewrite (proj2 (kcmp_eq _ _) eq_refl) in E.
  - split; [done|]. intros [= -> ->]. by rewrite (proj2 (kcmp_eq _ _) eq_refl) in E.
Qed.

Lemma prod_cmp_opp (x y : A * B) : prod_cmp y x = CompOpp (prod_cmp x y).
Proof.
  destruct x as [a b], y as [a' b']. unfold prod_cmp; cbn.
  rewrite (kcmp_opp a a'). destruct (kcmp a a'); cbn; auto using kcmp_opp.
Qed.

Lemma prod_cmp_trans (x y z : A * B) :
  prod_cmp x y = Lt → prod_cmp y z = Lt → prod_cmp x z = Lt.
Proof.
  destruct x as [a1 b1], y as [a2 b2], z as [a3 b3]. unfold prod_cmp; cbn.
  destruct (kcmp a1 a2) eqn:E1; try done; destruct (kcmp a2 a3) eqn:E2; try done.
  - apply kcmp_eq in E1 as ->. rewrite E2. apply kcmp_trans.
  - apply kcmp_eq in E1 as ->. by rewrite E2.
  - apply kcmp_eq in E2 as ->. by rewrite E1.
  - by rewrite (kcmp_trans _ _ _ E1 E2).
Qed.
End prod_ord.

#[export] Instance prod_ord {A B} `{OrdKey A, OrdKey B} : OrdKey (A * B) :=
  {| kcmp := prod_cmp; kcmp_eq := prod_cmp_eq; kcmp_opp := prod_cmp_opp;
     kcmp_trans := prod_cmp_trans |}.

(** * The iterators *)

Section std_map.
Context {K V : Type} `{Countable K} `{!OrdKey K}.
Implicit Types (m : gmap K V) (k : K) (v : V).

(** The order [merge_sort] uses on entries: by key. *)
Definition entry_le (x y : K * V) : Prop := kle x.1 y.1.

#[export] Instance entry_le_dec : RelDecision entry_le.
Proof. intros x y. unfold entry_le. apply _. Defined.

(** [begin()] ... [end()]: the entries in increasing key order. *)
Definition elems m : list (K * V) := merge_sort entry_le (map_to_list m).

(** [lower_bound(k)]: the first entry whose key is not less than [k]; [None] is [end()]. *)
Definition lower_bound m k : option (K * V) :=
  snd <$> list_find (λ kv, ¬ klt kv.1 k) (elems m).

(** [begin()]; [None] is [end()]. *)
Definition begin_ m : option (K * V) := head (elems m).

(** [m[k]] read as a value: a missing key is inserted with the default [d]. *)
Definition at_ (d : V) m k : V * gmap K V :=
  match m !! k with
  | Some v => (v, m)
  | None => (d, <[k := d]> m)
  end.

(** ** Order facts *)

Lemma kcmp_refl k : kcmp k k = Eq.
Proof. by apply kcmp_eq. Qed.

Lemma klt_irrefl k : ¬ klt k k.
Proof. unfold klt. by rewrite kcmp_refl. Qed.

Lemma kle_nlt k k' : kle k k' ↔ ¬ klt k' k.
Proof.
  unfold kle, klt. rewrite (kcmp_opp k k'). destruct (kcmp k k'); cbn; naive_solver.
Qed.

Lemma kle_lt_or_eq k k' : kle k k' ↔ klt k k' ∨ k = k'.
Proof.
  unfold kle, klt. rewrite <- kcmp_eq. destruct (kcmp k k'); naive_solver.
Qed.

Lemma kle_antisym k k' : kle k k' → kle k' k → k = k'.
Proof. rewrite kle_nlt, kle_lt_or_eq. naive_solver. Qed.

#[export] Instance kle_trans : Transitive (@kle K _).
Proof.
  intros x y z. rewrite !kle_lt_or_eq. unfold klt.
  intros [H1| ->] [H2| ->]; eauto using kcmp_trans.
Qed.

#[export] Instance entry_le_trans : Transitive entry_le.
Proof. intros x y z. unfold entry_le. apply kle_trans. Qed.

#[export] Instance entry_le_total : Total entry_le.
Proof.
  intros x y. unfold entry_le, kle. rewrite (kcmp_opp x.1 y.1).
  destruct (kcmp x.1 y.1); cbn; naive_solver.
Qed.

(** ** [elems] *)

Lemma elems_perm m : elems m ≡ₚ map_to_list m.
Proof. apply merge_sort_Permutation. Qed.

Lemma elem_of_elems m k v : (k, v) ∈ elems m ↔ m !! k = Some v.
Proof. rewrite elems_perm. apply elem_of_map_to_list. Qed.

Lemma elems_NoDup_keys m : NoDup (elems m).*1.
Proof. rewrite elems_perm. apply NoDup_fst_map_to_list. Qed.

Lemma elems_sorted m : StronglySorted entry_le (elems m).
Proof. apply StronglySorted_merge_sort; apply _. Qed.

Lemma elems_length m : length (elems m) = size m.
Proof. rewrite elems_perm. apply length_map_to_list. Qed.

Lemma elems_empty : elems ∅ = [].
Proof. apply Permutation_nil. by rewrite elems_perm, map_to_list_empty. Qed.

Lemma elems_nil_inv m : elems m = [] → m = ∅.
Proof. intros E. apply map_to_list_empty_iff, Permutation_nil. by rewrite <- elems_perm, E. Qed.

(** Entries with equal keys of a list with distinct keys are equal. *)
Lemma entry_unique (l : list (K * V)) (x y : K * V) :
  NoDup l.*1 → x ∈ l → y ∈ l → x.1 = y.1 → x = y.
Proof.
  intros Hnd Hx Hy E.
  apply list_elem_of_lookup in Hx as [i Hi], Hy as [j Hj].
  assert (i = j) as ->; [|congruence].
  apply (NoDup_lookup l.*1 i j x.1); [done| |];
    rewrite list_lookup_fmap, ?Hi, ?Hj; cbn; congruence.
Qed.

Lemma elems_unique m (l : list (K * V)) :
  StronglySorted entry_le l → NoDup l.*1 →
  (∀ k v, (k, v) ∈ l ↔ m !! k = Some v) → elems m = l.
Proof.
  intros Hs Hnd Hl.
  assert (elems m ≡ₚ l) as HP.
  { apply NoDup_Permutation; [eapply NoDup_fmap_1, elems_NoDup_keys|by apply NoDup_fmap_1 in Hnd|].
    intros [k v]. by rewrite Hl, elem_of_elems. }
  apply (StronglySorted_unique_strong entry_le); [|apply elems_sorted|done|done].
  intros x y Hx Hy Hxy Hyx. apply (entry_unique l); [done|by rewrite <- HP|done|].
  by apply kle_antisym.
Qed.

(** ** [lower_bound] and [begin_] *)

Lemma lower_bound_Some m k k' v :
  lower_bound m k = Some (k', v) ↔
  m !! k' = Some v ∧ kle k k' ∧ ∀ k'', is_Some (m !! k'') → kle k k'' → kle k' k''.
Proof.
  unfold lower_bound. rewrite fmap_Some. split.
  - intros [[i [? ?]] [Hf [= <- <-]]]. cbn in *.
    apply list_find_Some in Hf as (Hi & Hk & Hlt). cbn in Hk.
    repeat split.
    + apply elem_of_elems. by eapply list_elem_of_lookup_2.
    + by apply kle_nlt.
    + intros k'' [v'' Hk''] Hle. apply elem_of_elems, list_elem_of_lookup in Hk'' as [j Hj].
      destruct (decide (j < i)%nat) as [Hji|Hij].
      { exfalso. apply kle_nlt in Hle. by apply (Hlt _ _ Hj Hji). }
      destruct (decide (i = j)) as [->|Hne].
      { assert (k'' = k') as -> by congruence. apply kle_nlt, klt_irrefl. }
      pose proof (elems_sorted m) as Hs.
      apply (StronglySorted_lookup_lt _ _ i j (k', v) (k'', v'') Hs); [lia|done..].
  - intros (Hk' & Hle & Hmin). apply elem_of_elems, list_elem_of_lookup in Hk' as [i Hi].
    exists (i, (k', v)). split; [|done]. apply list_find_Some. repeat split; [done| |].
    + cbn. by apply kle_nlt.
    + intros j [k'' v''] Hj Hji. cbn. intros Hnlt.
      assert (kle k' k'') as Hk.
      { apply Hmin; [|by apply kle_nlt]. exists v''. apply elem_of_elems.
        by eapply list_elem_of_lookup_2. }
      assert (kle k'' k') as Hk2.
      { pose proof (elems_sorted m) as Hs.
        apply (StronglySorted_lookup_lt _ _ j i (k'', v'') (k', v) Hs); [lia|done..]. }
      pose proof (kle_antisym _ _ Hk Hk2) as <-.
      assert (i = j); [|lia].
      apply (NoDup_lookup (elems m).*1 i j k'); [apply elems_NoDup_keys| |];
        by rewrite list_lookup_fmap, ?Hi, ?Hj.
Qed.

Lemma lower_bound_None m k :
  lower_bound m k = None ↔ ∀ k', is_Some (m !! k') → klt k' k.
Proof.
  unfold lower_bound. rewrite fmap_None, list_find_None, Forall_forall. split.
  - intros Hall k' [v Hv]. apply elem_of_elems in Hv. apply Hall in Hv. cbn in Hv.
    by apply dec_stable.
  - intros Hall [k' v] Hin Hn. apply elem_of_elems in Hin. apply Hn, Hall. by exists v.
Qed.

Lemma begin_Some m k v :
  begin_ m = Some (k, v) ↔ m !! k = Some v ∧ ∀ k', is_Some (m !! k') → kle k k'.
Proof.
  unfold begin_. split.
  - intros Hh. destruct (elems m) as [|x l] eqn:E; [done|]. cbn in Hh. simplify_eq.
    split.
    + apply elem_of_elems. rewrite E. left.
    + intros k' [v' Hv']. apply elem_of_elems in Hv'. rewrite E in Hv'.
      pose proof (elems_sorted m) as Hs. rewrite E in Hs.
      apply elem_of_cons in Hv' as [[= -> ->]|Hin]; [apply kle_nlt, klt_irrefl|].
      apply StronglySorted_inv in Hs as [_ Hall]. rewrite Forall_forall in Hall.
      by apply (Hall (k', v')).
  - intros [Hk Hmin]. apply elem_of_elems in Hk.
    destruct (elems m) as [|[k0 v0] l] eqn:E; [by apply elem_of_nil in Hk|]. cbn.
    pose proof (elems_sorted m) as Hs. rewrite E in Hs.
    apply elem_of_cons in Hk as [[= -> ->]|Hin]; [done|].
    apply StronglySorted_inv in Hs as [_ Hall]. rewrite Forall_forall in Hall.
    pose proof (Hall _ Hin) as H1. cbn in H1.
    assert (kle k k0) as H2.
    { apply Hmin. exists v0. apply elem_of_elems. rewrite E. left. }
    assert (k0 = k) as -> by by apply kle_antisym.
    pose proof (elems_NoDup_keys m) as Hnd. rewrite E in Hnd. cbn in Hnd.
    apply NoDup_cons in Hnd as [Hnin _]. exfalso. apply Hnin.
    apply list_elem_of_fmap. by exists (k, v).
Qed.

Lemma begin_None m : begin_ m = None ↔ m = ∅.
Proof.
  unfold begin_. split.
  - intros Hh. apply elems_nil_inv. by destruct (elems m).
  - intros ->. by rewrite elems_empty.
Qed.

(** ** [operator[]] *)

Lemma at_lookup d m k k' :
  k' ≠ k → (at_ d m k).2 !! k' = m !! k'.
Proof.
  intros Hne. unfold at_. destruct (m !! k); cbn; [done|]. by rewrite lookup_insert_ne.
Qed.

Lemma at_default d m k k' :
  default d ((at_ d m k).2 !! k') = default d (m !! k').
Proof.
  unfold at_. destruct (m !! k) eqn:E; cbn; [done|].
  destruct (decide (k = k')) as [->|Hne].
  - by rewrite lookup_insert_eq, E.
  - by rewrite lookup_insert_ne.
Qed.

Lemma at_insert d m k v : <[k := v]> (at_ d m k).2 = <[k := v]> m.
Proof. unfold at_. destruct (m !! k); cbn; [done|]. by rewrite insert_insert_eq. Qed.

Lemma at_value d m k : (at_ d m k).1 = default d (m !! k).
Proof. unfold at_. by destruct (m !! k). Qed.
End std_map.

#[export] Hint Rewrite @at_value @at_default @at_insert : kv_rw.
#[export] Hint Resolve elems_sorted elems_NoDup_keys : kv.
