(* ===== verification/Util.v ===== *)
(** [src/util.h], [src/util.cpp]: decimal conversions, [split] and [get_cwd].

    [sscanf("%d")] and [sprintf("%d")] are modelled as the C library defines
    them: a conversion that matches nothing leaves its argument unwritten, and a
    value that does not fit an [int] is undefined. *)
From S2P Require Import Prelude StdMap.

(** * The C library's decimal conversions *)

Definition digit (d : Z) : byte := to_char (48 + d).
Definition isdigit (b : byte) : bool := bool_decide (48 <= uchar b <= 57).
Definition isspace (b : byte) : bool :=
  bool_decide (uchar b = 32 \/ 9 <= uchar b <= 13).

(** The decimal digits of [n >= 0]. *)
Fixpoint dec_digits (fuel : nat) (n : Z) : bytes :=
  match fuel with
  | O => []
  | S f => if decide (n < 10) then [digit n] else dec_digits f (n / 10) ++ [digit (n mod 10)]
  end.

Definition dec_nat (n : Z) : bytes := dec_digits (S (Z.to_nat (Z.log2 n))) n.

(** [sprintf(str, "%d", n)] for an [int]. *)
Definition sprintf_d (n : Z) : bytes :=
  if decide (n < 0) then "-"%byte :: dec_nat (- n) else dec_nat n.

(** The longest prefix of digits, with the value it adds to [acc]. *)
Fixpoint read_digits (acc : Z) (l : bytes) : Z :=
  match l with
  | b :: l => if isdigit b then read_digits (acc * 10 + (uchar b - 48)) l else acc
  | [] => acc
  end.

Inductive scan := ScanNone | ScanInt (z : Z) | ScanOverflow.

Definition scan_unsigned (neg : bool) (l : bytes) : scan :=
  match l with
  | b :: _ =>
      if isdigit b then
        let v := read_digits 0 l in
        let v := if neg then - v else v in
        if decide (is_int v) then ScanInt v else ScanOverflow
      else ScanNone
  | [] => ScanNone
  end.

(** [sscanf(str, "%d", &n)]: white space, an optional sign, digits. *)
Fixpoint sscanf_d (l : bytes) : scan :=
  match l with
  | [] => ScanNone
  | b :: l' =>
      if isspace b then sscanf_d l'
      else if decide (b = "-"%byte) then scan_unsigned true l'
      else if decide (b = "+"%byte) then scan_unsigned false l'
      else scan_unsigned false l
  end.

(** * util.h *)

(** [str2int]: [n] has no initial value, so a string without a number yields
    an indeterminate result. *)
Definition str2int (str : bytes) : outcome Z :=
  match sscanf_d str with
  | ScanInt n => Ret n
  | ScanNone => Undef Indeterminate
  | ScanOverflow => Undef IntOverflow
  end.

(** [int2str]: through [char str[20]]. *)
Definition int2str (n : Z) : bytes := sprintf_d n.

Definition bool2str (n : bool) : bytes := if n then bs "yes" else bs "no".

(** The loop body of [split]: [ret[i] += *it] or [i++]. *)
Definition split_step (chr : byte) (st : gmap Z bytes * Z) (c : byte) : gmap Z bytes * Z :=
  let '(ret, i) := st in
  if decide (c ≠ chr)
  then let '(s, ret) := at_ [] ret (i32 i) in (<[i32 i := s ++ [c]]> ret, i)
  else (ret, u32 (i + 1)).

Definition split (content : bytes) (chr : byte) : gmap Z bytes :=
  (foldl (split_step chr) (∅, 0) content).1.

(** * util.cpp *)

(** [find_last_of("/")]: the offset of the last slash; [-1] is [npos]. *)
Fixpoint find_last_slash (i : Z) (l : bytes) (last : Z) : Z :=
  match l with
  | [] => last
  | b :: l => find_last_slash (i + 1) l (if decide (b = "/"%byte) then i else last)
  end.

Definition get_cwd (bin_path : bytes) : outcome bytes :=
  let position := i32 (find_last_slash 0 bin_path (-1)) in
  if decide (position = -1) then Exit EXIT_FAILURE
  else Ret (take (Z.to_nat position) bin_path ++ bs "/").

(** [get_second]; [tv_sec] is what [gettimeofday] stores. *)
Definition get_second (tv_sec : Z) : Z := i32 tv_sec.

(** * Decimal round trip *)

Lemma digit_isdigit d : 0 <= d < 10 → isdigit (digit d) = true.
Proof.
  intros H. unfold isdigit, digit. apply bool_decide_eq_true_2.
  rewrite uchar_to_char, Z.mod_small; lia.
Qed.

Lemma digit_value d : 0 <= d < 10 → uchar (digit d) - 48 = d.
Proof. intros H. unfold digit. rewrite uchar_to_char, Z.mod_small; lia. Qed.

Lemma dec_digits_isdigit fuel n : 0 <= n → Forall isdigit (dec_digits fuel n).
Proof.
  revert n. induction fuel as [|f IH]; intros n Hn; cbn [dec_digits]; [done|].
  case_decide as D.
  - constructor; [|done]. rewrite digit_isdigit by lia. done.
  - apply Forall_app. split.
    + apply IH. apply Z.div_pos; lia.
    + constructor; [|done].
      pose proof (Z.mod_pos_bound n 10 ltac:(lia)). rewrite digit_isdigit by lia. done.
Qed.

Lemma dec_digits_length fuel n k :
  0 <= n < 10 ^ Z.of_nat k → (0 < k)%nat → (length (dec_digits fuel n) <= k)%nat.
Proof.
  revert n k. induction fuel as [|f IH]; intros n k Hn Hk; cbn [dec_digits]; [cbn; lia|].
  case_decide as D; [cbn; lia|]. rewrite length_app; cbn [length].
  assert (k ≠ 1%nat) by (intros ->; lia).
  assert (length (dec_digits f (n / 10)) <= k - 1)%nat; [|lia].
  apply IH; [|lia]. split; [apply Z.div_pos; lia|].
  apply Z.div_lt_upper_bound; [lia|].
  rewrite <- Z.pow_succ_r by lia. replace (Z.succ (Z.of_nat (k - 1))) with (Z.of_nat k) by lia. lia.
Qed.

Lemma read_digits_app acc l rest :
  Forall isdigit l → read_digits acc (l ++ rest) = read_digits (read_digits acc l) rest.
Proof.
  intros H. revert acc. induction H as [|b l Hb _ IH]; intros acc; cbn; [done|].
  destruct (isdigit b); [apply IH|done].
Qed.

Lemma read_digits_dec fuel n :
  0 <= n < 10 ^ Z.of_nat fuel → read_digits 0 (dec_digits fuel n) = n.
Proof.
  revert n. induction fuel as [|f IH]; intros n Hn; cbn [dec_digits].
  { cbn. lia. }
  pose proof (Z.mod_pos_bound n 10 ltac:(lia)).
  case_decide as D.
  - cbn [read_digits]. rewrite digit_isdigit, digit_value by lia. lia.
  - rewrite read_digits_app by (apply dec_digits_isdigit, Z.div_pos; lia).
    rewrite IH.
    + cbn [read_digits]. rewrite digit_isdigit, digit_value by lia.
      pose proof (Z.div_mod n 10 ltac:(lia)). lia.
    + split; [apply Z.div_pos; lia|]. apply Z.div_lt_upper_bound; [lia|].
      rewrite <- Z.pow_succ_r by lia. rewrite <- Nat2Z.inj_succ. lia.
Qed.

Lemma dec_nat_fuel n : 0 <= n → n < 10 ^ Z.of_nat (S (Z.to_nat (Z.log2 n))).
Proof.
  intros Hn. destruct (decide (n = 0)) as [->|Hne]; [done|].
  pose proof (Z.log2_spec n ltac:(lia)) as [_ Hl].
  pose proof (Z.log2_nonneg n).
  rewrite Nat2Z.inj_succ, Z2Nat.id by lia.
  eapply Z.lt_le_trans; [apply Hl|]. apply Z.pow_le_mono_l. lia.
Qed.

Lemma dec_nat_isdigit n : 0 <= n → Forall isdigit (dec_nat n).
Proof. apply dec_digits_isdigit. Qed.

Lemma dec_nat_value n : 0 <= n → read_digits 0 (dec_nat n) = n.
Proof. intros H. apply read_digits_dec. split; [done|by apply dec_nat_fuel]. Qed.

Lemma dec_nat_cons n : ∃ b l, dec_nat n = b :: l.
Proof.
  unfold dec_nat. cbn [dec_digits]. case_decide; [eauto|].
  destruct (dec_digits _ (n / 10)); cbn; eauto.
Qed.

(** What follows a number on its right: nothing, or a non-digit. *)
Definition no_digit_head (rest : bytes) : Prop :=
  match rest with b :: _ => isdigit b = false | [] => True end.

Lemma read_digits_stop acc rest : no_digit_head rest → read_digits acc rest = acc.
Proof. destruct rest as [|b r]; cbn; [done|]. by intros ->. Qed.

Lemma scan_dec_nat neg n rest :
  0 <= n → is_int (if neg : bool then - n else n) → no_digit_head rest →
  scan_unsigned neg (dec_nat n ++ rest) = ScanInt (if neg then - n else n).
Proof.
  intros Hn Hi Hr. destruct (dec_nat_cons n) as (b & l & E).
  pose proof (dec_nat_isdigit n Hn) as Hd. unfold scan_unsigned.
  rewrite E at 1. cbn [app]. rewrite E in Hd. apply Forall_cons in Hd as [Hb _].
  destruct (isdigit b); [|done].
  rewrite read_digits_app by by apply dec_nat_isdigit.
  rewrite dec_nat_value, read_digits_stop by done. by rewrite decide_True.
Qed.

Lemma isdigit_not_special b :
  isdigit b → isspace b = false ∧ b ≠ "-"%byte ∧ b ≠ "+"%byte.
Proof.
  unfold isdigit, isspace. intros H%bool_decide_unpack. split_and!.
  - apply bool_decide_eq_false_2. lia.
  - intros ->. cbn in H. lia.
  - intros ->. cbn in H. lia.
Qed.

(** [sscanf("%d")] reads back what [sprintf("%d")] wrote, whatever non-digit follows. *)
Lemma sscanf_sprintf n rest :
  is_int n → no_digit_head rest → sscanf_d (sprintf_d n ++ rest) = ScanInt n.
Proof.
  intros Hn Hr. unfold sprintf_d. case_decide as D.
  - change (scan_unsigned true (dec_nat (- n) ++ rest) = ScanInt n).
    by rewrite scan_dec_nat; rewrite ?Z.opp_involutive; [|lia| |].
  - pose proof (scan_dec_nat false n rest ltac:(lia) Hn Hr) as H.
    destruct (dec_nat_cons n) as (b & l & E).
    pose proof (dec_nat_isdigit n ltac:(lia)) as Hd.
    rewrite E in Hd, H |- *. apply Forall_cons in Hd as [Hb _].
    apply isdigit_not_special in Hb as (H1 & H2 & H3).
    cbn [app sscanf_d]. rewrite H1. by rewrite !decide_False by done.
Qed.

(** [str2int] inverts [int2str] on every [int]. *)
Theorem str2int_int2str (n : Z) : is_int n → str2int (int2str n) = Ret n.
Proof.
  intros Hn. unfold str2int, int2str.
  pose proof (sscanf_sprintf n [] Hn I) as H. rewrite app_nil_r in H. by rewrite H.
Qed.

Lemma str2int_int2str_witness : is_int (-55669) ∧ str2int (int2str (-55669)) = Ret (-55669).
Proof. split; [done|]. apply (str2int_int2str (-55669)). done. Defined.

(** The text and its terminator fit [char str[20]]. *)
Lemma sprintf_d_length n : is_int n → (length (sprintf_d n) <= 11)%nat.
Proof.
  unfold is_int, INT_MIN, INT_MAX. intros Hn. unfold sprintf_d, dec_nat.
  case_decide; cbn [length]; [apply le_n_S|]; (etrans; [apply (dec_digits_length _ _ 10)|]; lia).
Qed.

(** * [split] *)

(** The fields of [content] between the separators, empty ones included. *)
Fixpoint fields (chr : byte) (content : bytes) : list bytes :=
  match content with
  | [] => [[]]
  | c :: rest =>
      if decide (c = chr) then [] :: fields chr rest
      else match fields chr rest with
           | f :: fs => (c :: f) :: fs
           | [] => [[c]]
           end
  end.

Definition nonempty_field (f : option bytes) : option bytes :=
  match f with Some (c :: f) => Some (c :: f) | _ => None end.

Lemma fields_cons chr l : ∃ f fs, fields chr l = f :: fs.
Proof.
  destruct l as [|c l]; cbn; [eauto|]. case_decide; [eauto|].
  destruct (fields chr l); eauto.
Qed.

Lemma fields_sep chr l : fields chr (chr :: l) = [] :: fields chr l.
Proof. cbn. by rewrite decide_True. Qed.

Lemma fields_char chr c l f fs :
  c ≠ chr → fields chr l = f :: fs → fields chr (c :: l) = (c :: f) :: fs.
Proof. intros Hc E. cbn. by rewrite decide_False, E. Qed.

Lemma split_step_char chr (ret : gmap Z bytes) i c :
  is_int i → c ≠ chr →
  split_step chr (ret, i) c = (<[i := default [] (ret !! i) ++ [c]]> ret, i).
Proof.
  intros Hi Hc. unfold split_step. rewrite decide_True, i32_small by done.
  unfold at_. destruct (ret !! i) eqn:E; cbn; [done|]. by rewrite insert_insert_eq.
Qed.

Lemma split_step_sep chr (ret : gmap Z bytes) i :
  0 <= i < 2 ^ 32 - 1 → split_step chr (ret, i) chr = (ret, i + 1).
Proof.
  intros Hi. unfold split_step. rewrite decide_False by naive_solver.
  by rewrite u32_small by lia.
Qed.

Lemma split_loop_lookup chr content (ret : gmap Z bytes) i :
  0 <= i → i + Z.of_nat (length content) < 2 ^ 31 →
  (∀ j, i < j → ret !! j = None) → ret !! i ≠ Some [] →
  ∀ j, (foldl (split_step chr) (ret, i) content).1 !! j =
       if decide (j < i) then ret !! j
       else nonempty_field (
         if decide (j = i)
         then Some (default [] (ret !! i) ++ default [] (fields chr content !! 0%nat))
         else fields chr content !! Z.to_nat (j - i)).
Proof.
  revert ret i. induction content as [|c l IH]; intros ret i Hi Hlen Hnone Hne j.
  - cbn. destruct (decide (j < i)); [done|]. destruct (decide (j = i)) as [->|].
    + destruct (ret !! i) as [[|]|]; [done|by cbn; rewrite app_nil_r|done].
    + rewrite Hnone by lia. destruct (Z.to_nat (j - i)) eqn:E; [lia|done].
  - cbn [foldl length] in *. destruct (fields_cons chr l) as (f & fs & Ef).
    destruct (decide (c = chr)) as [->|Hc].
    + rewrite split_step_sep by lia.
      rewrite IH; [|lia|lia|intros; apply Hnone; lia|by rewrite Hnone by lia].
      rewrite fields_sep.
      destruct (decide (j < i)); [by rewrite decide_True by lia|].
      destruct (decide (j = i)) as [->|].
      * rewrite decide_True by lia. cbn. rewrite app_nil_r.
        destruct (ret !! i) as [[|]|]; done.
      * rewrite decide_False by lia.
        replace (Z.to_nat (j - i)) with (S (Z.to_nat (j - (i + 1)))) by lia. cbn.
        destruct (decide (j = i + 1)) as [->|].
        -- rewrite Hnone by lia. rewrite Z.sub_diag, Ef. done.
        -- done.
    + rewrite split_step_char; [|unfold is_int, INT_MIN, INT_MAX; lia|done].
      rewrite (fields_char _ _ _ _ _ Hc Ef).
      rewrite IH; [|lia|lia| |].
      * destruct (decide (j < i)); [by rewrite lookup_insert_ne by lia|].
        destruct (decide (j = i)) as [->|].
        -- rewrite lookup_insert_eq, Ef. cbn. by rewrite <- app_assoc.
        -- rewrite Ef. destruct (Z.to_nat (j - i)) eqn:E; [lia|done].
      * intros j' Hj'. rewrite lookup_insert_ne by lia. by apply Hnone.
      * rewrite lookup_insert_eq. by destruct (default [] (ret !! i)).
Qed.

(** [split] maps index [j] to the [j]-th field of the text, and skips the
    fields that are empty. *)
Theorem split_fields (content : bytes) (chr : byte) (j : Z) :
  Z.of_nat (length content) < 2 ^ 31 → 0 <= j →
  split content chr !! j = nonempty_field (fields chr content !! Z.to_nat j).
Proof.
  intros Hlen Hj. unfold split.
  rewrite split_loop_lookup by (lia || done).
  rewrite decide_False by lia. destruct (decide (j = 0)) as [->|].
  - destruct (fields_cons chr content) as (f & fs & ->). done.
  - by rewrite Z.sub_0_r.
Qed.

Lemma split_fields_witness :
  split (bs "127.0.0.1:11211") ":" !! 1 = Some (bs "11211").
Proof. rewrite (split_fields (bs "127.0.0.1:11211") ":" 1); done. Defined.

(** * [get_cwd] *)

Lemma find_last_slash_app i dir base last :
  "/"%byte ∉ base →
  find_last_slash i (dir ++ "/"%byte :: base) last = i + Z.of_nat (length dir).
Proof.
  intros Hb.
  assert (∀ i last, find_last_slash i base last = last) as Hnone.
  { induction base as [|b base IH]; intros; cbn; [done|].
    apply not_elem_of_cons in Hb as [? Hb]. rewrite decide_False by done. by apply IH. }
  revert i last. induction dir as [|d dir IH]; intros i last; cbn [app find_last_slash length].
  - rewrite decide_True by done. rewrite Hnone. cbn. lia.
  - rewrite IH. lia.
Qed.

Lemma find_last_slash_none i path last :
  "/"%byte ∉ path → find_last_slash i path last = last.
Proof.
  revert i. induction path as [|b path IH]; intros i Hb; cbn; [done|].
  apply not_elem_of_cons in Hb as [? Hb]. rewrite decide_False by done. by apply IH.
Qed.

(** [get_cwd] returns everything up to and including the last slash, and
    exits with failure on a path without one. *)
Theorem get_cwd_spec (dir base : bytes) :
  "/"%byte ∉ base → Z.of_nat (length dir) < 2 ^ 31 →
  get_cwd (dir ++ "/"%byte :: base) = Ret (dir ++ bs "/") ∧ get_cwd base = Exit EXIT_FAILURE.
Proof.
  intros Hb Hlen. unfold get_cwd. split.
  - rewrite find_last_slash_app by done. rewrite i32_small by (unfold is_int, INT_MIN, INT_MAX; lia).
    rewrite decide_False by lia. rewrite Z.add_0_l, Nat2Z.id. by rewrite take_app_length.
  - by rewrite find_last_slash_none.
Qed.

Lemma get_cwd_spec_witness :
  get_cwd (bs "./bin/kvproxy") = Ret (bs "./bin/") ∧ get_cwd (bs "kvproxy") = Exit EXIT_FAILURE.
Proof. apply (get_cwd_spec (bs "./bin") (bs "kvproxy")); [set_solver|done]. Defined.

#[export] Hint Resolve sscanf_sprintf : kv.
