(* ===== verification/Crc32.v ===== *)
(** [crc32] of [src/hash.cpp]: the table-driven checksum that places hosts and
    keys on the ring.

    The table and the loop are the source's.  [crc_ref] is the checksum's
    bitwise definition (reflected polynomial [0xedb88320], no table), and
    [crc32_bitwise] proves that the table-driven code computes it. *)
From S2P Require Import Prelude.

(** * The code *)

Definition crc32_table : list Z := [
   0x00000000; 0x77073096; 0xee0e612c; 0x990951ba; 0x076dc419; 0x706af48f;
   0xe963a535; 0x9e6495a3; 0x0edb8832; 0x79dcb8a4; 0xe0d5e91e; 0x97d2d988;
   0x09b64c2b; 0x7eb17cbd; 0xe7b82d07; 0x90bf1d91; 0x1db71064; 0x6ab020f2;
   0xf3b97148; 0x84be41de; 0x1adad47d; 0x6ddde4eb; 0xf4d4b551; 0x83d385c7;
   0x136c9856; 0x646ba8c0; 0xfd62f97a; 0x8a65c9ec; 0x14015c4f; 0x63066cd9;
   0xfa0f3d63; 0x8d080df5; 0x3b6e20c8; 0x4c69105e; 0xd56041e4; 0xa2677172;
   0x3c03e4d1; 0x4b04d447; 0xd20d85fd; 0xa50ab56b; 0x35b5a8fa; 0x42b2986c;
   0xdbbbc9d6; 0xacbcf940; 0x32d86ce3; 0x45df5c75; 0xdcd60dcf; 0xabd13d59;
   0x26d930ac; 0x51de003a; 0xc8d75180; 0xbfd06116; 0x21b4f4b5; 0x56b3c423;
   0xcfba9599; 0xb8bda50f; 0x2802b89e; 0x5f058808; 0xc60cd9b2; 0xb10be924;
   0x2f6f7c87; 0x58684c11; 0xc1611dab; 0xb6662d3d; 0x76dc4190; 0x01db7106;
   0x98d220bc; 0xefd5102a; 0x71b18589; 0x06b6b51f; 0x9fbfe4a5; 0xe8b8d433;
   0x7807c9a2; 0x0f00f934; 0x9609a88e; 0xe10e9818; 0x7f6a0dbb; 0x086d3d2d;
   0x91646c97; 0xe6635c01; 0x6b6b51f4; 0x1c6c6162; 0x856530d8; 0xf262004e;
   0x6c0695ed; 0x1b01a57b; 0x8208f4c1; 0xf50fc457; 0x65b0d9c6; 0x12b7e950;
   0x8bbeb8ea; 0xfcb9887c; 0x62dd1ddf; 0x15da2d49; 0x8cd37cf3; 0xfbd44c65;
   0x4db26158; 0x3ab551ce; 0xa3bc0074; 0xd4bb30e2; 0x4adfa541; 0x3dd895d7;
   0xa4d1c46d; 0xd3d6f4fb; 0x4369e96a; 0x346ed9fc; 0xad678846; 0xda60b8d0;
   0x44042d73; 0x33031de5; 0xaa0a4c5f; 0xdd0d7cc9; 0x5005713c; 0x270241aa;
   0xbe0b1010; 0xc90c2086; 0x5768b525; 0x206f85b3; 0xb966d409; 0xce61e49f;
   0x5edef90e; 0x29d9c998; 0xb0d09822; 0xc7d7a8b4; 0x59b33d17; 0x2eb40d81;
   0xb7bd5c3b; 0xc0ba6cad; 0xedb88320; 0x9abfb3b6; 0x03b6e20c; 0x74b1d29a;
   0xead54739; 0x9dd277af; 0x04db2615; 0x73dc1683; 0xe3630b12; 0x94643b84;
   0x0d6d6a3e; 0x7a6a5aa8; 0xe40ecf0b; 0x9309ff9d; 0x0a00ae27; 0x7d079eb1;
   0xf00f9344; 0x8708a3d2; 0x1e01f268; 0x6906c2fe; 0xf762575d; 0x806567cb;
   0x196c3671; 0x6e6b06e7; 0xfed41b76; 0x89d32be0; 0x10da7a5a; 0x67dd4acc;
   0xf9b9df6f; 0x8ebeeff9; 0x17b7be43; 0x60b08ed5; 0xd6d6a3e8; 0xa1d1937e;
   0x38d8c2c4; 0x4fdff252; 0xd1bb67f1; 0xa6bc5767; 0x3fb506dd; 0x48b2364b;
   0xd80d2bda; 0xaf0a1b4c; 0x36034af6; 0x41047a60; 0xdf60efc3; 0xa867df55;
   0x316e8eef; 0x4669be79; 0xcb61b38c; 0xbc66831a; 0x256fd2a0; 0x5268e236;
   0xcc0c7795; 0xbb0b4703; 0x220216b9; 0x5505262f; 0xc5ba3bbe; 0xb2bd0b28;
   0x2bb45a92; 0x5cb36a04; 0xc2d7ffa7; 0xb5d0cf31; 0x2cd99e8b; 0x5bdeae1d;
   0x9b64c2b0; 0xec63f226; 0x756aa39c; 0x026d930a; 0x9c0906a9; 0xeb0e363f;
   0x72076785; 0x05005713; 0x95bf4a82; 0xe2b87a14; 0x7bb12bae; 0x0cb61b38;
   0x92d28e9b; 0xe5d5be0d; 0x7cdcefb7; 0x0bdbdf21; 0x86d3d2d4; 0xf1d4e242;
   0x68ddb3f8; 0x1fda836e; 0x81be16cd; 0xf6b9265b; 0x6fb077e1; 0x18b74777;
   0x88085ae6; 0xff0f6a70; 0x66063bca; 0x11010b5c; 0x8f659eff; 0xf862ae69;
   0x616bffd3; 0x166ccf45; 0xa00ae278; 0xd70dd2ee; 0x4e048354; 0x3903b3c2;
   0xa7672661; 0xd06016f7; 0x4969474d; 0x3e6e77db; 0xaed16a4a; 0xd9d65adc;
   0x40df0b66; 0x37d83bf0; 0xa9bcae53; 0xdebb9ec5; 0x47b2cf7f; 0x30b5ffe9;
   0xbdbdf21c; 0xcabac28a; 0x53b39330; 0x24b4a3a6; 0xbad03605; 0xcdd70693;
   0x54de5729; 0x23d967bf; 0xb3667a2e; 0xc4614ab8; 0x5d681b02; 0x2a6f2b94;
   0xb40bbe37; 0xc30c8ea1; 0x5a05df1b; 0x2d02ef8d
].

(** [crc32_table[i]]; the index is masked to eight bits, so it is in range. *)
Definition crc32_entry (i : Z) : outcome Z :=
  match crc32_table !! Z.to_nat i with
  | Some v => Ret v
  | None => Undef OutOfBounds
  end.

(** One turn of [while (len--)].  [*buf++] is a signed [char], so the value
    xored into [crc] is sign-extended; [& 0xff] removes the extension. *)
Definition crc32_step (crc : Z) (c : byte) : outcome Z :=
  t ← crc32_entry (Z.land (Z.lxor crc (u32 (schar c))) 0xff);
  Ret (Z.lxor (Z.shiftr crc 8) t).

Fixpoint crc32_loop (crc : Z) (buf : bytes) (len : nat) {struct len} : outcome Z :=
  match len with
  | O => Ret crc
  | S len =>
      match buf with
      | c :: buf => crc ← crc32_step crc c; crc32_loop crc buf len
      | [] => Undef OutOfBounds
      end
  end.

(** [crc32(crc, buf, len)]; [None] is a null [buf]. *)
Definition crc32 (crc : Z) (buf : option bytes) (len : Z) : outcome Z :=
  match buf with
  | None => Ret crc
  | Some buf =>
      crc ← crc32_loop (Z.lxor crc 0xffffffff) buf (Z.to_nat (u32 len));
      Ret (Z.lxor crc 0xffffffff)
  end.

(** * The checksum, bit by bit *)

Definition crc_poly : Z := 0xedb88320.

Definition crc_bit (c : Z) : Z :=
  Z.lxor (Z.shiftr c 1) (if Z.odd c then crc_poly else 0).

Definition crc_byte (c : Z) : Z := Nat.iter 8 crc_bit c.

(** The checksum of [l] from register [c]. *)
Definition crc_ref (c : Z) (l : bytes) : Z :=
  foldl (λ c b, crc_byte (Z.lxor c (uchar b))) c l.

Definition crc32_spec (l : bytes) : Z := Z.lxor (crc_ref 0xffffffff l) 0xffffffff.

(** * Proofs *)

Lemma crc_bit_lxor x y : crc_bit (Z.lxor x y) = Z.lxor (crc_bit x) (crc_bit y).
Proof.
  unfold crc_bit. rewrite Z.shiftr_lxor, <- !Z.bit0_odd, Z.lxor_spec.
  apply Z.bits_inj'. intros n Hn. rewrite !Z.lxor_spec.
  destruct (Z.testbit x 0), (Z.testbit y 0); cbn [xorb];
    rewrite ?Z.bits_0; destruct (Z.testbit (x ≫ 1) n), (Z.testbit (y ≫ 1) n),
    (Z.testbit crc_poly n); done.
Qed.

Lemma crc_iter_lxor k x y :
  Nat.iter k crc_bit (Z.lxor x y) = Z.lxor (Nat.iter k crc_bit x) (Nat.iter k crc_bit y).
Proof. induction k as [|k IH]; [done|]. by rewrite !Nat.iter_succ, IH, crc_bit_lxor. Qed.

Lemma crc_iter_shift k x :
  Nat.iter k crc_bit (Z.shiftl x (Z.of_nat k)) = x.
Proof.
  revert x. induction k as [|k IH]; intros x; [apply Z.shiftl_0_r|].
  rewrite Nat.iter_succ_r.
  replace (crc_bit (x ≪ Z.of_nat (S k))) with (x ≪ Z.of_nat k); [apply IH|].
  unfold crc_bit. rewrite <- Z.bit0_odd, Z.shiftl_spec_low by lia.
  rewrite Z.lxor_0_r, Z.shiftr_shiftl_l by lia. f_equal. lia.
Qed.

(** Every table entry is the checksum register of its index. *)
Lemma crc32_entry_byte i : 0 <= i < 256 → crc32_entry i = Ret (crc_byte i).
Proof.
  intros Hi.
  assert (∀ n, (n < 256)%nat → crc32_table !! n = Some (crc_byte (Z.of_nat n))) as H.
  { assert (crc32_table = (λ n, crc_byte (Z.of_nat n)) <$> seq 0 256) as -> by by vm_compute.
    intros n Hn. by rewrite list_lookup_fmap, lookup_seq_lt by lia. }
  unfold crc32_entry. rewrite H by lia. by rewrite Z2Nat.id by lia.
Qed.

Lemma land_255 x : Z.land x 255 = x mod 256.
Proof. change 255 with (Z.ones 8). by rewrite Z.land_ones by lia. Qed.

(** Sign extension does not reach the low eight bits. *)
Lemma schar_low c x : Z.land (Z.lxor x (u32 (schar c))) 255 = Z.land (Z.lxor x (uchar c)) 255.
Proof.
  assert (u32 (schar c) mod 256 = uchar c) as E.
  { unfold u32. pose proof (uchar_range c) as Hc.
    change (2 ^ 32) with (256 * 2 ^ 24). rewrite Z.rem_mul_r by lia.
    rewrite Z.mul_comm, Z_mod_plus_full, Z.mod_mod by lia.
    unfold schar. case_decide; [by rewrite Z.mod_small|].
    replace (uchar c - 256) with (uchar c + (-1) * 256) by lia.
    rewrite Z_mod_plus_full. by rewrite Z.mod_small. }
  pose proof (uchar_range c) as Hc.
  apply Z.bits_inj'. intros n Hn. rewrite !Z.land_spec, !Z.lxor_spec.
  destruct (decide (n < 8)) as [Hlt|Hge].
  - rewrite <- E. change 256 with (2 ^ 8). by rewrite Z.mod_pow2_bits_low by lia.
  - change 255 with (Z.ones 8). rewrite Z.ones_spec_high by lia. by rewrite !andb_false_r.
Qed.

Lemma lxor_split x c :
  0 <= x → Z.lxor x (uchar c) =
  Z.lxor (Z.land (Z.lxor x (uchar c)) 255) (Z.shiftl (Z.shiftr x 8) 8).
Proof.
  intros Hx. pose proof (uchar_range c) as Hc.
  apply Z.bits_inj'. intros n Hn. rewrite !Z.lxor_spec, Z.land_spec, Z.lxor_spec.
  change 255 with (Z.ones 8). destruct (decide (n < 8)).
  - rewrite Z.ones_spec_low, Z.shiftl_spec_low by lia. by rewrite andb_true_r, xorb_false_r.
  - rewrite Z.ones_spec_high, Z.shiftl_spec, Z.shiftr_spec by lia.
    replace (n - 8 + 8) with n by lia.
    assert (Z.testbit (uchar c) n = false) as ->.
    { apply Z.bits_above_log2; [lia|]. destruct (decide (uchar c = 0)) as [->|]; [cbn; lia|].
      apply Z.log2_lt_pow2; [lia|]. eapply Z.lt_le_trans with (2 ^ 8); [lia|].
      apply Z.pow_le_mono_r; lia. }
    by rewrite andb_false_r, xorb_false_r, xorb_false_l.
Qed.

Lemma crc32_step_ref crc c :
  0 <= crc → crc32_step crc c = Ret (crc_byte (Z.lxor crc (uchar c))).
Proof.
  intros Hcrc. unfold crc32_step. rewrite schar_low.
  rewrite crc32_entry_byte by (rewrite land_255; apply Z.mod_pos_bound; lia).
  cbn [mbind outcome_bind]. f_equal. rewrite (lxor_split crc c) at 2 by done. unfold crc_byte.
  rewrite crc_iter_lxor. change 8 with (Z.of_nat 8) at 3.
  by rewrite crc_iter_shift, Z.lxor_comm.
Qed.

Lemma crc_bit_range c : 0 <= c < 2 ^ 32 → 0 <= crc_bit c < 2 ^ 32.
Proof.
  intros Hc. unfold crc_bit. apply lxor_range; [lia| |].
  - rewrite Z.shiftr_div_pow2 by lia. split; [apply Z.div_pos; lia|].
    apply Z.div_lt_upper_bound; lia.
  - unfold crc_poly. destruct (Z.odd c); lia.
Qed.

Lemma crc_byte_range c : 0 <= c < 2 ^ 32 → 0 <= crc_byte c < 2 ^ 32.
Proof. intros Hc. unfold crc_byte. apply Nat.iter_invariant; auto using crc_bit_range. Qed.

Lemma crc_step_range c b : 0 <= c < 2 ^ 32 → 0 <= crc_byte (Z.lxor c (uchar b)) < 2 ^ 32.
Proof.
  intros Hc. apply crc_byte_range, lxor_range; [lia|done|]. pose proof (uchar_range b). lia.
Qed.

Lemma crc_ref_range c l : 0 <= c < 2 ^ 32 → 0 <= crc_ref c l < 2 ^ 32.
Proof.
  revert c. induction l as [|b l IH]; intros c Hc; [done|].
  change (crc_ref c (b :: l)) with (crc_ref (crc_byte (Z.lxor c (uchar b))) l).
  by apply IH, crc_step_range.
Qed.

Lemma crc32_loop_ref crc l rest :
  0 <= crc < 2 ^ 32 → crc32_loop crc (l ++ rest) (length l) = Ret (crc_ref crc l).
Proof.
  revert crc. induction l as [|b l IH]; intros crc Hc; [done|].
  cbn [app length crc32_loop]. rewrite crc32_step_ref by lia. cbn [mbind outcome_bind].
  by rewrite IH by by apply crc_step_range.
Qed.

Lemma crc_init_range crc : 0 <= crc < 2 ^ 32 → 0 <= Z.lxor crc 0xffffffff < 2 ^ 32.
Proof. intros. apply lxor_range; lia. Qed.

Lemma crc32_ref_eq (crc : Z) (l rest : bytes) :
  0 <= crc < 2 ^ 32 → Z.of_nat (length l) < 2 ^ 32 →
  crc32 crc (Some (l ++ rest)) (Z.of_nat (length l))
    = Ret (Z.lxor (crc_ref (Z.lxor crc 0xffffffff) l) 0xffffffff).
Proof.
  intros Hc Hl. unfold crc32. rewrite u32_small, Nat2Z.id by lia.
  by rewrite crc32_loop_ref by by apply crc_init_range.
Qed.

Lemma crc32_nil_eq crc l :
  0 <= crc < 2 ^ 32 → Z.of_nat (length l) < 2 ^ 32 →
  crc32 crc (Some l) (Z.of_nat (length l))
    = Ret (Z.lxor (crc_ref (Z.lxor crc 0xffffffff) l) 0xffffffff).
Proof. intros. rewrite <- (app_nil_r l) at 1. by apply crc32_ref_eq. Qed.

(** C33: the table-driven [crc32] computes the bitwise checksum of the [len] bytes
    it is given (whatever follows them in memory), is total on them, and stays in
    32 bits; the sign of [char] does not matter. *)
Theorem crc32_bitwise (crc : Z) (l rest : bytes) :
  0 <= crc < 2 ^ 32 → Z.of_nat (length l) < 2 ^ 32 →
  crc32 crc (Some (l ++ rest)) (Z.of_nat (length l))
    = Ret (Z.lxor (crc_ref (Z.lxor crc 0xffffffff) l) 0xffffffff)
  ∧ 0 <= Z.lxor (crc_ref (Z.lxor crc 0xffffffff) l) 0xffffffff < 2 ^ 32.
Proof.
  intros Hc Hl. split.
  - by apply crc32_ref_eq.
  - by apply crc_init_range, crc_ref_range, crc_init_range.
Qed.

Lemma crc32_bitwise_witness :
  crc32 0 (Some (bs "123456789" ++ [x00])) 9 = Ret 0xcbf43926.
Proof.
  etrans; [apply (crc32_bitwise 0 (bs "123456789") [x00]); [lia|done]|].
  vm_compute. reflexivity.
Defined.

Lemma crc32_range crc buf len v :
  0 <= crc < 2 ^ 32 → crc32 crc buf len = Ret v → 0 <= v < 2 ^ 32.
Proof.
  intros Hc. unfold crc32. destruct buf as [buf|]; [|by intros [= <-]].
  intros (r & Hr & [= <-])%bind_Ret_inv. apply crc_init_range.
  pose proof (crc_init_range crc Hc) as Hi. clear Hc. revert Hr Hi.
  generalize (Z.lxor crc 0xffffffff) as c, (Z.to_nat (u32 len)) as n. intros c n.
  revert c buf. induction n as [|n IH]; intros c buf Hr Hi; cbn in Hr; [by simplify_eq|].
  destruct buf as [|b buf]; [done|]. rewrite crc32_step_ref in Hr by lia.
  apply IH in Hr; [done|by apply crc_step_range].
Qed.

(** Checksumming a message in two pieces, passing the first result on, gives the
    checksum of the whole message. *)
Theorem crc32_chain (crc mid : Z) (l1 l2 : bytes) :
  0 <= crc < 2 ^ 32 → Z.of_nat (length (l1 ++ l2)) < 2 ^ 32 →
  crc32 crc (Some l1) (Z.of_nat (length l1)) = Ret mid →
  crc32 mid (Some l2) (Z.of_nat (length l2)) =
  crc32 crc (Some (l1 ++ l2)) (Z.of_nat (length (l1 ++ l2))).
Proof.
  intros Hc Hl Hmid. rewrite length_app in Hl.
  pose proof (crc32_range _ _ _ _ Hc Hmid) as Hm.
  rewrite crc32_nil_eq in Hmid by (done || lia).
  rewrite !crc32_nil_eq by (rewrite ?length_app; done || lia). simplify_eq.
  unfold crc_ref. rewrite foldl_app, Z.lxor_assoc, Z.lxor_nilpotent, Z.lxor_0_r. done.
Qed.

Lemma crc32_chain_witness :
  crc32 0xcbf43926 (Some (bs "abc")) 3 = crc32 0 (Some (bs "123456789abc")) 12.
Proof.
  apply (crc32_chain 0 0xcbf43926 (bs "123456789") (bs "abc")); [lia|cbn; lia|].
  vm_compute. reflexivity.
Defined.
