(* ===== verification/Hash.v ===== *)
(** [ConsistentHash] of [src/hash.h], [src/hash.cpp]: the hash ring.

    The ring maps a point (the crc32 of "index-i") to a host and its alias.
    [find] is the next point clockwise from the key's checksum.  The theorems say
    that it is the nearest one, what [setHosts] and [addHost] make of the ring, that
    adding a host moves keys only onto that host, and that [delHost], which advances
    the iterator of the element it erased, is undefined whenever it erases one. *)
From S2P Require Import Prelude StdMap Util Crc32.

(** * Data *)

(** A host on the ring: "host:port" and its alias index. *)
Abbreviation mapped_type := (bytes * Z)%type.
Abbreviation hash_type := (gmap Z (bytes * Z)).

(** [_lock] is true while another thread holds the mutex. *)
Record ConsistentHash := {
  _hash : hash_type;
  _hash_tmp : hash_type;
  _lock : bool
}.

Definition hash_new : ConsistentHash := {| _hash := ∅; _hash_tmp := ∅; _lock := false |}.

(** * Operations *)

(** [sprintf(str_key, "%d-%d", index, i)] into [char str_key[20]]. *)
Definition vnode_label (index i : Z) : bytes :=
  sprintf_d (i32 index) ++ bs "-" ++ sprintf_d (i32 i).

Definition vnode_key (index i : Z) : outcome Z :=
  let str_key := vnode_label index i in
  if decide (length str_key < 20)%nat
  then crc32 0 (Some str_key) (Z.of_nat (length str_key))
  else Undef OutOfBounds.

(** [for (i = 0; i < weight; i++)], from [i], with [n] turns left. *)
Fixpoint vnodes_loop (n : nat) (i index : Z) (v : mapped_type) (h : hash_type) : outcome hash_type :=
  match n with
  | O => Ret h
  | S n => k ← vnode_key index i; vnodes_loop n (i + 1) index v (<[k := v]> h)
  end.

Fixpoint hosts_loop (l : list ((bytes * Z) * (Z * Z))) (h : hash_type) : outcome hash_type :=
  match l with
  | [] => Ret h
  | (host, (index, weight)) :: l =>
      h ← vnodes_loop (Z.to_nat weight) 0 index host h; hosts_loop l h
  end.

Definition createVNodes (this : ConsistentHash) (hosts : gmap (bytes * Z) (Z * Z))
    : outcome (bool * ConsistentHash) :=
  if _lock this then Ret (false, this)
  else
    tmp ← hosts_loop (elems hosts) (_hash this);
    Ret (true, {| _hash := tmp; _hash_tmp := _hash this; _lock := false |}).

Definition setHosts (this : ConsistentHash) (hosts : gmap (bytes * Z) (Z * Z)) (force : bool)
    : outcome ConsistentHash :=
  if decide (_hash this = ∅ ∨ force = true)
  then r ← createVNodes this hosts; Ret r.2
  else Ret this.

(** [it++] follows the [erase(it)] that made [it] invalid: its use is undefined. *)
Fixpoint del_loop (alias_index : Z) (l : list (Z * mapped_type)) (h : hash_type)
    : outcome hash_type :=
  match l with
  | [] => Ret h
  | (k, v) :: l =>
      if decide (v.2 = alias_index)
      then Undef StaleIterator
      else del_loop alias_index l h
  end.

Definition delHost (this : ConsistentHash) (alias_index : Z)
    : outcome (bool * ConsistentHash) :=
  if _lock this then Ret (false, this)
  else
    tmp ← del_loop alias_index (elems (_hash this)) (_hash this);
    Ret (true, {| _hash := tmp; _hash_tmp := _hash this; _lock := false |}).

Definition addHost (this : ConsistentHash) (host_port : bytes) (alias_index index weight : Z)
    : outcome (bool * ConsistentHash) :=
  createVNodes this {[ (host_port, alias_index) := (index, weight) ]}.

(** The host of checksum [k] on a ring: [lower_bound], or [begin()] past the end. *)
Definition ring_find (h : hash_type) (k : Z) : option mapped_type :=
  snd <$> match lower_bound h k with
          | Some e => Some e
          | None => begin_ h
          end.

(** Both overloads of [find]: the [string] one passes [key.size()]. *)
Definition find (this : ConsistentHash) (key : bytes) (key_len : Z) : outcome mapped_type :=
  k ← crc32 0 (Some key) key_len;
  Ret (default (bs "no_found", 0) (ring_find (_hash this) k)).

Definition getAll (this : ConsistentHash) : hash_type := _hash this.
Definition getSize (this : ConsistentHash) : Z := u32 (Z.of_nat (size (_hash this))).

(** * Specification *)

(** Points are 32-bit. *)
Definition ring_ok (h : hash_type) : Prop := ∀ p v, h !! p = Some v → 0 <= p < 2 ^ 32.

(** The clockwise distance from [k] to the point [p]. *)
Definition cw (k p : Z) : Z := (p - k) mod 2 ^ 32.

(** [p] is the point that serves [k]: on the ring, nothing closer clockwise. *)
Definition serves (h : hash_type) (k p : Z) : Prop :=
  is_Some (h !! p) ∧ ∀ q, is_Some (h !! q) → cw k p <= cw k q.

(** The point of virtual node [i] of host [index], and all points of a host. *)
Definition vnode_point (index i : Z) : Z := crc32_spec (vnode_label index i).
Fixpoint points_from (n : nat) (i index : Z) : list Z :=
  match n with
  | O => []
  | S n => vnode_point index i :: points_from n (i + 1) index
  end.
Definition points (index weight : Z) : list Z := points_from (Z.to_nat weight) 0 index.

(** Configuration values whose labels fit the 20-byte buffer. *)
Definition host_cfg_ok (index weight : Z) : Prop := 0 <= index < 10 ^ 9 ∧ 0 <= weight <= 10 ^ 9.

(** * Lemmas: [find] *)

Lemma cw_lt_wrap k p : 0 <= k < 2 ^ 32 → 0 <= p < 2 ^ 32 →
  cw k p = if decide (k <= p) then p - k else p - k + 2 ^ 32.
Proof.
  intros Hk Hp. unfold cw. case_decide.
  - apply Z.mod_small. lia.
  - rewrite <- (Z_mod_plus_full (p - k) 1). apply Z.mod_small. lia.
Qed.

Lemma cw_inj k p q :
  0 <= k < 2 ^ 32 → 0 <= p < 2 ^ 32 → 0 <= q < 2 ^ 32 → cw k p = cw k q → p = q.
Proof.
  intros Hk Hp Hq. rewrite !cw_lt_wrap by done. repeat case_decide; lia.
Qed.

Lemma kle_Z (x y : Z) : kle x y ↔ x <= y.
Proof. unfold kle, Z.le. done. Qed.

Lemma klt_Z (x y : Z) : klt x y ↔ x < y.
Proof. unfold klt, Z.lt. done. Qed.

Lemma serves_unique h k p q :
  ring_ok h → 0 <= k < 2 ^ 32 → serves h k p → serves h k q → p = q.
Proof.
  intros Hok Hk [[v Hp] Hpm] [[w Hq] Hqm].
  apply (cw_inj k); [done|by eapply Hok..|].
  specialize (Hpm q ltac:(by exists w)). specialize (Hqm p ltac:(by exists v)). lia.
Qed.

(** [ring_find] returns the host at the point that serves the checksum. *)
Lemma ring_find_serves h k v :
  ring_ok h → 0 <= k < 2 ^ 32 →
  ring_find h k = Some v ↔ ∃ p, h !! p = Some v ∧ serves h k p.
Proof.
  intros Hok Hk.
  assert (∀ w, ring_find h k = Some w → ∃ p, h !! p = Some w ∧ serves h k p) as Hfind.
  { intros w. unfold ring_find. intros ([p w'] & Hl & ->)%fmap_Some. cbn.
    destruct (lower_bound h k) as [[p' v']|] eqn:E; simplify_eq.
    - apply lower_bound_Some in E as (Hp & Hle & Hmin). rewrite kle_Z in Hle.
      exists p. split; [done|]. split; [by eexists|]. intros q [u Hq].
      rewrite !cw_lt_wrap by (done || by eapply Hok).
      pose proof (Hok _ _ Hp). pose proof (Hok _ _ Hq).
      rewrite decide_True by done. case_decide as Hkq; [|lia].
      specialize (Hmin q). rewrite !kle_Z in Hmin. specialize (Hmin ltac:(by eexists) Hkq). lia.
    - apply begin_Some in Hl as (Hp & Hmin). rewrite lower_bound_None in E.
      exists p. split; [done|]. split; [by eexists|]. intros q [u Hq].
      pose proof (E q ltac:(by eexists)) as Hqk. rewrite klt_Z in Hqk.
      pose proof (E p ltac:(by eexists)) as Hpk. rewrite klt_Z in Hpk.
      specialize (Hmin q ltac:(by eexists)). rewrite kle_Z in Hmin.
      rewrite !cw_lt_wrap by (done || by eapply Hok). rewrite !decide_False by lia. lia. }
  split; [apply Hfind|]. intros (p & Hp & Hs).
  destruct (ring_find h k) as [w|] eqn:E.
  - destruct (Hfind w eq_refl) as (q & Hq & Hs').
    assert (p = q) as -> by by eapply serves_unique. congruence.
  - exfalso. unfold ring_find in E. apply fmap_None in E.
    destruct (lower_bound h k); [done|]. apply begin_None in E as ->. by rewrite lookup_empty in Hp.
Qed.

Lemma ring_find_None h k : ring_find h k = None ↔ h = ∅.
Proof.
  unfold ring_find. rewrite fmap_None. split.
  - destruct (lower_bound h k); [done|]. apply begin_None.
  - intros ->. destruct (lower_bound ∅ k) as [[p v]|] eqn:E.
    + apply lower_bound_Some in E as [Hp _]. by rewrite lookup_empty in Hp.
    + by apply begin_None.
Qed.

(** * Lemmas: adding points *)

Lemma vnode_key_point index i :
  (length (vnode_label index i) < 20)%nat →
  vnode_key index i = Ret (vnode_point index i).
Proof.
  intros Hl. unfold vnode_key. rewrite decide_True by done.
  rewrite crc32_nil_eq by lia. done.
Qed.

Lemma sprintf_d_small n : 0 <= n < 10 ^ 9 → (length (sprintf_d (i32 n)) <= 9)%nat.
Proof.
  intros Hn. rewrite i32_small by (unfold is_int, INT_MIN, INT_MAX; lia).
  unfold sprintf_d, dec_nat. rewrite decide_False by lia. apply dec_digits_length; lia.
Qed.

Lemma vnode_label_fits index weight i :
  host_cfg_ok index weight → 0 <= i < weight → (length (vnode_label index i) < 20)%nat.
Proof.
  intros [Hi Hw] Hiw. unfold vnode_label. rewrite !length_app.
  pose proof (sprintf_d_small index Hi). pose proof (sprintf_d_small i ltac:(lia)). cbn. lia.
Qed.

Lemma vnode_point_range index i : 0 <= vnode_point index i < 2 ^ 32.
Proof.
  unfold vnode_point, crc32_spec. apply lxor_range; [lia| |lia].
  apply crc_ref_range. lia.
Qed.

(** Writing [v] at each point of the list. *)
Definition put_all (ps : list Z) (v : mapped_type) (h : hash_type) : hash_type :=
  foldl (λ h p, <[p := v]> h) h ps.

Lemma put_all_lookup ps v h p :
  put_all ps v h !! p = if decide (p ∈ ps) then Some v else h !! p.
Proof.
  unfold put_all. revert h. induction ps as [|q ps IH]; intros h; cbn.
  - by rewrite decide_False by set_solver.
  - rewrite IH. destruct (decide (p ∈ ps)) as [Hin|Hnin].
    + by rewrite decide_True by set_solver.
    + destruct (decide (p = q)) as [->|Hne].
      * rewrite lookup_insert_eq. by rewrite decide_True by set_solver.
      * rewrite lookup_insert_ne by done. by rewrite decide_False by set_solver.
Qed.

Lemma vnodes_loop_put_all n i index v h :
  (∀ j, i <= j < i + Z.of_nat n → (length (vnode_label index j) < 20)%nat) →
  vnodes_loop n i index v h = Ret (put_all (points_from n i index) v h).
Proof.
  revert i h. induction n as [|n IH]; intros i h Hl; [done|].
  cbn [vnodes_loop]. rewrite vnode_key_point by (apply Hl; lia).
  cbn [mbind outcome_bind]. rewrite IH by (intros; apply Hl; lia). done.
Qed.

Lemma vnodes_loop_host index weight v h :
  host_cfg_ok index weight →
  vnodes_loop (Z.to_nat weight) 0 index v h = Ret (put_all (points index weight) v h).
Proof.
  intros Hc. apply vnodes_loop_put_all. intros j Hj.
  apply (vnode_label_fits _ weight); [done|]. destruct Hc. lia.
Qed.

Lemma points_from_range n i index p : p ∈ points_from n i index → 0 <= p < 2 ^ 32.
Proof.
  revert i. induction n as [|n IH]; intros i; cbn; [set_solver|].
  intros [->|Hp]%elem_of_cons; [apply vnode_point_range|by eapply IH].
Qed.

Lemma vnode_key_range index i p : vnode_key index i = Ret p → 0 <= p < 2 ^ 32.
Proof.
  unfold vnode_key. case_decide; [|done]. apply crc32_range. lia.
Qed.

Lemma vnodes_loop_ok n i index v h h' :
  vnodes_loop n i index v h = Ret h' → ring_ok h → ring_ok h'.
Proof.
  revert i h. induction n as [|n IH]; intros i h Hl Hok; cbn in Hl; [by simplify_eq|].
  apply bind_Ret_inv in Hl as (k & Hk & Hl). eapply IH; [done|].
  intros p w. destruct (decide (k = p)) as [->|Hne].
  - intros _. by eapply vnode_key_range.
  - rewrite lookup_insert_ne by done. apply Hok.
Qed.

Lemma hosts_loop_ok l h h' : hosts_loop l h = Ret h' → ring_ok h → ring_ok h'.
Proof.
  revert h. induction l as [|[host [index weight]] l IH]; intros h Hl Hok; cbn in Hl; [by simplify_eq|].
  apply bind_Ret_inv in Hl as (h1 & H1 & Hl). eauto using vnodes_loop_ok.
Qed.

Lemma elems_singleton {K V} `{Countable K} `{!OrdKey K} (k : K) (v : V) :
  elems ({[ k := v ]} : gmap K V) = [(k, v)].
Proof. unfold elems. by rewrite map_to_list_singleton. Qed.

(** The ring after [addHost]. *)
Lemma addHost_eq this host_port alias_index index weight :
  host_cfg_ok index weight → _lock this = false →
  addHost this host_port alias_index index weight =
  Ret (true, {| _hash := put_all (points index weight) (host_port, alias_index) (_hash this);
                _hash_tmp := _hash this; _lock := false |}).
Proof.
  intros Hc Hl. unfold addHost, createVNodes. rewrite Hl, elems_singleton. cbn [hosts_loop].
  by rewrite vnodes_loop_host.
Qed.

(** * Lemmas: removing a host *)

(** The ring has a point of host [a]. *)
Definition on_ring (h : hash_type) (a : Z) : Prop := ∃ p v, h !! p = Some v ∧ v.2 = a.

Lemma del_loop_undefined a l h :
  del_loop a l h = if decide (Exists (λ e, e.2.2 = a) l) then Undef StaleIterator else Ret h.
Proof.
  induction l as [|[k v] l IH]; cbn.
  - rewrite decide_False; [done|]. by intros ?%Exists_nil.
  - destruct (decide (v.2 = a)) as [Ha|Ha].
    + rewrite decide_True; [done|]. by left.
    + rewrite IH. destruct (decide (Exists (λ e, e.2.2 = a) l)) as [He|He].
      * rewrite decide_True; [done|]. by right.
      * rewrite decide_False; [done|]. by intros [?|?]%Exists_cons.
Qed.

(** * Properties *)

(** A ring with one host of weight 3 and one of weight 2, for the examples. *)
Definition demo_ring : hash_type :=
  put_all (points 2 2) (bs "10.0.0.2:11211", 2) (put_all (points 1 3) (bs "10.0.0.1:11211", 1) ∅).
Definition demo_hash : ConsistentHash := {| _hash := demo_ring; _hash_tmp := ∅; _lock := false |}.

Lemma put_all_ok index weight v h : ring_ok h → ring_ok (put_all (points index weight) v h).
Proof.
  intros Hok p w. rewrite put_all_lookup. case_decide as Hp; [|apply Hok].
  intros _. by eapply points_from_range.
Qed.

Lemma empty_ok : ring_ok ∅.
Proof. intros p v Hp. by rewrite lookup_empty in Hp. Qed.

Lemma demo_ring_ok : ring_ok demo_ring.
Proof. by repeat apply put_all_ok; apply empty_ok. Qed.

(** C9: [find] returns the host at the ring point nearest clockwise from the key's
    crc32, wrapping past the largest point; an empty ring yields ("no_found", 0). *)
Theorem find_nearest (this : ConsistentHash) (key : bytes) :
  ring_ok (_hash this) → Z.of_nat (length key) < 2 ^ 32 →
  (_hash this = ∅ ∧ find this key (Z.of_nat (length key)) = Ret (bs "no_found", 0)) ∨
  (∃ p v, _hash this !! p = Some v ∧ find this key (Z.of_nat (length key)) = Ret v ∧
          ∀ q, is_Some (_hash this !! q) → cw (crc32_spec key) p <= cw (crc32_spec key) q).
Proof.
  intros Hok Hlen. unfold find. rewrite crc32_nil_eq by lia. cbn [mbind outcome_bind].
  change (Z.lxor (crc_ref (Z.lxor 0 0xffffffff) key) 0xffffffff) with (crc32_spec key).
  assert (0 <= crc32_spec key < 2 ^ 32) as Hk.
  { unfold crc32_spec. apply lxor_range; [lia|apply crc_ref_range; lia|lia]. }
  destruct (ring_find (_hash this) (crc32_spec key)) as [v|] eqn:E.
  - right. apply ring_find_serves in E as (p & Hp & _ & Hmin); [|done..]. by exists p, v.
  - left. by apply ring_find_None in E.
Qed.

Lemma find_nearest_witness :
  ∃ p v, demo_ring !! p = Some v ∧ find demo_hash (bs "user:42") 7 = Ret v ∧
    ∀ q, is_Some (demo_ring !! q) → cw (crc32_spec (bs "user:42")) p <= cw (crc32_spec (bs "user:42")) q.
Proof.
  destruct (find_nearest demo_hash (bs "user:42")) as [[He _]|H]; [apply demo_ring_ok|done| |exact H].
  exfalso. assert (size demo_ring = 0%nat) as Hs by (unfold demo_hash in He; cbn in He; by rewrite He).
  vm_compute in Hs. discriminate Hs.
Defined.

(** * Lemmas: many hosts *)

Definition put_hosts (l : list (mapped_type * (Z * Z))) (h : hash_type) : hash_type :=
  foldl (λ h e, put_all (points e.2.1 e.2.2) e.1 h) h l.

(** [v] has the point [p] among the hosts [l], and is the last of them in the order of the map. *)
Definition owner (hosts : gmap mapped_type (Z * Z)) (p : Z) (v : mapped_type) : Prop :=
  ∃ i w, hosts !! v = Some (i, w) ∧ p ∈ points i w.

Lemma put_hosts_lookup l : ∀ h p v, StronglySorted entry_le l →
  put_hosts l h !! p = Some v ↔
  (∃ iw, (v, iw) ∈ l ∧ p ∈ points iw.1 iw.2 ∧ ∀ u jw, (u, jw) ∈ l → p ∈ points jw.1 jw.2 → kle u v) ∨
  ((∀ u jw, (u, jw) ∈ l → p ∉ points jw.1 jw.2) ∧ h !! p = Some v).
Proof.
  induction l as [|[u jw] l IH]; intros h p v Hs.
  { cbn. split; [intros ?; right; split; [set_solver|done]|]. intros [(? & Hin & _)|[_ ?]]; [set_solver|done]. }
  apply StronglySorted_inv in Hs as [Hs Hle]. rewrite Forall_forall in Hle. cbn [put_hosts foldl fst snd].
  fold (put_hosts l (put_all (points jw.1 jw.2) u h)). rewrite IH, put_all_lookup by done. split.
  - intros [(iw & Hin & Hp & Hmax)|[Hno Hv]].
    + left. exists iw. split; [by right|]. split; [done|]. intros u' jw' [[= -> ->]|Hin']%elem_of_cons Hp'; [|by eapply Hmax].
      by apply (Hle (v, iw)).
    + case_decide as Hp.
      * simplify_eq. left. exists jw. split; [by left|]. split; [done|].
        intros u' jw' [[= -> ->]|Hin']%elem_of_cons Hp'; [unfold kle; by rewrite kcmp_refl|by destruct (Hno _ _ Hin')].
      * right. split; [|done]. intros u' jw' [[= -> ->]|Hin']%elem_of_cons; [done|by eapply Hno].
  - intros [(iw & Hin & Hp & Hmax)|[Hno Hv]].
    + destruct (decide (Exists (λ e, p ∈ points e.2.1 e.2.2) l)) as [He|He].
      * apply Exists_exists in He as ([u' jw'] & Hin' & Hp'). left. apply elem_of_cons in Hin as [[= -> ->]|Hin].
        -- assert (u' = u) as -> by (apply kle_antisym; [eapply Hmax; [by right|done]|by apply (Hle (u', jw'))]).
           exists jw'. split; [done|]. split; [done|]. intros ? ? ?. eapply Hmax. by right.
        -- exists iw. split; [done|]. split; [done|]. intros ? ? ?. eapply Hmax. by right.
      * rewrite <- Forall_Exists_neg, Forall_forall in He. right. split; [intros ? ? Hin'; by apply (He _ Hin')|].
        apply elem_of_cons in Hin as [[= -> ->]|Hin]; [by rewrite decide_True|by destruct (He _ Hin)].
    + right. split; [intros ? ? ?; eapply Hno; by right|]. rewrite decide_False; [done|]. eapply Hno. by left.
Qed.

Lemma hosts_loop_put_hosts l : ∀ h, (∀ v i w, (v, (i, w)) ∈ l → host_cfg_ok i w) → hosts_loop l h = Ret (put_hosts l h).
Proof.
  induction l as [|[v [i w]] l IH]; intros h Hc; [done|]. cbn [hosts_loop].
  rewrite vnodes_loop_host by (eapply Hc; by left). apply IH. intros ? ? ? ?. eapply Hc. by right.
Qed.

(** C25: [setHosts] on an empty ring, or when forced, gives each point of the hosts of the
    configuration to the last host, in the order of the map, that has it, leaves the other
    points as they were, and never overflows its label; with a ring that is there and no force,
    or while another thread holds the lock, it changes nothing. *)
Theorem setHosts_builds (this : ConsistentHash) (hosts : gmap mapped_type (Z * Z)) (force : bool) :
  (∀ v i w, hosts !! v = Some (i, w) → host_cfg_ok i w) →
  ∃ t, setHosts this hosts force = Ret t ∧
    (_lock this = true ∨ (_hash this ≠ ∅ ∧ force = false) → t = this) ∧
    (_lock this = false → _hash this = ∅ ∨ force = true →
     _lock t = false ∧ _hash_tmp t = _hash this ∧
     ∀ p v, _hash t !! p = Some v ↔
       (owner hosts p v ∧ ∀ u, owner hosts p u → kle u v) ∨
       ((∀ u, ¬ owner hosts p u) ∧ _hash this !! p = Some v)).
Proof.
  intros Hc. unfold setHosts. case_decide as Hd.
  2: { exists this. split; [done|]. split; [done|]. intros _ ?. done. }
  unfold createVNodes. destruct (_lock this) eqn:Hl.
  { exists this. by split. }
  rewrite hosts_loop_put_hosts by (intros v i w Hin%elem_of_elems; by eapply Hc). cbn [mbind outcome_bind snd].
  eexists. split; [done|]. split; [intros [?|[? ?]]; [done|]; naive_solver|]. intros _ _. cbn.
  split; [done|]. split; [done|]. intros p v. rewrite put_hosts_lookup by apply elems_sorted.
  unfold owner. setoid_rewrite elem_of_elems.
  split; (intros [H|H]; [left|right]).
  - destruct H as ([i w] & ? & ? & Hm). split; [by exists i, w|]. intros u (j & x & ? & ?). by apply (Hm u (j, x)).
  - destruct H as [Hno ?]. split; [|done]. intros u (j & x & ? & ?). by apply (Hno u (j, x)).
  - destruct H as [(i & w & ? & ?) Hm]. exists (i, w). split; [done|]. split; [done|]. intros u [j x] ? ?. apply Hm. by exists j, x.
  - destruct H as [Hno ?]. split; [|done]. intros u [j x] ? ?. apply (Hno u). by exists j, x.
Qed.

Lemma setHosts_builds_witness :
  ∃ t, setHosts hash_new {[ (bs "10.0.0.1:11211", 1) := (1, 3) ]} false = Ret t ∧
    ∀ p v, _hash t !! p = Some v ↔
      (owner {[ (bs "10.0.0.1:11211", 1) := (1, 3) ]} p v ∧ ∀ u, owner {[ (bs "10.0.0.1:11211", 1) := (1, 3) ]} p u → kle u v) ∨
      ((∀ u, ¬ owner {[ (bs "10.0.0.1:11211", 1) := (1, 3) ]} p u) ∧ (∅ : hash_type) !! p = Some v).
Proof.
  destruct (setHosts_builds hash_new {[ (bs "10.0.0.1:11211", 1) := (1, 3) ]} false) as (t & E & _ & H).
  - intros v i w [_ [= <- <-]]%lookup_singleton_Some. unfold host_cfg_ok; lia.
  - exists t. split; [exact E|]. destruct (H eq_refl (or_introl eq_refl)) as (_ & _ & H'). exact H'.
Defined.

(** Writing [v] at some points moves keys only onto [v]. *)
Lemma put_all_find index weight v h k u :
  ring_ok h → 0 <= k < 2 ^ 32 → ring_find (put_all (points index weight) v h) k = Some u →
  u = v ∨ ring_find h k = Some u.
Proof.
  intros Hok Hk Hf. apply ring_find_serves in Hf as (p & Hp & _ & Hmin); [|by apply put_all_ok|done].
  rewrite put_all_lookup in Hp. case_decide as Hin; [left; congruence|right].
  apply ring_find_serves; [done..|]. exists p. split; [done|]. split; [by eexists|].
  intros q Hq. apply Hmin. rewrite put_all_lookup. case_decide; [by eexists|done].
Qed.

(** C24: Adding a host moves keys only onto the new host: each key keeps its host or is
    now served by the new one; the new host's points are exactly those of its index
    and weight, written over whatever was there. *)
Theorem addHost_minimal (this : ConsistentHash) (host_port : bytes) (a index weight : Z) :
  ring_ok (_hash this) → _lock this = false → host_cfg_ok index weight →
  ∃ this', addHost this host_port a index weight = Ret (true, this') ∧
    (∀ p, _hash this' !! p =
          if decide (p ∈ points index weight) then Some (host_port, a) else _hash this !! p) ∧
    (∀ k v, 0 <= k < 2 ^ 32 → ring_find (_hash this') k = Some v →
            v = (host_port, a) ∨ ring_find (_hash this) k = Some v).
Proof.
  intros Hok Hl Hc. eexists. split; [by apply addHost_eq|]. cbn.
  split; [intros p; apply put_all_lookup|]. intros k v Hk. by apply put_all_find.
Qed.

Lemma addHost_minimal_witness :
  ∃ this', addHost demo_hash (bs "10.0.0.3:11211") 3 3 4 = Ret (true, this') ∧
    ∀ k v, 0 <= k < 2 ^ 32 → ring_find (_hash this') k = Some v →
      v = (bs "10.0.0.3:11211", 3) ∨ ring_find demo_ring k = Some v.
Proof.
  destruct (addHost_minimal demo_hash (bs "10.0.0.3:11211") 3 3 4 demo_ring_ok eq_refl)
    as (t & Ht & _ & Hk); [unfold host_cfg_ok; lia|].
  exists t. split; [exact Ht|exact Hk].
Defined.

(** C38: [it++] on the element just erased is undefined: [delHost] is undefined exactly when
    the ring holds a point of the host it is to remove; otherwise it leaves the ring as it is. *)
Theorem delHost_undefined (this : ConsistentHash) (a : Z) :
  _lock this = false →
  (delHost this a = Undef StaleIterator ↔ ∃ p v, _hash this !! p = Some v ∧ v.2 = a) ∧
  (∀ b t, delHost this a = Ret (b, t) → b = true ∧ _hash t = _hash this).
Proof.
  intros Hl. unfold delHost. rewrite Hl, del_loop_undefined.
  case_decide as He; cbn.
  - split; [split; [intros _|done]|done].
    apply Exists_exists in He as ([p v] & Hin & Hv). exists p, v. by apply elem_of_elems in Hin.
  - split; [split; [done|]|by intros b t [= <- <-]].
    intros (p & v & Hp & Hv). exfalso. apply He, Exists_exists. exists (p, v).
    split; [by apply elem_of_elems|done].
Qed.

Lemma delHost_undefined_witness : delHost demo_hash 1 = Undef StaleIterator.
Proof.
  apply (delHost_undefined demo_hash 1 eq_refl).
  exists (vnode_point 1 0), (bs "10.0.0.1:11211", 1). split; [vm_compute; reflexivity|done].
Defined.

(** With the configuration in range, [addHost] never overflows its 20-byte label
    buffer; a busy mutex makes [addHost], [createVNodes] and [delHost] return [false]
    and leave the object alone. *)
Theorem hash_busy (this : ConsistentHash) (a index weight : Z) (host_port : bytes) :
  host_cfg_ok index weight →
  (∃ t, addHost this host_port a index weight = Ret (negb (_lock this), t)) ∧
  (_lock this = true →
     addHost this host_port a index weight = Ret (false, this) ∧
     delHost this a = Ret (false, this) ∧
     ∀ hosts, createVNodes this hosts = Ret (false, this)).
Proof.
  intros Hc. split.
  - destruct (_lock this) eqn:E; cbn.
    + exists this. unfold addHost, createVNodes. by rewrite E.
    + eexists. by apply addHost_eq.
  - intros E. unfold addHost, createVNodes, delHost. by rewrite !E.
Qed.

Lemma hash_busy_witness :
  let busy := {| _hash := demo_ring; _hash_tmp := ∅; _lock := true |} in
  delHost busy 1 = Ret (false, busy).
Proof.
  intros busy. apply (hash_busy busy 1 1 3 []); [unfold host_cfg_ok; lia|done].
Defined.

#[export] Hint Resolve put_all_ok empty_ok : kv.
