(* ===== verification/Config.v ===== *)
(** [Config] of [src/config.h], [src/config.cpp]: the ini parser and its getters.

    [loadConf] runs the source's character automaton over 200-byte line buffers
    filled by [getline].  [ini_line] is a grammar of files: every line that fits the
    buffer, has no NUL, and closes the brackets and quotes it opens is a line of it.
    [loadConf_render] proves that loading a file gives the meaning of its lines.  The getters index
    the maps with [operator[]], so they change the configuration; [getter_pure] proves that no later
    read can tell. *)
From S2P Require Import Prelude StdMap Util.

(** * Data *)

(** [CONF_T]: section, key, value. *)
Abbreviation CONF_T := (gmap bytes (gmap bytes bytes)).

Record Config := {
  conf_path : bytes;
  conf : CONF_T;
  ext_name : bytes
}.

Inductive process := PARSE_INIT | PARSE_SECTION | PARSE_KEY | PARSE_VALUE.

Definition is_proc (p q : process) : bool :=
  match p, q with
  | PARSE_INIT, PARSE_INIT | PARSE_SECTION, PARSE_SECTION
  | PARSE_KEY, PARSE_KEY | PARSE_VALUE, PARSE_VALUE => true
  | _, _ => false
  end.

(** The local variables of [loadConf] that the character loop uses. *)
Record parser := {
  proc : process;
  val_quote : bool;
  cur_sec : bytes;
  cur_key : bytes;
  cur_val : bytes
}.

Definition LINE_SIZE : nat := 200.

(** The double quote. *)
Definition QUOTE : byte := x22.

(** * Reading a line *)

(** Why [getline(line, sizeof(line))] stopped: end of file, the delimiter, or the
    buffer being full (which sets [failbit]). *)
Inductive line_end := AtEof | AtDelim | AtFull.

(** [room] is the number of characters that still fit. *)
Fixpoint getline (room : nat) (rest : bytes) {struct rest} : bytes * bytes * line_end :=
  match rest with
  | [] => ([], [], AtEof)
  | c :: r =>
      if decide (c = x0a) then ([], r, AtDelim)
      else match room with
           | O => ([], rest, AtFull)
           | S room => let '(l, r, e) := getline room r in (c :: l, r, e)
           end
  end.

(** The buffer after [memset] and [getline]: the characters, then zeros. *)
Definition line_buffer (l : bytes) : bytes := l ++ replicate (LINE_SIZE - length l) x00.

(** * The character automaton *)

Definition set_proc (st : parser) (p : process) : parser :=
  {| proc := p; val_quote := val_quote st; cur_sec := cur_sec st;
     cur_key := cur_key st; cur_val := cur_val st |}.

(** One turn of the [for] loop; the flag is [break]. *)
Definition char_step (st : parser) (c : byte) : parser * bool :=
  if is_proc (proc st) PARSE_INIT && bool_decide (c = ";"%byte) then (st, true)
  else if is_proc (proc st) PARSE_INIT && bool_decide (schar c <= 32) then (st, false)
  else if is_proc (proc st) PARSE_INIT && bool_decide (c = "["%byte) then
    ({| proc := PARSE_SECTION; val_quote := val_quote st; cur_sec := [];
        cur_key := cur_key st; cur_val := cur_val st |}, false)
  else if is_proc (proc st) PARSE_SECTION && bool_decide (c = "]"%byte) then (st, true)
  else if is_proc (proc st) PARSE_SECTION then
    ({| proc := PARSE_SECTION; val_quote := val_quote st; cur_sec := cur_sec st ++ [c];
        cur_key := cur_key st; cur_val := cur_val st |}, false)
  else if is_proc (proc st) PARSE_INIT && bool_decide (32 < schar c) then
    ({| proc := PARSE_KEY; val_quote := val_quote st; cur_sec := cur_sec st;
        cur_key := [c]; cur_val := cur_val st |}, false)
  else if is_proc (proc st) PARSE_KEY && bool_decide (c = "="%byte) then (set_proc st PARSE_VALUE, false)
  else if is_proc (proc st) PARSE_KEY && bool_decide (32 < schar c) then
    ({| proc := PARSE_KEY; val_quote := val_quote st; cur_sec := cur_sec st;
        cur_key := cur_key st ++ [c]; cur_val := cur_val st |}, false)
  else if is_proc (proc st) PARSE_VALUE && bool_decide (schar c <= 32) && negb (val_quote st) then (st, false)
  else if is_proc (proc st) PARSE_VALUE && bool_decide (c = QUOTE) && negb (val_quote st) then
    ({| proc := PARSE_VALUE; val_quote := true; cur_sec := cur_sec st;
        cur_key := cur_key st; cur_val := cur_val st |}, false)
  else if is_proc (proc st) PARSE_VALUE && bool_decide (c = QUOTE) && val_quote st then (st, true)
  else if is_proc (proc st) PARSE_VALUE then
    ({| proc := PARSE_VALUE; val_quote := val_quote st; cur_sec := cur_sec st;
        cur_key := cur_key st; cur_val := cur_val st ++ [c] |}, false)
  else if bool_decide (c = x00) then (st, true)
  else (st, false).

Fixpoint chars_loop (st : parser) (line : bytes) : parser :=
  match line with
  | [] => st
  | c :: line => let '(st, brk) := char_step st c in if brk : bool then st else chars_loop st line
  end.

(** [conf[sec][key] = val]. *)
Definition conf_put (m : CONF_T) (sec key val : bytes) : CONF_T :=
  <[sec := <[key := val]> (default ∅ (m !! sec))]> m.

(** The body of the [while] loop for one line: reset the per-line variables, run the
    automaton, store the entry, note the extension's section. *)
Definition line_step (this : Config) (sec : bytes) (l : bytes) : Config * bytes :=
  let st := chars_loop {| proc := PARSE_INIT; val_quote := false; cur_sec := sec;
                          cur_key := []; cur_val := [] |} (line_buffer l) in
  let m := if decide (cur_key st ≠ [] ∧ cur_val st ≠ [])
           then conf_put (conf this) (cur_sec st) (cur_key st) (cur_val st) else conf this in
  let e := if decide (cur_sec st ≠ bs "kvproxy" ∧ cur_key st = bs "extension")
           then cur_sec st else ext_name this in
  ({| conf_path := conf_path this; conf := m; ext_name := e |}, cur_sec st).

(** [while (cnf_file.good() && !cnf_file.eof())], then the final [eof] test. *)
Fixpoint lines_loop (fuel : nat) (this : Config) (sec : bytes) (rest : bytes) : outcome Config :=
  match fuel with
  | O => NoFuel
  | S fuel =>
      let '(l, rest, e) := getline (LINE_SIZE - 1) rest in
      let '(this, sec) := line_step this sec l in
      match e with
      | AtEof => Ret this
      | AtFull => Exit EXIT_FAILURE
      | AtDelim => lines_loop fuel this sec rest
      end
  end.

Definition setConfFile (this : Config) (file_path : bytes) : Config :=
  {| conf_path := file_path; conf := conf this; ext_name := ext_name this |}.

(** [fs] is the file system: the contents of a readable file. *)
Definition loadConf (fs : bytes → option bytes) (this : Config) : outcome Config :=
  match fs (conf_path this) with
  | None => Exit EXIT_FAILURE
  | Some content => lines_loop (S (length content)) this [] content
  end.

(** * Getters *)

(** [conf[section][key]] read as a value; both levels are created when absent. *)
Definition conf_at (m : CONF_T) (section key : bytes) : bytes * CONF_T :=
  let '(s, m) := at_ ∅ m section in
  let '(v, s) := at_ [] s key in
  (v, <[section := s]> m).

Definition with_conf (this : Config) (m : CONF_T) : Config :=
  {| conf_path := conf_path this; conf := m; ext_name := ext_name this |}.

Definition getConfStr (this : Config) (section key : bytes) : bytes * Config :=
  if decide (section = [] ∨ key = []) then ([], this)
  else let '(v, m) := conf_at (conf this) section key in (v, with_conf this m).

(** [getConfStr(section)]: a copy of the section. *)
Definition getConfStrSection (this : Config) (section : bytes) : gmap bytes bytes * Config :=
  if decide (section = []) then (∅, this)
  else let '(s, m) := at_ ∅ (conf this) section in (s, with_conf this m).

(** [sscanf(v, "%d", &val)] into a variable that holds [val] ([None]: never written). *)
Definition scan_into (v : bytes) (val : option Z) : outcome (option Z) :=
  match sscanf_d v with
  | ScanInt n => Ret (Some n)
  | ScanNone => Ret val
  | ScanOverflow => Undef IntOverflow
  end.

Definition use_val (val : option Z) : outcome Z :=
  match val with Some n => Ret n | None => Undef Indeterminate end.

Definition getConfInt (this : Config) (section key : bytes) : outcome (Z * Config) :=
  let '(v, this) := getConfStr this section key in
  if decide (v = []) then Ret (0, this)
  else val ← scan_into v None; n ← use_val val; Ret (n, this).

(** [getConfInt(section)]: [val] is shared by the iterations. *)
Fixpoint ints_loop (l : list (bytes * bytes)) (val : option Z) (ret : gmap bytes Z)
    : outcome (gmap bytes Z) :=
  match l with
  | [] => Ret ret
  | (k, v) :: l =>
      val ← scan_into v val;
      n ← use_val val;
      ints_loop l val (<[k := n]> ret)
  end.

Definition getConfIntSection (this : Config) (section : bytes) : outcome (gmap bytes Z * Config) :=
  let '(s, this) := getConfStrSection this section in
  ret ← ints_loop (elems s) None ∅;
  Ret (ret, this).

Definition conf_true (v : bytes) : bool :=
  bool_decide (v = bs "on" ∨ v = bs "1" ∨ v = bs "yes").

Definition getConfBool (this : Config) (section key : bytes) : bool * Config :=
  let '(v, this) := getConfStr this section key in (conf_true v, this).

Definition getConfBoolSection (this : Config) (section : bytes) : gmap bytes bool * Config :=
  let '(s, this) := getConfStrSection this section in (conf_true <$> s, this).

Definition getExtName (this : Config) : bytes := ext_name this.

(** * The accepted files *)

Definition plain_char (c : byte) : Prop := 32 < schar c.
#[export] Instance plain_char_dec c : Decision (plain_char c).
Proof. unfold plain_char. apply _. Defined.

(** Spaces, control characters, and bytes from 128 on, which are negative as [char]s. *)
Definition blank (c : byte) : Prop := ¬ plain_char c.
#[export] Instance blank_dec c : Decision (blank c).
Proof. unfold blank. apply _. Defined.

(** A text without its blanks. *)
Definition solid (t : bytes) : bytes := filter plain_char t.

(** A line of an ini file, with the blanks [b] before it; [key] and what stands for the value may have blanks
    in them, and [junk] is what is behind the closing bracket or quote. *)
Inductive ini_line :=
  | Empty (b : bytes)
  | Comment (b text : bytes)
  | Section_ (b name junk : bytes)
  | KeyOnly (b key : bytes)
  | Plain (b key val : bytes)
  | Quoted (b key pre val junk : bytes).

Definition render_line (l : ini_line) : bytes :=
  match l with
  | Empty b => b
  | Comment b t => b ++ [";"%byte] ++ t
  | Section_ b s j => b ++ ["["%byte] ++ s ++ ["]"%byte] ++ j
  | KeyOnly b k => b ++ k
  | Plain b k v => b ++ k ++ ["="%byte] ++ v
  | Quoted b k p v j => b ++ k ++ ["="%byte] ++ p ++ [QUOTE] ++ v ++ [QUOTE] ++ j
  end.

(** Lines ended by newlines. *)
Definition render (ls : list ini_line) : bytes := concat ((λ l, render_line l ++ [x0a]) <$> ls).

(** A first "=" is a part of the key. *)
Definition key_ok (k : bytes) : Prop :=
  (x00 ∉ k) ∧
  match k with c :: k => plain_char c ∧ c ≠ ";"%byte ∧ c ≠ "["%byte ∧ "="%byte ∉ k | [] => False end.

Definition line_ok (l : ini_line) : Prop :=
  (length (render_line l) < LINE_SIZE)%nat ∧ (x0a ∉ render_line l) ∧
  match l with
  | Empty b => Forall blank b
  | Comment b _ => Forall blank b
  | Section_ b s _ => Forall blank b ∧ "]"%byte ∉ s
  | KeyOnly b k => Forall blank b ∧ key_ok k
  | Plain b k v => Forall blank b ∧ key_ok k ∧ QUOTE ∉ v
  | Quoted b k p v _ => Forall blank b ∧ key_ok k ∧ (QUOTE ∉ p) ∧ QUOTE ∉ v
  end.

#[export] Instance key_ok_dec k : Decision (key_ok k).
Proof. unfold key_ok. destruct k; apply _. Defined.
#[export] Instance line_ok_dec l : Decision (line_ok l).
Proof. unfold line_ok. destruct l; apply _. Defined.

(** A line with a bracket or a quote that is not closed. *)
Inductive unclosed : bytes → Prop :=
  | unclosed_section b s : Forall blank b → "]"%byte ∉ s → unclosed (b ++ ["["%byte] ++ s)
  | unclosed_quote b k p v :
      Forall blank b → key_ok k → QUOTE ∉ p → QUOTE ∉ v → unclosed (b ++ k ++ ["="%byte] ++ p ++ [QUOTE] ++ v).

(** What a line means: it selects a section or sets an entry, unless the value is empty. *)
Definition entry_effect (this : Config) (sec key val : bytes) : Config :=
  {| conf_path := conf_path this;
     conf := if decide (val = []) then conf this else conf_put (conf this) sec key val;
     ext_name := if decide (sec ≠ bs "kvproxy" ∧ key = bs "extension") then sec else ext_name this |}.

Definition line_effect (st : Config * bytes) (l : ini_line) : Config * bytes :=
  let '(this, sec) := st in
  match l with
  | Empty _ | Comment _ _ => (this, sec)
  | Section_ _ s _ => (this, s)
  | KeyOnly _ k => (entry_effect this sec (solid k) [], sec)
  | Plain _ k v => (entry_effect this sec (solid k) (solid v), sec)
  | Quoted _ k p v _ => (entry_effect this sec (solid k) (solid p ++ v), sec)
  end.

(** * Lemmas: the automaton on each kind of segment *)

Abbreviation mk p q s k v :=
  {| proc := p; val_quote := q; cur_sec := s; cur_key := k; cur_val := v |}.

(** Evaluates one character step whose guards the context decides. *)
Ltac step_char :=
  unfold char_step, set_proc;
  cbn [proc val_quote cur_sec cur_key cur_val is_proc andb negb];
  repeat case_bool_decide; try done; try congruence; try lia.

Lemma step_init_blank q s k v c :
  schar c <= 32 → char_step (mk PARSE_INIT q s k v) c = (mk PARSE_INIT q s k v, false).
Proof. intros Hc. step_char. by subst. Qed.

Lemma step_init_section q s k v :
  char_step (mk PARSE_INIT q s k v) "["%byte = (mk PARSE_SECTION q [] k v, false).
Proof. done. Qed.

Lemma step_init_key q s k v c :
  plain_char c → c ≠ ";"%byte → c ≠ "["%byte →
  char_step (mk PARSE_INIT q s k v) c = (mk PARSE_KEY q s [c] v, false).
Proof. unfold plain_char. intros Hc ??. step_char. Qed.

Lemma step_section q s k v c :
  c ≠ "]"%byte → char_step (mk PARSE_SECTION q s k v) c = (mk PARSE_SECTION q (s ++ [c]) k v, false).
Proof. intros Hc. step_char. Qed.

Lemma step_key q s k v c :
  plain_char c → c ≠ "="%byte →
  char_step (mk PARSE_KEY q s k v) c = (mk PARSE_KEY q s (k ++ [c]) v, false).
Proof. unfold plain_char. intros Hc ?. step_char. Qed.

Lemma step_value_blank s k v c :
  schar c <= 32 → char_step (mk PARSE_VALUE false s k v) c = (mk PARSE_VALUE false s k v, false).
Proof. intros Hc. step_char. Qed.

Lemma step_value_plain s k v c :
  plain_char c → c ≠ QUOTE →
  char_step (mk PARSE_VALUE false s k v) c = (mk PARSE_VALUE false s k (v ++ [c]), false).
Proof. unfold plain_char. intros Hc ?. step_char. Qed.

Lemma step_value_quoted s k v c :
  c ≠ QUOTE → char_step (mk PARSE_VALUE true s k v) c = (mk PARSE_VALUE true s k (v ++ [c]), false).
Proof. intros Hc. step_char. Qed.

Lemma chars_loop_cons st st' c l :
  char_step st c = (st', false) → chars_loop st (c :: l) = chars_loop st' l.
Proof. intros H. cbn [chars_loop]. by rewrite H. Qed.

Lemma chars_loop_break st st' c l :
  char_step st c = (st', true) → chars_loop st (c :: l) = st'.
Proof. intros H. cbn [chars_loop]. by rewrite H. Qed.

(** A run of characters that each leave the state alone. *)
Lemma chars_loop_skip st l rest :
  Forall (λ c, char_step st c = (st, false)) l → chars_loop st (l ++ rest) = chars_loop st rest.
Proof. induction 1 as [|c l Hc _ IH]; [done|]. cbn [app]. by rewrite (chars_loop_cons _ _ _ _ Hc). Qed.

(** A run of characters that are each appended to one field. *)
Lemma chars_loop_collect (st : bytes → parser) acc l rest :
  (∀ acc c, c ∈ l → char_step (st acc) c = (st (acc ++ [c]), false)) →
  chars_loop (st acc) (l ++ rest) = chars_loop (st (acc ++ l)) rest.
Proof.
  revert acc. induction l as [|c l IH]; intros acc H; [by rewrite app_nil_r|].
  cbn [app]. rewrite (chars_loop_cons _ _ _ _ (H acc c ltac:(left))).
  rewrite IH; [by rewrite <- app_assoc|]. intros. apply H. by right.
Qed.

Lemma step_key_blank q s k v c :
  blank c → c ≠ "="%byte → c ≠ x00 → char_step (mk PARSE_KEY q s k v) c = (mk PARSE_KEY q s k v, false).
Proof. unfold blank, plain_char. intros Hc ??. step_char. Qed.

(** A run of characters of which the blanks are passed over and the others appended to one field. *)
Lemma chars_loop_solid (st : bytes → parser) acc l rest :
  (∀ acc c, c ∈ l → char_step (st acc) c = (st (if decide (plain_char c) then acc ++ [c] else acc), false)) →
  chars_loop (st acc) (l ++ rest) = chars_loop (st (acc ++ solid l)) rest.
Proof.
  revert acc. induction l as [|c l IH]; intros acc H; [by rewrite app_nil_r|].
  cbn [app]. rewrite (chars_loop_cons _ _ _ _ (H acc c ltac:(left))).
  rewrite IH by (intros; apply H; by right). unfold solid. rewrite filter_cons.
  case_decide; [by rewrite <- app_assoc|done].
Qed.

Lemma chars_init_blanks q s k v b rest :
  Forall blank b → chars_loop (mk PARSE_INIT q s k v) (b ++ rest) = chars_loop (mk PARSE_INIT q s k v) rest.
Proof.
  intros Hb. apply chars_loop_skip. eapply Forall_impl; [exact Hb|]. intros c Hc. apply step_init_blank.
  unfold blank, plain_char in Hc. lia.
Qed.

Lemma chars_init_zeros q s k v n :
  chars_loop (mk PARSE_INIT q s k v) (replicate n x00) = mk PARSE_INIT q s k v.
Proof. rewrite <- (app_nil_r (replicate n x00)). by rewrite chars_loop_skip by by apply Forall_replicate. Qed.

Lemma chars_value_zeros s k v n :
  chars_loop (mk PARSE_VALUE false s k v) (replicate n x00) = mk PARSE_VALUE false s k v.
Proof. rewrite <- (app_nil_r (replicate n x00)). by rewrite chars_loop_skip by by apply Forall_replicate. Qed.

Lemma chars_key_zeros q s k v n :
  chars_loop (mk PARSE_KEY q s k v) (replicate n x00) = mk PARSE_KEY q s k v.
Proof. destruct n as [|n]; [done|]. cbn [replicate]. by apply chars_loop_break. Qed.

(** The key, from [PARSE_INIT]: its characters become [cur_key]. *)
Lemma chars_key q s k v key rest :
  key_ok key →
  chars_loop (mk PARSE_INIT q s k v) (key ++ rest) = chars_loop (mk PARSE_KEY q s (solid key) v) rest.
Proof.
  intros (Hz & Hh). destruct key as [|c key]; [done|]. destruct Hh as (Hc & H1 & H2 & He).
  apply not_elem_of_cons in Hz as [_ Hz].
  cbn [app]. rewrite (chars_loop_cons _ _ _ _ (step_init_key q s k v c Hc H1 H2)).
  rewrite (chars_loop_solid (λ key, mk PARSE_KEY q s key v) [c]).
  - unfold solid. by rewrite (filter_cons_True _ c).
  - intros acc c' Hc'. assert (c' ≠ "="%byte) by (by intros ->). assert (c' ≠ x00) by (by intros ->).
    case_decide; [by apply step_key|by apply step_key_blank].
Qed.

(** Everything up to the value. *)
Lemma chars_to_value s b key rest :
  Forall blank b → key_ok key →
  chars_loop (mk PARSE_INIT false s [] []) (b ++ key ++ ["="%byte] ++ rest)
  = chars_loop (mk PARSE_VALUE false s (solid key) []) rest.
Proof.
  intros Hb Hk. rewrite chars_init_blanks, chars_key by done.
  cbn [app]. by rewrite (chars_loop_cons _ (mk PARSE_VALUE false s (solid key) [])) by done.
Qed.

Lemma chars_plain s key val rest :
  QUOTE ∉ val →
  chars_loop (mk PARSE_VALUE false s key []) (val ++ rest) = chars_loop (mk PARSE_VALUE false s key (solid val)) rest.
Proof.
  intros Hq. rewrite (chars_loop_solid (λ val, mk PARSE_VALUE false s key val) []); [done|].
  intros acc c Hc. assert (c ≠ QUOTE) by (by intros ->). case_decide as Hp.
  - by apply step_value_plain.
  - apply step_value_blank. unfold plain_char in Hp. lia.
Qed.

(** An open quote: what follows is appended as it is. *)
Lemma chars_open s key pre val rest :
  QUOTE ∉ val →
  chars_loop (mk PARSE_VALUE false s key pre) ([QUOTE] ++ val ++ rest)
  = chars_loop (mk PARSE_VALUE true s key (pre ++ val)) rest.
Proof.
  intros Hq. cbn [app]. rewrite (chars_loop_cons _ (mk PARSE_VALUE true s key pre)) by done.
  apply (chars_loop_collect (λ val, mk PARSE_VALUE true s key val) pre).
  intros acc c Hc. apply step_value_quoted. by intros ->.
Qed.

Lemma chars_section q s k v name rest :
  "]"%byte ∉ name →
  chars_loop (mk PARSE_INIT q s k v) (["["%byte] ++ name ++ ["]"%byte] ++ rest)
  = mk PARSE_SECTION q name k v.
Proof.
  intros Hn. cbn [app]. rewrite (chars_loop_cons _ _ _ _ (step_init_section q s k v)).
  rewrite (chars_loop_collect (λ name, mk PARSE_SECTION q name k v) []).
  - by apply chars_loop_break.
  - intros acc c Hc. apply step_section. by intros ->.
Qed.

(** * Lemmas: lines *)

(** The end of [line_step]. *)
Definition line_step_of (this : Config) (st : parser) : Config * bytes :=
  ({| conf_path := conf_path this;
      conf := if decide (cur_key st ≠ [] ∧ cur_val st ≠ [])
              then conf_put (conf this) (cur_sec st) (cur_key st) (cur_val st) else conf this;
      ext_name := if decide (cur_sec st ≠ bs "kvproxy" ∧ cur_key st = bs "extension")
                  then cur_sec st else ext_name this |}, cur_sec st).

Lemma line_step_eq this sec l :
  line_step this sec l = line_step_of this (chars_loop (mk PARSE_INIT false sec [] []) (line_buffer l)).
Proof. done. Qed.

Lemma solid_key k : key_ok k → solid k ≠ [].
Proof.
  intros (_ & Hh). destruct k as [|c k]; [done|]. unfold solid. by rewrite filter_cons_True by apply Hh.
Qed.

(** What the end of [line_step] makes of the variables. *)
Lemma step_end this sec key val :
  key ≠ [] →
  ({| conf_path := conf_path this;
      conf := if decide (key ≠ [] ∧ val ≠ []) then conf_put (conf this) sec key val else conf this;
      ext_name := if decide (sec ≠ bs "kvproxy" ∧ key = bs "extension") then sec else ext_name this |}, sec)
  = (entry_effect this sec key val, sec).
Proof.
  intros Hk. unfold entry_effect. destruct (decide (val = [])) as [->|Hv].
  - by rewrite (decide_False (P := key ≠ [] ∧ _)) by naive_solver.
  - by rewrite (decide_True (P := key ≠ [] ∧ _)).
Qed.

Lemma step_nothing this sec q p :
  line_step_of this (mk p q sec [] []) = (this, sec).
Proof. unfold line_step_of. cbn. rewrite ?decide_False by naive_solver. by destruct this. Qed.

(** The automaton gives a well-formed line its meaning. *)
Lemma line_step_effect this sec l :
  line_ok l → line_step this sec (render_line l) = line_effect (this, sec) l.
Proof.
  intros (_ & _ & Hok). rewrite line_step_eq. unfold line_buffer. generalize (LINE_SIZE - length (render_line l))%nat. intros n.
  destruct l as [b|b t|b s j|b k|b k v|b k p v j]; cbn [render_line line_effect]; rewrite <- ?app_assoc.
  - rewrite chars_init_blanks, chars_init_zeros by done. apply step_nothing.
  - rewrite chars_init_blanks by done. cbn [app].
    rewrite (chars_loop_break _ (mk PARSE_INIT false sec [] [])) by done. apply step_nothing.
  - destruct Hok as [Hb Hs]. rewrite chars_init_blanks, chars_section by done. apply step_nothing.
  - destruct Hok as [Hb Hk]. rewrite chars_init_blanks, chars_key, chars_key_zeros by done.
    apply step_end. by apply solid_key.
  - destruct Hok as (Hb & Hk & Hv). rewrite chars_to_value, chars_plain, chars_value_zeros by done.
    apply step_end. by apply solid_key.
  - destruct Hok as (Hb & Hk & Hp & Hv). rewrite chars_to_value, chars_plain, chars_open by done. cbn [app].
    rewrite (chars_loop_break _ (mk PARSE_VALUE true sec (solid k) (solid p ++ v))) by done.
    apply step_end. by apply solid_key.
Qed.

Lemma getline_line room l rest :
  (length l <= room)%nat → x0a ∉ l → getline room (l ++ x0a :: rest) = (l, rest, AtDelim).
Proof.
  revert room. induction l as [|c l IH]; intros room Hlen Hn; cbn [app getline].
  - by rewrite decide_True.
  - apply not_elem_of_cons in Hn as [Hc Hn]. cbn in Hlen. rewrite decide_False by done.
    destruct room as [|room]; [lia|]. by rewrite IH by (done || lia).
Qed.

Lemma getline_last room l : (length l <= room)%nat → x0a ∉ l → getline room l = (l, [], AtEof).
Proof.
  revert room. induction l as [|c l IH]; intros room Hlen Hn; cbn [getline]; [done|].
  apply not_elem_of_cons in Hn as [Hc Hn]. cbn in Hlen. rewrite decide_False by done.
  destruct room as [|room]; [lia|]. by rewrite IH by (done || lia).
Qed.

Lemma lines_loop_render fuel this sec ls last :
  (length ls < fuel)%nat → Forall line_ok ls → line_ok last →
  lines_loop fuel this sec (render ls ++ render_line last) = Ret (foldl line_effect (this, sec) (ls ++ [last])).1.
Proof.
  intros Hf Hok Hlast. revert fuel this sec Hf Hok. induction ls as [|l ls IH]; intros fuel this sec Hf Hok;
    (destruct fuel as [|fuel]; [cbn in Hf; lia|]); cbn [lines_loop].
  - change (render [] ++ render_line last) with (render_line last). pose proof Hlast as (Hlen & Hn & _).
    rewrite getline_last by (unfold LINE_SIZE in *; done || lia).
    rewrite line_step_effect by done. cbn [app foldl]. by destruct (line_effect (this, sec) last).
  - apply Forall_cons in Hok as [Hl Hok].
    change (render (l :: ls)) with ((render_line l ++ [x0a]) ++ render ls). rewrite <- !app_assoc.
    cbn [app]. pose proof Hl as (Hlen & Hn & _). unfold LINE_SIZE in Hlen.
    rewrite getline_line by (unfold LINE_SIZE; done || lia).
    rewrite line_step_effect by done. cbn [foldl].
    destruct (line_effect (this, sec) l) as [this' sec']. apply IH; [cbn in Hf; lia|done].
Qed.

Lemma render_length ls : (length ls <= length (render ls))%nat.
Proof.
  induction ls as [|l ls IH]; [done|].
  change (render (l :: ls)) with ((render_line l ++ [x0a]) ++ render ls).
  rewrite !length_app. cbn. lia.
Qed.

(** * Lemmas: termination and errors *)

(** [getline] against the fields between newlines. *)
Lemma getline_fields room rest f fs l r e :
  fields x0a rest = f :: fs → getline room rest = (l, r, e) →
  match e with
  | AtEof => (length f <= room)%nat ∧ fs = []
  | AtDelim => (length f <= room)%nat ∧ fields x0a r = fs ∧ (length r < length rest)%nat
  | AtFull => (room < length f)%nat
  end.
Proof.
  revert room f fs l r e. induction rest as [|c rest IH]; intros room f fs l r e Hf Hg.
  { cbn in Hf, Hg. simplify_eq. cbn. split; [lia|done]. }
  cbn [getline] in Hg. destruct (decide (c = x0a)) as [->|Hc].
  - rewrite fields_sep in Hf. simplify_eq. cbn. split_and!; [lia|done|lia].
  - destruct (fields_cons x0a rest) as (f' & fs' & Hf'). rewrite (fields_char _ _ _ _ _ Hc Hf') in Hf.
    simplify_eq. destruct room as [|room]; [simplify_eq; cbn; lia|].
    destruct (getline room rest) as [[l' r'] e'] eqn:E. simplify_eq.
    specialize (IH _ _ _ _ _ _ Hf' E). destruct e; cbn; naive_solver lia.
Qed.

Definition long_line (l : bytes) : Prop := (LINE_SIZE <= length l)%nat.
#[export] Instance long_line_dec l : Decision (long_line l).
Proof. unfold long_line. apply _. Defined.

Lemma lines_loop_result fuel this sec rest :
  (length rest < fuel)%nat →
  if decide (Exists long_line (fields x0a rest))
  then lines_loop fuel this sec rest = Exit EXIT_FAILURE
  else ∃ this', lines_loop fuel this sec rest = Ret this'.
Proof.
  revert this sec rest. induction fuel as [|fuel IH]; intros this sec rest Hf; [lia|].
  cbn [lines_loop]. destruct (getline (LINE_SIZE - 1) rest) as [[l r] e] eqn:E.
  destruct (line_step this sec l) as [this' sec']. destruct (fields_cons x0a rest) as (f & fs & Hfs).
  pose proof (getline_fields _ _ _ _ _ _ _ Hfs E) as H. rewrite Hfs. destruct e.
  - destruct H as [Hl ->]. rewrite decide_False; [eauto|].
    intros [Hlong|[]%Exists_nil]%Exists_cons. unfold long_line, LINE_SIZE in *. lia.
  - destruct H as (Hl & <- & Hr). specialize (IH this' sec' r ltac:(lia)).
    destruct (decide (Exists long_line (fields x0a r))) as [Hx|Hx].
    + rewrite decide_True; [done|]. by right.
    + rewrite decide_False; [done|]. intros [Hlong|?]%Exists_cons; [|done].
      unfold long_line, LINE_SIZE in *. lia.
  - rewrite decide_True; [done|]. left. unfold long_line, LINE_SIZE in *. lia.
Qed.

(** * Lemmas: getters *)

(** The value a read of the entry sees. *)
Definition reads (m : CONF_T) (section key : bytes) : bytes :=
  default [] (default ∅ (m !! section) !! key).

(** Configurations no [getConfStr] tells apart. *)
#[export] Instance config_equiv : Equiv Config := λ c c',
  conf_path c = conf_path c' ∧ ext_name c = ext_name c' ∧
  ∀ s k, reads (conf c) s k = reads (conf c') s k.

#[export] Instance config_equiv_equivalence : Equivalence (≡@{Config}).
Proof.
  split.
  - done.
  - intros c c' (? & ? & ?). split_and!; naive_solver.
  - intros c1 c2 c3 (? & ? & H1) (? & ? & H2). split_and!; [congruence..|].
    intros s k. by rewrite H1.
Qed.

Lemma conf_at_reads m section key s k :
  (conf_at m section key).1 = reads m section key ∧
  reads (conf_at m section key).2 s k = reads m s k.
Proof.
  unfold conf_at. pose proof (at_value ∅ m section) as Hv. pose proof (at_lookup ∅ m section s) as Hl.
  destruct (at_ ∅ m section) as [sec m1]; cbn in *. subst sec.
  pose proof (at_value [] (default ∅ (m !! section)) key) as Hw.
  pose proof (at_default [] (default ∅ (m !! section)) key k) as Hd.
  destruct (at_ [] (default ∅ (m !! section)) key) as [v sec]; cbn in *. split; [done|].
  unfold reads. destruct (decide (s = section)) as [->|Hne].
  - by rewrite lookup_insert_eq.
  - rewrite lookup_insert_ne by done. by rewrite Hl.
Qed.

Lemma getConfStr_value this section key :
  (getConfStr this section key).1 =
  if decide (section = [] ∨ key = []) then [] else reads (conf this) section key.
Proof.
  unfold getConfStr. case_decide; [done|].
  pose proof (conf_at_reads (conf this) section key [] []) as [Hd _].
  by destruct (conf_at (conf this) section key).
Qed.

Lemma getConfStr_equiv this section key : (getConfStr this section key).2 ≡ this.
Proof.
  unfold getConfStr. case_decide; [done|].
  pose proof (λ s k, proj2 (conf_at_reads (conf this) section key s k)) as Hd.
  destruct (conf_at (conf this) section key) as [v m]. by split_and!.
Qed.

Lemma getConfStrSection_equiv this section : (getConfStrSection this section).2 ≡ this.
Proof.
  unfold getConfStrSection. case_decide; [done|].
  pose proof (at_default ∅ (conf this) section) as Hd.
  destruct (at_ ∅ (conf this) section) as [v m]. split_and!; [done..|].
  intros s k. unfold reads; cbn in *. by rewrite Hd.
Qed.

#[export] Instance getConfStr_proper :
  Proper ((≡) ==> (=) ==> (=) ==> prod_relation (=) (≡)) getConfStr.
Proof.
  intros c c' Hc s _ <- k _ <-. split.
  - rewrite !getConfStr_value. destruct Hc as (_ & _ & Hc). by rewrite Hc.
  - by rewrite !getConfStr_equiv.
Qed.

#[export] Hint Resolve getConfStr_equiv getConfStrSection_equiv : kv.

(** * Properties *)

(** The blanks a line starts with. *)
Lemma blank_prefix (l : bytes) :
  ∃ b r, l = b ++ r ∧ Forall blank b ∧ match r with c :: _ => plain_char c | [] => True end.
Proof.
  induction l as [|c l (b & r & -> & Hb & Hr)]; [by exists [], []|].
  destruct (decide (plain_char c)) as [Hc|Hc]; [by exists [], (c :: b ++ r)|]. exists (c :: b), r. split; [done|].
  split; [by constructor|done].
Qed.

(** The text behind a key and the equals sign. *)
Lemma value_line b k v :
  Forall blank b → key_ok k → let l := b ++ k ++ ["="%byte] ++ v in
  (length l < LINE_SIZE)%nat → x0a ∉ l → unclosed l ∨ ∃ il, line_ok il ∧ render_line il = l.
Proof.
  intros Hb Hk l Hlen Hn. destruct (decide (QUOTE ∈ v)) as [Hq|Hq].
  2: { right. exists (Plain b k v). by split_and!. }
  apply list_elem_of_split_l in Hq as (p & v1 & -> & Hp). destruct (decide (QUOTE ∈ v1)) as [Hq|Hq].
  - apply list_elem_of_split_l in Hq as (v2 & j & -> & Hv2). right. exists (Quoted b k p v2 j). by split_and!.
  - left. by constructor.
Qed.

(** Every line is of the grammar, or leaves something open. *)
Lemma every_line (l : bytes) :
  (length l < LINE_SIZE)%nat → x0a ∉ l → x00 ∉ l → unclosed l ∨ ∃ il, line_ok il ∧ render_line il = l.
Proof.
  intros Hlen Hn Hz. destruct (blank_prefix l) as (b & r & -> & Hb & Hr).
  destruct r as [|c r]; [right; exists (Empty b); rewrite app_nil_r in *; by split_and!|].
  destruct (decide (c = ";"%byte)) as [->|H1]; [right; exists (Comment b r); by split_and!|].
  destruct (decide (c = "["%byte)) as [->|H2].
  { destruct (decide ("]"%byte ∈ r)) as [Hin|Hin]; [right|left; by apply (unclosed_section b r)].
    apply list_elem_of_split_l in Hin as (s & j & -> & Hs). exists (Section_ b s j). by split_and!. }
  assert (x00 ∉ c :: r) as Hz' by set_solver. destruct (decide ("="%byte ∈ r)) as [Hin|Hin].
  - apply list_elem_of_split_l in Hin as (k & v & -> & Hk). apply (value_line b (c :: k) v); try done.
    split; [set_solver|done].
  - right. exists (KeyOnly b (c :: r)). by split_and!.
Qed.

(** Lines put together again, with a separator between them. *)
Fixpoint unfields (chr : byte) (fs : list bytes) : bytes :=
  match fs with
  | [] => []
  | [f] => f
  | f :: fs => f ++ chr :: unfields chr fs
  end.

Lemma unfields_fields chr l : unfields chr (fields chr l) = l.
Proof.
  induction l as [|c l IH]; [done|]. destruct (fields_cons chr l) as (f & fs & Hf).
  rewrite Hf in IH. destruct (decide (c = chr)) as [->|Hc].
  - rewrite fields_sep, Hf. change (chr :: unfields chr (f :: fs) = chr :: l). by rewrite IH.
  - rewrite (fields_char _ _ _ _ _ Hc Hf). rewrite <- IH. by destruct fs.
Qed.

Lemma fields_no_sep chr l f : f ∈ fields chr l → chr ∉ f.
Proof.
  revert f. induction l as [|c l IH]; intros f; [cbn; intros ->%list_elem_of_singleton; apply not_elem_of_nil|].
  destruct (fields_cons chr l) as (f' & fs & Hf). rewrite Hf in IH. destruct (decide (c = chr)) as [->|Hc].
  - rewrite fields_sep, Hf. intros [->|Hin]%elem_of_cons; [apply not_elem_of_nil|by apply IH].
  - rewrite (fields_char _ _ _ _ _ Hc Hf). intros [->|Hin]%elem_of_cons; [|apply IH; by right].
    apply not_elem_of_cons. split; [done|]. apply IH. by left.
Qed.

(** So is every file. *)
Lemma every_file (fs : list bytes) :
  fs ≠ [] → Forall (λ l, (length l < LINE_SIZE)%nat ∧ (x0a ∉ l) ∧ (x00 ∉ l) ∧ ¬ unclosed l) fs →
  ∃ ls last, Forall line_ok ls ∧ line_ok last ∧ render ls ++ render_line last = unfields x0a fs.
Proof.
  intros Hne. induction fs as [|l fs IH]; [done|]. intros [(H1 & H2 & H3 & H4) Hfs]%Forall_cons.
  destruct (every_line l H1 H2 H3) as [?|(il & Hil & <-)]; [done|].
  destruct fs as [|l2 fs]; [by exists [], il|]. destruct (IH ltac:(done) Hfs) as (ls & last & Hls & Hlast & E).
  exists (il :: ls), last. split; [by constructor|]. split; [done|].
  change (render (il :: ls)) with ((render_line il ++ [x0a]) ++ render ls). rewrite <- app_assoc, E.
  by rewrite <- app_assoc.
Qed.

(** C34: loading a file of lines of the grammar - empty ones, comments, section headers, keys without a value,
    and entries with a value that is quoted or not, with blanks anywhere - gives exactly the
    meaning of its lines: later entries override earlier ones, an entry belongs to the
    section header before it and does nothing when its value is empty, and the extension is the last
    non-kvproxy section with an [extension] entry.  The grammar has every file whose lines are shorter than 200
    bytes, have no NUL, and close their brackets and quotes. *)
Theorem loadConf_render (fs : bytes → option bytes) (this : Config) (content : bytes) :
  fs (conf_path this) = Some content →
  (∀ ls last, Forall line_ok ls → line_ok last → content = render ls ++ render_line last →
     loadConf fs this = Ret (foldl line_effect (this, []) (ls ++ [last])).1) ∧
  (Forall (λ l, (length l < LINE_SIZE)%nat ∧ (x00 ∉ l) ∧ ¬ unclosed l) (fields x0a content) →
     ∃ ls last, Forall line_ok ls ∧ line_ok last ∧ content = render ls ++ render_line last).
Proof.
  intros Hfs. split.
  - intros ls last Hok Hlast ->. unfold loadConf. rewrite Hfs. apply lines_loop_render; [|done..].
    pose proof (render_length ls). rewrite length_app. lia.
  - intros Hc. destruct (every_file (fields x0a content)) as (ls & last & H1 & H2 & E).
    + destruct (fields_cons x0a content) as (f & l & ->). done.
    + apply Forall_forall. intros l Hl. rewrite Forall_forall in Hc. destruct (Hc l Hl) as (? & ? & ?).
      split_and!; try done. by eapply fields_no_sep.
    + exists ls, last. rewrite E, unfields_fields. by split_and!.
Qed.

(** The file [etc/kvproxy.ini], line by line. *)
Definition kvproxy_ini : list ini_line :=
  [Section_ [] (bs "kvproxy") []; Plain [] (bs "port") (bs "55669"); Plain [] (bs "thread_count") (bs "2");
   Plain [] (bs "cpu_affinity") (bs "on"); Plain [] (bs "backlog") (bs "10000");
   Comment [] (bs "unit millisecond"); Plain [] (bs "recv_timeout") (bs "100");
   Comment [] (bs "log_path=/tmp/kvproxy.log"); Plain [] (bs "log_level") (bs "warn");
   Comment [] (bs "ext_path=../ext"); Comment [] (bs "unit MB"); Plain [] (bs "max_packet") (bs "1");
   Plain [] (bs "failover_threshold ") (bs " 2"); Comment [] (bs "unit second ");
   Plain [] (bs "failover_interval ") (bs " 2"); Plain [] (bs "async_size ") (bs " 50000"); Empty [];
   Section_ [] (bs "memcached") []; Plain [] (bs "extension") (bs "memcached.so");
   Plain [] (bs "hosts") (bs "master"); Comment [] (bs "hosts_backup=read");
   Plain [] (bs "hosts_read") (bs "master"); Quoted [] (bs "sync_str ") (bs " ") (bs "+") [];
   Comment [] (bs "binary or text"); Plain [] (bs "proto") (bs "binary"); Empty [];
   Section_ [] (bs "master") []; Quoted [] (bs "127.0.0.1:11211") [] (bs "1:50") []; Empty [];
   Section_ [] (bs "read") []; Quoted [] (bs "127.0.0.1:11212") [] (bs "2:50") []].

Definition demo_config : Config := {| conf_path := bs "kvproxy.ini"; conf := ∅; ext_name := [] |}.
Definition demo_fs (path : bytes) : option bytes :=
  if decide (path = bs "kvproxy.ini") then Some (render kvproxy_ini) else None.

Lemma loadConf_render_witness : ∃ c,
  loadConf demo_fs demo_config = Ret c ∧
  (getConfStr c (bs "kvproxy") (bs "async_size")).1 = bs "50000" ∧
  (getConfStr c (bs "memcached") (bs "sync_str")).1 = bs "+" ∧
  (getConfStr c (bs "master") (bs "127.0.0.1:11211")).1 = bs "1:50" ∧ getExtName c = bs "memcached".
Proof.
  eexists. split.
  - apply (proj1 (loadConf_render demo_fs demo_config (render kvproxy_ini) eq_refl) kvproxy_ini (Empty [])).
    + apply (bool_decide_unpack _). vm_compute. exact I.
    + apply (bool_decide_unpack _). vm_compute. exact I.
    + vm_compute. reflexivity.
  - vm_compute. done.
Defined.

(** [loadConf] always terminates: on a readable file it returns exactly when every line
    has at most 199 characters, and exits with failure otherwise; an unreadable file is a
    failure. *)
Theorem loadConf_total (fs : bytes → option bytes) (this : Config) :
  match fs (conf_path this) with
  | None => loadConf fs this = Exit EXIT_FAILURE
  | Some content =>
      if decide (Exists long_line (fields x0a content))
      then loadConf fs this = Exit EXIT_FAILURE
      else ∃ this', loadConf fs this = Ret this'
  end.
Proof.
  unfold loadConf. destruct (fs (conf_path this)) as [content|]; [|done].
  apply lines_loop_result. lia.
Qed.

(** One read of the configuration, through any getter. *)
Inductive getter_step (this : Config) : Config → Prop :=
  | read_str s k : getter_step this (getConfStr this s k).2
  | read_section s : getter_step this (getConfStrSection this s).2
  | read_int s k n this' : getConfInt this s k = Ret (n, this') → getter_step this this'
  | read_ints s m this' : getConfIntSection this s = Ret (m, this') → getter_step this this'
  | read_bool s k : getter_step this (getConfBool this s k).2
  | read_bools s : getter_step this (getConfBoolSection this s).2.

Lemma getter_step_equiv this this' : getter_step this this' → this' ≡ this.
Proof.
  destruct 1 as [s k|s|s k n this' Hg|s m this' Hg|s k|s].
  - apply getConfStr_equiv.
  - apply getConfStrSection_equiv.
  - rewrite <- (getConfStr_equiv this s k). unfold getConfInt in Hg.
    destruct (getConfStr this s k) as [v t]. case_decide; [by simplify_eq|].
    apply bind_Ret_inv in Hg as (? & _ & (? & _ & [= _ <-])%bind_Ret_inv). done.
  - rewrite <- (getConfStrSection_equiv this s). unfold getConfIntSection in Hg.
    destruct (getConfStrSection this s) as [v t].
    apply bind_Ret_inv in Hg as (? & _ & [= _ <-]). done.
  - rewrite <- (getConfStr_equiv this s k) at 2. unfold getConfBool.
    by destruct (getConfStr this s k).
  - rewrite <- (getConfStrSection_equiv this s) at 2. unfold getConfBoolSection.
    by destruct (getConfStrSection this s).
Qed.

(** Although the getters insert missing sections and keys, no sequence of reads
    changes what a later [getConfStr] returns. *)
Theorem getter_pure (this this' : Config) (section key : bytes) :
  rtc getter_step this this' →
  (getConfStr this' section key).1 = (getConfStr this section key).1.
Proof.
  intros Hr.
  assert (this' ≡ this) as E.
  { induction Hr as [|c1 c2 c3 Hs _ IH]; [done|]. rewrite IH. by apply getter_step_equiv. }
  by apply (getConfStr_proper _ _ E section section eq_refl key key eq_refl).
Qed.

Definition demo_loaded : Config := (foldl line_effect (demo_config, []) kvproxy_ini).1.

Lemma getter_pure_witness :
  (getConfStr (getConfStr demo_loaded (bs "memcached") (bs "hosts")).2 (bs "memcached") (bs "sync_str")).1
  = (getConfStr demo_loaded (bs "memcached") (bs "sync_str")).1.
Proof. apply getter_pure. apply rtc_once, read_str. Defined.

(** The whole-section getter does see the reads: reading a missing key of a section
    makes a later copy of that section contain the key with an empty value. *)
Theorem getter_pollutes (this : Config) (section key : bytes) :
  section ≠ [] → key ≠ [] → default ∅ (conf this !! section) !! key = None →
  (getConfStrSection this section).1 !! key = None ∧
  (getConfStrSection (getConfStr this section key).2 section).1 !! key = Some [].
Proof.
  intros Hs Hk Hnone. unfold getConfStrSection, getConfStr, conf_at.
  rewrite !decide_False by naive_solver. split.
  - pose proof (at_value ∅ (conf this) section) as Hv.
    destruct (at_ ∅ (conf this) section) as [v m]; cbn in *. by subst v.
  - pose proof (at_value ∅ (conf this) section) as Hv.
    destruct (at_ ∅ (conf this) section) as [v m]; cbn in *. subst v.
    unfold at_ at 2. rewrite Hnone. cbn. unfold at_. rewrite lookup_insert_eq. cbn.
    by rewrite lookup_insert_eq.
Qed.

Lemma getter_pollutes_witness :
  (getConfStrSection (getConfStr demo_loaded (bs "master") (bs "hosts")).2 (bs "master")).1
    !! bs "hosts" = Some [].
Proof.
  apply (getter_pollutes demo_loaded (bs "master") (bs "hosts")); [done|done|].
  vm_compute. reflexivity.
Defined.

(** A value whose closing quote is missing is stored padded with NUL bytes to the end
    of the 200-byte line buffer. *)
Theorem unterminated_quote (this : Config) (sec key val : bytes) :
  key_ok key → val ≠ [] → (QUOTE ∉ val) →
  (length (key ++ ["="%byte] ++ [QUOTE] ++ val) < LINE_SIZE)%nat →
  let line := key ++ ["="%byte] ++ [QUOTE] ++ val in
  conf (line_step this sec line).1
  = conf_put (conf this) sec (solid key) (val ++ replicate (LINE_SIZE - length line) x00).
Proof.
  intros Hk Hv Hq Hlen line. unfold line_step, line_buffer.
  set (n := (LINE_SIZE - length line)%nat). unfold line. rewrite <- !app_assoc.
  assert (QUOTE ∉ val ++ replicate n x00) as Ht.
  { intros [?|[[=] _]%elem_of_replicate]%elem_of_app. done. }
  pose proof (chars_to_value sec [] key ([QUOTE] ++ (val ++ replicate n x00) ++ []) (Forall_nil_2 _) Hk) as E.
  rewrite chars_open, app_nil_l, app_nil_r in E by done. rewrite E.
  cbn [proc val_quote cur_sec cur_key cur_val conf chars_loop app].
  rewrite decide_True; [done|]. split; [by apply solid_key|]. by destruct val.
Qed.

Lemma unterminated_quote_witness :
  reads (conf (line_step demo_config (bs "m") (bs "k=" ++ [QUOTE] ++ bs "v")).1) (bs "m") (bs "k")
  = bs "v" ++ replicate 196 x00.
Proof.
  assert (conf (line_step demo_config (bs "m") (bs "k=" ++ [QUOTE] ++ bs "v")).1
          = conf_put ∅ (bs "m") (bs "k") (bs "v" ++ replicate 196 x00)) as E.
  { apply (unterminated_quote demo_config (bs "m") (bs "k") (bs "v")); [|done| |unfold LINE_SIZE; cbn; lia].
    - apply (bool_decide_unpack _). vm_compute. exact I.
    - apply (bool_decide_unpack _). vm_compute. exact I. }
  rewrite E. vm_compute. reflexivity.
Defined.

(** [getConfInt] returns the integer a value was printed from, 0 for a missing or empty
    value, and an indeterminate number for a value that does not start with one. *)
Theorem getConfInt_cases (this : Config) (section key : bytes) :
  section ≠ [] → key ≠ [] →
  (∀ n, is_int n → reads (conf this) section key = sprintf_d n →
        ∃ this', getConfInt this section key = Ret (n, this') ∧ this' ≡ this) ∧
  (reads (conf this) section key = [] →
        ∃ this', getConfInt this section key = Ret (0, this') ∧ this' ≡ this) ∧
  (reads (conf this) section key ≠ [] → sscanf_d (reads (conf this) section key) = ScanNone →
        getConfInt this section key = Undef Indeterminate).
Proof.
  intros Hs Hk. unfold getConfInt.
  pose proof (getConfStr_value this section key) as Hv.
  pose proof (getConfStr_equiv this section key) as He.
  rewrite decide_False in Hv by naive_solver.
  destruct (getConfStr this section key) as [v this']; cbn in Hv, He. subst v. split_and!.
  - intros n Hn ->. pose proof (sscanf_sprintf n [] Hn I) as Hsc. rewrite app_nil_r in Hsc.
    rewrite decide_False.
    + unfold scan_into. rewrite Hsc. cbn. by exists this'.
    + intros E. by rewrite E in Hsc.
  - intros ->. rewrite decide_True by done. by exists this'.
  - intros Hne Hsc. rewrite decide_False by done. unfold scan_into. by rewrite Hsc.
Qed.

Lemma getConfInt_cases_witness :
  ∃ c, getConfInt demo_loaded (bs "kvproxy") (bs "async_size") = Ret (50000, c) ∧ c ≡ demo_loaded.
Proof.
  apply (getConfInt_cases demo_loaded (bs "kvproxy") (bs "async_size")); [done|done|done|].
  vm_compute. reflexivity.
Defined.
