(* ===== verification/Log.v ===== *)
(** [Logger] of [src/log.h], [src/log.cpp]: levels, the line buffer, the log file.

    [logx] assembles a line in [char buf[4096]].  The buffer is modelled as memory,
    so an overrun is undefined; [logx_line] shows that the arithmetic on [space] keeps
    every line inside it and gives the line that is written. *)
From S2P Require Import Prelude Util.

(** * Data *)

Definition LEVEL_FATAL : Z := 0.
Definition LEVEL_ERROR : Z := 1.
Definition LEVEL_WARN : Z := 2.
Definition LEVEL_INFO : Z := 3.
Definition LEVEL_DEBUG : Z := 4.

Definition LEVEL_NAME_LEN : Z := 8.
Definition LOG_BUF_LEN : Z := 4096.

(** [log_file]: what has been appended; [None] is a file that is not open. *)
Record Logger := { log_level : Z; log_file : option bytes }.

(** The constructor. *)
Definition Logger_new : Logger := {| log_level := LEVEL_ERROR; log_file := None |}.

(** The broken-down local time and the milliseconds, from [localtime] and [gettimeofday]. *)
Record stamp := { tm_year : Z; tm_mon : Z; tm_mday : Z; tm_hour : Z; tm_min : Z; tm_sec : Z; tm_msec : Z }.

(** * Operations *)

Definition setLevel (this : Logger) (level : Z) : Logger :=
  {| log_level := level; log_file := log_file this |}.

Definition getLevel (levelname : bytes) : Z :=
  if decide (levelname = bs "debug") then LEVEL_DEBUG
  else if decide (levelname = bs "info") then LEVEL_INFO
  else if decide (levelname = bs "warn") then LEVEL_WARN
  else if decide (levelname = bs "error") then LEVEL_ERROR
  else if decide (levelname = bs "fatal") then LEVEL_FATAL
  else LEVEL_ERROR.

Definition levelName (level : Z) : bytes :=
  if decide (level = LEVEL_FATAL) then bs "[FATAL] "
  else if decide (level = LEVEL_ERROR) then bs "[ERROR] "
  else if decide (level = LEVEL_WARN) then bs "[WARN ] "
  else if decide (level = LEVEL_INFO) then bs "[INFO ] "
  else if decide (level = LEVEL_DEBUG) then bs "[DEBUG] "
  else [].

(** [open(filename)]; [fs] is the present content of a file that can be opened for append. *)
Definition open (fs : bytes → option bytes) (this : Logger) (filename : bytes) : outcome Logger :=
  match fs filename with
  | Some content => Ret {| log_level := log_level this; log_file := Some content |}
  | None => Exit EXIT_FAILURE
  end.

(** [%0<w>d] of a non-negative number. *)
Definition sprintf_0d (w : nat) (n : Z) : bytes :=
  let d := dec_nat n in replicate (w - length d) "0"%byte ++ d.

Definition sprintf_stamp (t : stamp) : bytes :=
  sprintf_0d 4 (tm_year t) ++ bs "-" ++ sprintf_0d 2 (tm_mon t) ++ bs "-" ++ sprintf_0d 2 (tm_mday t)
  ++ bs " " ++ sprintf_0d 2 (tm_hour t) ++ bs ":" ++ sprintf_0d 2 (tm_min t) ++ bs ":"
  ++ sprintf_0d 2 (tm_sec t) ++ bs "." ++ sprintf_0d 3 (tm_msec t) ++ bs " ".

(** [vsnprintf(ptr, space, fmt, ap)] where the arguments format to [msg]: writes at most
    [space - 1] characters and a terminator, and returns the untruncated length. *)
Definition vsnprintf (buf : bytes) (ptr space : Z) (msg : bytes) : outcome (bytes * Z) :=
  buf ← (if decide (0 < space) then mem_write buf ptr (take (Z.to_nat (space - 1)) msg ++ [x00])
         else if decide (space = 0) then Ret buf else Undef OutOfBounds);
  Ret (buf, Z.of_nat (length msg)).

(** [logx]: [buf0] is the uninitialised stack buffer, [t] the time, [msg] the formatted
    arguments.  Returns the length written. *)
Definition logx (buf0 : bytes) (t : stamp) (this : Logger) (level : Z) (msg : bytes)
    : outcome (Z * Logger) :=
  if decide (log_level this < level) then Ret (0, this)
  else
    let ts := sprintf_stamp t in
    buf ← mem_write buf0 0 (ts ++ [x00]);
    let ptr := Z.of_nat (length ts) in
    name ← mem_read (levelName level ++ [x00]) 0 LEVEL_NAME_LEN;
    buf ← mem_write buf ptr name;
    let ptr := ptr + LEVEL_NAME_LEN in
    let space := LOG_BUF_LEN - ptr - 10 in
    '(buf, len) ← vsnprintf buf ptr space msg;
    let ptr := ptr + (if decide (space < len) then space else len) in
    buf ← mem_write buf ptr [x0a];
    let ptr := ptr + 1 in
    buf ← mem_write buf ptr [x00];
    out ← mem_read buf 0 ptr;
    Ret (ptr, {| log_level := log_level this;
                 log_file := (λ f, f ++ out) <$> log_file this |}).

(** [log_write] and the methods [debug] ... [fatal] are [logx] at a level. *)
Definition log_write (buf0 : bytes) (t : stamp) (this : Logger) (level : Z) (msg : bytes)
    : outcome (Z * Logger) := logx buf0 t this level msg.
Definition debug buf0 t this msg := logx buf0 t this LEVEL_DEBUG msg.
Definition info buf0 t this msg := logx buf0 t this LEVEL_INFO msg.
Definition warn buf0 t this msg := logx buf0 t this LEVEL_WARN msg.
Definition error buf0 t this msg := logx buf0 t this LEVEL_ERROR msg.
Definition fatal buf0 t this msg := logx buf0 t this LEVEL_FATAL msg.

(** The destructor. *)
Definition Logger_delete (this : Logger) : Logger := {| log_level := log_level this; log_file := None |}.

(** The functions on the one logger of the program. *)
Definition log_open (fs : bytes → option bytes) (this : Logger) (filename : bytes) : outcome Logger := open fs this filename.
Definition get_log_level (levelname : bytes) : Z := getLevel levelname.
Definition set_log_level (this : Logger) (level : Z) : Logger := setLevel this level.

(** * Specification *)

(** A time [localtime] returns, in a four-digit year. *)
Definition stamp_ok (t : stamp) : Prop :=
  0 <= tm_year t < 10000 ∧ 0 <= tm_mon t < 100 ∧ 0 <= tm_mday t < 100 ∧ 0 <= tm_hour t < 100
  ∧ 0 <= tm_min t < 100 ∧ 0 <= tm_sec t < 100 ∧ 0 <= tm_msec t < 1000.

Definition is_level (level : Z) : Prop := LEVEL_FATAL <= level <= LEVEL_DEBUG.

(** The text of a message in its line: 4054 bytes at most, the last of them a NUL when
    the message was cut. *)
Definition log_text (msg : bytes) : bytes :=
  if decide (Z.of_nat (length msg) < 4054) then msg else take 4053 msg ++ [x00].

Definition log_line (t : stamp) (level : Z) (msg : bytes) : bytes :=
  sprintf_stamp t ++ levelName level ++ log_text msg ++ [x0a].

(** * Lemmas *)

Lemma sprintf_0d_length w n : (0 < w)%nat → 0 <= n < 10 ^ Z.of_nat w → length (sprintf_0d w n) = w.
Proof.
  intros Hw Hn. unfold sprintf_0d, dec_nat. rewrite length_app, length_replicate.
  pose proof (dec_digits_length (S (Z.to_nat (Z.log2 n))) n w Hn Hw). lia.
Qed.

Lemma sprintf_stamp_length t : stamp_ok t → length (sprintf_stamp t) = 24%nat.
Proof.
  intros (?&?&?&?&?&?&?). unfold sprintf_stamp. rewrite !length_app, !sprintf_0d_length by lia. done.
Qed.

Lemma levelName_length level : is_level level → length (levelName level) = 8%nat.
Proof.
  unfold is_level, LEVEL_FATAL, LEVEL_DEBUG. intros H.
  assert (level = 0 ∨ level = 1 ∨ level = 2 ∨ level = 3 ∨ level = 4) as Hl by lia.
  by repeat destruct Hl as [->|Hl]; [..|subst].
Qed.

(** Appending to the part of a buffer already filled. *)
(** The formatted message lands at the write position, its terminator after it. *)
Lemma vsnprintf_append pre rest msg :
  length rest = 4064%nat →
  ∃ rest', vsnprintf (pre ++ rest) (Z.of_nat (length pre)) 4054 msg
           = Ret (pre ++ take 4053 msg ++ x00 :: rest', Z.of_nat (length msg))
  ∧ length (take 4053 msg ++ x00 :: rest') = 4064%nat.
Proof.
  intros Hr. exists (drop (length (take 4053 msg ++ [x00])) rest).
  assert (length (take 4053 msg) <= 4053)%nat as Ht by (rewrite length_take; lia).
  unfold vsnprintf. rewrite decide_True by lia.
  change (Z.to_nat (4054 - 1)) with 4053%nat.
  rewrite mem_write_append by (rewrite length_app; cbn [length]; lia).
  cbn [mbind outcome_bind]. split.
  - by rewrite <- !app_assoc.
  - rewrite !length_app. cbn [length]. rewrite length_drop. lia.
Qed.

(** From the end of the level name to the file. *)
Lemma log_tail pre rest msg (k : Z → bytes → outcome (Z * Logger)) :
  length rest = 4064%nat → length pre = 32%nat →
  ('(buf, len) ← vsnprintf (pre ++ rest) 32 4054 msg;
   let ptr := 32 + (if decide (4054 < len) then 4054 else len) in
   buf ← mem_write buf ptr [x0a];
   let ptr := ptr + 1 in
   buf ← mem_write buf ptr [x00];
   out ← mem_read buf 0 ptr;
   k ptr out)
  = k (Z.of_nat (length (pre ++ log_text msg ++ [x0a]))) (pre ++ log_text msg ++ [x0a]).
Proof.
  intros Hr Hp. destruct (vsnprintf_append pre rest msg Hr) as (rest' & Hv & Hl).
  rewrite Hp in Hv. change (Z.of_nat 32) with 32 in Hv. rewrite Hv. cbn [mbind outcome_bind].
  assert (∃ rest1, pre ++ take 4053 msg ++ x00 :: rest' = (pre ++ log_text msg) ++ rest1 ∧
          (2 <= length rest1)%nat ∧
          32 + (if decide (4054 < Z.of_nat (length msg)) then 4054 else Z.of_nat (length msg))
          = Z.of_nat (length (pre ++ log_text msg))) as (rest1 & -> & Hr1 & ->).
  { unfold log_text. rewrite length_app in Hl. cbn [length] in Hl. rewrite length_take in Hl.
    destruct (decide (Z.of_nat (length msg) < 4054)).
    - exists (x00 :: rest'). rewrite take_ge by lia. rewrite <- app_assoc.
      split_and!; [done|cbn [length]; lia|].
      rewrite decide_False by lia. rewrite length_app. lia.
    - exists rest'. rewrite <- !app_assoc. split_and!; [done|lia|].
      rewrite !length_app, length_take, Hp. cbn [length]. case_decide; lia. }
  rewrite mem_write_append by (cbn; lia). cbn [mbind outcome_bind length].
  destruct rest1 as [|r0 [|r1 rest1]]; [cbn in Hr1; lia..|]. cbn [drop].
  replace (Z.of_nat (length (pre ++ log_text msg)) + 1)
    with (Z.of_nat (length ((pre ++ log_text msg) ++ [x0a]))) by (rewrite !length_app; cbn; lia).
  rewrite mem_write_append by (cbn; lia). cbn [mbind outcome_bind length drop].
  rewrite <- (app_assoc (_ ++ [x0a])), mem_read_prefix. cbn [mbind outcome_bind].
  by rewrite <- !app_assoc.
Qed.

(** [logx] writes nothing above the configured level, and otherwise appends exactly one
    line (time, level, message, newline) of at most 4087 bytes, staying inside its
    4096-byte buffer; a message of 4054 bytes or more is cut at 4053 and a NUL. *)
Theorem logx_line (buf0 : bytes) (t : stamp) (this : Logger) (level : Z) (msg : bytes) :
  length buf0 = Z.to_nat LOG_BUF_LEN → stamp_ok t → is_level level →
  logx buf0 t this level msg =
    (if decide (log_level this < level) then Ret (0, this)
     else Ret (Z.of_nat (length (log_line t level msg)),
               {| log_level := log_level this;
                  log_file := (λ f, f ++ log_line t level msg) <$> log_file this |}))
  ∧ (length (log_line t level msg) <= 4087)%nat.
Proof.
  intros Hb Ht Hl. change (Z.to_nat LOG_BUF_LEN) with 4096%nat in Hb.
  pose proof (sprintf_stamp_length t Ht) as Hts.
  pose proof (levelName_length level Hl) as Hn. split.
  - unfold logx. case_decide; [done|].
    pose proof (mem_write_append [] buf0 (sprintf_stamp t ++ [x00])) as Hw.
    cbn [app length] in Hw. change (Z.of_nat 0) with 0 in Hw.
    rewrite Hw by (rewrite length_app, Hts, Hb; cbn; lia). cbn [mbind outcome_bind].
    pose proof (mem_read_prefix (levelName level) [x00]) as Hm. rewrite Hn in Hm.
    change LEVEL_NAME_LEN with (Z.of_nat 8). rewrite Hm.
    cbn [mbind outcome_bind]. rewrite <- app_assoc.
    set (r1 := [x00] ++ drop (length (sprintf_stamp t ++ [x00])) buf0).
    assert (length r1 = 4072%nat) as Hr1.
    { unfold r1. rewrite length_app, length_drop, length_app, Hb, Hts. cbn. lia. }
    rewrite mem_write_append by lia. cbn [mbind outcome_bind].
    rewrite Hts. change (Z.of_nat 24 + Z.of_nat 8) with 32. change (LOG_BUF_LEN - 32 - 10) with 4054.
    etrans; [apply (log_tail (sprintf_stamp t ++ levelName level) (drop (length (levelName level)) r1) msg
      (λ ptr out, Ret (ptr, {| log_level := log_level this;
                               log_file := (λ f, f ++ out) <$> log_file this |})))|].
    + rewrite length_drop. lia.
    + rewrite length_app. lia.
    + unfold log_line. by rewrite <- !app_assoc.
  - unfold log_line, log_text. rewrite !length_app, Hts, Hn. cbn [length].
    case_decide; [lia|]. rewrite length_app, length_take. cbn [length]. lia.
Qed.

Definition demo_stamp : stamp := {| tm_year := 2015; tm_mon := 1; tm_mday := 11; tm_hour := 9;
  tm_min := 5; tm_sec := 7; tm_msec := 42 |}.

Lemma logx_line_witness : ∃ this',
  logx (replicate 4096 xff) demo_stamp {| log_level := LEVEL_WARN; log_file := Some [] |}
    LEVEL_ERROR (bs "hosts in config is empty") = Ret (57, this') ∧
  log_file this' = Some (bs "2015-01-11 09:05:07.042 [ERROR] hosts in config is empty" ++ [x0a]).
Proof.
  eexists. split.
  - etrans; [apply (logx_line (replicate 4096 xff) demo_stamp); [|unfold stamp_ok; cbn; lia|]|].
    + by rewrite length_replicate.
    + unfold is_level, LEVEL_FATAL, LEVEL_DEBUG, LEVEL_ERROR. lia.
    + vm_compute. reflexivity.
  - vm_compute. reflexivity.
Defined.

(** A level outside the five has the empty name, from which [logx] copies eight bytes:
    past the end of the literal. *)
Theorem logx_bad_level (buf0 : bytes) (t : stamp) (this : Logger) (level : Z) (msg : bytes) :
  length buf0 = Z.to_nat LOG_BUF_LEN → stamp_ok t → ¬ is_level level → level <= log_level this →
  logx buf0 t this level msg = Undef OutOfBounds.
Proof.
  intros Hb Ht Hl Hle. change (Z.to_nat LOG_BUF_LEN) with 4096%nat in Hb.
  pose proof (sprintf_stamp_length t Ht) as Hts. unfold logx.
  rewrite decide_False by lia.
  pose proof (mem_write_append [] buf0 (sprintf_stamp t ++ [x00])) as Hw.
  cbn [app length] in Hw. change (Z.of_nat 0) with 0 in Hw.
  rewrite Hw by (rewrite length_app, Hts, Hb; cbn; lia). cbn [mbind outcome_bind].
  assert (levelName level = []) as ->; [|done].
  unfold is_level, levelName in *. rewrite !decide_False; [done|..]; intros ->; apply Hl; done.
Qed.

Lemma logx_bad_level_witness :
  logx (replicate 4096 xff) demo_stamp {| log_level := 9; log_file := None |} 7 [] = Undef OutOfBounds.
Proof.
  apply (logx_bad_level (replicate 4096 xff) demo_stamp); [by rewrite length_replicate| | |].
  - unfold stamp_ok; cbn; lia.
  - unfold is_level, LEVEL_FATAL, LEVEL_DEBUG. lia.
  - cbn. lia.
Defined.
