(* ===== verification/Net.v ===== *)
(** The socket calls the program makes, as an interface.

    [Net W] are the calls, over a world [W] that the kernel and the peers change;
    [NetOk] is what POSIX promises about descriptors and lengths and what the proofs
    use.  [sim] is a scripted network that implements both: the examples run on it. *)
From S2P Require Import Prelude.

Definition EINTR : Z := 4.
Definition EBADF : Z := 9.
Definition EAGAIN : Z := 11.

(** * The interface *)

Class Net (W : Type) := {
  (** The open descriptors and [errno]. *)
  open_fds : W → gset Z;
  errno : W → Z;
  (** [socket], [setsockopt(SO_KEEPALIVE)], [connect], [close]. *)
  sys_socket : W → Z * W;
  sys_setsockopt : W → Z → Z * W;
  sys_connect : W → Z → bytes → Z → Z * W;
  sys_close : W → Z → W;
  (** [send(fd, d, |d|)]. *)
  sys_send : W → Z → bytes → Z * W;
  (** [select] for reading on one descriptor: the result and [FD_ISSET]. *)
  sys_select : W → Z → Z → Z * bool * W;
  (** [recv(fd, buf, n)]: the result and the bytes stored. *)
  sys_recv : W → Z → Z → Z * bytes * W
}.

Class NetOk (W : Type) `{!Net W} := {
  socket_ok w :
    ((sys_socket w).1 = -1 ∧ open_fds (sys_socket w).2 = open_fds w) ∨
    (0 <= (sys_socket w).1 ∧ ((sys_socket w).1 ∉ open_fds w) ∧
     open_fds (sys_socket w).2 = {[ (sys_socket w).1 ]} ∪ open_fds w);
  setsockopt_open w fd : open_fds (sys_setsockopt w fd).2 = open_fds w;
  connect_open w fd host port : open_fds (sys_connect w fd host port).2 = open_fds w;
  close_open w fd : open_fds (sys_close w fd) = open_fds w ∖ {[ fd ]};
  send_open w fd d : open_fds (sys_send w fd d).2 = open_fds w;
  send_len w fd d : -1 <= (sys_send w fd d).1 <= Z.of_nat (length d);
  select_open w fd t : open_fds (sys_select w fd t).2 = open_fds w;
  select_closed w fd t : fd ∉ open_fds w →
    (sys_select w fd t).1.1 = -1 ∧ errno (sys_select w fd t).2 = EBADF;
  recv_open w fd n : open_fds (sys_recv w fd n).2 = open_fds w;
  recv_len w fd n :
    -1 <= (sys_recv w fd n).1.1 <= Z.max 0 n ∧
    length (sys_recv w fd n).1.2 = Z.to_nat (sys_recv w fd n).1.1
}.

(** What the peers have been sent: [sent w fd] are the bytes accepted on the connection [fd]
    since it was made. *)
Class NetLog (W : Type) `{!Net W} := {
  sent : W → Z → bytes;
  socket_sent w fd :
    sent (sys_socket w).2 fd = if decide (fd = (sys_socket w).1 ∧ 0 <= fd) then [] else sent w fd;
  setsockopt_sent w fd : sent (sys_setsockopt w fd).2 = sent w;
  connect_sent w fd host port : sent (sys_connect w fd host port).2 = sent w;
  close_sent w fd : sent (sys_close w fd) = sent w;
  send_sent w fd d fd' :
    sent (sys_send w fd d).2 fd' =
    if decide (fd' = fd) then sent w fd ++ take (Z.to_nat (sys_send w fd d).1) d else sent w fd'
}.

(** The calls fail, or are interrupted, finitely often: [patience] bounds how often. *)
Class NetPatience (W : Type) `{!Net W} := {
  patience : W → nat;
  socket_patience w : (patience (sys_socket w).2 <= patience w)%nat;
  setsockopt_patience w fd : (patience (sys_setsockopt w fd).2 <= patience w)%nat;
  connect_patience w fd host port : (patience (sys_connect w fd host port).2 <= patience w)%nat;
  close_patience w fd : (patience (sys_close w fd) <= patience w)%nat;
  send_patience w fd d : (patience (sys_send w fd d).2 <= patience w)%nat;
  send_fails w fd d : d ≠ [] → (sys_send w fd d).1 <= 0 → (patience (sys_send w fd d).2 < patience w)%nat;
  select_patience w fd t : (patience (sys_select w fd t).2 <= patience w)%nat;
  select_fails w fd t :
    (sys_select w fd t).1.1 < 0 ∧ errno (sys_select w fd t).2 = EINTR ∨
    0 < (sys_select w fd t).1.1 ∧ (sys_select w fd t).1.2 = false →
    (patience (sys_select w fd t).2 < patience w)%nat;
  recv_patience w fd n : (patience (sys_recv w fd n).2 <= patience w)%nat;
  recv_fails w fd n : (sys_recv w fd n).1.1 = -1 → errno (sys_recv w fd n).2 = EINTR →
    (patience (sys_recv w fd n).2 < patience w)%nat
}.

(** * A scripted network *)

Inductive reply :=
  | Data (d : bytes)     (** this arrives *)
  | Closed               (** the peer closes *)
  | Fails (e : Z).       (** [recv] fails with this [errno] *)

Record sim := {
  sim_open : gset Z;
  sim_errno : Z;
  sim_up : list (bytes * Z);          (** the hosts that accept connections *)
  sim_peer : gmap Z (bytes * Z);      (** whom a descriptor is connected to *)
  sim_sent : gmap Z bytes;            (** what was sent on a descriptor *)
  sim_sends : list Z;                 (** next sends: at most this many bytes, or [-errno] *)
  sim_recvs : list reply              (** next receptions; none left: [select] times out *)
}.

Definition sim_init (up : list (bytes * Z)) (sends : list Z) (recvs : list reply) : sim :=
  {| sim_open := {[ 0; 1; 2 ]}; sim_errno := 0; sim_up := up; sim_peer := ∅; sim_sent := ∅;
     sim_sends := sends; sim_recvs := recvs |}.

Definition sim_fresh (w : sim) : Z := 1 + set_fold Z.max 2 (sim_open w).

Definition sim_socket (w : sim) : Z * sim :=
  (sim_fresh w,
   {| sim_open := {[ sim_fresh w ]} ∪ sim_open w; sim_errno := sim_errno w; sim_up := sim_up w;
      sim_peer := sim_peer w; sim_sent := delete (sim_fresh w) (sim_sent w);
      sim_sends := sim_sends w; sim_recvs := sim_recvs w |}).

Definition sim_connect (w : sim) (fd : Z) (host : bytes) (port : Z) : Z * sim :=
  if decide ((host, port) ∈ sim_up w)
  then (0, {| sim_open := sim_open w; sim_errno := sim_errno w; sim_up := sim_up w;
              sim_peer := <[fd := (host, port)]> (sim_peer w); sim_sent := sim_sent w;
              sim_sends := sim_sends w; sim_recvs := sim_recvs w |})
  else (-1, w).

Definition sim_close (w : sim) (fd : Z) : sim :=
  {| sim_open := sim_open w ∖ {[ fd ]}; sim_errno := sim_errno w; sim_up := sim_up w;
     sim_peer := sim_peer w; sim_sent := sim_sent w;
     sim_sends := sim_sends w; sim_recvs := sim_recvs w |}.

Definition sim_accept (w : sim) (fd : Z) (d : bytes) (sends : list Z) : sim :=
  {| sim_open := sim_open w; sim_errno := sim_errno w; sim_up := sim_up w;
     sim_peer := sim_peer w; sim_sent := <[fd := default [] (sim_sent w !! fd) ++ d]> (sim_sent w);
     sim_sends := sends; sim_recvs := sim_recvs w |}.

Definition sim_fail (w : sim) (e : Z) (sends : list Z) (recvs : list reply) : sim :=
  {| sim_open := sim_open w; sim_errno := e; sim_up := sim_up w; sim_peer := sim_peer w;
     sim_sent := sim_sent w; sim_sends := sends; sim_recvs := recvs |}.

Definition sim_send (w : sim) (fd : Z) (d : bytes) : Z * sim :=
  match sim_sends w with
  | [] => (Z.of_nat (length d), sim_accept w fd d [])
  | k :: ks =>
      if decide (k < 0) then (-1, sim_fail w (- k) ks (sim_recvs w))
      else let d := take (Z.to_nat k) d in (Z.of_nat (length d), sim_accept w fd d ks)
  end.

Definition sim_select (w : sim) (fd t : Z) : Z * bool * sim :=
  if decide (fd ∈ sim_open w) then
    match sim_recvs w with [] => (0, false, w) | _ => (1, true, w) end
  else (-1, false, sim_fail w EBADF (sim_sends w) (sim_recvs w)).

Definition sim_recv (w : sim) (fd n : Z) : Z * bytes * sim :=
  match sim_recvs w with
  | Data d :: rs =>
      let d := take (Z.to_nat n) d in
      (Z.of_nat (length d), d, sim_fail w (sim_errno w) (sim_sends w) rs)
  | Closed :: rs => (0, [], sim_fail w (sim_errno w) (sim_sends w) rs)
  | Fails e :: rs => (-1, [], sim_fail w e (sim_sends w) rs)
  | [] => (-1, [], sim_fail w EAGAIN (sim_sends w) [])
  end.

#[export] Instance sim_net : Net sim := {|
  open_fds := sim_open;
  errno := sim_errno;
  sys_socket := sim_socket;
  sys_setsockopt w _ := (0, w);
  sys_connect := sim_connect;
  sys_close := sim_close;
  sys_send := sim_send;
  sys_select := sim_select;
  sys_recv := sim_recv
|}.

Lemma sim_fresh_fresh w : (sim_fresh w ∉ sim_open w) ∧ 0 <= sim_fresh w.
Proof.
  unfold sim_fresh.
  assert (∀ fd, fd ∈ sim_open w → fd <= set_fold Z.max 2 (sim_open w)) as Hmax.
  { apply (set_fold_ind_L (λ r (X : gset Z), ∀ fd, fd ∈ X → fd <= r)); [set_solver|].
    intros fd X r _ IH fd' [->%elem_of_singleton|Hin]%elem_of_union; [lia|].
    specialize (IH _ Hin). lia. }
  assert (2 <= set_fold Z.max 2 (sim_open w)) as Hlow.
  { apply (set_fold_ind_L (λ r (_ : gset Z), 2 <= r)); intros; lia. }
  split; [|lia]. intros Hin. specialize (Hmax _ Hin). lia.
Qed.

#[export] Instance sim_net_ok : NetOk sim.
Proof.
  split.
  - intros w. right. destruct (sim_fresh_fresh w). done.
  - done.
  - intros w fd host port. cbn. unfold sim_connect. by case_decide.
  - done.
  - intros w fd d. cbn. unfold sim_send. destruct (sim_sends w); [done|]. by case_decide.
  - intros w fd d. cbn. unfold sim_send. destruct (sim_sends w); cbn; [lia|].
    case_decide; cbn; [lia|]. rewrite length_take. lia.
  - intros w fd t. cbn. unfold sim_select. case_decide; [by destruct (sim_recvs w)|done].
  - intros w fd t Hfd. cbn in *. unfold sim_select. by rewrite decide_False.
  - intros w fd n. cbn. unfold sim_recv. by destruct (sim_recvs w) as [|[]].
  - intros w fd n. cbn. unfold sim_recv. destruct (sim_recvs w) as [|[]]; cbn; [lia| |lia|lia].
    rewrite length_take. lia.
Qed.

#[export] Program Instance sim_net_log : NetLog sim := {|
  sent w fd := default [] (sim_sent w !! fd)
|}.
Next Obligation.
  intros w fd. cbn. destruct (sim_fresh_fresh w) as [_ Hpos]. case_decide as Hfd.
  - destruct Hfd as [-> _]. by rewrite lookup_delete_eq.
  - rewrite lookup_delete_ne; [done|]. intros <-. by apply Hfd.
Qed.
Next Obligation. done. Qed.
Next Obligation. intros w fd host port. cbn. unfold sim_connect. by case_decide. Qed.
Next Obligation. done. Qed.
Next Obligation.
  intros w fd d fd'. cbn. unfold sim_send. destruct (sim_sends w) as [|k ks]; cbn.
  - case_decide; [|by rewrite lookup_insert_ne]. subst. rewrite lookup_insert_eq. cbn.
    by rewrite take_ge by lia.
  - case_decide; cbn; [case_decide; [subst; by rewrite app_nil_r|done]|].
    case_decide; [|by rewrite lookup_insert_ne]. subst. rewrite lookup_insert_eq. cbn.
    rewrite Nat2Z.id. f_equal. destruct (decide (Z.to_nat k <= length d)%nat).
    + f_equal. rewrite length_take. lia.
    + rewrite !take_ge; [done| |]; rewrite ?length_take; lia.
Qed.

#[export] Program Instance sim_net_patience : NetPatience sim := {|
  patience w := (length (sim_sends w) + length (sim_recvs w))%nat
|}.
Next Obligation. done. Qed.
Next Obligation. done. Qed.
Next Obligation. intros w fd host port. cbn. unfold sim_connect. by case_decide. Qed.
Next Obligation. done. Qed.
Next Obligation.
  intros w fd d. cbn. unfold sim_send. destruct (sim_sends w); cbn; [lia|]. case_decide; cbn; lia.
Qed.
Next Obligation.
  intros w fd d Hd. cbn. unfold sim_send. destruct (sim_sends w); cbn.
  - destruct d; [done|]. cbn. lia.
  - case_decide; cbn; lia.
Qed.
Next Obligation.
  intros w fd t. cbn. unfold sim_select. case_decide; [|cbn; lia]. destruct (sim_recvs w) eqn:E; cbn; rewrite ?E; cbn; lia.
Qed.
Next Obligation.
  intros w fd t. cbn. unfold sim_select. case_decide; [|by intros [[_ ?]|[? _]]; unfold EBADF, EINTR in *; cbn in *; lia].
  destruct (sim_recvs w); cbn; intros [[? _]|[? ?]]; lia || done.
Qed.
Next Obligation. intros w fd n. cbn. unfold sim_recv. destruct (sim_recvs w) as [|[]]; cbn; lia. Qed.
Next Obligation.
  intros w fd n. cbn. unfold sim_recv. destruct (sim_recvs w) as [|[]]; cbn; [done|lia|lia|lia].
Qed.
