(* ===== verification/ConnPool.v ===== *)
(** [ConnPool] of [src/conn_pool.h], [src/conn_pool.cpp]: one connection per thread, host
    and port, shared by the workers.

    [pool_ok] ties the pool to the kernel: every positive descriptor in it is open and
    occurs once.  All operations preserve it ([pool_step_ok]); the other theorems give what
    [getConnection], [destoryConnection] and the destructor do to the slots, and what
    happens to the descriptor of a connection attempt that fails. *)
From S2P Require Import Prelude StdMap Net.

(** * State *)

Abbreviation conn_map := (gmap Z (gmap bytes (gmap Z Z))).

(** [conn_list_lock] is true while the calling thread holds the lock for writing: a second
    [pthread_rwlock_*lock] by the holder then fails with [EDEADLK], and an unlock releases. *)
Record ConnPool := { conn_list : conn_map; conn_list_lock : bool }.

Definition EDEADLK : Z := 35.

Definition pool_new : ConnPool := {| conn_list := ∅; conn_list_lock := false |}.

(** The singleton: [new ConnPool()] on first use. *)
Definition getInstance (conn_pool : option ConnPool) : ConnPool := default pool_new conn_pool.

Definition with_list (p : ConnPool) (m : conn_map) : ConnPool :=
  {| conn_list := m; conn_list_lock := conn_list_lock p |}.

Definition wrlock (p : ConnPool) : Z * ConnPool :=
  if conn_list_lock p then (EDEADLK, p)
  else (0, {| conn_list := conn_list p; conn_list_lock := true |}).
Definition rdlock (p : ConnPool) : Z := if conn_list_lock p then EDEADLK else 0.
Definition unlock (p : ConnPool) : ConnPool := {| conn_list := conn_list p; conn_list_lock := false |}.

(** [conn_list[id][host][port]] read as a value: every level is created when absent. *)
Definition conn_at (m : conn_map) (id : Z) (host : bytes) (port : Z) : Z * conn_map :=
  let '(hosts, m) := at_ ∅ m id in
  let '(ports, hosts) := at_ ∅ hosts host in
  let '(v, ports) := at_ 0 ports port in
  (v, <[id := <[host := ports]> hosts]> m).

(** [conn_list[id][host][port] = conn]. *)
Definition conn_put (m : conn_map) (id : Z) (host : bytes) (port conn : Z) : conn_map :=
  let hosts := default ∅ (m !! id) in
  let ports := default ∅ (hosts !! host) in
  <[id := <[host := <[port := conn]> ports]> hosts]> m.

(** The positions of the pool in iteration order. *)
Definition positions (m : conn_map) : list (Z * bytes * Z) :=
  '(id, hosts) ← elems m; '(host, ports) ← elems hosts; '(port, _) ← elems ports; [(id, host, port)].

(** The inner loop of [destoryConnection]: the first port that holds [conn] is zeroed. *)
Definition zero_first (conn : Z) (ports : gmap Z Z) : gmap Z Z :=
  match list_find (λ kv : Z * Z, kv.2 = conn) (elems ports) with
  | Some (_, (port, _)) => <[port := 0]> ports
  | None => ports
  end.

Definition zero_conn (conn : Z) (m : conn_map) : conn_map :=
  (λ hosts : gmap bytes (gmap Z Z), zero_first conn <$> hosts) <$> m.

(** The value at a position. *)
Definition slot (m : conn_map) (id : Z) (host : bytes) (port : Z) : option Z :=
  hosts ← m !! id; ports ← (hosts : gmap bytes (gmap Z Z)) !! host; (ports : gmap Z Z) !! port.

(** * Operations *)

Section operations.
Context {W : Type} `{!Net W}.

Definition createConnection (w : W) (host : bytes) (port : Z) : Z * W :=
  let '(sock_fd, w) := sys_socket w in
  if decide (sock_fd < 0) then (-1, w)
  else
    let '(_, w) := sys_setsockopt w sock_fd in
    let '(r, w) := sys_connect w sock_fd host (u16 port) in
    if decide (r < 0) then (-1, w) else (sock_fd, w).

(** [for (id = 0; id < size; id++)], from [id], with [n] turns left. *)
Fixpoint initConnection_loop (n : nat) (id : Z) (p : ConnPool) (host : bytes) (port : Z) (w : W)
    : ConnPool * W :=
  match n with
  | O => (p, w)
  | S n =>
      let '(conn, w) := createConnection w host port in
      let p := if decide (0 < conn) then with_list p (conn_put (conn_list p) id host port conn) else p in
      initConnection_loop n (id + 1) p host port w
  end.

Definition initConnection (p : ConnPool) (host : bytes) (port size : Z) (w : W) : ConnPool * W :=
  initConnection_loop (Z.to_nat size) 0 p host port w.

Definition getConnection (p : ConnPool) (id : Z) (host : bytes) (port : Z) (w : W)
    : Z * ConnPool * W :=
  if decide (rdlock p ≠ 0) then (-1, p, w)
  else
    let '(v, m) := conn_at (conn_list p) id host port in
    let p := with_list p m in
    if decide (0 < v) then (v, p, w)
    else
      let '(res, p) := wrlock p in
      if decide (res ≠ 0) then (-1, p, w)
      else
        let '(conn, w) := createConnection w host port in
        (conn, unlock (with_list p (conn_put (conn_list p) id host port conn)), w).

Definition closeConnection (conn : Z) (w : W) : W :=
  if decide (0 < conn) then sys_close w conn else w.

Definition destoryConnection (p : ConnPool) (conn : Z) (w : W) : ConnPool * W :=
  if decide (conn <= 0) then (p, w)
  else
    let w := sys_close w conn in
    let '(_, p) := wrlock p in
    (unlock (with_list p (zero_conn conn (conn_list p))), w).

(** The destructor's loops read the live values. *)
Fixpoint destory_loop (l : list (Z * bytes * Z)) (p : ConnPool) (w : W) : ConnPool * W :=
  match l with
  | [] => (p, w)
  | (id, host, port) :: l =>
      let '(p, w) := destoryConnection p (default 0 (slot (conn_list p) id host port)) w in
      destory_loop l p w
  end.

Definition destoryConnPool (p : ConnPool) (w : W) : ConnPool * W :=
  let '(_, p) := wrlock p in
  let '(p, w) := destory_loop (positions (conn_list p)) p w in
  (unlock p, w).

Definition getConnectionSize (p : ConnPool) : Z :=
  if decide (rdlock p ≠ 0) then -1 else Z.of_nat (length (positions (conn_list p))).

(** * The invariant *)

Definition pool_ok (w : W) (p : ConnPool) : Prop :=
  conn_list_lock p = false ∧
  (∀ id host port fd, slot (conn_list p) id host port = Some fd → 0 < fd → fd ∈ open_fds w) ∧
  (∀ id host port id' host' port' fd, 0 < fd →
     slot (conn_list p) id host port = Some fd → slot (conn_list p) id' host' port' = Some fd →
     (id, host, port) = (id', host', port')).
End operations.

(** * Lemmas: slots *)

Lemma slot_put m id host port conn id' host' port' :
  slot (conn_put m id host port conn) id' host' port' =
  if decide ((id, host, port) = (id', host', port')) then Some conn else slot m id' host' port'.
Proof.
  unfold slot, conn_put. destruct (decide (id = id')) as [->|Hi].
  2: { rewrite lookup_insert_ne by done. rewrite decide_False by congruence. done. }
  rewrite lookup_insert_eq. cbn. destruct (decide (host = host')) as [->|Hh].
  2: { rewrite lookup_insert_ne by done. rewrite decide_False by congruence. by destruct (m !! id'). }
  rewrite lookup_insert_eq. cbn. destruct (decide (port = port')) as [->|Hp].
  - rewrite lookup_insert_eq. by rewrite decide_True.
  - rewrite lookup_insert_ne by done. rewrite decide_False by congruence.
    destruct (m !! id') as [hosts|]; cbn; [|done]. by destruct (hosts !! host').
Qed.

Lemma conn_at_eq m id host port :
  conn_at m id host port =
  (default 0 (slot m id host port), conn_put m id host port (default 0 (slot m id host port))).
Proof.
  unfold conn_at, conn_put, slot.
  rewrite (surjective_pairing (at_ ∅ m id)), at_value.
  set (hosts := default ∅ (m !! id)). rewrite (surjective_pairing (at_ ∅ hosts host)), at_value.
  set (ports := default ∅ (hosts !! host)). rewrite (surjective_pairing (at_ 0 ports port)), at_value.
  rewrite !at_insert.
  assert (default 0 (ports !! port) = default 0
    (hosts ← m !! id; ports ← (hosts : gmap bytes (gmap Z Z)) !! host; (ports : gmap Z Z) !! port)) as <-.
  { unfold ports, hosts. destruct (m !! id) as [hosts'|]; cbn; [|by rewrite lookup_empty].
    destruct (hosts' !! host); cbn; [done|by rewrite lookup_empty]. }
  do 4 f_equal. unfold at_. destruct (ports !! port) eqn:E; cbn; [by rewrite insert_id|done].
Qed.

Lemma zero_first_lookup conn ports port v :
  conn ≠ 0 →
  (∀ q q', ports !! q = Some conn → ports !! q' = Some conn → q = q') →
  ports !! port = Some v →
  zero_first conn ports !! port = Some (if decide (v = conn) then 0 else v).
Proof.
  intros Hc Hu Hv. unfold zero_first.
  destruct (list_find _ (elems ports)) as [[i [q u]]|] eqn:E.
  - apply list_find_Some in E as (Hi & Hq & _). cbn in Hq. subst u.
    apply list_elem_of_lookup_2, elem_of_elems in Hi.
    destruct (decide (v = conn)) as [->|Hne].
    + rewrite (Hu q port Hi Hv). by rewrite lookup_insert_eq.
    + rewrite lookup_insert_ne; [done|]. intros ->. congruence.
  - rewrite decide_False; [done|]. intros ->.
    apply list_find_None in E. rewrite Forall_forall in E.
    apply (E (port, conn)); [by apply elem_of_elems|done].
Qed.

Lemma zero_first_None conn ports port :
  ports !! port = None → zero_first conn ports !! port = None.
Proof.
  intros Hn. unfold zero_first.
  destruct (list_find _ (elems ports)) as [[i [q u]]|] eqn:E; [|done].
  apply list_find_Some in E as (Hi & _ & _). apply list_elem_of_lookup_2, elem_of_elems in Hi.
  rewrite lookup_insert_ne; [done|]. intros ->. congruence.
Qed.

(** Zeroing a descriptor that occurs at most once changes that slot only. *)
Lemma slot_zero conn m id host port :
  conn ≠ 0 →
  (∀ id host port id' host' port', slot m id host port = Some conn →
     slot m id' host' port' = Some conn → (id, host, port) = (id', host', port')) →
  slot (zero_conn conn m) id host port =
  (λ v, if decide (v = conn) then 0 else v) <$> slot m id host port.
Proof.
  intros Hc Hu. unfold slot, zero_conn in *. rewrite lookup_fmap.
  destruct (m !! id) as [hosts|] eqn:E1; cbn; [|done]. rewrite lookup_fmap.
  destruct (hosts !! host) as [ports|] eqn:E2; cbn; [|done].
  destruct (ports !! port) as [v|] eqn:E3; cbn.
  - apply zero_first_lookup; [done| |done]. intros q q' Hq Hq'.
    specialize (Hu id host q id host q'). rewrite E1 in Hu. cbn in Hu. rewrite E2 in Hu. cbn in Hu.
    specialize (Hu Hq Hq'). congruence.
  - by apply zero_first_None.
Qed.

Lemma elem_of_positions m id host port :
  (id, host, port) ∈ positions m ↔ is_Some (slot m id host port).
Proof.
  unfold positions, slot. split.
  - intros ([i hosts] & ([h ports] & ([t v] & Hin & Hp)%list_elem_of_bind & Hh)%list_elem_of_bind & Hi)%list_elem_of_bind.
    apply elem_of_elems in Hi, Hh, Hp. apply list_elem_of_singleton in Hin. simplify_eq.
    rewrite Hi. cbn. rewrite Hh. cbn. by eexists.
  - intros [v Hv]. destruct (m !! id) as [hosts|] eqn:E1; cbn in Hv; [|done].
    destruct (hosts !! host) as [ports|] eqn:E2; cbn in Hv; [|done].
    apply list_elem_of_bind. exists (id, hosts). split; [|by apply elem_of_elems].
    apply list_elem_of_bind. exists (host, ports). split; [|by apply elem_of_elems].
    apply list_elem_of_bind. exists (port, v). split; [|by apply elem_of_elems].
    by apply list_elem_of_singleton.
Qed.

(** * Lemmas: the invariant *)

Section invariant.
Context {W : Type} `{!Net W, !NetOk W}.
Implicit Types (w : W) (p : ConnPool).

(** The outcomes of [createConnection]: a fresh open descriptor, or [-1] with nothing
    closed. *)
Lemma createConnection_cases w host port c w' :
  createConnection w host port = (c, w') →
  (c = -1 ∧ open_fds w ⊆ open_fds w') ∨
  (0 <= c ∧ (c ∉ open_fds w) ∧ open_fds w' = {[ c ]} ∪ open_fds w).
Proof.
  unfold createConnection. pose proof (socket_ok w) as Hs.
  destruct (sys_socket w) as [fd w1]; cbn in Hs. case_decide as Hfd.
  { intros [= <- <-]. left. split; [done|]. destruct Hs as [[_ ->]|(? & _)]; [done|lia]. }
  pose proof (setsockopt_open w1 fd) as Ho. destruct (sys_setsockopt w1 fd) as [o w2]; cbn in Ho.
  pose proof (connect_open w2 fd host (u16 port)) as Hc.
  destruct (sys_connect w2 fd host (u16 port)) as [r w3]; cbn in Hc.
  destruct Hs as [[? _]|(Hge & Hfresh & Hopen)]; [lia|].
  case_decide; intros [= <- <-]; rewrite Hc, Ho, Hopen; [left; split; [done|set_solver]|by right].
Qed.

(** Storing a fresh descriptor, or a non-positive value, keeps the invariant. *)
Lemma pool_ok_put w w' p id host port c :
  pool_ok w p → open_fds w ⊆ open_fds w' →
  (0 < c → (c ∉ open_fds w) ∧ c ∈ open_fds w') →
  pool_ok w' (with_list p (conn_put (conn_list p) id host port c)).
Proof.
  intros (Hlock & Hopen & Hinj) Hsub Hc. split_and!; [done|..]; cbn [conn_list with_list].
  - intros i h t fd. rewrite slot_put. case_decide; [intros [= <-]; naive_solver|].
    intros Hs Hpos. by apply Hsub, (Hopen i h t).
  - intros i h t i' h' t' fd Hpos. rewrite !slot_put.
    destruct (decide ((id, host, port) = (i, h, t))) as [<-|Hn];
      destruct (decide ((id, host, port) = (i', h', t'))) as [<-|Hn']; [done|..].
    + intros [= ->] Hs. destruct (Hc Hpos) as [Hfresh _]. exfalso. by eapply Hfresh, Hopen.
    + intros Hs [= ->]. destruct (Hc Hpos) as [Hfresh _]. exfalso. by eapply Hfresh, Hopen.
    + by apply Hinj.
Qed.

(** Reading a slot with [operator[]] stores the value it has, or 0. *)
Lemma pool_ok_at w p id host port :
  pool_ok w p → pool_ok w (with_list p (conn_at (conn_list p) id host port).2).
Proof.
  intros (Hlock & Hopen & Hinj). rewrite conn_at_eq; cbn [snd].
  assert (∀ i h t fd, 0 < fd →
    slot (conn_put (conn_list p) id host port (default 0 (slot (conn_list p) id host port))) i h t = Some fd →
    slot (conn_list p) i h t = Some fd) as Hsame.
  { intros i h t fd Hpos. rewrite slot_put. case_decide as E; [|done]. simplify_eq.
    destruct (slot (conn_list p) i h t); cbn; [done|]. intros [= <-]. lia. }
  split_and!; [done|..]; cbn [conn_list with_list].
  - intros i h t fd Hs Hpos. eapply Hopen; [by apply Hsame|done].
  - intros i h t i' h' t' fd Hpos Hs Hs'. eapply Hinj; [done|by apply Hsame|by apply Hsame].
Qed.

Lemma getConnection_ok w p id host port conn p' w' :
  pool_ok w p → getConnection p id host port w = (conn, p', w') →
  pool_ok w' p' ∧ open_fds w ⊆ open_fds w' ∧
  (0 < conn → slot (conn_list p') id host port = Some conn).
Proof.
  intros Hok. pose proof (pool_ok_at w p id host port Hok) as Hat.
  pose proof Hok as (Hlock & _). unfold getConnection, rdlock. rewrite Hlock, conn_at_eq.
  rewrite conn_at_eq in Hat; cbn [snd] in Hat.
  set (v := default 0 (slot (conn_list p) id host port)) in *.
  set (p1 := with_list p (conn_put (conn_list p) id host port v)) in *.
  rewrite decide_False by naive_solver. case_decide as Hv.
  - intros [= <- <- <-]. split_and!; [done|done|]. intros _. unfold p1; cbn.
    rewrite slot_put. by rewrite decide_True.
  - unfold wrlock. replace (conn_list_lock p1) with false by done. cbn [fst].
    rewrite decide_False by naive_solver.
    destruct (createConnection w host port) as [c w1] eqn:Ec. intros [= <- <- <-].
    set (q := {| conn_list := _; conn_list_lock := true |}).
    set (m := conn_put _ id host port c).
    assert (unlock (with_list q m) = with_list p1 m) as ->
      by (unfold unlock, with_list, p1; cbn; by rewrite Hlock).
    apply createConnection_cases in Ec as Hc.
    assert (open_fds w ⊆ open_fds w1) as Hsub by set_solver. split_and!; [|done|].
    + apply (pool_ok_put w w1 p1); [done|done|]. intros Hpos. set_solver by lia.
    + intros _. cbn [conn_list with_list]. unfold m. rewrite slot_put. by rewrite decide_True.
Qed.

Lemma destoryConnection_slot w p conn :
  pool_ok w p → 0 < conn → ∀ id host port,
  slot (conn_list (destoryConnection p conn w).1) id host port =
  (λ v, if decide (v = conn) then 0 else v) <$> slot (conn_list p) id host port.
Proof.
  intros (Hlock & _ & Hinj) Hpos id host port. unfold destoryConnection, wrlock.
  rewrite decide_False by lia. rewrite Hlock. cbn. apply slot_zero; [lia|].
  intros. by eapply Hinj.
Qed.

Lemma destoryConnection_ok w p conn p' w' :
  pool_ok w p → destoryConnection p conn w = (p', w') → pool_ok w' p'.
Proof.
  intros Hok Hd. destruct (decide (0 < conn)) as [Hpos|Hneg].
  2: { unfold destoryConnection in Hd. rewrite decide_True in Hd by lia. by simplify_eq. }
  pose proof (destoryConnection_slot w p conn Hok Hpos) as Hs. rewrite Hd in Hs. cbn in Hs.
  assert (w' = sys_close w conn ∧ conn_list_lock p' = false) as [-> Hl].
  { unfold destoryConnection in Hd. rewrite decide_False in Hd by lia.
    destruct (wrlock p). by simplify_eq. }
  assert (∀ i h t fd, 0 < fd → slot (conn_list p') i h t = Some fd →
          slot (conn_list p) i h t = Some fd ∧ fd ≠ conn) as Hsame.
  { intros i h t fd Hfd. rewrite Hs. intros (v & Hv & ->)%fmap_Some.
    case_decide; [lia|done]. }
  destruct Hok as (_ & Hopen & Hinj). split_and!; [done|..].
  - intros i h t fd Hfd Hp. apply Hsame in Hfd as [Hfd Hne]; [|done]. rewrite close_open.
    specialize (Hopen _ _ _ _ Hfd Hp). set_solver.
  - intros i h t i' h' t' fd Hp H1 H2. apply Hsame in H1 as [H1 _], H2 as [H2 _]; [|done..].
    by eapply Hinj.
Qed.
End invariant.

(** * Properties *)

(** One operation on the pool, from any caller. *)
Inductive pool_step {W} `{!Net W} : W * ConnPool → W * ConnPool → Prop :=
  | step_get w p id host port conn p' w' :
      getConnection p id host port w = (conn, p', w') → pool_step (w, p) (w', p')
  | step_init w p host port size p' w' :
      initConnection p host port size w = (p', w') → pool_step (w, p) (w', p')
  | step_destory w p conn p' w' :
      destoryConnection p conn w = (p', w') → pool_step (w, p) (w', p')
  | step_probe w p host port conn w' :
      createConnection w host port = (conn, w') → pool_step (w, p) (w', p)
  | step_probe_done w p host port conn w' :
      createConnection w host port = (conn, w') → pool_step (w, p) (closeConnection conn w', p).

Lemma initConnection_ok {W} `{!Net W, !NetOk W} n id p host port (w : W) p' w' :
  initConnection_loop n id p host port w = (p', w') → pool_ok w p → pool_ok w' p'.
Proof.
  revert id p w. induction n as [|n IH]; intros id p w Hi Hok; cbn in Hi; [by simplify_eq|].
  destruct (createConnection w host port) as [c w1] eqn:Ec.
  apply createConnection_cases in Ec as Hc. eapply IH; [exact Hi|].
  assert (open_fds w ⊆ open_fds w1) as Hsub by set_solver.
  case_decide as Hpos.
  - apply (pool_ok_put w w1); [done|done|]. intros _. set_solver by lia.
  - destruct Hok as (? & Hopen & ?). split_and!; [done| |done].
    intros. by eapply Hsub, Hopen.
Qed.

(** C27: from a well-formed pool, any sequence of pool operations keeps every positive
    descriptor in it open and at one position only. *)
Theorem pool_invariant {W} `{!Net W, !NetOk W} (s s' : W * ConnPool) :
  rtc pool_step s s' → pool_ok s.1 s.2 → pool_ok s'.1 s'.2.
Proof.
  induction 1 as [s|s1 s2 s3 Hstep _ IH]; [done|]. intros Hok. apply IH. clear IH.
  destruct Hstep as [w p id host port conn p' w' Hg|w p host port size p' w' Hi|w p conn p' w' Hd
                    |w p host port conn w' Hc|w p host port conn w' Hc]; cbn in *.
  - by eapply getConnection_ok.
  - by eapply initConnection_ok.
  - by eapply destoryConnection_ok.
  - apply createConnection_cases in Hc. destruct Hok as (? & Hopen & ?). split_and!; [done| |done].
    intros i h t fd Hs Hpos. specialize (Hopen _ _ _ _ Hs Hpos). set_solver.
  - apply createConnection_cases in Hc. destruct Hok as (? & Hopen & ?). split_and!; [done| |done].
    intros i h t fd Hs Hpos. specialize (Hopen _ _ _ _ Hs Hpos). unfold closeConnection.
    case_decide; [rewrite close_open|]; set_solver by lia.
Qed.

(** A network on which one host answers. *)
Definition demo_host : bytes := bs "127.0.0.1".
Definition demo_net : sim := sim_init [(demo_host, 11211)] [] [].

Lemma pool_new_ok {W} `{!Net W} (w : W) : pool_ok w pool_new.
Proof. by split_and!. Qed.

Lemma pool_invariant_witness :
  let '(conn, p, w) := getConnection pool_new 0 demo_host 11211 demo_net in
  conn = 3 ∧ pool_ok w p.
Proof.
  assert (let '(conn, p, w) := getConnection pool_new 0 demo_host 11211 demo_net in
          conn = 3) as Hc by (vm_compute; reflexivity).
  destruct (getConnection pool_new 0 demo_host 11211 demo_net) as [[conn p] w] eqn:E.
  split; [exact Hc|].
  apply (pool_invariant (demo_net, pool_new) (w, p)); [|apply pool_new_ok].
  eapply rtc_once, step_get, E.
Defined.

(** [getConnection] hands out the pooled descriptor without any socket call; with none
    pooled it connects, and stores what it returns, so the next call of the same thread for
    the same host gets the same descriptor and touches nothing. *)
Theorem getConnection_reuse {W} `{!Net W, !NetOk W} (w : W) (p : ConnPool) id host port conn p' w' :
  pool_ok w p → getConnection p id host port w = (conn, p', w') →
  (∀ fd, slot (conn_list p) id host port = Some fd → 0 < fd → conn = fd ∧ w' = w) ∧
  (0 < conn → conn ∈ open_fds w' ∧ slot (conn_list p') id host port = Some conn ∧
     (getConnection p' id host port w').1.1 = conn ∧ (getConnection p' id host port w').2 = w').
Proof.
  intros Hok Hg. pose proof (getConnection_ok w p id host port conn p' w' Hok Hg) as (Hok' & Hsub & Hslot).
  assert (∀ (w : W) p fd, pool_ok w p → slot (conn_list p) id host port = Some fd → 0 < fd →
    (getConnection p id host port w).1.1 = fd ∧ (getConnection p id host port w).2 = w) as Hhit.
  { intros w1 p1 fd (Hlock & _) Hs Hpos. unfold getConnection, rdlock. rewrite Hlock, conn_at_eq, Hs.
    rewrite decide_False by naive_solver. cbn [default]. by rewrite decide_True. }
  split.
  - intros fd Hs Hpos. destruct (Hhit w p fd Hok Hs Hpos) as [H1 H2]. by rewrite Hg in H1, H2.
  - intros Hpos. specialize (Hslot Hpos). destruct Hok' as (Hl & Hopen & Hinj).
    split; [by eapply Hopen|]. split; [done|]. by apply Hhit.
Qed.

Lemma getConnection_reuse_witness :
  let '(conn, p, w) := getConnection pool_new 2 demo_host 11211 demo_net in
  conn = 3 ∧ (getConnection p 2 demo_host 11211 w).1.1 = 3 ∧
  (getConnection p 2 demo_host 11211 w).2 = w.
Proof.
  assert (let '(conn, p, w) := getConnection pool_new 2 demo_host 11211 demo_net in
          conn = 3) as Hc by (vm_compute; reflexivity).
  destruct (getConnection pool_new 2 demo_host 11211 demo_net) as [[conn p] w] eqn:E. subst conn.
  destruct (getConnection_reuse demo_net pool_new 2 demo_host 11211 3 p w (pool_new_ok _) E)
    as (_ & _ & _ & H1 & H2); [lia|]. split; [reflexivity|]. split; [exact H1|exact H2].
Defined.

(** [destoryConnection] closes the descriptor, zeroes the slot that held it and leaves
    every other slot as it was. *)
Theorem destoryConnection_spec {W} `{!Net W, !NetOk W} (w : W) (p : ConnPool) conn p' w' :
  pool_ok w p → 0 < conn → destoryConnection p conn w = (p', w') →
  open_fds w' = open_fds w ∖ {[ conn ]} ∧ conn_list_lock p' = false ∧
  ∀ id host port, slot (conn_list p') id host port =
    (λ v, if decide (v = conn) then 0 else v) <$> slot (conn_list p) id host port.
Proof.
  intros Hok Hpos Hd. pose proof (destoryConnection_slot w p conn Hok Hpos) as Hs.
  rewrite Hd in Hs. unfold destoryConnection in Hd. rewrite decide_False in Hd by lia.
  destruct (wrlock p). simplify_eq. split_and!; [apply close_open|done|exact Hs].
Qed.

Lemma destoryConnection_spec_witness :
  let '(conn, p, w) := getConnection pool_new 0 demo_host 11211 demo_net in
  slot (conn_list (destoryConnection p conn w).1) 0 demo_host 11211 = Some 0.
Proof.
  destruct (getConnection pool_new 0 demo_host 11211 demo_net) as [[conn p] w] eqn:E.
  destruct (getConnection_ok demo_net pool_new 0 demo_host 11211 conn p w (pool_new_ok _) E)
    as (Hok & _ & Hs).
  assert (conn = 3) as ->.
  { assert ((getConnection pool_new 0 demo_host 11211 demo_net).1.1 = 3) as H3
      by (vm_compute; reflexivity). by rewrite E in H3. }
  destruct (destoryConnection p 3 w) as [p' w'] eqn:Ed.
  destruct (destoryConnection_spec w p 3 p' w' Hok ltac:(lia) Ed) as (_ & _ & H).
  cbn [fst]. rewrite H, Hs by lia. reflexivity.
Defined.

(** A set of worlds, closed under the calls, in which sockets can be made and the host
    refuses every connection. *)
Definition refuses {W} `{!Net W} (P : W → Prop) (host : bytes) (port : Z) : Prop :=
  ∀ w, P w →
    0 <= (sys_socket w).1 ∧ P (sys_socket w).2 ∧ (∀ fd, P (sys_setsockopt w fd).2) ∧
    (∀ fd, (sys_connect w fd host port).1 < 0 ∧ P (sys_connect w fd host port).2).

(** C39: a connection attempt whose [connect] fails returns [-1] without closing its socket:
    [k] attempts on a host that refuses leave [k] more descriptors open. *)
Theorem createConnection_leak {W} `{!Net W, !NetOk W} (P : W → Prop) (w : W)
    (host : bytes) (port : Z) (k : nat) :
  refuses P host (u16 port) → P w →
  (createConnection w host port).1 = -1 ∧
  size (open_fds (Nat.iter k (λ w, (createConnection w host port).2) w)) = (size (open_fds w) + k)%nat.
Proof.
  intros Hr.
  assert (∀ w : W, P w → (createConnection w host port).1 = -1 ∧ P (createConnection w host port).2 ∧
    size (open_fds (createConnection w host port).2) = S (size (open_fds w))) as Hone.
  { clear w. intros w Hw. unfold createConnection.
    destruct (Hr w Hw) as (Hsock & Hw1 & _). pose proof (socket_ok w) as Hs.
    destruct (sys_socket w) as [fd w1]; cbn in *. rewrite decide_False by lia.
    pose proof (setsockopt_open w1 fd) as Ho. destruct (Hr w1 Hw1) as (_ & _ & Hw2 & _).
    specialize (Hw2 fd). destruct (sys_setsockopt w1 fd) as [o w2]; cbn in *.
    destruct (Hr w2 Hw2) as (_ & _ & _ & Hconn). destruct (Hconn fd) as [Hneg Hw3].
    pose proof (connect_open w2 fd host (u16 port)) as Hc.
    destruct (sys_connect w2 fd host (u16 port)) as [r w3]; cbn in *.
    rewrite decide_True by done. split_and!; [done|done|]. cbn. rewrite Hc, Ho.
    destruct Hs as [[? _]|(_ & Hfresh & ->)]; [lia|].
    rewrite size_union, size_singleton by set_solver. done. }
  intros Hw. split; [by apply Hone|].
  assert (∀ k, P (Nat.iter k (λ w, (createConnection w host port).2) w)) as HP.
  { intros j. apply Nat.iter_invariant; [|done]. intros w' Hw'. by apply Hone. }
  induction k as [|k IH]; cbn [Nat.iter]; [by rewrite Nat.add_0_r|].
  rewrite Nat.iter_succ. rewrite (proj2 (proj2 (Hone _ (HP k)))), IH. lia.
Qed.

Lemma createConnection_leak_witness :
  size (open_fds (Nat.iter 5 (λ w, (createConnection w (bs "10.9.9.9") 1).2) (sim_init [] [] []))) = 8%nat.
Proof.
  etrans; [apply (createConnection_leak (λ w : sim, sim_up w = []) (sim_init [] [] []))|]; [|done|].
  - intros w Hw. split_and!; [apply sim_fresh_fresh|done|done|]. intros fd. cbn.
    unfold sim_connect. rewrite Hw. by rewrite decide_False by set_solver.
  - reflexivity.
Defined.

(** [destoryConnection] under the caller's lock: the lock is refused, the list still changes,
    and the unlock releases the caller's lock. *)
Lemma destoryConnection_unlock {W} `{!Net W} (w : W) p conn :
  unlock (destoryConnection p conn w).1 = (destoryConnection (unlock p) conn w).1 ∧
  (destoryConnection p conn w).2 = (destoryConnection (unlock p) conn w).2.
Proof.
  unfold destoryConnection, wrlock, unlock. destruct p as [m []]; cbn; by case_decide.
Qed.

(** The positions still to visit, and what the loop leaves. *)
Definition swept (l : list (Z * bytes * Z)) (m m' : conn_map) (fds fds' : gset Z) : Prop :=
  (∀ i h t fd, slot m' i h t = Some fd → 0 < fd → slot m i h t = Some fd ∧ (i, h, t) ∉ l) ∧
  (∀ fd, fd ∈ fds' ↔ fd ∈ fds ∧ ¬ (0 < fd ∧ ∃ i h t, (i, h, t) ∈ l ∧ slot m i h t = Some fd)).

Lemma destory_loop_swept {W} `{!Net W, !NetOk W} l (w : W) p p' w' :
  pool_ok w (unlock p) → destory_loop l p w = (p', w') →
  swept l (conn_list p) (conn_list p') (open_fds w) (open_fds w').
Proof.
  revert p w. induction l as [|[[i h] t] l IH]; intros p w Hok Hl; cbn in Hl.
  { simplify_eq. split; [set_solver|]. intros fd. split; [|by intros [? _]].
    intros Hfd. split; [done|]. intros (_ & ? & ? & ? & Hin & _). by apply not_elem_of_nil in Hin. }
  set (v := default 0 (slot (conn_list p) i h t)) in *.
  destruct (destoryConnection_unlock w p v) as [E1 E2].
  destruct (destoryConnection p v w) as [p1 w1] eqn:Ed. cbn in E1, E2.
  destruct (destoryConnection (unlock p) v w) as [q1 w2] eqn:Eq. cbn in E1, E2. subst q1 w2.
  destruct (IH p1 w1 (destoryConnection_ok _ _ _ _ _ Hok Eq) Hl) as [Hs Ho].
  destruct (decide (0 < v)) as [Hv|Hv].
  - pose proof (destoryConnection_slot w (unlock p) v Hok Hv) as Hsl. rewrite Eq in Hsl.
    cbn [fst unlock conn_list] in Hsl.
    assert (slot (conn_list p) i h t = Some v) as Hit.
    { unfold v in *. destruct (slot (conn_list p) i h t); cbn in *; [done|lia]. }
    assert (w1 = sys_close w v) as ->.
    { unfold destoryConnection in Eq. rewrite decide_False in Eq by lia.
      destruct (wrlock _). by simplify_eq. }
    assert (∀ i h t fd, 0 < fd → slot (conn_list p1) i h t = Some fd ↔
              slot (conn_list p) i h t = Some fd ∧ fd ≠ v) as Hiff.
    { intros a b c fd Hfd. rewrite Hsl, fmap_Some. split.
      - intros (u & Hu & ->). case_decide; [lia|done].
      - intros [Hu Hne]. exists fd. by rewrite decide_False. }
    split.
    + intros a b c fd Hfd Hpos. destruct (Hs _ _ _ _ Hfd Hpos) as [H1 Hnin].
      apply Hiff in H1 as [H1 Hne]; [|done]. split; [done|].
      apply not_elem_of_cons. split; [|done]. intros [= -> -> ->]. congruence.
    + intros fd. rewrite Ho, close_open. split.
      * intros [Hin Hno]. split; [set_solver|]. intros (Hp & a & b & c & Hc & Hsc). apply Hno.
        split; [done|]. exists a, b, c. apply elem_of_cons in Hc as [[= -> -> ->]|Hc]; [set_solver|].
        split; [done|]. apply Hiff; [done|]. set_solver.
      * intros [Hin Hno].
        assert (fd ≠ v) as Hne. { intros ->. apply Hno. split; [done|]. exists i, h, t. set_solver. }
        split; [set_solver|]. intros (Hp & a & b & c & Hc & Hsc). apply Hno. split; [done|].
        exists a, b, c. apply Hiff in Hsc as [? _]; [|done]. set_solver.
  - unfold destoryConnection in Ed. rewrite decide_True in Ed by lia. simplify_eq. split.
    + intros a b c fd Hfd Hpos. destruct (Hs _ _ _ _ Hfd Hpos) as [H1 Hnin]. split; [done|].
      apply not_elem_of_cons. split; [|done]. intros [= -> -> ->]. unfold v in Hv. by rewrite H1 in Hv.
    + intros fd. rewrite Ho. split.
      * intros [Hin Hno]. split; [done|]. intros (Hp & a & b & c & Hc & Hsc). apply Hno.
        split; [done|]. exists a, b, c. apply elem_of_cons in Hc as [[= -> -> ->]|Hc]; [|done].
        unfold v in Hv. by rewrite Hsc in Hv.
      * intros [Hin Hno]. split; [done|]. intros (Hp & a & b & c & Hc & Hsc). apply Hno. split; [done|].
        exists a, b, c. set_solver.
Qed.

(** The destructor closes every pooled descriptor and no other one, and leaves no positive
    descriptor in the pool - although each [destoryConnection] it calls releases the lock the
    loop runs under. *)
Theorem destoryConnPool_closes {W} `{!Net W, !NetOk W} (w : W) (p p' : ConnPool) w' :
  pool_ok w p → destoryConnPool p w = (p', w') →
  conn_list_lock p' = false ∧
  (∀ id host port fd, slot (conn_list p') id host port = Some fd → fd <= 0) ∧
  (∀ fd, fd ∈ open_fds w' ↔ fd ∈ open_fds w ∧
     ¬ (0 < fd ∧ ∃ id host port, slot (conn_list p) id host port = Some fd)).
Proof.
  intros Hok Hd. unfold destoryConnPool in Hd.
  destruct (wrlock p) as [res p1] eqn:Ew.
  assert (unlock p1 = p ∧ conn_list p1 = conn_list p) as [Hu Hm].
  { destruct Hok as [Hl _]. unfold wrlock in Ew. rewrite Hl in Ew. simplify_eq. split; [|done].
    unfold unlock; cbn. destruct p; cbn in *. by subst. }
  destruct (destory_loop _ p1 w) as [p2 w2] eqn:El. injection Hd as <- <-.
  apply destory_loop_swept in El as [Hs Ho]; [|by rewrite Hu]. rewrite Hm in *. cbn. split_and!.
  - done.
  - intros i h t fd Hfd. destruct (decide (0 < fd)) as [Hp|]; [|lia].
    destruct (Hs _ _ _ _ Hfd Hp) as [H1 Hn]. destruct Hn. by apply elem_of_positions.
  - intros fd. rewrite Ho. split; intros [Hin Hno]; (split; [done|]); intros (Hp & i & h & t & Hx).
    + apply Hno. split; [done|]. exists i, h, t. split; [|done]. by apply elem_of_positions.
    + apply Hno. destruct Hx as [_ Hx]. split; [done|]. by exists i, h, t.
Qed.

Lemma destoryConnPool_closes_witness :
  let '(conn, p, w) := getConnection pool_new 0 demo_host 11211 demo_net in
  ¬ conn ∈ open_fds (destoryConnPool p w).2.
Proof.
  destruct (getConnection pool_new 0 demo_host 11211 demo_net) as [[conn p] w] eqn:E.
  destruct (getConnection_ok demo_net pool_new 0 demo_host 11211 conn p w (pool_new_ok _) E)
    as (Hok & _ & Hs).
  assert (conn = 3) as ->.
  { assert ((getConnection pool_new 0 demo_host 11211 demo_net).1.1 = 3) as H3
      by (vm_compute; reflexivity). by rewrite E in H3. }
  destruct (destoryConnPool p w) as [p' w'] eqn:Ed.
  destruct (destoryConnPool_closes w p p' w' Hok Ed) as (_ & _ & H). cbn [snd].
  intros Hin. apply H in Hin as [_ Hno]. apply Hno. split; [lia|].
  exists 0, demo_host, 11211. apply Hs. lia.
Defined.
