(* ===== verification/ProtocolBinary.v ===== *)
(** The memcached binary protocol of [src/ext/memcached/protocol_binary.h]: the
    enumerations with their wire values and the two 24-byte packet headers, as the
    records the unions overlay on the bytes.

    [header_at] is what a read through the cast pointer sees, with the program's
    [ntohs]/[ntohl] applied; [encode] is the layout it must agree with ([decode_encode]). *)
From S2P Require Import Prelude.

(** * Enumerations *)

Inductive protocol_binary_magic := PROTOCOL_BINARY_REQ | PROTOCOL_BINARY_RES.

Definition magic_code (m : protocol_binary_magic) : Z :=
  match m with PROTOCOL_BINARY_REQ => 0x80 | PROTOCOL_BINARY_RES => 0x81 end.

Inductive protocol_binary_response_status :=
  | PROTOCOL_BINARY_RESPONSE_SUCCESS | PROTOCOL_BINARY_RESPONSE_KEY_ENOENT
  | PROTOCOL_BINARY_RESPONSE_KEY_EEXISTS | PROTOCOL_BINARY_RESPONSE_E2BIG
  | PROTOCOL_BINARY_RESPONSE_EINVAL | PROTOCOL_BINARY_RESPONSE_NOT_STORED
  | PROTOCOL_BINARY_RESPONSE_DELTA_BADVAL | PROTOCOL_BINARY_RESPONSE_AUTH_ERROR
  | PROTOCOL_BINARY_RESPONSE_AUTH_CONTINUE | PROTOCOL_BINARY_RESPONSE_UNKNOWN_COMMAND
  | PROTOCOL_BINARY_RESPONSE_ENOMEM.

Definition status_code (s : protocol_binary_response_status) : Z :=
  match s with
  | PROTOCOL_BINARY_RESPONSE_SUCCESS => 0x00
  | PROTOCOL_BINARY_RESPONSE_KEY_ENOENT => 0x01
  | PROTOCOL_BINARY_RESPONSE_KEY_EEXISTS => 0x02
  | PROTOCOL_BINARY_RESPONSE_E2BIG => 0x03
  | PROTOCOL_BINARY_RESPONSE_EINVAL => 0x04
  | PROTOCOL_BINARY_RESPONSE_NOT_STORED => 0x05
  | PROTOCOL_BINARY_RESPONSE_DELTA_BADVAL => 0x06
  | PROTOCOL_BINARY_RESPONSE_AUTH_ERROR => 0x20
  | PROTOCOL_BINARY_RESPONSE_AUTH_CONTINUE => 0x21
  | PROTOCOL_BINARY_RESPONSE_UNKNOWN_COMMAND => 0x81
  | PROTOCOL_BINARY_RESPONSE_ENOMEM => 0x82
  end.

Inductive protocol_binary_command :=
  | PROTOCOL_BINARY_CMD_GET | PROTOCOL_BINARY_CMD_SET | PROTOCOL_BINARY_CMD_ADD
  | PROTOCOL_BINARY_CMD_REPLACE | PROTOCOL_BINARY_CMD_DELETE | PROTOCOL_BINARY_CMD_INCREMENT
  | PROTOCOL_BINARY_CMD_DECREMENT | PROTOCOL_BINARY_CMD_QUIT | PROTOCOL_BINARY_CMD_FLUSH
  | PROTOCOL_BINARY_CMD_GETQ | PROTOCOL_BINARY_CMD_NOOP | PROTOCOL_BINARY_CMD_VERSION
  | PROTOCOL_BINARY_CMD_GETK | PROTOCOL_BINARY_CMD_GETKQ | PROTOCOL_BINARY_CMD_APPEND
  | PROTOCOL_BINARY_CMD_PREPEND | PROTOCOL_BINARY_CMD_STAT | PROTOCOL_BINARY_CMD_SETQ
  | PROTOCOL_BINARY_CMD_ADDQ | PROTOCOL_BINARY_CMD_REPLACEQ | PROTOCOL_BINARY_CMD_DELETEQ
  | PROTOCOL_BINARY_CMD_INCREMENTQ | PROTOCOL_BINARY_CMD_DECREMENTQ | PROTOCOL_BINARY_CMD_QUITQ
  | PROTOCOL_BINARY_CMD_FLUSHQ | PROTOCOL_BINARY_CMD_APPENDQ | PROTOCOL_BINARY_CMD_PREPENDQ
  | PROTOCOL_BINARY_CMD_TOUCH | PROTOCOL_BINARY_CMD_GAT | PROTOCOL_BINARY_CMD_GATQ
  | PROTOCOL_BINARY_CMD_GATK | PROTOCOL_BINARY_CMD_GATKQ
  | PROTOCOL_BINARY_CMD_SASL_LIST_MECHS | PROTOCOL_BINARY_CMD_SASL_AUTH
  | PROTOCOL_BINARY_CMD_SASL_STEP
  | PROTOCOL_BINARY_CMD_RGET | PROTOCOL_BINARY_CMD_RSET | PROTOCOL_BINARY_CMD_RSETQ
  | PROTOCOL_BINARY_CMD_RAPPEND | PROTOCOL_BINARY_CMD_RAPPENDQ | PROTOCOL_BINARY_CMD_RPREPEND
  | PROTOCOL_BINARY_CMD_RPREPENDQ | PROTOCOL_BINARY_CMD_RDELETE | PROTOCOL_BINARY_CMD_RDELETEQ
  | PROTOCOL_BINARY_CMD_RINCR | PROTOCOL_BINARY_CMD_RINCRQ | PROTOCOL_BINARY_CMD_RDECR
  | PROTOCOL_BINARY_CMD_RDECRQ.

Definition cmd_code (c : protocol_binary_command) : Z :=
  match c with
  | PROTOCOL_BINARY_CMD_GET => 0x00 | PROTOCOL_BINARY_CMD_SET => 0x01
  | PROTOCOL_BINARY_CMD_ADD => 0x02 | PROTOCOL_BINARY_CMD_REPLACE => 0x03
  | PROTOCOL_BINARY_CMD_DELETE => 0x04 | PROTOCOL_BINARY_CMD_INCREMENT => 0x05
  | PROTOCOL_BINARY_CMD_DECREMENT => 0x06 | PROTOCOL_BINARY_CMD_QUIT => 0x07
  | PROTOCOL_BINARY_CMD_FLUSH => 0x08 | PROTOCOL_BINARY_CMD_GETQ => 0x09
  | PROTOCOL_BINARY_CMD_NOOP => 0x0a | PROTOCOL_BINARY_CMD_VERSION => 0x0b
  | PROTOCOL_BINARY_CMD_GETK => 0x0c | PROTOCOL_BINARY_CMD_GETKQ => 0x0d
  | PROTOCOL_BINARY_CMD_APPEND => 0x0e | PROTOCOL_BINARY_CMD_PREPEND => 0x0f
  | PROTOCOL_BINARY_CMD_STAT => 0x10 | PROTOCOL_BINARY_CMD_SETQ => 0x11
  | PROTOCOL_BINARY_CMD_ADDQ => 0x12 | PROTOCOL_BINARY_CMD_REPLACEQ => 0x13
  | PROTOCOL_BINARY_CMD_DELETEQ => 0x14 | PROTOCOL_BINARY_CMD_INCREMENTQ => 0x15
  | PROTOCOL_BINARY_CMD_DECREMENTQ => 0x16 | PROTOCOL_BINARY_CMD_QUITQ => 0x17
  | PROTOCOL_BINARY_CMD_FLUSHQ => 0x18 | PROTOCOL_BINARY_CMD_APPENDQ => 0x19
  | PROTOCOL_BINARY_CMD_PREPENDQ => 0x1a | PROTOCOL_BINARY_CMD_TOUCH => 0x1c
  | PROTOCOL_BINARY_CMD_GAT => 0x1d | PROTOCOL_BINARY_CMD_GATQ => 0x1e
  | PROTOCOL_BINARY_CMD_GATK => 0x23 | PROTOCOL_BINARY_CMD_GATKQ => 0x24
  | PROTOCOL_BINARY_CMD_SASL_LIST_MECHS => 0x20 | PROTOCOL_BINARY_CMD_SASL_AUTH => 0x21
  | PROTOCOL_BINARY_CMD_SASL_STEP => 0x22
  | PROTOCOL_BINARY_CMD_RGET => 0x30 | PROTOCOL_BINARY_CMD_RSET => 0x31
  | PROTOCOL_BINARY_CMD_RSETQ => 0x32 | PROTOCOL_BINARY_CMD_RAPPEND => 0x33
  | PROTOCOL_BINARY_CMD_RAPPENDQ => 0x34 | PROTOCOL_BINARY_CMD_RPREPEND => 0x35
  | PROTOCOL_BINARY_CMD_RPREPENDQ => 0x36 | PROTOCOL_BINARY_CMD_RDELETE => 0x37
  | PROTOCOL_BINARY_CMD_RDELETEQ => 0x38 | PROTOCOL_BINARY_CMD_RINCR => 0x39
  | PROTOCOL_BINARY_CMD_RINCRQ => 0x3a | PROTOCOL_BINARY_CMD_RDECR => 0x3b
  | PROTOCOL_BINARY_CMD_RDECRQ => 0x3c
  end.

#[export] Instance command_eq_dec : EqDecision protocol_binary_command.
Proof. solve_decision. Defined.

Definition PROTOCOL_BINARY_RAW_BYTES : Z := 0x00.

(** * Headers *)

(** The fields of a packet header in host order.  The two headers differ in the name of
    the fourth half-word, [reserved] in a request and [status] in a response. *)
Record header := {
  magic : Z; opcode : Z; keylen : Z; extlen : Z; datatype : Z;
  reserved_or_status : Z; bodylen : Z; opaque : Z; cas : Z
}.

Definition HEADER_LEN : nat := 24.

(** Network order. *)
Definition be (l : bytes) : Z := foldl (λ a b, a * 256 + uchar b) 0 l.

Fixpoint to_be (n : nat) (z : Z) : bytes :=
  match n with
  | O => []
  | S n => to_be n (z / 256) ++ [to_char z]
  end.

Definition field (l : bytes) (off n : nat) : Z := be (take n (drop off l)).

Definition decode (l : bytes) : header := {|
  magic := field l 0 1; opcode := field l 1 1; keylen := field l 2 2; extlen := field l 4 1;
  datatype := field l 5 1; reserved_or_status := field l 6 2; bodylen := field l 8 4;
  opaque := field l 12 4; cas := field l 16 8
|}.

Definition encode (h : header) : bytes :=
  to_be 1 (magic h) ++ to_be 1 (opcode h) ++ to_be 2 (keylen h) ++ to_be 1 (extlen h) ++
  to_be 1 (datatype h) ++ to_be 2 (reserved_or_status h) ++ to_be 4 (bodylen h) ++
  to_be 4 (opaque h) ++ to_be 8 (cas h).

(** The header at offset [off] of an object. *)
Definition header_at (m : bytes) (off : Z) : outcome header :=
  decode <$> mem_read m off (Z.of_nat HEADER_LEN).

(** Every field fits its width. *)
Definition header_ok (h : header) : Prop :=
  0 <= magic h < 2 ^ 8 ∧ 0 <= opcode h < 2 ^ 8 ∧ 0 <= keylen h < 2 ^ 16 ∧ 0 <= extlen h < 2 ^ 8 ∧
  0 <= datatype h < 2 ^ 8 ∧ 0 <= reserved_or_status h < 2 ^ 16 ∧ 0 <= bodylen h < 2 ^ 32 ∧
  0 <= opaque h < 2 ^ 32 ∧ 0 <= cas h < 2 ^ 64.

#[export] Instance header_ok_dec h : Decision (header_ok h).
Proof. unfold header_ok. apply _. Defined.

(** * Lemmas *)

Lemma be_snoc l b : be (l ++ [b]) = be l * 256 + uchar b.
Proof. unfold be. by rewrite foldl_app. Qed.

Lemma length_to_be n z : length (to_be n z) = n.
Proof. revert z. induction n as [|n IH]; intros z; cbn; [done|]. rewrite length_app, IH. cbn. lia. Qed.

Lemma be_to_be n z : 0 <= z < 256 ^ Z.of_nat n → be (to_be n z) = z.
Proof.
  revert z. induction n as [|n IH]; intros z Hz.
  { cbn in Hz. cbn. lia. }
  cbn [to_be]. rewrite be_snoc, uchar_to_char, IH.
  - pose proof (Z.div_mod z 256). lia.
  - rewrite Nat2Z.inj_succ, Z.pow_succ_r in Hz by lia. split; [apply Z.div_pos; lia|].
    apply Z.div_lt_upper_bound; lia.
Qed.

Lemma be_range l : 0 <= be l < 256 ^ Z.of_nat (length l).
Proof.
  induction l as [|b l IH] using rev_ind; [cbn; lia|].
  rewrite be_snoc, length_app. cbn [length]. pose proof (uchar_range b).
  replace (length l + 1)%nat with (S (length l)) by lia.
  rewrite Nat2Z.inj_succ, Z.pow_succ_r by lia. nia.
Qed.

Lemma length_encode h : length (encode h) = HEADER_LEN.
Proof. unfold encode. rewrite !length_app, !length_to_be. done. Qed.

(** A field is read back where it was laid out. *)
Lemma field_app pre n z post :
  0 <= z < 256 ^ Z.of_nat n → field (pre ++ to_be n z ++ post) (length pre) n = z.
Proof.
  intros Hz. unfold field. rewrite drop_app_length, take_app_le by (rewrite length_to_be; lia).
  rewrite take_ge by (rewrite length_to_be; lia). by apply be_to_be.
Qed.

Lemma field_skip off n m z post :
  (m <= off)%nat → field (to_be m z ++ post) off n = field post (off - m) n.
Proof.
  intros H. unfold field. rewrite drop_app_ge by (by rewrite length_to_be). by rewrite length_to_be.
Qed.

Lemma field_here n z post : 0 <= z < 256 ^ Z.of_nat n → field (to_be n z ++ post) 0 n = z.
Proof. apply (field_app []). Qed.

(** Reading back a header that was laid out gives its fields, whatever follows it. *)
Lemma decode_encode h post : header_ok h → decode (encode h ++ post) = h.
Proof.
  intros (H1 & H2 & H3 & H4 & H5 & H6 & H7 & H8 & H9). destruct h. unfold decode, encode.
  cbn [magic opcode keylen extlen datatype reserved_or_status bodylen opaque cas] in *.
  rewrite <- !app_assoc. f_equal; rewrite ?field_skip by lia; cbn [Nat.sub]; by apply field_here.
Qed.

(** Every header read from memory has its fields in range. *)
Lemma decode_ok l : length l = HEADER_LEN → header_ok (decode l).
Proof.
  intros Hl.
  assert (∀ off n, (off + n <= 24)%nat → 0 <= field l off n < 256 ^ Z.of_nat n) as H.
  { intros off n Hn. unfold field.
    pose proof (be_range (take n (drop off l))) as Hr.
    rewrite length_take, length_drop, Hl in Hr. unfold HEADER_LEN in Hr.
    replace (n `min` (24 - off))%nat with n in Hr by lia. done. }
  unfold header_ok, decode; cbn.
  split_and!; apply H; lia.
Qed.

Lemma header_at_ok m off h : header_at m off = Ret h → header_ok h.
Proof.
  unfold header_at. destruct (mem_read m off _) as [l| | |] eqn:E; cbn; try discriminate.
  intros [= <-]. apply decode_ok. apply mem_read_length in E. lia.
Qed.

Lemma cmd_code_inj c c' : cmd_code c = cmd_code c' → c = c'.
Proof. by destruct c, c'. Qed.

#[export] Hint Resolve cmd_code_inj header_at_ok : kv.
