(* ===== verification/Packets.v ===== *)
(** The packets of the memcached binary protocol, of [src/ext/memcached/protocol_binary.h]: for each
    command, the union of a struct - header and extras - with the bytes on the wire.

    [member_offsets] is where a compiler puts the members; [packet_overlay] shows that it is where
    the protocol puts them. *)
From S2P Require Import Prelude ProtocolBinary.

(** * Structs *)

(** The members of the [body] of a packet, with their widths in bytes, and the length of its array
    [bytes]. *)
Record packet_union := { u_header : protocol_binary_magic; u_body : list (bytes * nat); u_bytes : nat }.

(** A member of width [a] starts at a multiple of [a]. *)
Definition align_up (n a : nat) : nat := ((n + (a - 1)) `div` a * a)%nat.

Fixpoint c_offsets (n : nat) (ws : list nat) : list nat :=
  match ws with
  | [] => []
  | w :: ws => align_up n w :: c_offsets (align_up n w + w) ws
  end.

(** A struct is aligned like its widest member. *)
Definition c_align (ws : list nat) : nat := foldr max 1%nat ws.

Definition u_widths (u : packet_union) : list nat := (u_body u).*2.

(** The members of [message.body]; the header is 24 bytes without padding. *)
Definition member_offsets (u : packet_union) : list nat :=
  Nat.add (align_up HEADER_LEN (c_align (u_widths u))) <$> c_offsets 0 (u_widths u).

(** * Packets *)

Definition protocol_binary_request_no_extras : packet_union :=
  {| u_header := PROTOCOL_BINARY_REQ; u_body := []; u_bytes := HEADER_LEN + 0 |}.
Definition protocol_binary_response_no_extras : packet_union :=
  {| u_header := PROTOCOL_BINARY_RES; u_body := []; u_bytes := HEADER_LEN + 0 |}.
Definition protocol_binary_request_get : packet_union := protocol_binary_request_no_extras.
Definition protocol_binary_request_getq : packet_union := protocol_binary_request_no_extras.
Definition protocol_binary_request_getk : packet_union := protocol_binary_request_no_extras.
Definition protocol_binary_request_getkq : packet_union := protocol_binary_request_no_extras.
Definition protocol_binary_response_get : packet_union :=
  {| u_header := PROTOCOL_BINARY_RES; u_body := [(bs "flags", 4%nat)]; u_bytes := HEADER_LEN + 4 |}.
Definition protocol_binary_response_getq : packet_union := protocol_binary_response_get.
Definition protocol_binary_response_getk : packet_union := protocol_binary_response_get.
Definition protocol_binary_response_getkq : packet_union := protocol_binary_response_get.
Definition protocol_binary_request_delete : packet_union := protocol_binary_request_no_extras.
Definition protocol_binary_response_delete : packet_union := protocol_binary_response_no_extras.
Definition protocol_binary_request_flush : packet_union :=
  {| u_header := PROTOCOL_BINARY_REQ; u_body := [(bs "expiration", 4%nat)]; u_bytes := HEADER_LEN + 4 |}.
Definition protocol_binary_response_flush : packet_union := protocol_binary_response_no_extras.
Definition protocol_binary_request_set : packet_union :=
  {| u_header := PROTOCOL_BINARY_REQ; u_body := [(bs "flags", 4%nat); (bs "expiration", 4%nat)]; u_bytes := HEADER_LEN + 8 |}.
Definition protocol_binary_request_add : packet_union := protocol_binary_request_set.
Definition protocol_binary_request_replace : packet_union := protocol_binary_request_set.
Definition protocol_binary_response_set : packet_union := protocol_binary_response_no_extras.
Definition protocol_binary_response_add : packet_union := protocol_binary_response_no_extras.
Definition protocol_binary_response_replace : packet_union := protocol_binary_response_no_extras.
Definition protocol_binary_request_noop : packet_union := protocol_binary_request_no_extras.
Definition protocol_binary_response_noop : packet_union := protocol_binary_response_no_extras.
Definition protocol_binary_request_incr : packet_union :=
  {| u_header := PROTOCOL_BINARY_REQ; u_body := [(bs "delta", 8%nat); (bs "initial", 8%nat); (bs "expiration", 4%nat)]; u_bytes := HEADER_LEN + 20 |}.
Definition protocol_binary_request_decr : packet_union := protocol_binary_request_incr.
Definition protocol_binary_response_incr : packet_union :=
  {| u_header := PROTOCOL_BINARY_RES; u_body := [(bs "value", 8%nat)]; u_bytes := HEADER_LEN + 8 |}.
Definition protocol_binary_response_decr : packet_union := protocol_binary_response_incr.
Definition protocol_binary_request_quit : packet_union := protocol_binary_request_no_extras.
Definition protocol_binary_response_quit : packet_union := protocol_binary_response_no_extras.
Definition protocol_binary_request_append : packet_union := protocol_binary_request_no_extras.
Definition protocol_binary_request_prepend : packet_union := protocol_binary_request_no_extras.
Definition protocol_binary_response_append : packet_union := protocol_binary_response_no_extras.
Definition protocol_binary_response_prepend : packet_union := protocol_binary_response_no_extras.
Definition protocol_binary_request_version : packet_union := protocol_binary_request_no_extras.
Definition protocol_binary_response_version : packet_union := protocol_binary_response_no_extras.
Definition protocol_binary_request_stats : packet_union := protocol_binary_request_no_extras.
Definition protocol_binary_response_stats : packet_union := protocol_binary_response_no_extras.
Definition protocol_binary_request_touch : packet_union :=
  {| u_header := PROTOCOL_BINARY_REQ; u_body := [(bs "expiration", 4%nat)]; u_bytes := HEADER_LEN + 4 |}.
Definition protocol_binary_response_touch : packet_union := protocol_binary_response_no_extras.
Definition protocol_binary_request_gat : packet_union :=
  {| u_header := PROTOCOL_BINARY_REQ; u_body := [(bs "expiration", 4%nat)]; u_bytes := HEADER_LEN + 4 |}.
Definition protocol_binary_request_gatq : packet_union := protocol_binary_request_gat.
Definition protocol_binary_request_gatk : packet_union := protocol_binary_request_gat.
Definition protocol_binary_request_gatkq : packet_union := protocol_binary_request_gat.
Definition protocol_binary_response_gat : packet_union := protocol_binary_response_get.
Definition protocol_binary_response_gatq : packet_union := protocol_binary_response_get.
Definition protocol_binary_response_gatk : packet_union := protocol_binary_response_get.
Definition protocol_binary_response_gatkq : packet_union := protocol_binary_response_get.
Definition protocol_binary_request_rangeop : packet_union :=
  {| u_header := PROTOCOL_BINARY_RES; u_body := [(bs "size", 2%nat); (bs "reserved", 1%nat); (bs "flags", 1%nat); (bs "max_results", 4%nat)]; u_bytes := HEADER_LEN + 4 |}.
Definition protocol_binary_request_rget : packet_union := protocol_binary_request_rangeop.
Definition protocol_binary_request_rset : packet_union := protocol_binary_request_rangeop.
Definition protocol_binary_request_rsetq : packet_union := protocol_binary_request_rangeop.
Definition protocol_binary_request_rappend : packet_union := protocol_binary_request_rangeop.
Definition protocol_binary_request_rappendq : packet_union := protocol_binary_request_rangeop.
Definition protocol_binary_request_rprepend : packet_union := protocol_binary_request_rangeop.
Definition protocol_binary_request_rprependq : packet_union := protocol_binary_request_rangeop.
Definition protocol_binary_request_rdelete : packet_union := protocol_binary_request_rangeop.
Definition protocol_binary_request_rdeleteq : packet_union := protocol_binary_request_rangeop.
Definition protocol_binary_request_rincr : packet_union := protocol_binary_request_rangeop.
Definition protocol_binary_request_rincrq : packet_union := protocol_binary_request_rangeop.
Definition protocol_binary_request_rdecr : packet_union := protocol_binary_request_rangeop.
Definition protocol_binary_request_rdecrq : packet_union := protocol_binary_request_rangeop.

(** The packets of a command. *)
Definition request_type (c : protocol_binary_command) : option packet_union :=
  match c with
  | PROTOCOL_BINARY_CMD_GET => Some protocol_binary_request_get
  | PROTOCOL_BINARY_CMD_SET => Some protocol_binary_request_set
  | PROTOCOL_BINARY_CMD_ADD => Some protocol_binary_request_add
  | PROTOCOL_BINARY_CMD_REPLACE => Some protocol_binary_request_replace
  | PROTOCOL_BINARY_CMD_DELETE => Some protocol_binary_request_delete
  | PROTOCOL_BINARY_CMD_INCREMENT => Some protocol_binary_request_incr
  | PROTOCOL_BINARY_CMD_DECREMENT => Some protocol_binary_request_decr
  | PROTOCOL_BINARY_CMD_QUIT => Some protocol_binary_request_quit
  | PROTOCOL_BINARY_CMD_FLUSH => Some protocol_binary_request_flush
  | PROTOCOL_BINARY_CMD_GETQ => Some protocol_binary_request_getq
  | PROTOCOL_BINARY_CMD_NOOP => Some protocol_binary_request_noop
  | PROTOCOL_BINARY_CMD_VERSION => Some protocol_binary_request_version
  | PROTOCOL_BINARY_CMD_GETK => Some protocol_binary_request_getk
  | PROTOCOL_BINARY_CMD_GETKQ => Some protocol_binary_request_getkq
  | PROTOCOL_BINARY_CMD_APPEND => Some protocol_binary_request_append
  | PROTOCOL_BINARY_CMD_PREPEND => Some protocol_binary_request_prepend
  | PROTOCOL_BINARY_CMD_STAT => Some protocol_binary_request_stats
  | PROTOCOL_BINARY_CMD_TOUCH => Some protocol_binary_request_touch
  | PROTOCOL_BINARY_CMD_GAT => Some protocol_binary_request_gat
  | PROTOCOL_BINARY_CMD_GATQ => Some protocol_binary_request_gatq
  | PROTOCOL_BINARY_CMD_GATK => Some protocol_binary_request_gatk
  | PROTOCOL_BINARY_CMD_GATKQ => Some protocol_binary_request_gatkq
  | PROTOCOL_BINARY_CMD_RGET => Some protocol_binary_request_rget
  | PROTOCOL_BINARY_CMD_RSET => Some protocol_binary_request_rset
  | PROTOCOL_BINARY_CMD_RSETQ => Some protocol_binary_request_rsetq
  | PROTOCOL_BINARY_CMD_RAPPEND => Some protocol_binary_request_rappend
  | PROTOCOL_BINARY_CMD_RAPPENDQ => Some protocol_binary_request_rappendq
  | PROTOCOL_BINARY_CMD_RPREPEND => Some protocol_binary_request_rprepend
  | PROTOCOL_BINARY_CMD_RPREPENDQ => Some protocol_binary_request_rprependq
  | PROTOCOL_BINARY_CMD_RDELETE => Some protocol_binary_request_rdelete
  | PROTOCOL_BINARY_CMD_RDELETEQ => Some protocol_binary_request_rdeleteq
  | PROTOCOL_BINARY_CMD_RINCR => Some protocol_binary_request_rincr
  | PROTOCOL_BINARY_CMD_RINCRQ => Some protocol_binary_request_rincrq
  | PROTOCOL_BINARY_CMD_RDECR => Some protocol_binary_request_rdecr
  | PROTOCOL_BINARY_CMD_RDECRQ => Some protocol_binary_request_rdecrq
  | _ => None
  end.

Definition response_type (c : protocol_binary_command) : option packet_union :=
  match c with
  | PROTOCOL_BINARY_CMD_GET => Some protocol_binary_response_get
  | PROTOCOL_BINARY_CMD_SET => Some protocol_binary_response_set
  | PROTOCOL_BINARY_CMD_ADD => Some protocol_binary_response_add
  | PROTOCOL_BINARY_CMD_REPLACE => Some protocol_binary_response_replace
  | PROTOCOL_BINARY_CMD_DELETE => Some protocol_binary_response_delete
  | PROTOCOL_BINARY_CMD_INCREMENT => Some protocol_binary_response_incr
  | PROTOCOL_BINARY_CMD_DECREMENT => Some protocol_binary_response_decr
  | PROTOCOL_BINARY_CMD_QUIT => Some protocol_binary_response_quit
  | PROTOCOL_BINARY_CMD_FLUSH => Some protocol_binary_response_flush
  | PROTOCOL_BINARY_CMD_GETQ => Some protocol_binary_response_getq
  | PROTOCOL_BINARY_CMD_NOOP => Some protocol_binary_response_noop
  | PROTOCOL_BINARY_CMD_VERSION => Some protocol_binary_response_version
  | PROTOCOL_BINARY_CMD_GETK => Some protocol_binary_response_getk
  | PROTOCOL_BINARY_CMD_GETKQ => Some protocol_binary_response_getkq
  | PROTOCOL_BINARY_CMD_APPEND => Some protocol_binary_response_append
  | PROTOCOL_BINARY_CMD_PREPEND => Some protocol_binary_response_prepend
  | PROTOCOL_BINARY_CMD_STAT => Some protocol_binary_response_stats
  | PROTOCOL_BINARY_CMD_TOUCH => Some protocol_binary_response_touch
  | PROTOCOL_BINARY_CMD_GAT => Some protocol_binary_response_gat
  | PROTOCOL_BINARY_CMD_GATQ => Some protocol_binary_response_gatq
  | PROTOCOL_BINARY_CMD_GATK => Some protocol_binary_response_gatk
  | PROTOCOL_BINARY_CMD_GATKQ => Some protocol_binary_response_gatkq
  | _ => None
  end.

(** * Lemmas *)

(** The members one behind the other. *)
Fixpoint packed (n : nat) (ws : list nat) : list nat :=
  match ws with [] => [] | w :: ws => n :: packed (n + w) ws end.

Definition packet_of (c : protocol_binary_command) (u : packet_union) : Prop :=
  request_type c = Some u ∨ response_type c = Some u.

Lemma no_padding c u : packet_of c u → member_offsets u = packed HEADER_LEN (u_widths u).
Proof. intros [H|H]; destruct c; try discriminate; injection H as <-; reflexivity. Qed.

(** What the protocol lays out for the values [vs]. *)
Definition lay_out (ws : list nat) (vs : list Z) : bytes := concat (zip_with to_be ws vs).

Definition in_width (w : nat) (v : Z) : Prop := 0 <= v < 256 ^ Z.of_nat w.

Lemma length_lay_out ws : ∀ vs, Forall2 in_width ws vs → length (lay_out ws vs) = sum_list ws.
Proof.
  induction ws as [|w ws IH]; intros vs Hv; [done|]. inversion Hv; subst. unfold lay_out in *. cbn.
  by rewrite length_app, length_to_be, IH.
Qed.

Lemma packed_fields ws : ∀ vs pre,
  Forall2 in_width ws vs →
  zip_with (field (pre ++ lay_out ws vs)) (packed (length pre) ws) ws = vs.
Proof.
  induction ws as [|w ws IH]; intros vs pre Hv; inversion Hv as [|? v ? vs' Hw Hws]; subst; [done|].
  cbn [packed zip_with]. change (lay_out (w :: ws) (v :: vs')) with (to_be w v ++ lay_out ws vs').
  rewrite field_app by done. f_equal.
  specialize (IH vs' (pre ++ to_be w v) Hws). rewrite <- app_assoc, length_app, length_to_be in IH. exact IH.
Qed.

(** * Properties *)

(** The struct of every packet agrees with the wire: the header and the extras that the
    protocol lays out are read back through the struct's members, and the array [bytes] has their
    length - but for the range operations, whose array ends four bytes early, before [max_results]. *)
Theorem packet_overlay (c : protocol_binary_command) (u : packet_union) (h : header) (vs : list Z) :
  packet_of c u → header_ok h → Forall2 in_width (u_widths u) vs →
  let d := encode h ++ lay_out (u_widths u) vs in
  decode d = h ∧ zip_with (field d) (member_offsets u) (u_widths u) = vs ∧
  length d = (u_bytes u + if decide (u_body u = u_body protocol_binary_request_rangeop) then 4 else 0)%nat.
Proof.
  intros Hc Hh Hv d. split; [by apply decode_encode|]. split.
  - rewrite (no_padding c u Hc). unfold d. rewrite <- (length_encode h). by apply packed_fields.
  - unfold d. rewrite length_app, length_encode, length_lay_out by done. clear Hv d Hh.
    destruct Hc as [H|H]; destruct c; try discriminate; injection H as <-; reflexivity.
Qed.

Definition demo_set_head : header := {|
  magic := magic_code PROTOCOL_BINARY_REQ; opcode := cmd_code PROTOCOL_BINARY_CMD_SET; keylen := 1; extlen := 8;
  datatype := 0; reserved_or_status := 0; bodylen := 10; opaque := 0; cas := 0 |}.

Lemma packet_overlay_witness :
  let d := encode demo_set_head ++ lay_out [4%nat; 4%nat] [7; 3600] in
  zip_with (field d) (member_offsets protocol_binary_request_set) [4%nat; 4%nat] = [7; 3600] ∧ length d = 32%nat.
Proof.
  destruct (packet_overlay PROTOCOL_BINARY_CMD_SET protocol_binary_request_set demo_set_head [7; 3600]) as (_ & H1 & H2).
  - left. reflexivity.
  - vm_compute. intuition congruence.
  - repeat constructor; vm_compute; congruence.
  - split; [exact H1|exact H2].
Defined.
