(* ===== verification/Extension.v ===== *)
(** Protocol extensions: the types of [src/extension.h] that the proxy and an extension
    exchange, the loader of [src/extension.cpp], and the calls through the loaded pointers.

    Requests and responses carry [const char*] fields that point into a buffer of the
    proxy; here they are offsets into that buffer, and every operation that follows one
    takes the buffer as it is at that moment.

    [Dl] is the dynamic linker; [Ext] is what a loaded function pointer does when called.
    [src/ext/memcached] is an instance of both (file Memcached). *)
From S2P Require Import Prelude StdMap Config.

Definition EXT_VER : Z := 20140911.

(** * Data *)

Inductive ext_ret_t := AGAIN | SUCCESS | ERROR | IGNORE.

#[export] Instance ext_ret_eq_dec : EqDecision ext_ret_t.
Proof. solve_decision. Defined.

(** [ext] is the first byte of [ext[8]]: the only one an extension sets or reads. *)
Record req_t := {
  key : Z; key_len : Z; content : Z; content_len : Z; update : bool; each : bool; ext : byte
}.

Record resp_t := { resp_content : Z; resp_content_len : Z; resp_ext : byte }.

Record comm_t := { comm_content : bytes; comm_ext : byte }.

#[export] Instance req_eq_dec : EqDecision req_t.
Proof. solve_decision. Defined.
#[export] Instance resp_eq_dec : EqDecision resp_t.
Proof. solve_decision. Defined.
#[export] Instance comm_eq_dec : EqDecision comm_t.
Proof. solve_decision. Defined.

Abbreviation req_list_t := (list req_t).
Abbreviation resp_list_t := (list resp_t).
Abbreviation comm_list_t := (list comm_t).

(** * The environment *)

(** Libraries [H] and symbol addresses [F]. *)
Class Dl (H F : Type) := {
  dlopen : bytes → option H;
  dlsym : H → bytes → option F
}.

(** Calls through a function pointer.  [E] holds the static variables of the libraries;
    only [parse_req] is given the configuration, which [get_conf] reads and extends. *)
Class Ext (F E : Type) := {
  ext_version : F → Z;
  (** buffer, [size], [*position], [*req_data] *)
  parse_req : F → E → Config → bytes → Z → Z → req_list_t →
    outcome (ext_ret_t * Z * req_list_t * E * Config);
  (** request buffer, requests, output buffer, [*length] *)
  create_req : F → bytes → req_list_t → bytes → Z → outcome (ext_ret_t * bytes * Z);
  create_req_async : F → comm_list_t → bytes → Z → outcome (ext_ret_t * bytes * Z);
  (** response buffer, [size], [*position], [*resp_data] *)
  parse_resp : F → bytes → Z → Z → resp_list_t → outcome (ext_ret_t * Z * resp_list_t);
  (** response buffer, responses, output buffer, [*length], [*size] *)
  create_resp : F → bytes → resp_list_t → bytes → Z → Z → outcome (ext_ret_t * bytes * Z)
}.

(** * The loader *)

Record Extension (F : Type) := {
  parse_reqs : gmap bytes F; create_reqs : gmap bytes F; create_req_asyncs : gmap bytes F;
  parse_resps : gmap bytes F; create_resps : gmap bytes F; ext_versions : gmap bytes F;
  ext_path : bytes
}.
Arguments parse_reqs {F} _.
Arguments create_reqs {F} _.
Arguments create_req_asyncs {F} _.
Arguments parse_resps {F} _.
Arguments create_resps {F} _.
Arguments ext_versions {F} _.
Arguments ext_path {F} _.

Section loader.
Context {H F : Type} `{!Dl H F}.

Definition extension_new : Extension F := {|
  parse_reqs := ∅; create_reqs := ∅; create_req_asyncs := ∅;
  parse_resps := ∅; create_resps := ∅; ext_versions := ∅; ext_path := []
|}.

Definition setExtPath (this : Extension F) (path : bytes) : Extension F := {|
  parse_reqs := parse_reqs this; create_reqs := create_reqs this;
  create_req_asyncs := create_req_asyncs this; parse_resps := parse_resps this;
  create_resps := create_resps this; ext_versions := ext_versions this; ext_path := path
|}.

(** One of the six blocks of [load]: a symbol that is found is entered, one that is
    missing leaves the map as it is. *)
Definition load_sym (handle : H) (ext_name suffix : bytes) (m : gmap bytes F) : gmap bytes F :=
  match dlsym handle (ext_name ++ suffix) with
  | Some sym => <[ext_name := sym]> m
  | None => m
  end.

Definition load (this : Extension F) (ext_name filename : bytes) : bool * Extension F :=
  if decide (ext_path this = []) then (false, this)
  else
    match dlopen (ext_path this ++ bs "/" ++ filename) with
    | None => (false, this)
    | Some handle =>
        (true, {|
          parse_reqs := load_sym handle ext_name (bs "_parse_req") (parse_reqs this);
          create_reqs := load_sym handle ext_name (bs "_create_req") (create_reqs this);
          create_req_asyncs :=
            load_sym handle ext_name (bs "_create_req_async") (create_req_asyncs this);
          parse_resps := load_sym handle ext_name (bs "_parse_resp") (parse_resps this);
          create_resps := load_sym handle ext_name (bs "_create_resp") (create_resps this);
          ext_versions := load_sym handle ext_name (bs "_ext_version") (ext_versions this);
          ext_path := ext_path this
        |})
    end.

Definition findParseReq (this : Extension F) (ext_name : bytes) : option F := parse_reqs this !! ext_name.
Definition findCreateReq (this : Extension F) (ext_name : bytes) : option F := create_reqs this !! ext_name.
Definition findCreateReqAsync (this : Extension F) (ext_name : bytes) : option F :=
  create_req_asyncs this !! ext_name.
Definition findParseResp (this : Extension F) (ext_name : bytes) : option F := parse_resps this !! ext_name.
Definition findCreateResp (this : Extension F) (ext_name : bytes) : option F := create_resps this !! ext_name.
Definition findExtVersion (this : Extension F) (ext_name : bytes) : option F := ext_versions this !! ext_name.

(** What [load] enters is found again under the same name, and other names are not touched. *)
Lemma load_sym_lookup handle ext_name suffix m name :
  load_sym handle ext_name suffix m !! name =
  if decide (name = ext_name) then
    match dlsym handle (ext_name ++ suffix) with Some sym => Some sym | None => m !! name end
  else m !! name.
Proof.
  unfold load_sym. case_decide as E.
  - subst. destruct (dlsym _ _); [by rewrite lookup_insert_eq|done].
  - destruct (dlsym _ _); [by rewrite lookup_insert_ne|done].
Qed.
End loader.
