(* ===== verification/Memcached.v ===== *)
(** The memcached extension, [src/ext/memcached/memcached.cpp]: splitting a client's buffer
    into requests, rebuilding the request for a backend, splitting a backend's bytes into
    responses and rebuilding the response for the client. *)
From S2P Require Import Prelude StdMap Util Config ProtocolBinary Extension.

(** * Data *)

(** The fields are [int]s the readers set; unset, they hold no value. *)
Record memcached_header := {
  hd_keylen : option Z; hd_extlen : option Z; hd_bodylen : option Z; hd_opcode : option Z
}.

Definition header_unset : memcached_header :=
  {| hd_keylen := None; hd_extlen := None; hd_bodylen := None; hd_opcode := None |}.

(** Reading a local variable. *)
Definition known {A} (v : option A) : outcome A :=
  match v with Some a => Ret a | None => Undef Indeterminate end.

(** The statics of [memcached_parse_req]. *)
Record statics := { init_use_binary : bool; use_binary : bool }.

Definition statics_init : statics := {| init_use_binary := false; use_binary := true |}.

(** * Reading one packet *)

Definition is_binary_protocol (data : bytes) (off size : Z) : outcome bool :=
  c ← mem_get data off;
  Ret (bool_decide (uchar c = magic_code PROTOCOL_BINARY_REQ ∨ uchar c = magic_code PROTOCOL_BINARY_RES)).

(** The binary readers: [0] when the header is incomplete, [-1] on another magic, else [1]. *)
Definition try_read_binary (m : protocol_binary_magic) (data : bytes) (off size : Z) (hd : memcached_header)
    : outcome (Z * memcached_header) :=
  if decide (size < 24) then Ret (0, hd)
  else
    c ← mem_get data off;
    if decide (uchar c ≠ magic_code m) then Ret (-1, hd)
    else
      h ← header_at data off;
      Ret (1, {| hd_keylen := Some (keylen h); hd_extlen := Some (extlen h);
                 hd_bodylen := Some (i32 (bodylen h)); hd_opcode := Some (opcode h) |}).

Definition try_read_request_binary := try_read_binary PROTOCOL_BINARY_REQ.
Definition try_read_response_binary := try_read_binary PROTOCOL_BINARY_RES.

(** [strncmp(data + off, lit, |lit|) == 0]: stops at the first difference. *)
Fixpoint has_prefix (lit : bytes) (data : bytes) (off : Z) : outcome bool :=
  match lit with
  | [] => Ret true
  | b :: lit =>
      c ← mem_get data off;
      if decide (c = b) then has_prefix lit data (off + 1) else Ret false
  end.

(** The chain of [get_opcode]: the first command word that is a prefix. *)
Definition opcode_words : list (bytes * protocol_binary_command) := [
  (bs "get", PROTOCOL_BINARY_CMD_GET); (bs "set", PROTOCOL_BINARY_CMD_SET);
  (bs "add", PROTOCOL_BINARY_CMD_ADD); (bs "replace", PROTOCOL_BINARY_CMD_REPLACE);
  (bs "delete", PROTOCOL_BINARY_CMD_DELETE); (bs "incr", PROTOCOL_BINARY_CMD_INCREMENT);
  (bs "decr", PROTOCOL_BINARY_CMD_DECREMENT); (bs "quit", PROTOCOL_BINARY_CMD_QUIT);
  (bs "append", PROTOCOL_BINARY_CMD_APPEND); (bs "prepend", PROTOCOL_BINARY_CMD_PREPEND)
].

Fixpoint opcode_chain (words : list (bytes * protocol_binary_command)) (data : bytes) (off : Z) : outcome Z :=
  match words with
  | [] => Ret 0
  | (w, c) :: words =>
      b ← has_prefix w data off;
      if (b : bool) then Ret (cmd_code c) else opcode_chain words data off
  end.

Definition get_opcode (data : bytes) (off : Z) : outcome Z := opcode_chain opcode_words data off.

(** The locals of [try_read_request_text]; [chr_data_len] holds the digits written so far. *)
Record text_scan := {
  split_counter : Z; cmd_len : Z; key_len_t : Z; content_len_t : Z;
  extlen_t : option Z; chr_data_len : bytes
}.

Definition CHR_DATA_LEN : nat := 10.

Definition scan_init (extlen : option Z) : text_scan :=
  {| split_counter := 0; cmd_len := 0; key_len_t := 0; content_len_t := 0;
     extlen_t := extlen; chr_data_len := [] |}.

Definition SP : byte := " "%byte.
Definition CR : byte := x0d.
Definition LF : byte := x0a.

(** One turn of the loop of [try_read_request_text] on [c = req_data[i]]; true is [break]. *)
Definition text_req_step (st : text_scan) (i : Z) (c : byte) : outcome (text_scan * bool) :=
  if bool_decide (cmd_len st = 0 ∧ c = SP) then
    Ret ({| split_counter := split_counter st + 1; cmd_len := i; key_len_t := key_len_t st;
            content_len_t := content_len_t st; extlen_t := Some (i + 1);
            chr_data_len := chr_data_len st |}, false)
  else if bool_decide (cmd_len st > 0 ∧ key_len_t st = 0 ∧ c = SP) then
    e ← known (extlen_t st);
    Ret ({| split_counter := split_counter st + 1; cmd_len := cmd_len st; key_len_t := i - e;
            content_len_t := content_len_t st; extlen_t := extlen_t st;
            chr_data_len := chr_data_len st |}, false)
  else if bool_decide (cmd_len st > 0 ∧ key_len_t st = 0 ∧ c = CR) then
    e ← known (extlen_t st);
    Ret ({| split_counter := split_counter st; cmd_len := cmd_len st; key_len_t := i - e;
            content_len_t := content_len_t st; extlen_t := extlen_t st;
            chr_data_len := chr_data_len st |}, false)
  else if bool_decide (cmd_len st > 0 ∧ key_len_t st > 0 ∧ c = LF) then
    Ret ({| split_counter := split_counter st; cmd_len := cmd_len st; key_len_t := key_len_t st;
            content_len_t := i + 1; extlen_t := extlen_t st;
            chr_data_len := chr_data_len st |}, true)
  else if bool_decide (key_len_t st > 0 ∧ c = "n"%byte) then Ret (st, true)
  else if bool_decide (key_len_t st > 0 ∧ c = SP ∧ split_counter st < 4) then
    Ret ({| split_counter := split_counter st + 1; cmd_len := cmd_len st; key_len_t := key_len_t st;
            content_len_t := content_len_t st; extlen_t := extlen_t st;
            chr_data_len := chr_data_len st |}, false)
  else if bool_decide (split_counter st = 4 ∧ isdigit c ∧ (length (chr_data_len st) < CHR_DATA_LEN)%nat) then
    Ret ({| split_counter := split_counter st; cmd_len := cmd_len st; key_len_t := key_len_t st;
            content_len_t := content_len_t st; extlen_t := extlen_t st;
            chr_data_len := chr_data_len st ++ [c] |}, false)
  else Ret (st, false).

(** The loop, with [n] characters left from [i]. *)
Fixpoint text_req_loop (n : nat) (i : Z) (data : bytes) (off : Z) (st : text_scan) : outcome text_scan :=
  match n with
  | O => Ret st
  | S n =>
      c ← mem_get data (off + i);
      r ← text_req_step st i c;
      if (r.2 : bool) then Ret r.1 else text_req_loop n (i + 1) data off r.1
  end.

(** [chr_data_len[chr_data_len_i] = '\0'; atoi(chr_data_len)]. *)
Definition data_length (digits : bytes) : outcome Z :=
  if decide (length digits < CHR_DATA_LEN)%nat then Ret (read_digits 0 digits) else Undef OutOfBounds.

Definition try_read_request_text (data : bytes) (off size : Z) (hd : memcached_header)
    : outcome (Z * memcached_header) :=
  st ← text_req_loop (Z.to_nat size) 0 data off (scan_init (hd_extlen hd));
  data_len ← data_length (chr_data_len st);
  op ← get_opcode data off;
  body ← int_add (content_len_t st) data_len;
  body ← (if decide (0 < data_len) then int_add body 2 else Ret body);
  Ret (1, {| hd_keylen := Some (key_len_t st); hd_extlen := extlen_t st;
             hd_bodylen := Some body; hd_opcode := Some op |}).

(** The loop of [try_read_response_text]: words, digits of the fourth word, and the length
    of the first line. *)
Fixpoint text_resp_loop (n : nat) (i : Z) (data : bytes) (off : Z) (split_counter : Z) (digits : bytes)
    : outcome (Z * bytes) :=
  match n with
  | O => Ret (0, digits)
  | S n =>
      c ← mem_get data (off + i);
      if decide (c = SP) then text_resp_loop n (i + 1) data off (split_counter + 1) digits
      else if decide (c = CR) then Ret (i + 2, digits)
      else if decide (split_counter = 3 ∧ isdigit c ∧ (length digits < CHR_DATA_LEN)%nat)
      then text_resp_loop n (i + 1) data off split_counter (digits ++ [c])
      else text_resp_loop n (i + 1) data off split_counter digits
  end.

Definition try_read_response_text (data : bytes) (off size : Z) (hd : memcached_header)
    : outcome (Z * memcached_header) :=
  let whole := {| hd_keylen := hd_keylen hd; hd_extlen := hd_extlen hd;
                  hd_bodylen := Some size; hd_opcode := Some 0 |} in
  if decide (size < 5) then Ret (1, whole)
  else
    value ← has_prefix (bs "VALUE") data off;
    if negb value then Ret (1, whole)
    else
      r ← text_resp_loop (Z.to_nat size) 0 data off 0 [];
      value_len ← data_length r.2;
      body_len ← int_add r.1 value_len;
      body_len ← int_add body_len 7;
      if decide (size < body_len) then Ret (0, hd)
      else Ret (1, {| hd_keylen := hd_keylen hd; hd_extlen := hd_extlen hd;
                      hd_bodylen := Some body_len; hd_opcode := Some 0 |}).

(** * The exported functions *)

(** What the chain of comparisons on [header.opcode] sets. *)
Inductive verdict :=
  | Item (update each : bool) (ext : byte) (is_agin : bool)
  | Stop (r : ext_ret_t).

Definition classify (opcode : Z) : verdict :=
  if decide (opcode = cmd_code PROTOCOL_BINARY_CMD_SET) then Item true false x00 false
  else if decide (opcode = cmd_code PROTOCOL_BINARY_CMD_GET) then Item false false x00 false
  else if decide (opcode = cmd_code PROTOCOL_BINARY_CMD_GETKQ) then Item false false x00 true
  else if decide (opcode = cmd_code PROTOCOL_BINARY_CMD_NOOP) then Item false true "e"%byte false
  else if decide (opcode = cmd_code PROTOCOL_BINARY_CMD_ADD) then Item true false x00 false
  else if decide (opcode = cmd_code PROTOCOL_BINARY_CMD_DELETE) then Item true false x00 false
  else if decide (opcode = cmd_code PROTOCOL_BINARY_CMD_INCREMENT) then Item true false x00 false
  else if decide (opcode = cmd_code PROTOCOL_BINARY_CMD_DECREMENT) then Item true false x00 false
  else if decide (opcode = cmd_code PROTOCOL_BINARY_CMD_APPEND) then Item true false x00 false
  else if decide (opcode = cmd_code PROTOCOL_BINARY_CMD_PREPEND) then Item true false x00 false
  else if decide (opcode = cmd_code PROTOCOL_BINARY_CMD_REPLACE) then Item true false x00 false
  else if decide (opcode = cmd_code PROTOCOL_BINARY_CMD_QUIT) then Stop IGNORE
  else Stop ERROR.

(** [while(size - *position > 0)] of [memcached_parse_req]. *)
Fixpoint parse_req_loop (fuel : nat) (is_binary is_agin : bool) (header_len : Z) (origin_req : bytes)
    (size position : Z) (hd : memcached_header) (req_data : req_list_t)
    : outcome (ext_ret_t * Z * req_list_t) :=
  match fuel with
  | O => NoFuel
  | S fuel =>
      if decide (size - position <= 0)
      then Ret (if is_agin then AGAIN else SUCCESS, position, req_data)
      else
        r ← (if is_binary then try_read_request_binary origin_req position (size - position) hd
             else try_read_request_text origin_req position (size - position) hd);
        let '(ret, hd) := r : Z * memcached_header in
        if decide (ret = -1) then Ret (ERROR, position, req_data)
        else if decide (ret = 0) then Ret (AGAIN, position, req_data)
        else
          op ← known (hd_opcode hd);
          match classify op with
          | Stop r => Ret (r, position, req_data)
          | Item update each ext is_agin =>
              body ← known (hd_bodylen hd);
              total ← int_add header_len body;
              if decide (size < total) then Ret (AGAIN, position, req_data)
              else
                e ← known (hd_extlen hd);
                kl ← known (hd_keylen hd);
                let item := {| key := position + header_len + e; key_len := u16 kl;
                               content := position; content_len := u32 total;
                               update := update; each := each; ext := ext |} in
                let req_data := req_data ++ [item] in
                p ← int_add position header_len;
                position ← int_add p body;
                if (is_agin : bool)
                then parse_req_loop fuel is_binary is_agin header_len origin_req size position hd req_data
                else Ret (SUCCESS, position, req_data)
          end
  end.

Definition parse_fuel (size : Z) : nat := S (S (Z.to_nat size)).

(** The first call reads the configured protocol. *)
Definition init_statics (st : statics) (conf : Config) : statics * Config :=
  if init_use_binary st then (st, conf)
  else
    let '(str_proto, conf) := getConfStr conf (bs "memcached") (bs "proto") in
    ({| init_use_binary := true;
        use_binary := if decide (str_proto = bs "text") then false else use_binary st |}, conf).

(** [memcached_parse_req]. *)
Definition memcached_parse_req (fuel : nat) (st : statics) (conf : Config) (origin_req : bytes)
    (size position : Z) (req_data : req_list_t)
    : outcome (ext_ret_t * Z * req_list_t * statics * Config) :=
  let '(st, conf) := init_statics st conf in
  is_binary ← is_binary_protocol origin_req 0 size;
  if negb (Bool.eqb (use_binary st) is_binary) then Ret (ERROR, position, req_data, st, conf)
  else
    r ← parse_req_loop fuel is_binary false (if is_binary then 24 else 0) origin_req size position
          header_unset req_data;
    Ret (r, st, conf).

(** [memcpy(out + *length, mem + off, n); *length += n]. *)
Definition append_mem (mem : bytes) (off n : Z) (out : bytes) (length : Z) : outcome (bytes * Z) :=
  d ← mem_read mem off n;
  out ← mem_write out length d;
  Ret (out, i32 (length + n)).

(** The loop of [memcached_create_req]: the end marker is put aside. *)
Fixpoint create_req_loop (mem : bytes) (req_data : req_list_t) (out : bytes) (length : Z)
    (end_str end_len : Z) : outcome (bytes * Z * Z * Z) :=
  match req_data with
  | [] => Ret (out, length, end_str, end_len)
  | it :: req_data =>
      if decide (ext it ≠ "e"%byte) then
        r ← append_mem mem (content it) (content_len it) out length;
        create_req_loop mem req_data r.1 r.2 end_str end_len
      else create_req_loop mem req_data out length (content it) (i32 (content_len it))
  end.

Definition memcached_create_req (mem : bytes) (req_data : req_list_t) (out : bytes) (length : Z)
    : outcome (ext_ret_t * bytes * Z) :=
  r ← create_req_loop mem req_data out length 0 0;
  let '(out, length, end_str, end_len) := r : bytes * Z * Z * Z in
  if decide (end_len ≠ 0) then
    r ← append_mem mem end_str end_len out length;
    Ret (SUCCESS, r.1, r.2)
  else Ret (SUCCESS, out, length).

(** [memcpy] from a string of its own. *)
Definition append_str (s : bytes) (out : bytes) (length : Z) : outcome (bytes * Z) :=
  out ← mem_write out length s;
  Ret (out, i32 (length + Z.of_nat (List.length s))).

Fixpoint create_req_async_loop (req_data : comm_list_t) (out : bytes) (length : Z) (end_str : bytes)
    : outcome (bytes * Z * bytes) :=
  match req_data with
  | [] => Ret (out, length, end_str)
  | it :: req_data =>
      if decide (comm_ext it ≠ "e"%byte) then
        r ← append_str (comm_content it) out length;
        create_req_async_loop req_data r.1 r.2 end_str
      else create_req_async_loop req_data out length (comm_content it)
  end.

Definition memcached_create_req_async (req_data : comm_list_t) (out : bytes) (length : Z)
    : outcome (ext_ret_t * bytes * Z) :=
  r ← create_req_async_loop req_data out length [];
  let '(out, length, end_str) := r : bytes * Z * bytes in
  if decide (end_str ≠ []) then
    r ← append_str end_str out length;
    Ret (SUCCESS, r.1, r.2)
  else Ret (SUCCESS, out, length).

(** [memcached_parse_resp]; [is_agin] has no value before the first packet. *)
Fixpoint parse_resp_loop (fuel : nat) (is_binary : bool) (is_agin : option bool) (header_len : Z)
    (origin_resp : bytes) (size position : Z) (hd : memcached_header) (resp_data : resp_list_t)
    : outcome (ext_ret_t * Z * resp_list_t) :=
  match fuel with
  | O => NoFuel
  | S fuel =>
      if decide (size - position <= 0) then
        a ← known is_agin;
        Ret (if (a : bool) then AGAIN else SUCCESS, position, resp_data)
      else
        r ← (if is_binary then try_read_response_binary origin_resp position (size - position) hd
             else try_read_response_text origin_resp position (size - position) hd);
        let '(ret, hd) := r : Z * memcached_header in
        if decide (ret = -1) then Ret (ERROR, position, resp_data)
        else if decide (ret = 0) then Ret (AGAIN, position, resp_data)
        else
          body ← known (hd_bodylen hd);
          total ← int_add header_len body;
          if decide (size < total) then Ret (AGAIN, position, resp_data)
          else
            op ← known (hd_opcode hd);
            let agin := bool_decide (op = cmd_code PROTOCOL_BINARY_CMD_GETKQ) in
            let e := if decide (op = cmd_code PROTOCOL_BINARY_CMD_NOOP) then "e"%byte else x00 in
            let item := {| resp_content := position; resp_content_len := u32 total; resp_ext := e |} in
            p ← int_add position header_len;
            position ← int_add p body;
            parse_resp_loop fuel is_binary (Some agin) header_len origin_resp size position hd
              (resp_data ++ [item])
  end.

Definition memcached_parse_resp (fuel : nat) (origin_resp : bytes) (size position : Z)
    (resp_data : resp_list_t) : outcome (ext_ret_t * Z * resp_list_t) :=
  is_binary ← is_binary_protocol origin_resp 0 size;
  parse_resp_loop fuel is_binary None (if is_binary then 24 else 0) origin_resp size position
    header_unset resp_data.

(** The loop of [memcached_create_resp]: [None] is the early [return ERROR]. *)
Fixpoint create_resp_loop (mem : bytes) (resp_data : resp_list_t) (out : bytes) (length size : Z)
    (end_str end_len : Z) : outcome (option (Z * Z) * bytes * Z) :=
  match resp_data with
  | [] => Ret (Some (end_str, end_len), out, length)
  | it :: resp_data =>
      if decide (resp_ext it ≠ "e"%byte) then
        if decide (u32 size < u32 (length + resp_content_len it)) then Ret (None, out, length)
        else
          r ← append_mem mem (resp_content it) (resp_content_len it) out length;
          create_resp_loop mem resp_data r.1 r.2 size end_str end_len
      else create_resp_loop mem resp_data out length size (resp_content it) (i32 (resp_content_len it))
  end.

Definition memcached_create_resp (mem : bytes) (resp_data : resp_list_t) (out : bytes) (length size : Z)
    : outcome (ext_ret_t * bytes * Z) :=
  r ← create_resp_loop mem resp_data out length size 0 0;
  let '(e, out, length) := r : option (Z * Z) * bytes * Z in
  match e with
  | None => Ret (ERROR, out, length)
  | Some (end_str, end_len) =>
      if decide (end_len ≠ 0) then
        l ← int_add length end_len;
        if decide (size < l) then Ret (ERROR, out, length)
        else
          r ← append_mem mem end_str end_len out length;
          Ret (SUCCESS, r.1, r.2)
      else Ret (SUCCESS, out, length)
  end.

Definition memcached_ext_version : Z := EXT_VER.

(** * The shared object *)

(** Its exported symbols. *)
Inductive memcached_sym := SYM_parse_req | SYM_create_req | SYM_create_req_async
  | SYM_parse_resp | SYM_create_resp | SYM_ext_version.

Definition symbols : list (bytes * memcached_sym) := [
  (bs "memcached_parse_req", SYM_parse_req); (bs "memcached_create_req", SYM_create_req);
  (bs "memcached_create_req_async", SYM_create_req_async);
  (bs "memcached_parse_resp", SYM_parse_resp); (bs "memcached_create_resp", SYM_create_resp);
  (bs "memcached_ext_version", SYM_ext_version)
].

(** A linker whose one library is the extension, under any path that ends in its name. *)
#[export] Instance memcached_dl : Dl unit memcached_sym := {|
  dlopen path := if decide (bs "/memcached.so" `suffix_of` path) then Some () else None;
  dlsym _ name := snd <$> (list_find (λ s, s.1 = name) symbols ≫= λ r, Some r.2)
|}.

#[export] Instance memcached_ext : Ext memcached_sym statics := {|
  ext_version _ := memcached_ext_version;
  parse_req _ st conf mem size position l :=
    memcached_parse_req (parse_fuel size) st conf mem size position l;
  create_req _ := memcached_create_req;
  create_req_async _ := memcached_create_req_async;
  parse_resp _ mem size position l := memcached_parse_resp (parse_fuel size) mem size position l;
  create_resp _ := memcached_create_resp
|}.
