(* ===== verification/MemcachedBinary.v ===== *)
(** The binary protocol through the memcached extension: packets on the wire, what
    [memcached_parse_req] and [memcached_parse_resp] make of a stream of them, complete or
    cut anywhere, and when the loops terminate. *)
From S2P Require Import Prelude StdMap Util Config ProtocolBinary Extension Memcached.

(** * Packets *)

Record packet := { p_head : header; p_body : bytes }.

Definition packet_bytes (p : packet) : bytes := encode (p_head p) ++ p_body p.
Definition plen (p : packet) : Z := Z.of_nat (length (packet_bytes p)).
Definition stream (ps : list packet) : bytes := concat (packet_bytes <$> ps).

(** The length a header announces, and a header the [int]s of the parser can follow. *)
Definition hlen (h : header) : Z := 24 + bodylen h.
Definition head_ok (m : protocol_binary_magic) (h : header) : Prop :=
  header_ok h ∧ magic h = magic_code m ∧ hlen h <= INT_MAX.
(** A packet whose header says what follows it. *)
Definition packet_ok (m : protocol_binary_magic) (p : packet) : Prop :=
  head_ok m (p_head p) ∧ hlen (p_head p) = plen p.

#[export] Instance head_ok_dec m h : Decision (head_ok m h).
Proof. unfold head_ok. apply _. Defined.
#[export] Instance packet_ok_dec m p : Decision (packet_ok m p).
Proof. unfold packet_ok. apply _. Defined.

(** What a reader extracts. *)
Definition read_of (h : header) : memcached_header := {|
  hd_keylen := Some (keylen h); hd_extlen := Some (extlen h);
  hd_bodylen := Some (bodylen h); hd_opcode := Some (opcode h)
|}.

Definition verdict_of (h : header) : verdict := classify (opcode h).

(** A request the parser continues after, and one it stops after. *)
Definition quiet (h : header) : Prop := ∃ u e x, verdict_of h = Item u e x true.
Definition final (h : header) : Prop := ∃ u e x, verdict_of h = Item u e x false.

#[export] Instance quiet_dec h : Decision (quiet h).
Proof.
  unfold quiet. destruct (verdict_of h) as [u e x [|]|r]; [left; by eauto|right..]; by intros (?&?&?&?).
Defined.
#[export] Instance final_dec h : Decision (final h).
Proof.
  unfold final. destruct (verdict_of h) as [u e x [|]|r]; [right|left; by eauto|right]; by intros (?&?&?&?).
Defined.

(** The item for a request at [pos]. *)
Definition req_item (pos : Z) (h : header) : list req_t :=
  match verdict_of h with
  | Item u e x _ =>
      [{| key := pos + 24 + extlen h; key_len := keylen h; content := pos;
          content_len := hlen h; update := u; each := e; ext := x |}]
  | Stop _ => []
  end.

Fixpoint req_items (pos : Z) (hs : list header) : list req_t :=
  match hs with [] => [] | h :: hs => req_item pos h ++ req_items (pos + hlen h) hs end.

(** The item for a response at [pos]. *)
Definition resp_item (pos : Z) (h : header) : resp_t := {|
  resp_content := pos; resp_content_len := hlen h;
  resp_ext := if decide (opcode h = cmd_code PROTOCOL_BINARY_CMD_NOOP) then "e"%byte else x00
|}.

Fixpoint resp_items (pos : Z) (hs : list header) : list resp_t :=
  match hs with [] => [] | h :: hs => resp_item pos h :: resp_items (pos + hlen h) hs end.

Definition resp_quiet (h : header) : bool :=
  bool_decide (opcode h = cmd_code PROTOCOL_BINARY_CMD_GETKQ).

(** * Lemmas: reading a packet *)

Lemma plen_ge p : 24 <= plen p.
Proof. unfold plen, packet_bytes. rewrite length_app, length_encode. unfold HEADER_LEN. lia. Qed.

Lemma hlen_ge m h : head_ok m h → 24 <= hlen h.
Proof. unfold head_ok, header_ok, hlen. lia. Qed.

Lemma magic_at m h pre post :
  head_ok m h →
  mem_get (pre ++ encode h ++ post) (Z.of_nat (length pre)) = Ret (to_char (magic_code m)).
Proof.
  intros (_ & Hm & _). unfold mem_get. rewrite decide_True by lia. rewrite Nat2Z.id.
  rewrite lookup_app_r by done. rewrite Nat.sub_diag. unfold encode. cbn [to_be]. rewrite Hm. done.
Qed.

Lemma try_read_head m h pre post n hd :
  head_ok m h → 24 <= n →
  try_read_binary m (pre ++ encode h ++ post) (Z.of_nat (length pre)) n hd = Ret (1, read_of h).
Proof.
  intros Hok Hn. unfold try_read_binary. rewrite decide_False by lia.
  rewrite (magic_at m) by done. cbn [mbind outcome_bind].
  rewrite uchar_to_char. rewrite decide_False by (by destruct m; intros H; apply H).
  unfold header_at. rewrite mem_read_ok.
  2-3: unfold HEADER_LEN; lia.
  2: { rewrite !length_app, length_encode. lia. }
  rewrite !Nat2Z.id, drop_app_length.
  rewrite take_app_le by (by rewrite length_encode).
  rewrite <- (app_nil_r (take _ _)), take_ge by (by rewrite length_encode).
  cbn [fmap outcome_fmap mbind outcome_bind].
  destruct Hok as (Hh & _ & Hmax). rewrite decode_encode by done.
  unfold read_of. rewrite i32_small; [done|].
  unfold is_int, INT_MIN, hlen, header_ok in *. lia.
Qed.

(** Fewer than 24 bytes are never a packet. *)
Lemma try_read_short m data off n hd : n < 24 → try_read_binary m data off n hd = Ret (0, hd).
Proof. intros. unfold try_read_binary. by rewrite decide_True. Qed.

Lemma int_add_nonneg x y : 0 <= x → 0 <= y → x + y <= INT_MAX → int_add x y = Ret (x + y).
Proof. intros. apply int_add_small. unfold is_int, INT_MIN. lia. Qed.

Lemma read_keylen h : known (hd_keylen (read_of h)) = Ret (keylen h).
Proof. done. Qed.
Lemma read_extlen h : known (hd_extlen (read_of h)) = Ret (extlen h).
Proof. done. Qed.
Lemma read_bodylen h : known (hd_bodylen (read_of h)) = Ret (bodylen h).
Proof. done. Qed.
Lemma read_opcode h : known (hd_opcode (read_of h)) = Ret (opcode h).
Proof. done. Qed.
Lemma bind_Ret {A B} (a : A) (f : A → outcome B) : (Ret a ≫= f) = f a.
Proof. done. Qed.

#[local] Create Rewrite HintDb turn.
#[local] Hint Rewrite read_keylen read_extlen read_bodylen read_opcode @bind_Ret : turn.

Lemma hlen_sum h m pos :
  head_ok m h → 0 <= pos → pos + hlen h <= INT_MAX →
  int_add 24 (bodylen h) = Ret (hlen h) ∧ int_add pos 24 = Ret (pos + 24) ∧
  int_add (pos + 24) (bodylen h) = Ret (pos + hlen h) ∧ u32 (hlen h) = hlen h.
Proof.
  intros (Hh & _ & Hm) Hp Hmax. unfold hlen, header_ok, INT_MAX in *.
  rewrite !int_add_nonneg by (unfold INT_MAX; lia). rewrite u32_small by lia.
  split_and!; try done. f_equal. lia.
Qed.

(** * Lemmas: one turn of the request loop *)

Section request_turn.
Context (h : header) (pre post : bytes) (u e : bool) (x : byte) (a : bool).
Context (Hok : head_ok PROTOCOL_BINARY_REQ h) (Hv : verdict_of h = Item u e x a).
Let mem := pre ++ encode h ++ post.
Let pos := Z.of_nat (length pre).

Lemma req_turn fuel agin size hd l :
  pos + 24 <= size → hlen h <= size → pos + hlen h <= INT_MAX →
  parse_req_loop (S fuel) true agin 24 mem size pos hd l =
  if a then parse_req_loop fuel true true 24 mem size (pos + hlen h) (read_of h) (l ++ req_item pos h)
  else Ret (SUCCESS, pos + hlen h, l ++ req_item pos h).
Proof.
  intros Hs Hlen Hmax. cbn [parse_req_loop]. rewrite decide_False by lia.
  destruct (hlen_sum h _ pos Hok ltac:(lia) Hmax) as (E1 & E2 & E3 & E4).
  unfold try_read_request_binary, mem, pos in *. rewrite try_read_head by (done || lia).
  rewrite bind_Ret, !decide_False by lia.
  autorewrite with turn. fold (verdict_of h). rewrite Hv. autorewrite with turn. cbv beta iota.
  rewrite E1, bind_Ret, decide_False by lia. autorewrite with turn.
  rewrite E2, bind_Ret, E3, bind_Ret, E4.
  assert (u16 (keylen h) = keylen h) as ->
    by (apply u16_small; destruct Hok as [Hh _]; unfold header_ok in Hh; lia).
  unfold req_item. rewrite Hv. by destruct a.
Qed.

(** A packet longer than what was received is waited for. *)
Lemma req_turn_again fuel agin size hd l :
  pos + 24 <= size → size < hlen h →
  parse_req_loop (S fuel) true agin 24 mem size pos hd l = Ret (AGAIN, pos, l).
Proof.
  intros Hs Hlen. cbn [parse_req_loop]. rewrite decide_False by lia.
  destruct Hok as (Hh & Hm & Hmax).
  destruct (hlen_sum h _ 0 Hok ltac:(lia) Hmax) as (E1 & _).
  unfold try_read_request_binary, mem, pos in *. rewrite try_read_head by (done || lia).
  rewrite bind_Ret, !decide_False by lia.
  autorewrite with turn. fold (verdict_of h). rewrite Hv. autorewrite with turn. cbv beta iota.
  by rewrite E1, bind_Ret, decide_True by lia.
Qed.
End request_turn.

Lemma stream_cons p ps post : stream (p :: ps) ++ post = packet_bytes p ++ stream ps ++ post.
Proof. unfold stream; cbn. by rewrite <- app_assoc. Qed.

Lemma length_stream_cons p ps :
  Z.of_nat (length (stream (p :: ps))) = plen p + Z.of_nat (length (stream ps)).
Proof. unfold stream, plen; cbn. rewrite length_app. lia. Qed.

Definition heads (ps : list packet) : list header := p_head <$> ps.

(** Quiet requests are consumed one per turn. *)
Lemma req_quiet_run ps : ∀ pre post fuel agin size hd l,
  Forall (λ p, packet_ok PROTOCOL_BINARY_REQ p ∧ quiet (p_head p)) ps →
  Z.of_nat (length pre) + Z.of_nat (length (stream ps)) <= size → size <= INT_MAX →
  ∃ hd', parse_req_loop (length ps + fuel) true agin 24 (pre ++ stream ps ++ post) size
           (Z.of_nat (length pre)) hd l =
         parse_req_loop fuel true (if decide (ps = []) then agin else true) 24
           (pre ++ stream ps ++ post) size (Z.of_nat (length (pre ++ stream ps))) hd'
           (l ++ req_items (Z.of_nat (length pre)) (heads ps)).
Proof.
  induction ps as [|p ps IH]; intros pre post fuel agin size hd l Hps Hsize Hmax.
  { exists hd. cbn [stream fmap list_fmap concat heads req_items length Nat.add]. by rewrite !app_nil_r. }
  apply Forall_cons in Hps as [[[Hok Hlen] (u & e & x & Hv)] Hps]. rewrite length_stream_cons in Hsize.
  pose proof (plen_ge p).
  destruct (IH (pre ++ packet_bytes p) post fuel true size (read_of (p_head p))
              (l ++ req_item (Z.of_nat (length pre)) (p_head p)))
    as [hd' E]; [done|rewrite length_app; fold (plen p); unfold plen in *; lia|done|].
  exists hd'. rewrite decide_False by done.
  rewrite stream_cons. unfold packet_bytes at 1. rewrite <- (app_assoc (encode _)).
  cbn [length Nat.add]. rewrite (req_turn (p_head p) pre _ u e x true) by (done || lia).
  rewrite (app_assoc (encode _)). fold (packet_bytes p).
  rewrite <- (app_assoc pre), length_app, Nat2Z.inj_add in E. fold (plen p) in E. rewrite <- Hlen in E.
  rewrite E. f_equal.
  - by case_decide.
  - unfold stream; cbn. by rewrite <- app_assoc.
  - cbn [heads fmap list_fmap req_items]. by rewrite <- app_assoc.
Qed.

(** * Properties of [memcached_parse_req] *)

(** The first byte decides the protocol. *)
Lemma is_binary_head m h post size :
  head_ok m h → is_binary_protocol (encode h ++ post) 0 size = Ret true.
Proof.
  intros Hok. unfold is_binary_protocol.
  pose proof (magic_at m h [] post Hok) as E. change (mem_get (encode h ++ post) 0 = Ret (to_char (magic_code m))) in E.
  rewrite E, bind_Ret, uchar_to_char.
  rewrite bool_decide_eq_true_2; [done|]. destruct m; [by left|by right].
Qed.

Lemma parse_req_binary fuel st conf mem size position l :
  use_binary (init_statics st conf).1 = true → is_binary_protocol mem 0 size = Ret true →
  memcached_parse_req fuel st conf mem size position l =
  (r ← parse_req_loop fuel true false 24 mem size position header_unset l;
   Ret (r, (init_statics st conf).1, (init_statics st conf).2)).
Proof.
  intros Hu Hb. unfold memcached_parse_req. destruct (init_statics st conf) as [st' conf'].
  cbn in Hu. rewrite Hb, bind_Ret, Hu. done.
Qed.

(** A stream starts with a header. *)
Lemma stream_starts ps p post :
  ∃ h rest, stream ps ++ packet_bytes p ++ post = encode h ++ rest ∧ (h = p_head p ∨ h ∈ heads ps).
Proof.
  destruct ps as [|q ps].
  - exists (p_head p), (p_body p ++ post). split; [|by left].
    exact (eq_sym (app_assoc (encode (p_head p)) (p_body p) post)).
  - exists (p_head q), (p_body q ++ stream ps ++ packet_bytes p ++ post). split; [|right; cbn; set_solver].
    rewrite stream_cons. unfold packet_bytes at 1. by rewrite <- app_assoc.
Qed.

Lemma length_stream_ge ps : Z.of_nat (length ps) <= Z.of_nat (length (stream ps)).
Proof.
  induction ps as [|p ps IH]; [done|]. rewrite length_stream_cons. pose proof (plen_ge p). cbn [length]. lia.
Qed.

Lemma parse_req_run st conf ps p rest tail :
  let size := Z.of_nat (length (stream ps ++ packet_bytes p ++ rest)) in
  use_binary (init_statics st conf).1 = true →
  Forall (λ p, packet_ok PROTOCOL_BINARY_REQ p ∧ quiet (p_head p)) ps →
  packet_ok PROTOCOL_BINARY_REQ p → final (p_head p) → size <= INT_MAX →
  memcached_parse_req (parse_fuel size) st conf (stream ps ++ packet_bytes p ++ rest ++ tail) size 0 [] =
  Ret (SUCCESS, Z.of_nat (length (stream (ps ++ [p]))), req_items 0 (heads (ps ++ [p])),
       (init_statics st conf).1, (init_statics st conf).2).
Proof.
  intros size Hu Hps [Hok Hlen] (u & e & x & Hv) Hmax.
  rewrite parse_req_binary; [|done|].
  2: { destruct (stream_starts ps p (rest ++ tail)) as (h & r & -> & Hh). apply (is_binary_head PROTOCOL_BINARY_REQ).
       destruct Hh as [->|[q [-> Hq]]%list_elem_of_fmap]; [done|].
       rewrite Forall_forall in Hps. by destruct (Hps q Hq) as [[? _] _]. }
  assert (size = Z.of_nat (length (stream ps)) + plen p + Z.of_nat (length rest)) as Hsize
    by (unfold size, plen; rewrite !length_app; lia).
  pose proof (plen_ge p). pose proof (length_stream_ge ps).
  replace (parse_fuel size) with (length ps + S (S (Z.to_nat size) - length ps))%nat
    by (unfold parse_fuel; lia).
  destruct (req_quiet_run ps [] (packet_bytes p ++ rest ++ tail) (S (S (Z.to_nat size) - length ps)) false size
              header_unset []) as [hd' E]; [done|cbn; lia|done|].
  change (Z.of_nat (length [])) with 0 in E. cbn [app] in E. rewrite E. unfold packet_bytes at 1. rewrite <- (app_assoc (encode _)).
  rewrite (req_turn (p_head p) (stream ps) _ u e x false) by (done || lia). rewrite bind_Ret.
  assert (Z.of_nat (length (stream ps)) + hlen (p_head p) = Z.of_nat (length (stream (ps ++ [p])))) as ->.
  { unfold stream. rewrite fmap_app, concat_app, length_app; cbn [fmap list_fmap concat].
    rewrite app_nil_r, Hlen, Nat2Z.inj_add. done. }
  do 4 f_equal. clear - Hps. unfold heads. rewrite fmap_app.
  assert (∀ pos, req_items pos (heads ps) ++ req_item (pos + Z.of_nat (length (stream ps))) (p_head p) =
                 req_items pos (heads ps ++ [p_head p])) as H; [|apply (H 0)].
  induction ps as [|q ps IH]; intros pos.
  - cbn. by rewrite Z.add_0_r, app_nil_r.
  - apply Forall_cons in Hps as [[[_ Hq] _] Hps]. cbn [heads fmap list_fmap app req_items].
    rewrite length_stream_cons, <- Hq, <- app_assoc. f_equal.
    specialize (IH Hps (pos + hlen (p_head q))). etrans; [|exact IH]. do 2 f_equal. lia.
Qed.

(** C23: a buffer that holds quiet binary requests, then one that is not quiet, and then anything,
    is parsed into exactly these requests: their positions, keys and kinds, in order.  What
    follows the first request that is not quiet is not looked at, and the fuel is enough. *)
Theorem parse_req_stream st conf ps p rest tail :
  let size := Z.of_nat (length (stream ps ++ packet_bytes p ++ rest)) in
  use_binary (init_statics st conf).1 = true →
  Forall (λ p, packet_ok PROTOCOL_BINARY_REQ p ∧ quiet (p_head p)) ps →
  packet_ok PROTOCOL_BINARY_REQ p → final (p_head p) → size <= INT_MAX →
  memcached_parse_req (parse_fuel size) st conf (stream ps ++ packet_bytes p ++ rest ++ tail) size 0 [] =
  Ret (SUCCESS, Z.of_nat (length (stream (ps ++ [p]))), req_items 0 (heads (ps ++ [p])),
       (init_statics st conf).1, (init_statics st conf).2).
Proof. apply parse_req_run. Qed.

(** Demonstration packets. *)
Definition demo_packet (m : protocol_binary_magic) (c : protocol_binary_command) (k : bytes) (extra body : bytes)
    : packet := {|
  p_head := {| magic := magic_code m; opcode := cmd_code c; keylen := Z.of_nat (length k);
               extlen := Z.of_nat (length extra); datatype := 0; reserved_or_status := 0;
               bodylen := Z.of_nat (length (extra ++ k ++ body)); opaque := 0; cas := 0 |};
  p_body := extra ++ k ++ body
|}.

Definition demo_getkq (k : bytes) := demo_packet PROTOCOL_BINARY_REQ PROTOCOL_BINARY_CMD_GETKQ k [] [].
Definition demo_noop := demo_packet PROTOCOL_BINARY_REQ PROTOCOL_BINARY_CMD_NOOP [] [] [].
Definition demo_set (k v : bytes) :=
  demo_packet PROTOCOL_BINARY_REQ PROTOCOL_BINARY_CMD_SET k (replicate 8 x00) v.
Definition demo_conf0 : Config := {| conf_path := []; conf := ∅; ext_name := [] |}.

Lemma parse_req_stream_witness :
  let s := stream [demo_getkq (bs "a")] ++ packet_bytes demo_noop ++ packet_bytes (demo_set (bs "k") (bs "v")) in
  (memcached_parse_req (parse_fuel (Z.of_nat (length s))) statics_init demo_conf0 (s ++ [x00])
     (Z.of_nat (length s)) 0 []) =
  Ret (SUCCESS, 49, [
    {| key := 24; key_len := 1; content := 0; content_len := 25; update := false; each := false; ext := x00 |};
    {| key := 49; key_len := 0; content := 25; content_len := 24; update := false; each := true; ext := "e"%byte |}],
    (init_statics statics_init demo_conf0).1, (init_statics statics_init demo_conf0).2).
Proof.
  pose proof (parse_req_stream statics_init demo_conf0 [demo_getkq (bs "a")] demo_noop
    (packet_bytes (demo_set (bs "k") (bs "v"))) [x00]) as H.
  cbv zeta in *. rewrite <- !app_assoc in *. apply H; clear H.
  - vm_compute. reflexivity.
  - repeat constructor; try (eexists _, _, _; reflexivity); vm_compute; intuition congruence.
  - repeat constructor; vm_compute; intuition congruence.
  - eexists _, _, _; reflexivity.
  - vm_compute. congruence.
Defined.

Lemma is_binary_take m p n tail size :
  head_ok m (p_head p) → is_binary_protocol (take (S n) (packet_bytes p) ++ tail) 0 size = Ret true.
Proof.
  intros Hok. unfold packet_bytes. assert (∃ r, encode (p_head p) = to_char (magic_code m) :: r) as [r ->].
  { destruct Hok as (_ & <- & _). by eexists. }
  cbn [app take]. unfold is_binary_protocol.
  change (mem_get (to_char (magic_code m) :: _) 0) with (Ret (to_char (magic_code m))).
  rewrite bind_Ret, uchar_to_char. by destruct m.
Qed.

Lemma take_packet n p :
  (24 <= n)%nat → take n (packet_bytes p) = encode (p_head p) ++ take (n - 24) (p_body p).
Proof.
  intros Hn. unfold packet_bytes. rewrite take_app, length_encode.
  rewrite (take_ge (encode _)) by (by rewrite length_encode). done.
Qed.

(** The first request may arrive in pieces: every proper, non-empty prefix of it asks for more,
    and leaves the position and the request list as they were. *)
Theorem parse_req_cut st conf p (n : nat) tail :
  use_binary (init_statics st conf).1 = true →
  packet_ok PROTOCOL_BINARY_REQ p → quiet (p_head p) ∨ final (p_head p) →
  (0 < n < length (packet_bytes p))%nat →
  memcached_parse_req (parse_fuel (Z.of_nat n)) st conf (take n (packet_bytes p) ++ tail) (Z.of_nat n) 0 [] =
  Ret (AGAIN, 0, [], (init_statics st conf).1, (init_statics st conf).2).
Proof.
  intros Hu [Hok Hlen] Hv Hn.
  assert (∃ u e x a, verdict_of (p_head p) = Item u e x a) as (u & e & x & a & Hv').
  { destruct Hv as [(u & e & x & ?)|(u & e & x & ?)]; by eexists _, _, _, _. }
  rewrite parse_req_binary; [|done|].
  2: { destruct n as [|n]; [lia|]. by apply (is_binary_take PROTOCOL_BINARY_REQ). }
  unfold parse_fuel. destruct (decide (n < 24)%nat) as [Hs|Hl].
  - cbn [parse_req_loop]. rewrite decide_False by lia. unfold try_read_request_binary.
    rewrite try_read_short by lia. done.
  - rewrite take_packet, <- app_assoc by lia.
    pose proof (req_turn_again (p_head p) [] (take (n - 24) (p_body p) ++ tail) u e x a Hok Hv'
      (S (Z.to_nat (Z.of_nat n))) false (Z.of_nat n) header_unset []) as H.
    change (Z.of_nat (length [])) with 0 in H. cbn [app] in H. rewrite H; [done|lia|].
    rewrite Hlen. unfold plen. lia.
Qed.

Lemma parse_req_cut_witness :
  memcached_parse_req (parse_fuel 30) statics_init demo_conf0
    (take 30 (packet_bytes (demo_set (bs "key") (bs "value")))) 30 0 [] =
  Ret (AGAIN, 0, [], (init_statics statics_init demo_conf0).1, (init_statics statics_init demo_conf0).2).
Proof.
  pose proof (parse_req_cut statics_init demo_conf0 (demo_set (bs "key") (bs "value")) 30 []) as H.
  rewrite app_nil_r in H. apply H; clear H.
  - vm_compute. reflexivity.
  - repeat constructor; vm_compute; intuition congruence.
  - right. eexists _, _, _; reflexivity.
  - vm_compute. lia.
Defined.

(** C37: only the first request is waited for.  After quiet requests, a request of which [n] bytes
    have arrived is taken as complete as soon as the whole buffer is as long as it: its item then
    reaches past the received bytes. *)
Theorem parse_req_truncated st conf ps h part tail :
  let size := Z.of_nat (length (stream ps ++ encode h ++ part)) in
  use_binary (init_statics st conf).1 = true →
  Forall (λ p, packet_ok PROTOCOL_BINARY_REQ p ∧ quiet (p_head p)) ps →
  head_ok PROTOCOL_BINARY_REQ h → final h →
  24 + Z.of_nat (length part) < hlen h <= size →
  Z.of_nat (length (stream ps)) + hlen h <= INT_MAX → size <= INT_MAX →
  ∃ it, memcached_parse_req (parse_fuel size) st conf (stream ps ++ encode h ++ part ++ tail) size 0 [] =
    Ret (SUCCESS, Z.of_nat (length (stream ps)) + hlen h, req_items 0 (heads ps) ++ [it],
         (init_statics st conf).1, (init_statics st conf).2) ∧
    size < content it + content_len it.
Proof.
  intros size Hu Hps Hok (u & e & x & Hv) Hpart Hmax Hsmax.
  assert (size = Z.of_nat (length (stream ps)) + 24 + Z.of_nat (length part)) as Hsize
    by (unfold size; rewrite !length_app, length_encode; unfold HEADER_LEN; lia).
  rewrite parse_req_binary; [|done|].
  2: { destruct (stream_starts ps {| p_head := h; p_body := part |} tail) as (h' & r & E & Hh).
       unfold packet_bytes at 1 in E; cbn [p_head p_body] in E. rewrite <- (app_assoc (encode h)) in E. rewrite E.
       apply (is_binary_head PROTOCOL_BINARY_REQ). destruct Hh as [->|[q [-> Hq]]%list_elem_of_fmap]; [done|].
       rewrite Forall_forall in Hps. by destruct (Hps q Hq) as [[? _] _]. }
  pose proof (length_stream_ge ps). pose proof (hlen_ge _ _ Hok).
  replace (parse_fuel size) with (length ps + S (S (Z.to_nat size) - length ps))%nat
    by (unfold parse_fuel; lia).
  destruct (req_quiet_run ps [] (encode h ++ part ++ tail) (S (S (Z.to_nat size) - length ps)) false size
              header_unset []) as [hd' E]; [done|cbn; lia|done|].
  change (Z.of_nat (length [])) with 0 in E. cbn [app] in E. rewrite E.
  rewrite (req_turn h (stream ps) _ u e x false) by (done || lia). rewrite bind_Ret.
  unfold req_item. rewrite Hv. eexists. split; [done|]. cbn. lia.
Qed.

Lemma parse_req_truncated_witness :
  let p := demo_getkq (replicate 40 "k"%byte) in
  let h := p_head (demo_set (bs "key") (replicate 30 "v"%byte)) in
  let size := Z.of_nat (length (stream [p] ++ encode h)) in
  ∃ it, memcached_parse_req (parse_fuel size) statics_init demo_conf0 (stream [p] ++ encode h ++ [x00]) size 0 [] =
    Ret (SUCCESS, Z.of_nat (length (stream [p])) + hlen h, req_items 0 (heads [p]) ++ [it],
         (init_statics statics_init demo_conf0).1, (init_statics statics_init demo_conf0).2) ∧
    size < content it + content_len it.
Proof.
  pose proof (parse_req_truncated statics_init demo_conf0 [demo_getkq (replicate 40 "k"%byte)]
    (p_head (demo_set (bs "key") (replicate 30 "v"%byte))) [] [x00]) as H.
  rewrite !app_nil_r in H. cbv zeta in *. apply H; clear H.
  - vm_compute. reflexivity.
  - repeat constructor; try (eexists _, _, _; reflexivity); vm_compute; intuition congruence.
  - repeat constructor; vm_compute; intuition congruence.
  - eexists _, _, _; reflexivity.
  - vm_compute. intuition congruence.
  - vm_compute. congruence.
  - vm_compute. congruence.
Defined.
