(* ===== verification/MemcachedTerm.v ===== *)
(** Termination of the request loop of [memcached_parse_req].

    A turn of the loop either ends it or moves it to a position that depends on the buffer
    and the current position only; as long as it runs, the position is inside the received
    bytes.  So a run that ends visits each position at most once ([stops_bound]), and the
    fuel of [parse_fuel] misses no run that ends. *)
From S2P Require Import Prelude StdMap Util Config ProtocolBinary Extension Memcached MemcachedBinary.

(** * The step on positions *)

(** Where a turn on binary data moves to, if it does not end the loop. *)
Definition next (mem : bytes) (size pos : Z) : option Z :=
  if decide (size - pos <= 0) then None
  else
    match try_read_request_binary mem pos (size - pos) header_unset with
    | Ret (1, hd) =>
        match hd_opcode hd, hd_bodylen hd, hd_extlen hd, hd_keylen hd with
        | Some op, Some body, Some _, Some _ =>
            match classify op, int_add 24 body with
            | Item _ _ _ true, Ret total =>
                if decide (size < total) then None
                else match (p ← int_add pos 24; int_add p body) with Ret p => Some p | _ => None end
            | _, _ => None
            end
        | _, _, _, _ => None
        end
    | _ => None
    end.

(** The loop ends after exactly [n] moves. *)
Fixpoint stops (mem : bytes) (size : Z) (n : nat) (pos : Z) : Prop :=
  match n with
  | O => next mem size pos = None
  | S n => ∃ pos', next mem size pos = Some pos' ∧ stops mem size n pos'
  end.

Fixpoint orbit (mem : bytes) (size : Z) (n : nat) (pos : Z) : list Z :=
  match n with
  | O => []
  | S n => pos :: orbit mem size n (default 0 (next mem size pos))
  end.

(** * Lemmas *)

(** A binary reader does not look at the old header. *)
Lemma try_read_old m data off size hd hd' ret new :
  try_read_binary m data off size hd = Ret (ret, new) →
  try_read_binary m data off size hd' = Ret (ret, if decide (ret = 1) then new else hd') ∧
  (ret = 1 ∨ ret = 0 ∨ ret = -1).
Proof.
  unfold try_read_binary. case_decide; [intros [= <- <-]; by auto|].
  destruct (mem_get data off); cbn; try discriminate. case_decide; [intros [= <- <-]; by auto|].
  destruct (header_at data off); cbn; try discriminate. intros [= <- <-]. by auto.
Qed.

Lemma next_range mem size pos pos' : next mem size pos = Some pos' → 0 <= pos < size.
Proof.
  unfold next. case_decide; [done|]. unfold try_read_request_binary, try_read_binary. case_decide; [done|].
  unfold mem_get. case_decide; [lia|done].
Qed.

(** What a turn does, by [next]: continue there, or end with a result that is not a lack of fuel
    and does not depend on the fuel left. *)
Ltac ends := right; eexists; split_and!; [reflexivity| |intros; reflexivity]; done.

Lemma loop_next mem size pos agin hd l :
  (∃ pos' hd' l', next mem size pos = Some pos' ∧
     ∀ fuel, parse_req_loop (S fuel) true agin 24 mem size pos hd l =
             parse_req_loop fuel true true 24 mem size pos' hd' l') ∨
  (∃ r, next mem size pos = None ∧ r ≠ NoFuel ∧
     ∀ fuel, parse_req_loop (S fuel) true agin 24 mem size pos hd l = r).
Proof.
  unfold next. cbn [parse_req_loop]. case_decide; [ends|].
  unfold try_read_request_binary.
  destruct (try_read_binary PROTOCOL_BINARY_REQ mem pos (size - pos) hd) as [[ret new]|c|w|] eqn:E.
  - destruct (try_read_old _ _ _ _ _ header_unset _ _ E) as [E' Hret]. rewrite E'. cbn [mbind outcome_bind].
    destruct Hret as [->|[->| ->]].
    2: { destruct (decide (0 = -1)), (decide (0 = 0)); [done..|ends|done]. }
    2: { destruct (decide (-1 = -1)); [ends|done]. }
    destruct (decide (1 = 1)), (decide (1 = -1)), (decide (1 = 0)); try done.
    destruct (hd_opcode new) as [op|]; cbn [known mbind outcome_bind]; [|ends].
    destruct (hd_bodylen new) as [body|]; cbn [known mbind outcome_bind].
    2: { destruct (classify op); ends. }
    destruct (classify op) as [u eh x a|r]; [|destruct (hd_extlen new), (hd_keylen new); ends].
    destruct (int_add 24 body) as [total|c|w|] eqn:Et; cbn [mbind outcome_bind].
    2-4: unfold int_add in Et; case_decide; try discriminate;
         destruct (hd_extlen new), (hd_keylen new), a; ends.
    case_decide; [destruct (hd_extlen new), (hd_keylen new), a; ends|].
    destruct (hd_extlen new) as [el|]; cbn [known mbind outcome_bind]; [|ends].
    destruct (hd_keylen new) as [kl|]; cbn [known mbind outcome_bind]; [|ends].
    unfold int_add in *. destruct (decide (is_int (pos + 24))); cbn [mbind outcome_bind].
    2: { destruct a; ends. }
    destruct (decide (is_int (pos + 24 + body))); cbn [mbind outcome_bind].
    2: { destruct a; ends. }
    destruct a; [left; by eexists _, _, _|ends].
  - exfalso. revert E. unfold try_read_binary. case_decide; [done|].
    unfold mem_get. repeat case_match; cbn; repeat case_decide; try done; unfold header_at, mem_read; case_decide; done.
  - right. exists (Undef w). split_and!; [|done|done].
    assert (try_read_binary PROTOCOL_BINARY_REQ mem pos (size - pos) header_unset = Undef w) as ->; [|done].
    revert E. unfold try_read_binary. case_decide; [done|]. destruct (mem_get mem pos); cbn; try done.
    case_decide; [done|]. by destruct (header_at mem pos).
  - exfalso. revert E. unfold try_read_binary. case_decide; [done|].
    unfold mem_get. repeat case_match; cbn; repeat case_decide; try done; unfold header_at, mem_read; case_decide; done.
Qed.

(** A run that ends in [n] moves gives one result for every larger fuel and none below. *)
Lemma loop_stops mem size n : ∀ pos agin hd l,
  stops mem size n pos →
  ∃ r, r ≠ NoFuel ∧ ∀ fuel, parse_req_loop fuel true agin 24 mem size pos hd l =
    if decide (n < fuel)%nat then r else NoFuel.
Proof.
  induction n as [|n IH]; intros pos agin hd l Hs.
  - destruct (loop_next mem size pos agin hd l) as [(? & ? & ? & E & _)|(r & _ & Hr & H)].
    { cbn in Hs. congruence. }
    exists r. split; [done|]. intros [|fuel]; [done|]. by rewrite H, decide_True by lia.
  - destruct Hs as (pos' & Hn & Hs).
    destruct (loop_next mem size pos agin hd l) as [(p & hd' & l' & E & H)|(r & E & _)]; [|congruence].
    assert (p = pos') as -> by congruence. destruct (IH pos' true hd' l' Hs) as (r & Hr & Hf).
    exists r. split; [done|]. intros [|fuel]; [done|]. rewrite H, Hf.
    destruct (decide (n < fuel)%nat); [by rewrite decide_True by lia|by rewrite decide_False by lia].
Qed.

(** A fuel that suffices gives the number of moves. *)
Lemma loop_stops_inv mem size fuel : ∀ pos agin hd l,
  parse_req_loop fuel true agin 24 mem size pos hd l ≠ NoFuel → ∃ n, stops mem size n pos.
Proof.
  induction fuel as [|fuel IH]; intros pos agin hd l Hr; [done|].
  destruct (loop_next mem size pos agin hd l) as [(p & hd' & l' & E & H)|(r & E & _)]; [|by exists O].
  rewrite H in Hr. destruct (IH _ _ _ _ Hr) as [n Hn]. exists (S n), p. done.
Qed.

Lemma stops_det mem size n m pos : stops mem size n pos → stops mem size m pos → n = m.
Proof.
  revert m pos. induction n as [|n IH]; intros [|m] pos Hn Hm; cbn in *; [done|..].
  - destruct Hm as (? & ? & _). congruence.
  - destruct Hn as (? & ? & _). congruence.
  - destruct Hn as (p & E & Hn), Hm as (q & E' & Hm). assert (q = p) as -> by congruence. f_equal. by eapply IH.
Qed.

Lemma orbit_stops mem size n pos q :
  stops mem size n pos → q ∈ orbit mem size n pos →
  ∃ m, (0 < m <= n)%nat ∧ stops mem size m q ∧ 0 <= q < size.
Proof.
  revert pos. induction n as [|n IH]; intros pos Hs Hq; cbn in Hq; [by apply not_elem_of_nil in Hq|].
  destruct Hs as (p & E & Hs). rewrite E in Hq; cbn in Hq. apply elem_of_cons in Hq as [->|Hq].
  - exists (S n). split; [lia|]. split; [by exists p; split|by apply next_range in E].
  - destruct (IH _ Hs Hq) as (m & ? & ? & ?). exists m. split_and!; try done; lia.
Qed.

Lemma orbit_NoDup mem size n pos : stops mem size n pos → NoDup (orbit mem size n pos).
Proof.
  revert pos. induction n as [|n IH]; intros pos Hs; cbn; [apply NoDup_nil_2|].
  pose proof Hs as (p & E & Hp). rewrite E; cbn. apply NoDup_cons_2; [|by apply IH].
  intros Hin. destruct (orbit_stops _ _ _ _ _ Hp Hin) as (m & Hm & Hms & _).
  pose proof (stops_det _ _ _ _ _ Hs Hms). lia.
Qed.

Lemma length_orbit mem size n pos : length (orbit mem size n pos) = n.
Proof. revert pos. induction n as [|n IH]; intros pos; cbn; [done|]. by rewrite IH. Qed.

(** A run that ends makes at most [size] moves. *)
Lemma stops_bound mem size n pos : stops mem size n pos → (n <= Z.to_nat size)%nat.
Proof.
  intros Hs. rewrite <- (length_orbit mem size n pos).
  assert (orbit mem size n pos ⊆+ seqZ 0 size) as H.
  { apply NoDup_submseteq; [by apply orbit_NoDup|]. intros q Hq.
    destruct (orbit_stops _ _ _ _ _ Hs Hq) as (_ & _ & _ & Hr). apply elem_of_seqZ. lia. }
  apply submseteq_length in H. by rewrite length_seqZ in H.
Qed.

(** A text request is one turn: no text command has the opcode of a quiet one. *)
Lemma get_opcode_loud data off op : get_opcode data off = Ret op → ∀ u e x, classify op ≠ Item u e x true.
Proof.
  unfold get_opcode. assert (Forall (λ w, ∀ u e x, classify (cmd_code w.2) ≠ Item u e x true) opcode_words) as Hw.
  { repeat constructor; intros u e x; vm_compute; discriminate. }
  induction Hw as [|[w c] ws Hc _ IH]; cbn.
  - intros E u e x. injection E as <-. vm_compute. discriminate.
  - destruct (has_prefix w data off) as [[]| | |]; cbn; try discriminate; [|done].
    intros E. by injection E as <-.
Qed.

Lemma loop_text mem size pos agin hd l fuel fuel' :
  parse_req_loop (S fuel) false agin 0 mem size pos hd l = parse_req_loop (S fuel') false agin 0 mem size pos hd l ∧
  parse_req_loop (S fuel) false agin 0 mem size pos hd l ≠ NoFuel.
Proof.
  assert (∀ n i st, text_req_loop n i mem pos st ≠ NoFuel) as Hloop.
  { induction n as [|n IH]; intros i st; cbn; [done|]. unfold mem_get.
    case_decide; [|done]. destruct (mem !! _) as [c|]; [|done]. cbn [mbind outcome_bind].
    unfold text_req_step, known. repeat (case_match; cbn [mbind outcome_bind]; try done). }
  assert (∀ w off, has_prefix w mem off ≠ NoFuel) as Hpre.
  { induction w as [|b w IH]; intros off; cbn; [done|]. unfold mem_get.
    case_decide; [|done]. destruct (mem !! _); cbn; [|done]. by case_decide. }
  assert (∀ ws, opcode_chain ws mem pos ≠ NoFuel) as Hop.
  { induction ws as [|[w c] ws IH]; cbn; [done|]. specialize (Hpre w pos).
    by destruct (has_prefix w mem pos) as [[]| | |]. }
  cbn [parse_req_loop]. case_decide; [done|]. unfold try_read_request_text.
  specialize (Hloop (Z.to_nat (size - pos)) 0 (scan_init (hd_extlen hd))).
  destruct (text_req_loop _ 0 mem pos _) as [st| | |]; cbn [mbind outcome_bind]; try done. clear Hloop.
  unfold data_length. case_decide; cbn [mbind outcome_bind]; [|done].
  specialize (Hop opcode_words). fold (get_opcode mem pos) in Hop.
  destruct (get_opcode mem pos) as [op| | |] eqn:E; cbn [mbind outcome_bind]; try done.
  unfold int_add. repeat (case_decide; cbn [mbind outcome_bind known hd_opcode hd_bodylen hd_extlen hd_keylen]; try done).
  all: pose proof (get_opcode_loud _ _ _ E) as Hl;
    destruct (classify op) as [u e x [|]|r]; [by destruct (Hl u e x)| |done];
    repeat (case_decide; cbn [mbind outcome_bind]; try done);
    destruct (extlen_t st); cbn [known mbind outcome_bind]; try done;
    repeat (case_decide; cbn [mbind outcome_bind]; try done).
Qed.

(** * Properties *)

(** No amount of fuel is enough. *)
Definition diverges {A} (run : nat → outcome A) : Prop := ∀ fuel, run fuel = NoFuel.

(** No header anywhere in the buffer announces 2 GB or more. *)
Definition no_huge_body (mem : bytes) : Prop := ∀ off h, header_at mem off = Ret h → bodylen h < 2 ^ 31.

Lemma next_forward mem size pos pos' : no_huge_body mem → next mem size pos = Some pos' → pos < pos'.
Proof.
  unfold next. intros Hh. case_decide; [done|]. unfold try_read_request_binary, try_read_binary.
  case_decide; [done|]. destruct (mem_get mem pos); cbn; try done. case_decide; [done|].
  destruct (header_at mem pos) as [h| | |] eqn:E; cbn; try done.
  apply header_at_ok in E as Hok. apply Hh in E. unfold header_ok in Hok.
  rewrite i32_small by (unfold is_int, INT_MAX, INT_MIN; lia).
  destruct (classify _) as [u e x [|]|r]; try done.
  unfold int_add. case_decide; [|done]. case_decide; [done|]. case_decide; cbn; [|done].
  case_decide; [|done]. intros [= <-]. lia.
Qed.

Lemma forward_stops mem size : no_huge_body mem → ∀ k pos, (Z.to_nat (size - pos) <= k)%nat → ∃ n, stops mem size n pos.
Proof.
  intros Hh. induction k as [|k IH]; intros pos Hk.
  - exists O. cbn. unfold next. by rewrite decide_True by lia.
  - destruct (next mem size pos) as [p|] eqn:E; [|by exists O].
    pose proof (next_forward _ _ _ _ Hh E). apply next_range in E as Hr.
    destruct (IH p) as [n Hn]; [lia|]. exists (S n), p. done.
Qed.

(** C32: the fuel of the request loop decides termination: if any fuel gives a result, [parse_fuel]
    gives that result; and a buffer in which no header announces 2 GB is parsed to the end. *)
Theorem parse_req_fuel st conf mem size position l :
  (∀ fuel r, memcached_parse_req fuel st conf mem size position l = r → r ≠ NoFuel →
     memcached_parse_req (parse_fuel size) st conf mem size position l = r) ∧
  (no_huge_body mem → memcached_parse_req (parse_fuel size) st conf mem size position l ≠ NoFuel).
Proof.
  unfold memcached_parse_req. destruct (init_statics st conf) as [st' conf'].
  assert (is_binary_protocol mem 0 size ≠ NoFuel) as Hb.
  { unfold is_binary_protocol, mem_get. case_decide; [|done]. by destruct (mem !! _). }
  destruct (is_binary_protocol mem 0 size) as [[]| | |]; cbn [mbind outcome_bind]; try (split; congruence).
  - destruct (Bool.eqb (use_binary st') true); cbn [negb]; [|split; congruence]. split.
    + intros fuel r <- Hr.
      destruct (loop_stops_inv mem size fuel position false header_unset l) as [n Hn].
      { intros E. by rewrite E in Hr. }
      destruct (loop_stops mem size n position false header_unset l Hn) as (q & Hq & Hf). rewrite !Hf in *.
      pose proof (stops_bound _ _ _ _ Hn).
      case_decide; [|done]. by rewrite decide_True by (unfold parse_fuel; lia).
    + intros Hh. destruct (forward_stops mem size Hh _ position (le_n _)) as [n Hn].
      destruct (loop_stops mem size n position false header_unset l Hn) as (q & Hq & Hf). rewrite Hf.
      pose proof (stops_bound _ _ _ _ Hn). rewrite decide_True by (unfold parse_fuel; lia). by destruct q as [[[? ?] ?]| | |].
  - destruct (Bool.eqb (use_binary st') false); cbn [negb]; [|split; congruence]. split.
    + intros [|fuel] r <- Hr; [done|]. unfold parse_fuel.
      by rewrite (proj1 (loop_text mem size position false header_unset l (S (Z.to_nat size)) fuel)).
    + intros _. pose proof (proj2 (loop_text mem size position false header_unset l (S (Z.to_nat size)) 0)) as H.
      unfold parse_fuel. by destruct (parse_req_loop _ false _ _ _ _ _ _ _) as [[[? ?] ?]| | |].
Qed.

Lemma parse_req_fuel_witness :
  memcached_parse_req (parse_fuel 24) statics_init demo_conf0 (packet_bytes demo_noop) 24 0 [] =
  memcached_parse_req 3 statics_init demo_conf0 (packet_bytes demo_noop) 24 0 [].
Proof.
  apply (parse_req_fuel statics_init demo_conf0 (packet_bytes demo_noop) 24 0 []) with (fuel := 3%nat).
  - reflexivity.
  - vm_compute. discriminate.
Defined.

(** C36: a quiet request whose body length is the encoding of [-24] is parsed forever: it leaves the
    position where it is, and the request list grows without end. *)
Theorem parse_req_diverges st conf h post (size : Z) :
  use_binary (init_statics st conf).1 = true →
  header_ok h → magic h = magic_code PROTOCOL_BINARY_REQ → quiet h → bodylen h = 2 ^ 32 - 24 →
  24 <= size →
  diverges (λ fuel, memcached_parse_req fuel st conf (encode h ++ post) size 0 []).
Proof.
  intros Hu Hh Hm (u & e & x & Hv) Hb Hs fuel.
  assert (try_read_binary PROTOCOL_BINARY_REQ (encode h ++ post) 0 (size - 0) header_unset =
          Ret (1, {| hd_keylen := Some (keylen h); hd_extlen := Some (extlen h);
                     hd_bodylen := Some (-24); hd_opcode := Some (opcode h) |})) as Hread.
  { unfold try_read_binary. rewrite decide_False by lia.
    assert (mem_get (encode h ++ post) 0 = Ret (to_char (magic h))) as -> by done. cbn [mbind outcome_bind].
    rewrite uchar_to_char, Hm. rewrite decide_False by (vm_compute; congruence).
    unfold header_at. rewrite mem_read_ok.
    2-3: unfold HEADER_LEN; lia.
    2: { rewrite length_app, length_encode. lia. }
    rewrite Nat2Z.id. change (Z.to_nat 0) with O. rewrite drop_0, take_app_le by (by rewrite length_encode).
    rewrite <- (app_nil_r (take _ _)), take_ge by (by rewrite length_encode).
    cbn [fmap outcome_fmap mbind outcome_bind]. rewrite decode_encode by done. rewrite Hb. done. }
  assert (next (encode h ++ post) size 0 = Some 0) as Hnext.
  { unfold next. rewrite decide_False by lia. unfold try_read_request_binary. rewrite Hread.
    cbn [hd_opcode hd_bodylen hd_extlen hd_keylen]. fold (verdict_of h). rewrite Hv.
    rewrite int_add_small by (vm_compute; split; congruence). rewrite decide_False by lia. done. }
  rewrite parse_req_binary; [|done|].
  2: { unfold is_binary_protocol.
       assert (mem_get (encode h ++ post) 0 = Ret (to_char (magic h))) as -> by done.
       rewrite Hm. reflexivity. }
  destruct (parse_req_loop fuel true false 24 (encode h ++ post) size 0 header_unset []) eqn:E; [exfalso..|done].
  all: destruct (loop_stops_inv (encode h ++ post) size fuel 0 false header_unset []) as [n Hn];
    [by rewrite E|].
  all: clear E; induction n as [|n IH];
    [assert (next (encode h ++ post) size 0 = None) as Hz by exact Hn; congruence|].
  all: destruct Hn as (p & Hp & Hn); apply IH; assert (p = 0) as -> by congruence; exact Hn.
Qed.

Definition demo_evil : header := {|
  magic := magic_code PROTOCOL_BINARY_REQ; opcode := cmd_code PROTOCOL_BINARY_CMD_GETKQ; keylen := 0;
  extlen := 0; datatype := 0; reserved_or_status := 0; bodylen := 2 ^ 32 - 24; opaque := 0; cas := 0 |}.

Lemma parse_req_diverges_witness :
  memcached_parse_req 1000 statics_init demo_conf0 (encode demo_evil ++ []) 24 0 [] = NoFuel.
Proof.
  apply (parse_req_diverges statics_init demo_conf0 demo_evil [] 24).
  - vm_compute. reflexivity.
  - vm_compute. intuition congruence.
  - reflexivity.
  - eexists _, _, _. reflexivity.
  - reflexivity.
  - lia.
Defined.
