(* ===== verification/MemcachedForward.v ===== *)
(** Building backend requests and client responses ([memcached_create_req],
    [memcached_create_req_async], [memcached_create_resp]) and reading backend responses
    ([memcached_parse_resp]): what is copied where, the bounds, and the round trip from a
    client's buffer to a backend's. *)
From S2P Require Import Prelude StdMap Util Config ProtocolBinary Extension Memcached MemcachedBinary.

(** * Gathering *)

(** The concatenation the three builders produce: every part not marked as end, in order, then
    the last end mark. *)
Definition gather_body (l : list (byte * bytes)) : bytes :=
  concat ((λ x, if decide (x.1 ≠ "e"%byte) then x.2 else []) <$> l).

Fixpoint gather_end (d : bytes) (l : list (byte * bytes)) : bytes :=
  match l with
  | [] => d
  | x :: l => gather_end (if decide (x.1 ≠ "e"%byte) then d else x.2) l
  end.

Definition gather (l : list (byte * bytes)) : bytes := gather_body l ++ gather_end [] l.

(** The parts the pointers of a list of requests (responses) denote in a buffer. *)
Definition req_parts (mem : bytes) : list req_t → list (byte * bytes) → Prop :=
  Forall2 (λ it d, ext it = d.1 ∧ mem_read mem (content it) (content_len it) = Ret d.2).
Definition resp_parts (mem : bytes) : list resp_t → list (byte * bytes) → Prop :=
  Forall2 (λ it d, resp_ext it = d.1 ∧ mem_read mem (resp_content it) (resp_content_len it) = Ret d.2).

Definition fits (mem : bytes) : Prop := Z.of_nat (length mem) <= INT_MAX.

(** * Lemmas *)

Lemma gather_body_cons x l :
  gather_body (x :: l) = (if decide (x.1 ≠ "e"%byte) then x.2 else []) ++ gather_body l.
Proof. done. Qed.

Lemma mem_read_fits mem off n d : fits mem → mem_read mem off n = Ret d → 0 <= n <= INT_MAX.
Proof. unfold fits, mem_read. intros. case_decide; [lia|done]. Qed.

Lemma mem_read_le mem off n d : mem_read mem off n = Ret d → n <= Z.of_nat (length mem).
Proof. unfold mem_read. intros. case_decide; [lia|done]. Qed.

Lemma append_mem_ok mem off n d pre rest :
  mem_read mem off n = Ret d → (length d <= length rest)%nat → fits (pre ++ rest) →
  append_mem mem off n (pre ++ rest) (Z.of_nat (length pre)) =
  Ret ((pre ++ d) ++ drop (length d) rest, Z.of_nat (length (pre ++ d))).
Proof.
  intros Hr Hl Hf. unfold append_mem. rewrite Hr. cbn [mbind outcome_bind].
  rewrite mem_write_append by done. cbn [mbind outcome_bind]. do 2 f_equal.
  apply mem_read_length in Hr. unfold fits in Hf. rewrite length_app in Hf. rewrite length_app.
  rewrite i32_small; [lia|]. unfold is_int, INT_MIN, INT_MAX in *. lia.
Qed.

Lemma append_str_ok d pre rest :
  (length d <= length rest)%nat → fits (pre ++ rest) →
  append_str d (pre ++ rest) (Z.of_nat (length pre)) =
  Ret ((pre ++ d) ++ drop (length d) rest, Z.of_nat (length (pre ++ d))).
Proof.
  intros Hl Hf. unfold append_str. rewrite mem_write_append by done. cbn [mbind outcome_bind].
  do 2 f_equal. unfold fits in Hf. rewrite length_app in Hf. rewrite length_app.
  rewrite i32_small; [lia|]. unfold is_int, INT_MIN, INT_MAX in *. lia.
Qed.

(** The rest of the buffer after two appends. *)
Lemma fits_append pre d rest : (length d <= length rest)%nat → fits (pre ++ rest) → fits ((pre ++ d) ++ drop (length d) rest).
Proof. unfold fits. rewrite !length_app, length_drop. lia. Qed.

Lemma append_shape (pre a b rest : bytes) :
  ((pre ++ a) ++ b) ++ drop (length b) (drop (length a) rest) =
  (pre ++ a ++ b) ++ drop (length (a ++ b)) rest.
Proof. by rewrite drop_drop, length_app, (app_assoc pre). Qed.

Lemma create_req_loop_ok mem items parts : fits mem → req_parts mem items parts →
  ∀ pre rest es el d,
  mem_read mem es el = Ret d → (length (gather_body parts) <= length rest)%nat → fits (pre ++ rest) →
  ∃ es' el', mem_read mem es' el' = Ret (gather_end d parts) ∧
    create_req_loop mem items (pre ++ rest) (Z.of_nat (length pre)) es el =
    Ret ((pre ++ gather_body parts) ++ drop (length (gather_body parts)) rest,
         Z.of_nat (length (pre ++ gather_body parts)), es', el').
Proof.
  intros Hm. induction 1 as [|it part items parts [He Hr] _ IH]; intros pre rest es el d Hd Hl Hf.
  { exists es, el. split; [done|]. cbn. by rewrite app_nil_r. }
  rewrite gather_body_cons, length_app in Hl. cbn [create_req_loop gather_end]. rewrite gather_body_cons, He.
  destruct (decide (part.1 ≠ "e"%byte)) as [Hne|Heq].
  - rewrite append_mem_ok with (d := part.2) by (done || lia). cbn [mbind outcome_bind fst snd].
    destruct (IH (pre ++ part.2) (drop (length part.2) rest) es el d) as (es' & el' & Hd' & E);
      [done|rewrite length_drop; lia|apply fits_append; [lia|done]|].
    exists es', el'. split; [done|]. rewrite E. by rewrite append_shape, (app_assoc pre).
  - pose proof (mem_read_fits _ _ _ _ Hm Hr). rewrite i32_small by (unfold is_int, INT_MIN; lia).
    by apply IH.
Qed.

Lemma create_req_async_loop_ok items : ∀ pre rest d,
  let parts := (λ it, (comm_ext it, comm_content it)) <$> items in
  (length (gather_body parts) <= length rest)%nat → fits (pre ++ rest) →
  create_req_async_loop items (pre ++ rest) (Z.of_nat (length pre)) d =
  Ret ((pre ++ gather_body parts) ++ drop (length (gather_body parts)) rest,
       Z.of_nat (length (pre ++ gather_body parts)), gather_end d parts).
Proof.
  induction items as [|it items IH]; intros pre rest d parts Hl Hf.
  { cbn. by rewrite app_nil_r. }
  unfold parts in *. cbn [fmap list_fmap] in *. rewrite gather_body_cons, length_app in Hl.
  cbn [create_req_async_loop gather_end fst snd] in *. rewrite gather_body_cons. cbn [fst snd].
  destruct (decide (comm_ext it ≠ "e"%byte)) as [Hne|Heq].
  - rewrite append_str_ok by (done || lia). cbn [mbind outcome_bind fst snd].
    rewrite IH; [|rewrite length_drop; lia|apply fits_append; [lia|done]].
    by rewrite append_shape, (app_assoc pre).
  - by apply IH.
Qed.

Lemma mem_read_zero mem off d : mem_read mem off 0 = Ret d → d = [].
Proof. intros H. apply mem_read_length in H. by destruct d. Qed.

(** * Properties: building *)

Lemma create_req_run mem items parts pre rest :
  fits mem → fits (pre ++ rest) → req_parts mem items parts →
  (length (gather parts) <= length rest)%nat →
  memcached_create_req mem items (pre ++ rest) (Z.of_nat (length pre)) =
  Ret (SUCCESS, (pre ++ gather parts) ++ drop (length (gather parts)) rest,
       Z.of_nat (length (pre ++ gather parts))).
Proof.
  intros Hm Hf Hp Hl. unfold gather in *. rewrite length_app in Hl. unfold memcached_create_req.
  destruct (create_req_loop_ok mem items parts Hm Hp pre rest 0 0 []) as (es & el & Hd & E);
    [|lia|done|].
  { rewrite mem_read_ok by lia. change (Z.to_nat 0) with O. by rewrite take_0. }
  rewrite E. cbn [mbind outcome_bind]. case_decide as He.
  - rewrite append_mem_ok with (d := gather_end [] parts);
      [|done|rewrite length_drop; lia|apply fits_append; [lia|done]].
    cbn [mbind outcome_bind fst snd]. by rewrite append_shape, (app_assoc pre).
  - assert (el = 0) as -> by lia. apply mem_read_zero in Hd. by rewrite Hd, app_nil_r.
Qed.

(** [memcached_create_req] appends to the bytes already in the backend buffer the parts of the
    group in order, the end mark last, and nothing else; it never writes outside the buffer when
    the parts fit. *)
Theorem create_req_gather mem items parts pre rest :
  fits mem → fits (pre ++ rest) → req_parts mem items parts →
  (length (gather parts) <= length rest)%nat →
  memcached_create_req mem items (pre ++ rest) (Z.of_nat (length pre)) =
  Ret (SUCCESS, (pre ++ gather parts) ++ drop (length (gather parts)) rest,
       Z.of_nat (length (pre ++ gather parts))).
Proof. apply create_req_run. Qed.

(** A queued group is rebuilt exactly as the group itself would have been. *)
Theorem create_req_async_gather items pre rest :
  let parts := (λ it, (comm_ext it, comm_content it)) <$> items in
  fits (pre ++ rest) → (length (gather parts) <= length rest)%nat →
  memcached_create_req_async items (pre ++ rest) (Z.of_nat (length pre)) =
  Ret (SUCCESS, (pre ++ gather parts) ++ drop (length (gather parts)) rest,
       Z.of_nat (length (pre ++ gather parts))).
Proof.
  intros parts Hf Hl. unfold gather in *. rewrite length_app in Hl. unfold memcached_create_req_async.
  rewrite create_req_async_loop_ok by (done || (unfold parts in Hl; lia)). cbn [mbind outcome_bind]. fold parts.
  case_decide as He.
  - rewrite append_str_ok; [|rewrite length_drop; lia|apply fits_append; [lia|done]].
    cbn [mbind outcome_bind fst snd]. by rewrite append_shape, (app_assoc pre).
  - destruct (gather_end [] parts) eqn:E2; [by rewrite app_nil_r|discriminate].
Qed.

Section create_resp.
Context (mem : bytes) (Hm : fits mem).

(** The copy loop: everything is copied, or the loop stops before a part that does not fit. *)
Lemma create_resp_loop_ok items parts : resp_parts mem items parts →
  ∀ pre rest es el d,
  mem_read mem es el = Ret d → fits (pre ++ rest) →
  let size := Z.of_nat (length (pre ++ rest)) in
  if decide (length (gather_body parts) <= length rest)%nat then
    ∃ es' el', mem_read mem es' el' = Ret (gather_end d parts) ∧
      create_resp_loop mem items (pre ++ rest) (Z.of_nat (length pre)) size es el =
      Ret (Some (es', el'), (pre ++ gather_body parts) ++ drop (length (gather_body parts)) rest,
           Z.of_nat (length (pre ++ gather_body parts)))
  else
    ∃ out' len', create_resp_loop mem items (pre ++ rest) (Z.of_nat (length pre)) size es el =
      Ret (None, out', len') ∧ length out' = length (pre ++ rest) ∧ 0 <= len' <= size.
Proof.
  induction 1 as [|it part items parts [He Hr] _ IH]; intros pre rest es el d Hd Hf size.
  { rewrite decide_True by (cbn; lia). exists es, el. split; [done|]. cbn. by rewrite app_nil_r. }
  rewrite gather_body_cons. cbn [create_resp_loop gather_end]. rewrite He.
  destruct (decide (part.1 ≠ "e"%byte)) as [Hne|Heq].
  - pose proof (mem_read_length _ _ _ _ Hr) as Hlen. pose proof (mem_read_fits _ _ _ _ Hm Hr) as Hn.
    unfold fits in Hf. assert (size <= INT_MAX) as Hs by done.
    assert (size = Z.of_nat (length pre) + Z.of_nat (length rest)) as Hsz
      by (unfold size; rewrite length_app; lia).
    rewrite !u32_small by (unfold INT_MAX in *; lia). rewrite <- Hlen.
    destruct (decide (size < Z.of_nat (length pre) + Z.of_nat (length part.2))) as [Hbig|Hsmall].
    { rewrite decide_False by (rewrite length_app; lia). eexists _, _. split; [done|]. lia. }
    rewrite Hlen, append_mem_ok with (d := part.2) by (done || lia). cbn [mbind outcome_bind fst snd].
    assert (length part.2 <= length rest)%nat as Hle by lia.
    specialize (IH (pre ++ part.2) (drop (length part.2) rest) es el d Hd (fits_append _ _ _ Hle Hf)).
    cbv zeta in IH.
    assert (length ((pre ++ part.2) ++ drop (length part.2) rest) = length (pre ++ rest)) as Hlen'
      by (rewrite !length_app, length_drop; lia).
    rewrite Hlen' in IH. fold size in IH. rewrite length_drop in IH. rewrite length_app.
    destruct (decide (length (gather_body parts) <= length rest - length part.2)%nat) as [Hin|Hout].
    + rewrite decide_True by lia. destruct IH as (es' & el' & Hd' & E). exists es', el'. split; [done|].
      rewrite E. rewrite <- length_app. by rewrite append_shape, (app_assoc pre).
    + rewrite decide_False by lia. done.
  - pose proof (mem_read_fits _ _ _ _ Hm Hr). rewrite i32_small by (unfold is_int, INT_MIN; lia).
    by apply IH.
Qed.

Lemma create_resp_cases items parts pre rest :
  Z.of_nat (length mem) + Z.of_nat (length (pre ++ rest)) <= INT_MAX → resp_parts mem items parts →
  let size := Z.of_nat (length (pre ++ rest)) in
  if decide (length (gather parts) <= length rest)%nat then
    memcached_create_resp mem items (pre ++ rest) (Z.of_nat (length pre)) size =
    Ret (SUCCESS, (pre ++ gather parts) ++ drop (length (gather parts)) rest,
         Z.of_nat (length (pre ++ gather parts)))
  else
    ∃ out' len', memcached_create_resp mem items (pre ++ rest) (Z.of_nat (length pre)) size =
      Ret (ERROR, out', len') ∧ length out' = length (pre ++ rest) ∧ 0 <= len' <= size.
Proof.
  intros Hsum Hp size. assert (fits (pre ++ rest)) as Hf by (unfold fits; lia). unfold memcached_create_resp.
  assert (mem_read mem 0 0 = Ret []) as H0
    by (rewrite mem_read_ok by lia; change (Z.to_nat 0) with O; by rewrite take_0).
  pose proof (create_resp_loop_ok items parts Hp pre rest 0 0 [] H0 Hf) as Hloop. cbv zeta in Hloop.
  fold size in Hloop. unfold gather. rewrite length_app.
  destruct (decide (length (gather_body parts) <= length rest)%nat) as [Hin|Hout].
  2: { rewrite decide_False by lia. destruct Hloop as (out' & len' & E & H). rewrite E. by exists out', len'. }
  destruct Hloop as (es & el & Hd & E). rewrite E. cbn [mbind outcome_bind].
  pose proof (mem_read_length _ _ _ _ Hd) as Hlen. pose proof (mem_read_fits _ _ _ _ Hm Hd) as Hel.
  assert (el <= Z.of_nat (length mem)) as Helm by (by eapply mem_read_le).
  assert (size = Z.of_nat (length pre) + Z.of_nat (length rest)) as Hsz by (unfold size; rewrite length_app; lia).
  assert (size <= INT_MAX) as Hs by exact Hf.
  destruct (decide (el ≠ 0)) as [Hne|Hz].
  - assert (Z.of_nat (length (pre ++ gather_body parts)) <= size) as Hpb by (rewrite length_app; lia).
    rewrite int_add_small by (unfold is_int, INT_MIN, INT_MAX in *; lia). cbn [mbind outcome_bind].
    destruct (decide (size < _)) as [Hbig|Hsmall].
    + rewrite decide_False by (rewrite length_app in Hbig; lia). eexists _, _. split; [done|].
      rewrite !length_app, length_drop. lia.
    + rewrite length_app in Hsmall. rewrite decide_True by lia.
      rewrite append_mem_ok with (d := gather_end [] parts); [|done|rewrite length_drop; lia|by apply fits_append].
      cbn [mbind outcome_bind fst snd]. by rewrite append_shape, length_app, (app_assoc pre).
  - assert (el = 0) as -> by lia. apply mem_read_zero in Hd. rewrite Hd, app_nil_r.
    rewrite decide_True by (cbn; lia). cbn [length]. by rewrite Nat.add_0_r.
Qed.
End create_resp.

(** C31: [memcached_create_resp] never writes outside the client buffer: it appends the responses in
    order, end mark last, exactly when they fit, and otherwise returns [ERROR]. *)
Theorem create_resp_bounded mem items parts pre rest :
  let size := Z.of_nat (length (pre ++ rest)) in
  Z.of_nat (length mem) + size <= INT_MAX → resp_parts mem items parts →
  if decide (length (gather parts) <= length rest)%nat then
    memcached_create_resp mem items (pre ++ rest) (Z.of_nat (length pre)) size =
    Ret (SUCCESS, (pre ++ gather parts) ++ drop (length (gather parts)) rest,
         Z.of_nat (length (pre ++ gather parts)))
  else
    ∃ out' len', memcached_create_resp mem items (pre ++ rest) (Z.of_nat (length pre)) size =
      Ret (ERROR, out', len') ∧ length out' = length (pre ++ rest) ∧ 0 <= len' <= size.
Proof.
  intros size Hsum Hp. apply create_resp_cases; [unfold fits; lia|exact Hsum|exact Hp].
Qed.

Definition demo_resps : list resp_t := [
  {| resp_content := 0; resp_content_len := 2; resp_ext := "e"%byte |};
  {| resp_content := 2; resp_content_len := 3; resp_ext := x00 |} ].

Lemma create_resp_bounded_witness :
  memcached_create_resp (bs "ENabc") demo_resps (replicate 4 x00) 0 4 = Ret (ERROR, bs "abc" ++ [x00], 3) ∧
  memcached_create_resp (bs "ENabc") demo_resps (replicate 6 x00) 0 6 = Ret (SUCCESS, bs "abcEN" ++ [x00], 5).
Proof.
  assert (resp_parts (bs "ENabc") demo_resps [("e"%byte, bs "EN"); (x00, bs "abc")]) as Hp
    by (repeat constructor).
  split.
  - destruct (create_resp_bounded (bs "ENabc") demo_resps _ [] (replicate 4 x00) ltac:(vm_compute; congruence) Hp)
      as (out & len & E & _).
    etrans; [exact E|]. revert E. vm_compute. congruence.
  - exact (create_resp_bounded (bs "ENabc") demo_resps _ [] (replicate 6 x00) ltac:(vm_compute; congruence) Hp).
Defined.

Lemma create_req_gather_witness :
  memcached_create_req (bs "endGET") [
    {| key := 0; key_len := 0; content := 0; content_len := 3; update := false; each := true; ext := "e"%byte |};
    {| key := 0; key_len := 0; content := 3; content_len := 3; update := false; each := false; ext := x00 |} ]
    (bs "X" ++ replicate 6 x00) 1 = Ret (SUCCESS, bs "XGETend", 7).
Proof.
  apply (create_req_gather (bs "endGET") _ [("e"%byte, bs "end"); (x00, bs "GET")] (bs "X") (replicate 6 x00)).
  - vm_compute. congruence.
  - vm_compute. congruence.
  - repeat constructor.
  - vm_compute. lia.
Defined.

Lemma create_req_async_gather_witness :
  memcached_create_req_async [ {| comm_content := bs "end"; comm_ext := "e"%byte |};
                               {| comm_content := bs "SET"; comm_ext := x00 |} ]
    (replicate 6 x00) 0 = Ret (SUCCESS, bs "SETend", 6).
Proof.
  apply (create_req_async_gather [ {| comm_content := bs "end"; comm_ext := "e"%byte |};
                                  {| comm_content := bs "SET"; comm_ext := x00 |} ] [] (replicate 6 x00)).
  - vm_compute. congruence.
  - vm_compute. lia.
Defined.

(** * Properties: the round trip of a request buffer *)

Lemma read_packet pre p post :
  hlen (p_head p) = plen p →
  mem_read (pre ++ packet_bytes p ++ post) (Z.of_nat (length pre)) (hlen (p_head p)) = Ret (packet_bytes p).
Proof.
  intros Hlen. rewrite mem_read_ok.
  - rewrite Hlen. unfold plen. by rewrite !Nat2Z.id, drop_app_length, take_app_length.
  - rewrite Hlen. unfold plen. lia.
  - lia.
  - rewrite Hlen, !length_app. unfold plen. lia.
Qed.

(** The extension byte of a verdict. *)
Definition mark_of (h : header) : byte := match verdict_of h with Item _ _ x _ => x | Stop _ => x00 end.

Lemma req_items_parts ps : ∀ pre post,
  Forall (λ p, hlen (p_head p) = plen p ∧ (quiet (p_head p) ∨ final (p_head p))) ps →
  req_parts (pre ++ stream ps ++ post) (req_items (Z.of_nat (length pre)) (heads ps))
    ((λ p, (mark_of (p_head p), packet_bytes p)) <$> ps).
Proof.
  induction ps as [|p ps IH]; intros pre post Hps; [constructor|].
  apply Forall_cons in Hps as [[Hlen Hv] Hps]. rewrite stream_cons.
  cbn [heads fmap list_fmap req_items].
  assert (∃ u e x a, verdict_of (p_head p) = Item u e x a) as (u & e & x & a & Hv').
  { destruct Hv as [(u & e & x & ?)|(u & e & x & ?)]; by eexists _, _, _, _. }
  unfold req_item, mark_of at 1. rewrite Hv'. cbn [app]. constructor.
  - split; [done|]. cbn [content content_len snd]. by apply read_packet.
  - specialize (IH (pre ++ packet_bytes p) post Hps).
    rewrite length_app, Nat2Z.inj_add, <- app_assoc in IH. fold (plen p) in IH. by rewrite <- Hlen in IH.
Qed.

Lemma quiet_mark h : quiet h → mark_of h = x00.
Proof.
  intros (u & e & x & Hv). unfold mark_of. rewrite Hv. revert Hv.
  unfold verdict_of, classify. repeat (case_decide; [congruence|]). congruence.
Qed.

(** C20: what [memcached_parse_req] takes from a client and [memcached_create_req] rebuilds for one
    backend is the client's bytes up to the end of the first request that is not quiet. *)
Theorem parse_create_req st conf ps p rest tail out :
  let size := Z.of_nat (length (stream ps ++ packet_bytes p ++ rest)) in
  let mem := stream ps ++ packet_bytes p ++ rest ++ tail in
  use_binary (init_statics st conf).1 = true →
  Forall (λ p, packet_ok PROTOCOL_BINARY_REQ p ∧ quiet (p_head p)) ps →
  packet_ok PROTOCOL_BINARY_REQ p → final (p_head p) →
  fits mem → fits out → (length (stream (ps ++ [p])) <= length out)%nat →
  ∃ position items st' conf',
    memcached_parse_req (parse_fuel size) st conf mem size 0 [] = Ret (SUCCESS, position, items, st', conf') ∧
    memcached_create_req mem items out 0 =
    Ret (SUCCESS, stream (ps ++ [p]) ++ drop (length (stream (ps ++ [p]))) out,
         Z.of_nat (length (stream (ps ++ [p])))).
Proof.
  intros size mem Hu Hps Hp Hfin Hm Hout Hl.
  assert (size <= INT_MAX) as Hsize by (revert Hm; unfold fits, size, mem; rewrite !length_app; lia).
  eexists _, _, _, _. split; [by apply parse_req_run|].
  assert (Forall (λ p, hlen (p_head p) = plen p ∧ (quiet (p_head p) ∨ final (p_head p))) (ps ++ [p])) as Hall.
  { apply Forall_app. split; [|constructor; [|done]].
    - eapply Forall_impl; [exact Hps|]. intros q [[_ ?] ?]. by auto.
    - destruct Hp. by auto. }
  pose proof (req_items_parts (ps ++ [p]) [] (rest ++ tail) Hall) as Hparts.
  change (Z.of_nat (length [])) with 0 in Hparts. cbn [app] in Hparts.
  assert (stream (ps ++ [p]) ++ rest ++ tail = mem) as Emem.
  { unfold stream, mem. rewrite fmap_app, concat_app; cbn [fmap list_fmap concat]. by rewrite app_nil_r, <- app_assoc. }
  rewrite Emem in Hparts.
  assert (gather ((λ p, (mark_of (p_head p), packet_bytes p)) <$> (ps ++ [p])) = stream (ps ++ [p])) as Eg.
  { clear - Hps. unfold gather.
    assert (∀ d, gather_end d ((λ p, (mark_of (p_head p), packet_bytes p)) <$> ps) = d ∧
            gather_body ((λ p, (mark_of (p_head p), packet_bytes p)) <$> ps) = stream ps) as H.
    { induction Hps as [|q ps [_ Hq] _ IH]; intros d; [done|]. cbn [fmap list_fmap gather_end].
      rewrite gather_body_cons. cbn [fst snd]. rewrite (quiet_mark _ Hq). destruct (IH d) as [IH1 IH2].
      split; [exact IH1|]. etrans; [apply (f_equal (app (packet_bytes q)) IH2)|done]. }
    unfold gather_body, stream in *. rewrite !fmap_app, !concat_app. destruct (H []) as [_ ->].
    assert (∀ (l l' : list (byte * bytes)) d, gather_end d (l ++ l') = gather_end (gather_end d l) l') as Hend
      by (induction l; intros; cbn; auto).
    rewrite Hend. destruct (H []) as [-> _]. cbn. rewrite !app_nil_r. case_decide; by rewrite ?app_nil_r. }
  pose proof (create_req_run mem _ _ [] out Hm Hout Hparts) as H. rewrite Eg in H. by apply H.
Qed.

Lemma parse_create_req_witness :
  let s := stream [demo_getkq (bs "a"); demo_noop] in
  ∃ position items st' conf',
    memcached_parse_req (parse_fuel (Z.of_nat (length s))) statics_init demo_conf0 s
      (Z.of_nat (length s)) 0 [] = Ret (SUCCESS, position, items, st', conf') ∧
    memcached_create_req s items (replicate 60 x00) 0 =
    Ret (SUCCESS, s ++ drop (length s) (replicate 60 x00), Z.of_nat (length s)).
Proof.
  pose proof (parse_create_req statics_init demo_conf0 [demo_getkq (bs "a")] demo_noop [] [] (replicate 60 x00)) as H.
  cbv zeta in *. rewrite !app_nil_r in H. apply H; clear H.
  - vm_compute. reflexivity.
  - repeat constructor; try (eexists _, _, _; reflexivity); vm_compute; intuition congruence.
  - repeat constructor; vm_compute; intuition congruence.
  - eexists _, _, _; reflexivity.
  - vm_compute. congruence.
  - vm_compute. congruence.
  - vm_compute. lia.
Defined.

(** * Properties: backend responses *)

#[local] Create Rewrite HintDb turn.
#[local] Hint Rewrite read_keylen read_extlen read_bodylen read_opcode @bind_Ret : turn.

Section response_turn.
Context (h : header) (pre post : bytes) (Hok : head_ok PROTOCOL_BINARY_RES h).
Let mem := pre ++ encode h ++ post.
Let pos := Z.of_nat (length pre).

Lemma resp_turn fuel agin size hd l :
  pos + 24 <= size → hlen h <= size → pos + hlen h <= INT_MAX →
  parse_resp_loop (S fuel) true agin 24 mem size pos hd l =
  parse_resp_loop fuel true (Some (resp_quiet h)) 24 mem size (pos + hlen h) (read_of h)
    (l ++ [resp_item pos h]).
Proof.
  intros Hs Hlen Hmax. cbn [parse_resp_loop]. rewrite decide_False by lia.
  destruct (hlen_sum h _ pos Hok ltac:(lia) Hmax) as (E1 & E2 & E3 & E4).
  unfold try_read_response_binary, mem, pos in *. rewrite try_read_head by (done || lia).
  rewrite bind_Ret, !decide_False by lia. autorewrite with turn.
  rewrite E1, bind_Ret, decide_False by lia. autorewrite with turn.
  rewrite E2, bind_Ret, E3, bind_Ret, E4. done.
Qed.

Lemma resp_turn_again fuel agin size hd l :
  pos + 24 <= size → size < hlen h →
  parse_resp_loop (S fuel) true agin 24 mem size pos hd l = Ret (AGAIN, pos, l).
Proof.
  intros Hs Hlen. cbn [parse_resp_loop]. rewrite decide_False by lia.
  destruct Hok as (Hh & Hm & Hmax).
  destruct (hlen_sum h _ 0 Hok ltac:(lia) Hmax) as (E1 & _).
  unfold try_read_response_binary, mem, pos in *. rewrite try_read_head by (done || lia).
  rewrite bind_Ret, !decide_False by lia. autorewrite with turn.
  by rewrite E1, bind_Ret, decide_True by lia.
Qed.
End response_turn.

(** Whether the last response of a stream is quiet. *)
Fixpoint last_quiet (agin : option bool) (hs : list header) : option bool :=
  match hs with [] => agin | h :: hs => last_quiet (Some (resp_quiet h)) hs end.

Lemma resp_run ps : ∀ pre post fuel agin size hd l,
  Forall (packet_ok PROTOCOL_BINARY_RES) ps →
  Z.of_nat (length pre) + Z.of_nat (length (stream ps)) <= size → size <= INT_MAX →
  ∃ hd', parse_resp_loop (length ps + fuel) true agin 24 (pre ++ stream ps ++ post) size
           (Z.of_nat (length pre)) hd l =
         parse_resp_loop fuel true (last_quiet agin (heads ps)) 24 (pre ++ stream ps ++ post) size
           (Z.of_nat (length (pre ++ stream ps))) hd' (l ++ resp_items (Z.of_nat (length pre)) (heads ps)).
Proof.
  induction ps as [|p ps IH]; intros pre post fuel agin size hd l Hps Hsize Hmax.
  { exists hd. cbn [stream fmap list_fmap concat heads resp_items length Nat.add last_quiet].
    by rewrite !app_nil_r. }
  apply Forall_cons in Hps as [[Hok Hlen] Hps]. rewrite length_stream_cons in Hsize.
  pose proof (plen_ge p).
  destruct (IH (pre ++ packet_bytes p) post fuel (Some (resp_quiet (p_head p))) size (read_of (p_head p))
              (l ++ [resp_item (Z.of_nat (length pre)) (p_head p)]))
    as [hd' E]; [done|rewrite length_app; fold (plen p); unfold plen in *; lia|done|].
  exists hd'. rewrite stream_cons. unfold packet_bytes at 1. rewrite <- (app_assoc (encode _)).
  cbn [length Nat.add]. rewrite (resp_turn (p_head p) pre _ Hok) by lia.
  rewrite (app_assoc (encode _)). fold (packet_bytes p).
  rewrite <- (app_assoc pre), length_app, Nat2Z.inj_add in E. fold (plen p) in E. rewrite <- Hlen in E.
  rewrite E. f_equal.
  - unfold stream; cbn. by rewrite <- app_assoc.
  - cbn [heads fmap list_fmap resp_items]. by rewrite <- app_assoc.
Qed.

Lemma stream_app ps qs : stream (ps ++ qs) = stream ps ++ stream qs.
Proof. unfold stream. by rewrite fmap_app, concat_app. Qed.

Lemma is_binary_stream m ps post size :
  Forall (packet_ok m) ps → ps ≠ [] → is_binary_protocol (stream ps ++ post) 0 size = Ret true.
Proof.
  intros Hps Hne. destruct ps as [|p ps]; [done|]. apply Forall_cons in Hps as [[Hok _] _].
  rewrite stream_cons. unfold packet_bytes at 1. rewrite <- app_assoc. by apply (is_binary_head m).
Qed.

(** From the position where an earlier call stopped, [memcached_parse_resp] adds exactly the
    responses that have arrived since, and asks for more exactly when the last one is quiet. *)
Theorem parse_resp_stream ps qs tail l :
  let size := Z.of_nat (length (stream (ps ++ qs))) in
  Forall (packet_ok PROTOCOL_BINARY_RES) (ps ++ qs) → qs ≠ [] → size <= INT_MAX →
  memcached_parse_resp (parse_fuel size) (stream (ps ++ qs) ++ tail) size (Z.of_nat (length (stream ps))) l =
  Ret (if default false (last_quiet None (heads qs)) then AGAIN else SUCCESS, size,
       l ++ resp_items (Z.of_nat (length (stream ps))) (heads qs)).
Proof.
  intros size Hall Hne Hmax. unfold memcached_parse_resp.
  rewrite (is_binary_stream PROTOCOL_BINARY_RES) by (done || by destruct ps, qs). rewrite bind_Ret.
  apply Forall_app in Hall as [_ Hqs].
  assert (size = Z.of_nat (length (stream ps)) + Z.of_nat (length (stream qs))) as Hsize
    by (unfold size; rewrite stream_app, length_app; lia).
  pose proof (length_stream_ge qs).
  replace (parse_fuel size) with (length qs + S (S (Z.to_nat size) - length qs))%nat by (unfold parse_fuel; lia).
  destruct (resp_run qs (stream ps) tail (S (S (Z.to_nat size) - length qs)) None size header_unset l)
    as [hd' E]; [done|lia|done|].
  rewrite stream_app, <- app_assoc, E. rewrite <- stream_app. fold size.
  cbn [parse_resp_loop]. rewrite decide_True by lia.
  assert (∃ b, last_quiet None (heads qs) = Some b) as [b ->]; [|done].
  destruct qs as [|q qs]; [done|]. cbn. generalize (resp_quiet (p_head q)). clear.
  induction qs as [|q qs IH]; intros b; cbn; [by exists b|apply IH].
Qed.

Definition demo_resp (c : protocol_binary_command) (k v : bytes) :=
  demo_packet PROTOCOL_BINARY_RES c k (replicate 4 x00) v.

Lemma parse_resp_stream_witness :
  let ps := [demo_resp PROTOCOL_BINARY_CMD_GETKQ (bs "k") (bs "v")] in
  let qs := [demo_resp PROTOCOL_BINARY_CMD_NOOP [] []] in
  memcached_parse_resp (parse_fuel 58) (stream (ps ++ qs) ++ [x00]) 58 30 (resp_items 0 (heads ps)) =
  Ret (SUCCESS, 58, resp_items 0 (heads ps) ++ resp_items 30 (heads qs)).
Proof.
  apply (parse_resp_stream [demo_resp PROTOCOL_BINARY_CMD_GETKQ (bs "k") (bs "v")]
           [demo_resp PROTOCOL_BINARY_CMD_NOOP [] []] [x00]
           (resp_items 0 (heads [demo_resp PROTOCOL_BINARY_CMD_GETKQ (bs "k") (bs "v")]))).
  - repeat constructor; vm_compute; intuition congruence.
  - discriminate.
  - vm_compute. congruence.
Defined.

(** A response that arrives in pieces is waited for: after complete responses [ps], a part of the
    next header - or, when it is the first, any part of the packet - leaves the position behind [ps]. *)
Theorem parse_resp_cut ps p (n : nat) tail l :
  let size := Z.of_nat (length (stream ps)) + Z.of_nat n in
  Forall (packet_ok PROTOCOL_BINARY_RES) (ps ++ [p]) → size <= INT_MAX →
  (0 < n)%nat → (n < 24)%nat ∨ ps = [] ∧ (n < length (packet_bytes p))%nat →
  memcached_parse_resp (parse_fuel size) (stream ps ++ take n (packet_bytes p) ++ tail) size 0 l =
  Ret (AGAIN, Z.of_nat (length (stream ps)), l ++ resp_items 0 (heads ps)).
Proof.
  intros size Hall Hmax Hn Hcut. apply Forall_app in Hall as [Hps [[Hok Hlen] _]%Forall_cons].
  unfold memcached_parse_resp.
  assert (is_binary_protocol (stream ps ++ take n (packet_bytes p) ++ tail) 0 size = Ret true) as ->.
  { destruct ps as [|q ps]; [|by apply (is_binary_stream PROTOCOL_BINARY_RES)].
    destruct n as [|n]; [lia|]. by apply (is_binary_take PROTOCOL_BINARY_RES). }
  rewrite bind_Ret. pose proof (length_stream_ge ps).
  replace (parse_fuel size) with (length ps + S (S (Z.to_nat size) - length ps))%nat by (unfold parse_fuel; lia).
  destruct (resp_run ps [] (take n (packet_bytes p) ++ tail) (S (S (Z.to_nat size) - length ps)) None size
              header_unset l) as [hd' E]; [done|cbn; lia|done|].
  change (Z.of_nat (length [])) with 0 in E. cbn [app] in E. rewrite E. clear E.
  destruct (decide (n < 24)%nat) as [Hs|Hl].
  - cbn [parse_resp_loop]. rewrite decide_False by lia. unfold try_read_response_binary.
    rewrite try_read_short by lia. done.
  - destruct Hcut as [?|[-> Hcut]]; [lia|]. rewrite take_packet, <- app_assoc by lia.
    pose proof (resp_turn_again (p_head p) [] (take (n - 24) (p_body p) ++ tail) Hok) as Ht.
    change (Z.of_nat (length [])) with 0 in Ht. apply Ht; unfold size, plen in *; cbn; lia.
Qed.

Lemma parse_resp_cut_witness :
  memcached_parse_resp (parse_fuel 40) (take 40 (stream [demo_resp PROTOCOL_BINARY_CMD_GET [] (replicate 30 "v"%byte)]))
    40 0 [] = Ret (AGAIN, 0, []).
Proof.
  pose proof (parse_resp_cut [] (demo_resp PROTOCOL_BINARY_CMD_GET [] (replicate 30 "v"%byte)) 40 [] []) as H.
  rewrite app_nil_r in H. apply H; clear H.
  - repeat constructor; vm_compute; intuition congruence.
  - vm_compute. congruence.
  - lia.
  - right. split; [done|]. vm_compute. lia.
Defined.
