(* ===== verification/MemcachedText.v ===== *)
(** The text protocol through [memcached_parse_req]: command lines
    [<command> <key> <arguments>\r\n], with a data block after a storage command.

    The scanner is followed over the pieces of a line ([scan_word], [scan_key], [scan_arg]);
    the properties say which requests it delimits correctly and which it does not. *)
From S2P Require Import Prelude StdMap Util Config ProtocolBinary Extension Memcached MemcachedBinary.

(** * Command lines *)

Definition CRLF : bytes := [CR; LF].

Definition text_line (w key : bytes) (args : list bytes) : bytes :=
  w ++ SP :: key ++ concat (cons SP <$> args) ++ CRLF.

(** A command word, a key and an argument the scanner takes as one token. *)
Definition word_ok (w : bytes) : Prop := w ≠ [] ∧ (SP ∉ w).
Definition key_ok (k : bytes) : Prop := k ≠ [] ∧ (SP ∉ k) ∧ (CR ∉ k).
Definition arg_char (c : byte) : Prop := c ≠ SP ∧ c ≠ LF ∧ c ≠ CR ∧ c ≠ "n"%byte.
Definition arg_ok (a : bytes) : Prop := Forall arg_char a.
Definition number (a : bytes) : Prop := (0 < length a < 10)%nat ∧ Forall (λ c, isdigit c) a.

#[export] Instance arg_char_dec c : Decision (arg_char c).
Proof. unfold arg_char. apply _. Defined.
#[export] Instance arg_ok_dec a : Decision (arg_ok a).
Proof. unfold arg_ok. apply _. Defined.
#[export] Instance number_dec a : Decision (number a).
Proof. unfold number. apply _. Defined.
#[export] Instance word_ok_dec a : Decision (word_ok a).
Proof. unfold word_ok. apply _. Defined.
#[export] Instance key_ok_dec a : Decision (key_ok a).
Proof. unfold key_ok. apply _. Defined.

(** * The scanner on a list *)

Fixpoint text_list (l : bytes) (i : Z) (st : text_scan) : outcome text_scan :=
  match l with
  | [] => Ret st
  | c :: l =>
      r ← text_req_step st i c;
      if (r.2 : bool) then Ret r.1 else text_list l (i + 1) r.1
  end.

Lemma text_loop_list l : ∀ data off i st,
  0 <= off + i → take (length l) (drop (Z.to_nat (off + i)) data) = l →
  text_req_loop (length l) i data off st = text_list l i st.
Proof.
  induction l as [|c l IH]; intros data off i st Hi Hd; [done|].
  cbn [length text_req_loop text_list].
  destruct (drop (Z.to_nat (off + i)) data) as [|b rest] eqn:E; [done|]. cbn in Hd. injection Hd as -> Hd.
  assert (data !! Z.to_nat (off + i) = Some c) as Hc.
  { rewrite <- (Nat.add_0_r (Z.to_nat (off + i))), <- lookup_drop, E. done. }
  unfold mem_get. rewrite decide_True by done. rewrite Hc. cbn [mbind outcome_bind].
  destruct (text_req_step st i c) as [[st' []]| | |]; cbn [mbind outcome_bind fst snd]; try done.
  apply IH; [lia|]. replace (Z.to_nat (off + (i + 1))) with (Z.to_nat (off + i) + 1)%nat by lia.
  by rewrite <- drop_drop, E.
Qed.

(** A run of characters the scanner passes over. *)
Lemma scan_skip s l i st :
  (∀ c j, c ∈ s → text_req_step st j c = Ret (st, false)) →
  text_list (s ++ l) i st = text_list l (i + Z.of_nat (length s)) st.
Proof.
  revert i. induction s as [|c s IH]; intros i Hs; cbn [app length text_list].
  - by rewrite Z.add_0_r.
  - rewrite Hs by set_solver. cbn [mbind outcome_bind fst snd]. rewrite IH by set_solver. f_equal. lia.
Qed.

(** The scanner's state once the command word and the key are behind it. *)
Definition after_key (w key : bytes) (split : Z) (digits : bytes) : text_scan := {|
  split_counter := split; cmd_len := Z.of_nat (length w); key_len_t := Z.of_nat (length key);
  content_len_t := 0; extlen_t := Some (Z.of_nat (length w) + 1); chr_data_len := digits
|}.

Ltac step_false := rewrite bool_decide_eq_false_2 by (cbn; unfold SP, CR, LF in *; intuition (congruence || lia)).
Ltac step_true := rewrite bool_decide_eq_true_2 by (cbn; unfold SP, CR, LF in *; intuition (congruence || lia)).

Lemma scan_word w l :
  word_ok w →
  text_list (w ++ SP :: l) 0 (scan_init None) =
  text_list l (Z.of_nat (length w) + 1)
    {| split_counter := 1; cmd_len := Z.of_nat (length w); key_len_t := 0; content_len_t := 0;
       extlen_t := Some (Z.of_nat (length w) + 1); chr_data_len := [] |}.
Proof.
  intros [Hne Hsp]. rewrite scan_skip.
  - cbn [text_list]. unfold text_req_step. step_true. done.
  - intros c j Hc. unfold text_req_step. assert (c ≠ SP) by (intros ->; done). by repeat step_false.
Qed.

Lemma scan_key w key c l :
  word_ok w → key_ok key → c = SP ∨ c = CR →
  text_list (key ++ c :: l) (Z.of_nat (length w) + 1)
    {| split_counter := 1; cmd_len := Z.of_nat (length w); key_len_t := 0; content_len_t := 0;
       extlen_t := Some (Z.of_nat (length w) + 1); chr_data_len := [] |} =
  text_list l (Z.of_nat (length w) + 1 + Z.of_nat (length key) + 1)
    (after_key w key (if decide (c = SP) then 2 else 1) []).
Proof.
  intros [Hw _] (Hk & Hsp & Hcr) Hc.
  assert (0 < Z.of_nat (length w)) as Hw0 by (destruct w; [done|cbn; lia]). rewrite scan_skip.
  - cbn [text_list]. unfold text_req_step. step_false. destruct Hc as [->| ->].
    + step_true. cbn [known mbind outcome_bind extlen_t fst snd]. do 2 f_equal. unfold after_key. f_equal. lia.
    + step_false. step_true. cbn [known mbind outcome_bind extlen_t fst snd]. do 2 f_equal. unfold after_key. f_equal. lia.
  - intros b j Hb. unfold text_req_step. assert (b ≠ SP ∧ b ≠ CR) as [? ?] by (split; intros ->; done).
    by repeat step_false.
Qed.

(** The end of the line after the key. *)
Lemma scan_end w key split digits l i :
  word_ok w → key_ok key → 
  text_list (LF :: l) i (after_key w key split digits) =
  Ret {| split_counter := split; cmd_len := Z.of_nat (length w); key_len_t := Z.of_nat (length key);
         content_len_t := i + 1; extlen_t := Some (Z.of_nat (length w) + 1); chr_data_len := digits |}.
Proof.
  intros [Hw _] (Hk & _). assert (0 < Z.of_nat (length w)) by (destruct w; [done|cbn; lia]).
  assert (0 < Z.of_nat (length key)) by (destruct key; [done|cbn; lia]).
  cbn [text_list]. unfold text_req_step, after_key. do 3 step_false. step_true. done.
Qed.

(** Arguments before the fourth word, and the carriage return, change nothing. *)
Lemma scan_arg w key split a l i :
  word_ok w → key_ok key → split < 4 → Forall (λ c, arg_char c ∨ c = CR) a →
  text_list (a ++ l) i (after_key w key split []) = text_list l (i + Z.of_nat (length a)) (after_key w key split []).
Proof.
  intros [Hw _] (Hk & _) Hs Ha. assert (0 < Z.of_nat (length w)) by (destruct w; [done|cbn; lia]).
  assert (0 < Z.of_nat (length key)) by (destruct key; [done|cbn; lia]).
  apply scan_skip. intros c j Hc. rewrite Forall_forall in Ha. specialize (Ha c Hc).
  unfold arg_char, after_key, text_req_step in *.
  destruct Ha as [(? & ? & ? & ?)| ->]; by repeat step_false.
Qed.

Lemma scan_space w key split l i :
  word_ok w → key_ok key → split < 4 →
  text_list (SP :: l) i (after_key w key split []) = text_list l (i + 1) (after_key w key (split + 1) []).
Proof.
  intros [Hw _] (Hk & _) Hs. assert (0 < Z.of_nat (length w)) by (destruct w; [done|cbn; lia]).
  assert (0 < Z.of_nat (length key)) by (destruct key; [done|cbn; lia]).
  cbn [text_list]. unfold text_req_step, after_key. do 5 step_false. step_true. done.
Qed.

(** The digits of the fifth word are collected. *)
Lemma scan_number w key digits a l i :
  word_ok w → key_ok key → Forall (λ c, isdigit c) a → (length digits + length a <= 10)%nat →
  text_list (a ++ l) i (after_key w key 4 digits) =
  text_list l (i + Z.of_nat (length a)) (after_key w key 4 (digits ++ a)).
Proof.
  intros Hw Hk Ha. revert digits i. induction Ha as [|c a Hc _ IH]; intros digits i Hl.
  - cbn. by rewrite app_nil_r, Z.add_0_r.
  - destruct Hw as [Hw Hw'], Hk as (Hk & Hk').
    assert (0 < Z.of_nat (length w)) by (destruct w; [done|cbn; lia]).
    assert (0 < Z.of_nat (length key)) by (destruct key; [done|cbn; lia]).
    assert (c ≠ SP ∧ c ≠ LF ∧ c ≠ CR ∧ c ≠ "n"%byte) as (? & ? & ? & ?)
      by (split_and!; intros ->; done).
    cbn [app text_list length] in *. unfold text_req_step at 1. unfold after_key at 1 2 3 4 5 6 7 8 9 10 11 12 13.
    cbn [cmd_len key_len_t split_counter chr_data_len].
    do 6 step_false. rewrite bool_decide_eq_true_2 by (cbn; split_and!; [done|done|unfold CHR_DATA_LEN; lia]).
    cbn [mbind outcome_bind fst snd].
    specialize (IH (digits ++ [c]) (i + 1)). rewrite <- app_assoc in IH. cbn [app] in IH.
    unfold after_key in *. cbn. rewrite IH by (rewrite length_app; cbn; lia). f_equal. lia.
Qed.

(** * The whole line *)

Definition args_ok (args : list bytes) : Prop :=
  match args with
  | [] | [_] | [_; _] => Forall arg_ok args
  | [f; e; n] => arg_ok f ∧ arg_ok e ∧ number n
  | _ => False
  end.

Definition digits_of (args : list bytes) : bytes := match args with [_; _; n] => n | _ => [] end.

(** The data block a line announces: the value and its line end. *)
Definition block_len (args : list bytes) : Z :=
  let v := read_digits 0 (digits_of args) in if decide (0 < v) then v + 2 else 0.

Lemma arg_cr a : arg_ok a → Forall (λ c, arg_char c ∨ c = CR) (a ++ [CR]).
Proof.
  intros Ha. apply Forall_app. split; [|constructor; [by right|done]].
  eapply Forall_impl; [exact Ha|]. by left.
Qed.
Lemma arg_only a : arg_ok a → Forall (λ c, arg_char c ∨ c = CR) a.
Proof. intros Ha. eapply Forall_impl; [exact Ha|]. by left. Qed.

Lemma scan_arg_end w key split a rest i :
  word_ok w → key_ok key → split < 4 → arg_ok a →
  text_list (a ++ CR :: LF :: rest) i (after_key w key split []) =
  Ret {| split_counter := split; cmd_len := Z.of_nat (length w); key_len_t := Z.of_nat (length key);
         content_len_t := i + Z.of_nat (length a) + 2; extlen_t := Some (Z.of_nat (length w) + 1);
         chr_data_len := [] |}.
Proof.
  intros Hw Hk Hs Ha. change (CR :: LF :: rest) with ([CR] ++ LF :: rest). rewrite app_assoc.
  rewrite scan_arg by (done || by apply arg_cr). rewrite scan_end by done. do 2 f_equal.
  rewrite length_app. cbn. lia.
Qed.

Ltac line_length := repeat first [rewrite length_app | progress cbn [length]]; lia.

Lemma scan_line w key args rest :
  word_ok w → key_ok key → args_ok args →
  ∃ split, text_list (text_line w key args ++ rest) 0 (scan_init None) =
    Ret {| split_counter := split; cmd_len := Z.of_nat (length w); key_len_t := Z.of_nat (length key);
           content_len_t := Z.of_nat (length (text_line w key args));
           extlen_t := Some (Z.of_nat (length w) + 1); chr_data_len := digits_of args |}.
Proof.
  intros Hw Hk Ha. unfold text_line, CRLF. rewrite <- app_assoc. cbn [app].
  rewrite scan_word by done.
  destruct args as [|a [|b [|n [|]]]]; cbn [fmap list_fmap concat app args_ok digits_of] in *;
    rewrite <- ?app_assoc; cbn [app].
  - rewrite scan_key by (done || by right). rewrite scan_end by done. eexists. do 3 f_equal. line_length.
  - apply Forall_cons in Ha as [Ha _]. rewrite scan_key by (done || by left). rewrite decide_True by done.
    rewrite <- ?app_assoc. cbn [app].
    rewrite scan_arg_end by done. eexists. do 3 f_equal. line_length.
  - apply Forall_cons in Ha as [Ha [Hb _]%Forall_cons]. rewrite scan_key by (done || by left). rewrite decide_True by done.
    rewrite <- ?app_assoc. cbn [app]. rewrite <- ?app_assoc. cbn [app].
    rewrite scan_arg by (done || by apply arg_only). rewrite scan_space by done.
    rewrite scan_arg_end by done. eexists. do 3 f_equal. line_length.
  - destruct Ha as (Ha & Hb & [Hlen Hn]). rewrite scan_key by (done || by left). rewrite decide_True by done.
    rewrite <- ?app_assoc. cbn [app]. rewrite <- ?app_assoc. cbn [app]. rewrite <- ?app_assoc. cbn [app].
    rewrite scan_arg by (done || by apply arg_only). rewrite scan_space by done.
    rewrite scan_arg by (done || by apply arg_only). rewrite scan_space by done.
    change (2 + 1 + 1) with 4. rewrite scan_number by (done || (cbn; lia)). cbn [app].
    change (CR :: LF :: rest) with ([CR] ++ LF :: rest). rewrite scan_skip.
    + rewrite scan_end by done. eexists. do 3 f_equal. line_length.
    + destruct Hw as [Hw _], Hk as (Hk & _). assert (0 < Z.of_nat (length w)) by (destruct w; [done|cbn; lia]).
      assert (0 < Z.of_nat (length key)) by (destruct key; [done|cbn; lia]).
      intros c j ->%list_elem_of_singleton. unfold text_req_step, after_key. by repeat step_false.
  - done.
Qed.

Lemma opcode_word_ok w c : (w, c) ∈ opcode_words → word_ok w.
Proof.
  intros H. assert (Forall (λ x, word_ok x.1) opcode_words) as Hall by (by vm_compute; repeat constructor; set_solver).
  rewrite Forall_forall in Hall. apply (Hall (w, c) H).
Qed.

Lemma opcode_word w c rest size :
  (w, c) ∈ opcode_words →
  get_opcode (w ++ SP :: rest) 0 = Ret (cmd_code c) ∧
  is_binary_protocol (w ++ SP :: rest) 0 size = Ret false.
Proof.
  unfold opcode_words. intros H.
  repeat (apply elem_of_cons in H as [H|H]; [injection H as -> ->; split; reflexivity|]).
  by apply not_elem_of_nil in H.
Qed.

Lemma parse_req_text fuel st conf mem size l :
  use_binary (init_statics st conf).1 = false → is_binary_protocol mem 0 size = Ret false →
  memcached_parse_req fuel st conf mem size 0 l =
  (r ← parse_req_loop fuel false false 0 mem size 0 header_unset l;
   Ret (r, (init_statics st conf).1, (init_statics st conf).2)).
Proof.
  intros Hu Hb. unfold memcached_parse_req. destruct (init_statics st conf) as [st' conf'].
  cbn in Hu. rewrite Hb. cbn [mbind outcome_bind]. by rewrite Hu.
Qed.

(** * Properties *)

Lemma read_digits_range l : ∀ acc, 0 <= acc → 0 <= read_digits acc l < (acc + 1) * 10 ^ Z.of_nat (length l).
Proof.
  induction l as [|c l IH]; intros acc Ha; cbn [read_digits length]; [cbn; lia|].
  rewrite Nat2Z.inj_succ, Z.pow_succ_r by lia. pose proof (Z.pow_pos_nonneg 10 (Z.of_nat (length l)) ltac:(lia) ltac:(lia)).
  destruct (isdigit c) eqn:E.
  - unfold isdigit in E. apply bool_decide_eq_true in E.
    specialize (IH (acc * 10 + (uchar c - 48)) ltac:(lia)). nia.
  - nia.
Qed.

(** The body length the scanner computes. *)
Definition scan_total (st : text_scan) : Z :=
  let v := read_digits 0 (chr_data_len st) in content_len_t st + (if decide (0 < v) then v + 2 else 0).

Lemma text_turn mem size st el op u eh x fuel :
  0 < size <= 10 ^ 9 → text_req_loop (Z.to_nat size) 0 mem 0 (scan_init None) = Ret st →
  0 <= content_len_t st <= size → extlen_t st = Some el → (length (chr_data_len st) < 10)%nat →
  get_opcode mem 0 = Ret op → classify op = Item u eh x false →
  parse_req_loop (S fuel) false false 0 mem size 0 header_unset [] =
  if decide (size < scan_total st) then Ret (AGAIN, 0, [])
  else Ret (SUCCESS, scan_total st,
    [{| key := el; key_len := u16 (key_len_t st); content := 0; content_len := scan_total st;
        update := u; each := eh; ext := x |}]).
Proof.
  intros Hs Hscan Hc He Hd Hop Hv. cbn [parse_req_loop]. rewrite decide_False by lia.
  unfold try_read_request_text. rewrite Z.sub_0_r. cbn [hd_extlen header_unset]. rewrite Hscan, bind_Ret.
  unfold data_length, CHR_DATA_LEN. rewrite decide_True by done. rewrite bind_Ret, Hop, bind_Ret.
  pose proof (read_digits_range (chr_data_len st) 0 ltac:(lia)) as Hr.
  assert (10 ^ Z.of_nat (length (chr_data_len st)) <= 10 ^ 9) as Hp by (apply Z.pow_le_mono_r; lia).
  unfold scan_total. set (v := read_digits 0 (chr_data_len st)) in *.
  rewrite (int_add_small (content_len_t st) v) by (unfold is_int, INT_MIN, INT_MAX; lia). rewrite bind_Ret.
  assert ((if decide (0 < v) then int_add (content_len_t st + v) 2 else Ret (content_len_t st + v)) =
          Ret (content_len_t st + (if decide (0 < v) then v + 2 else 0))) as ->.
  { case_decide; [|f_equal; lia]. rewrite int_add_small by (unfold is_int, INT_MIN, INT_MAX; lia). f_equal. lia. }
  rewrite bind_Ret, bind_Ret. set (total := content_len_t st + _).
  assert (0 <= total < 2 ^ 31) as Ht by (unfold total; case_decide; lia).
  rewrite decide_False by lia. rewrite decide_False by lia. cbn [known hd_opcode hd_bodylen hd_extlen hd_keylen].
  rewrite bind_Ret, Hv, bind_Ret. rewrite (int_add_small 0 total) by (unfold is_int, INT_MIN, INT_MAX; lia).
  rewrite bind_Ret, Z.add_0_l. case_decide; [done|]. rewrite He. cbn [known]. rewrite !bind_Ret.
  change (int_add 0 0) with (Ret 0). rewrite bind_Ret.
  rewrite (int_add_small 0 total) by (unfold is_int, INT_MIN, INT_MAX; lia). rewrite bind_Ret, !Z.add_0_l.
  rewrite u32_small by lia. done.
Qed.

(** The commands of the text protocol other than [quit]. *)
Definition update_of (c : protocol_binary_command) : bool := bool_decide (c ≠ PROTOCOL_BINARY_CMD_GET).

Lemma classify_word w c :
  (w, c) ∈ opcode_words → c ≠ PROTOCOL_BINARY_CMD_QUIT →
  classify (cmd_code c) = Item (update_of c) false x00 false.
Proof.
  unfold opcode_words. intros H Hq.
  repeat (apply elem_of_cons in H as [H|H]; [injection H as -> ->; first [done|reflexivity]|]).
  by apply not_elem_of_nil in H.
Qed.

Lemma line_bounds w key args :
  word_ok w → Z.of_nat (length w) + 1 + Z.of_nat (length key) < Z.of_nat (length (text_line w key args)).
Proof. intros _. unfold text_line, CRLF. line_length. Qed.

(** A text request - a command line, with a data block after a storage command - is delimited
    exactly: it is waited for until its last byte is there, and then becomes one item with the key
    of the line and the whole request as content. *)
Theorem parse_text_request st conf w c k args rest tail :
  let size := Z.of_nat (length (text_line w k args ++ rest)) in
  let total := Z.of_nat (length (text_line w k args)) + block_len args in
  use_binary (init_statics st conf).1 = false →
  (w, c) ∈ opcode_words → c ≠ PROTOCOL_BINARY_CMD_QUIT →
  key_ok k → Z.of_nat (length k) < 2 ^ 16 → args_ok args → size <= 10 ^ 9 →
  memcached_parse_req (parse_fuel size) st conf (text_line w k args ++ rest ++ tail) size 0 [] =
  Ret (if decide (size < total) then (AGAIN, 0, []) else
         (SUCCESS, total, [{| key := Z.of_nat (length w) + 1; key_len := Z.of_nat (length k); content := 0;
                              content_len := total; update := update_of c; each := false; ext := x00 |}]),
       (init_statics st conf).1, (init_statics st conf).2).
Proof.
  intros size total Hu Hw Hq Hk Hkl Ha Hs. pose proof (opcode_word_ok w c Hw) as Hwok.
  assert (∃ r, text_line w k args ++ rest ++ tail = w ++ SP :: r) as [r Er].
  { eexists. unfold text_line. by rewrite <- app_assoc. }
  destruct (opcode_word w c r size Hw) as [Hop Hbin]. rewrite <- Er in Hop, Hbin.
  rewrite parse_req_text by done. pose proof (line_bounds w k args Hwok).
  destruct (scan_line w k args rest Hwok Hk Ha) as [split Hscan].
  rewrite <- (text_loop_list _ (text_line w k args ++ rest ++ tail) 0) in Hscan.
  2: { lia. }
  2: { change (Z.to_nat (0 + 0)) with O. by rewrite drop_0, app_assoc, take_app_length. }
  rewrite <- (Nat2Z.id (length (text_line w k args ++ rest))) in Hscan. fold size in Hscan.
  unfold parse_fuel.
  rewrite (text_turn _ size _ (Z.of_nat (length w) + 1) (cmd_code c) (update_of c) false x00 _
             ltac:(unfold size in *; rewrite length_app in *; lia) Hscan).
  - unfold scan_total; cbn [chr_data_len content_len_t key_len_t]. fold (block_len args). fold total.
    rewrite u16_small by lia. by case_decide.
  - cbn. unfold size. rewrite length_app. lia.
  - done.
  - cbn. destruct args as [|? [|? [|? [|]]]]; cbn in *; try lia. destruct Ha as (_ & _ & [? _]). lia.
  - done.
  - by apply (classify_word w c).
Qed.

Definition text_statics : statics := {| init_use_binary := true; use_binary := false |}.
Definition demo_args : list bytes := [bs "0"; bs "0"; bs "5"].

Lemma parse_text_request_witness :
  let line := text_line (bs "set") (bs "key") demo_args in
  let size := Z.of_nat (length (line ++ (bs "hello" ++ CRLF))) in
  memcached_parse_req (parse_fuel size) text_statics demo_conf0 (line ++ (bs "hello" ++ CRLF) ++ [x00]) size 0 [] =
  Ret ((SUCCESS, 22, [{| key := 4; key_len := 3; content := 0; content_len := 22; update := true;
                         each := false; ext := x00 |}]), text_statics, demo_conf0).
Proof.
  apply (parse_text_request text_statics demo_conf0 (bs "set") PROTOCOL_BINARY_CMD_SET (bs "key") demo_args
           (bs "hello" ++ CRLF) [x00]).
  - reflexivity.
  - unfold opcode_words. set_solver.
  - discriminate.
  - vm_compute. split_and!; [discriminate|set_solver..].
  - reflexivity.
  - split_and!; repeat constructor; vm_compute; intuition (congruence || lia).
  - vm_compute. congruence.
Defined.

Lemma scan_noreply w k f e n s rest :
  word_ok w → key_ok k → args_ok [f; e; n] →
  text_list (w ++ SP :: k ++ SP :: f ++ SP :: e ++ SP :: n ++ SP :: "n"%byte :: s ++ rest) 0 (scan_init None) =
  Ret (after_key w k 4 n).
Proof.
  intros Hw Hk (Hf & He & [Hlen Hn]). rewrite scan_word by done.
  rewrite scan_key by (done || by left). rewrite decide_True by done.
  rewrite scan_arg by (done || by apply arg_only). rewrite scan_space by done.
  rewrite scan_arg by (done || by apply arg_only). rewrite scan_space by done.
  change (2 + 1 + 1) with 4. rewrite scan_number by (done || (cbn; lia)). cbn [app].
  destruct Hw as [Hw _], Hk as (Hk & _). assert (0 < Z.of_nat (length w)) by (destruct w; [done|cbn; lia]).
  assert (0 < Z.of_nat (length k)) by (destruct k; [done|cbn; lia]).
  cbn [text_list]. unfold text_req_step, after_key at 1 2 3 4 5 6 7 8 9 10 11 12 13.
  do 7 (rewrite bool_decide_eq_false_2 by (cbn; unfold SP, CR, LF in *; intuition (congruence || lia))).
  cbn [mbind outcome_bind fst snd text_list]. unfold text_req_step, after_key.
  do 4 step_false. step_true. done.
Qed.

(** A storage command with [noreply] is cut off: the scanner stops at the first [n] after the
    key, before it knows the length of the line, and the item holds as many bytes as the data block
    has - the start of the command line - while the request is longer. *)
Theorem parse_text_noreply st conf w c k f e n data tail :
  let req := w ++ SP :: k ++ SP :: f ++ SP :: e ++ SP :: n ++ SP :: bs "noreply" ++ CRLF ++ data ++ CRLF in
  let size := Z.of_nat (length req) in
  use_binary (init_statics st conf).1 = false →
  (w, c) ∈ opcode_words → c ≠ PROTOCOL_BINARY_CMD_QUIT →
  key_ok k → Z.of_nat (length k) < 2 ^ 16 → args_ok [f; e; n] → size <= 10 ^ 9 →
  0 < read_digits 0 n → read_digits 0 n = Z.of_nat (length data) →
  memcached_parse_req (parse_fuel size) st conf (req ++ tail) size 0 [] =
  Ret (SUCCESS, Z.of_nat (length data) + 2,
       [{| key := Z.of_nat (length w) + 1; key_len := Z.of_nat (length k); content := 0;
           content_len := Z.of_nat (length data) + 2; update := update_of c; each := false; ext := x00 |}],
       (init_statics st conf).1, (init_statics st conf).2) ∧
  Z.of_nat (length data) + 2 < size.
Proof.
  intros req size Hu Hw Hq Hk Hkl Ha Hs Hv Hvd.
  pose proof (opcode_word_ok w c Hw) as Hwok.
  assert (∃ r, req ++ tail = w ++ SP :: r) as [r Er] by (eexists; unfold req; by rewrite <- app_assoc).
  destruct (opcode_word w c r size Hw) as [Hop Hbin]. rewrite <- Er in Hop, Hbin.
  assert (Z.of_nat (length data) + 2 < size) as Hlt by (unfold size, req, CRLF; line_length).
  split; [|done]. rewrite parse_req_text by done.
  assert (text_list req 0 (scan_init None) = Ret (after_key w k 4 n)) as Hscan
    by (unfold req; cbn [bs String.list_byte_of_string app]; by apply (scan_noreply w k f e n)).
  rewrite <- (text_loop_list _ (req ++ tail) 0) in Hscan.
  2: { lia. }
  2: { change (Z.to_nat (0 + 0)) with O. by rewrite drop_0, take_app_length. }
  rewrite <- (Nat2Z.id (length req)) in Hscan. fold size in Hscan. unfold parse_fuel.
  rewrite (text_turn _ size _ (Z.of_nat (length w) + 1) (cmd_code c) (update_of c) false x00 _
             ltac:(lia) Hscan).
  - unfold scan_total, after_key; cbn [chr_data_len content_len_t key_len_t]. rewrite u16_small by lia.
    rewrite (decide_True (P := 0 < _)) by done. rewrite decide_False by lia. rewrite Hvd, Z.add_0_l. done.
  - cbn. lia.
  - done.
  - destruct Ha as (_ & _ & [? _]). cbn. lia.
  - done.
  - by apply (classify_word w c).
Qed.

Lemma parse_text_noreply_witness :
  let req := bs "set" ++ SP :: bs "key" ++ SP :: bs "0" ++ SP :: bs "0" ++ SP :: bs "5" ++ SP :: bs "noreply" ++
             CRLF ++ bs "hello" ++ CRLF in
  memcached_parse_req (parse_fuel (Z.of_nat (length req))) text_statics demo_conf0 (req ++ []) (Z.of_nat (length req)) 0 [] =
  Ret (SUCCESS, 7, [{| key := 4; key_len := 3; content := 0; content_len := 7; update := true;
                       each := false; ext := x00 |}], text_statics, demo_conf0) ∧ 7 < Z.of_nat (length req).
Proof.
  apply (parse_text_noreply text_statics demo_conf0 (bs "set") PROTOCOL_BINARY_CMD_SET (bs "key") (bs "0") (bs "0")
           (bs "5") (bs "hello") []).
  - reflexivity.
  - unfold opcode_words. set_solver.
  - discriminate.
  - vm_compute. split_and!; [discriminate|set_solver..].
  - reflexivity.
  - split_and!; repeat constructor; vm_compute; intuition (congruence || lia).
  - vm_compute. congruence.
  - reflexivity.
  - reflexivity.
Defined.

(** A command line whose end has not arrived is not waited for: it is reported as a complete
    request of length 0 without a key, so the caller drops the bytes. *)
Theorem parse_text_cut st conf w c k tail :
  let size := Z.of_nat (length (w ++ SP :: k)) in
  use_binary (init_statics st conf).1 = false →
  (w, c) ∈ opcode_words → c ≠ PROTOCOL_BINARY_CMD_QUIT → key_ok k → size <= 10 ^ 9 →
  memcached_parse_req (parse_fuel size) st conf (w ++ SP :: k ++ tail) size 0 [] =
  Ret (SUCCESS, 0,
       [{| key := Z.of_nat (length w) + 1; key_len := 0; content := 0; content_len := 0;
           update := update_of c; each := false; ext := x00 |}],
       (init_statics st conf).1, (init_statics st conf).2).
Proof.
  intros size Hu Hw Hq (Hk & Hsp & Hcr) Hs. pose proof (opcode_word_ok w c Hw) as Hwok.
  destruct (opcode_word w c (k ++ tail) size Hw) as [Hop Hbin]. rewrite parse_req_text by done.
  set (st1 := {| split_counter := 1; cmd_len := Z.of_nat (length w); key_len_t := 0; content_len_t := 0;
                 extlen_t := Some (Z.of_nat (length w) + 1); chr_data_len := [] |}).
  assert (text_list (w ++ SP :: k) 0 (scan_init None) = Ret st1) as Hscan.
  { rewrite scan_word by done. fold st1. rewrite <- (app_nil_r k), scan_skip; [done|].
    intros b j Hb. unfold text_req_step. assert (b ≠ SP ∧ b ≠ CR) as [? ?] by (split; intros ->; done).
    destruct Hwok as [Hwne _]. assert (0 < Z.of_nat (length w)) by (destruct w; [done|cbn; lia]).
    by repeat step_false. }
  rewrite <- (text_loop_list _ (w ++ SP :: k ++ tail) 0) in Hscan.
  2: { lia. }
  2: { change (Z.to_nat (0 + 0)) with O.
       change (w ++ SP :: k ++ tail) with (w ++ (SP :: k) ++ tail). by rewrite drop_0, app_assoc, take_app_length. }
  rewrite <- (Nat2Z.id (length (w ++ SP :: k))) in Hscan. fold size in Hscan. unfold parse_fuel.
  assert (0 < size) by (unfold size; rewrite length_app; cbn [length]; lia).
  rewrite (text_turn _ size _ (Z.of_nat (length w) + 1) (cmd_code c) (update_of c) false x00 _ ltac:(lia) Hscan).
  - unfold scan_total, st1; cbn [chr_data_len content_len_t key_len_t read_digits]. rewrite (decide_False (P := 0 < 0)) by lia. by rewrite decide_False by lia.
  - cbn. lia.
  - done.
  - cbn. lia.
  - done.
  - by apply (classify_word w c).
Qed.

Lemma parse_text_cut_witness :
  memcached_parse_req (parse_fuel 7) text_statics demo_conf0 (bs "get" ++ SP :: bs "key" ++ []) 7 0 [] =
  Ret (SUCCESS, 0, [{| key := 4; key_len := 0; content := 0; content_len := 0; update := false;
                       each := false; ext := x00 |}], text_statics, demo_conf0).
Proof.
  apply (parse_text_cut text_statics demo_conf0 (bs "get") PROTOCOL_BINARY_CMD_GET (bs "key") []).
  - reflexivity.
  - unfold opcode_words. set_solver.
  - discriminate.
  - vm_compute. split_and!; [discriminate|set_solver..].
  - vm_compute. congruence.
Defined.
