(* ===== verification/ConnQueue.v ===== *)
(** [Conn] and [ConnQueue] of [src/serv.h], [src/serv.cpp]: the doubly linked list of a
    worker's connections between two sentinels, on an explicit heap.

    [repr h q l]: in heap [h] the queue [q] holds exactly the connections at the addresses
    [l].  The operations refine consing to, and removing from, that list. *)
From S2P Require Import Prelude StdMap.

(** * Data *)

(** [m_thread] is the index of the worker; the buffers are those of libevent. *)
Record Conn := { m_fd : Z; m_prev : option Z; m_next : option Z; m_thread : option Z }.

(** Addresses are handed out in increasing order and not reused. *)
Record heap := { cells : gmap Z Conn; brk : Z }.

Record ConnQueue := { m_head : Z; m_tail : Z }.

Definition heap_new : heap := {| cells := ∅; brk := 1 |}.

(** * Operations *)

(** [new Conn(fd)] *)
Definition new_Conn (h : heap) (fd : Z) : Z * heap :=
  (brk h, {| cells := <[brk h := {| m_fd := u32 fd; m_prev := None; m_next := None; m_thread := None |}]> (cells h);
             brk := brk h + 1 |}).

(** [p->field] *)
Definition deref (h : heap) (p : option Z) : outcome (Z * Conn) :=
  match p with
  | None => Undef NullPointer
  | Some a => match cells h !! a with Some c => Ret (a, c) | None => Undef NullPointer end
  end.

Definition store (h : heap) (a : Z) (c : Conn) : heap := {| cells := <[a := c]> (cells h); brk := brk h |}.

Definition set_prev (h : heap) (p : option Z) (v : option Z) : outcome heap :=
  r ← deref h p;
  Ret (store h r.1 {| m_fd := m_fd r.2; m_prev := v; m_next := m_next r.2; m_thread := m_thread r.2 |}).
Definition set_next (h : heap) (p : option Z) (v : option Z) : outcome heap :=
  r ← deref h p;
  Ret (store h r.1 {| m_fd := m_fd r.2; m_prev := m_prev r.2; m_next := v; m_thread := m_thread r.2 |}).
Definition set_thread (h : heap) (p : option Z) (v : Z) : outcome heap :=
  r ← deref h p;
  Ret (store h r.1 {| m_fd := m_fd r.2; m_prev := m_prev r.2; m_next := m_next r.2; m_thread := Some v |}).

(** [delete p] *)
Definition free (h : heap) (a : Z) : heap := {| cells := delete a (cells h); brk := brk h |}.

Definition ConnQueue_new (h : heap) : outcome (ConnQueue * heap) :=
  let '(hd, h) := new_Conn h 0 in
  let '(tl, h) := new_Conn h 0 in
  h ← set_next h (Some tl) None;
  h ← set_prev h (Some hd) None;
  h ← set_next h (Some hd) (Some tl);
  h ← set_prev h (Some tl) (Some hd);
  Ret ({| m_head := hd; m_tail := tl |}, h).

(** The destructor: from the head, following [m_next]. *)
Fixpoint ConnQueue_free_loop (fuel : nat) (h : heap) (tcur : option Z) : outcome heap :=
  match fuel with
  | O => NoFuel
  | S fuel =>
      match tcur with
      | None => Ret h
      | Some _ => r ← deref h tcur; ConnQueue_free_loop fuel (free h r.1) (m_next r.2)
      end
  end.

Definition ConnQueue_free (h : heap) (q : ConnQueue) : outcome heap :=
  ConnQueue_free_loop (S (S (size (cells h)))) h (Some (m_head q)).

Definition insertConn (h : heap) (q : ConnQueue) (fd : Z) (t : Z) : outcome (Z * heap) :=
  let '(c, h) := new_Conn h fd in
  h ← set_thread h (Some c) t;
  head ← deref h (Some (m_head q));
  let next := m_next head.2 in
  h ← set_prev h (Some c) (Some (m_head q));
  h ← set_next h (Some c) next;
  h ← set_next h (Some (m_head q)) (Some c);
  h ← set_prev h next (Some c);
  Ret (c, h).

Definition deleteConn (h : heap) (c : Z) : outcome heap :=
  r ← deref h (Some c);
  h ← set_next h (m_prev r.2) (m_next r.2);
  r ← deref h (Some c);
  h ← set_prev h (m_next r.2) (m_prev r.2);
  Ret (free h c).

(** * The list a queue represents *)

Definition first (l : list Z) (n : option Z) : option Z := match l with [] => n | b :: _ => Some b end.
Definition final (p : option Z) (l : list Z) : option Z := match last l with Some b => Some b | None => p end.

(** The cells at [l] are linked in that order, from [p] before the first to [n] after the last. *)
Fixpoint chain (m : gmap Z Conn) (p : option Z) (l : list Z) (n : option Z) : Prop :=
  match l with
  | [] => True
  | a :: l =>
      (∃ c, m !! a = Some c ∧ m_prev c = p ∧ m_next c = first l n) ∧ chain m (Some a) l n
  end.

Definition nodes (q : ConnQueue) (l : list Z) : list Z := m_head q :: l ++ [m_tail q].

(** Every allocated address is below the break. *)
Definition heap_ok (h : heap) : Prop := ∀ a c, cells h !! a = Some c → a < brk h.

Definition repr (h : heap) (q : ConnQueue) (l : list Z) : Prop :=
  chain (cells h) None (nodes q l) None ∧ NoDup (nodes q l).

(** * Lemmas *)

Lemma final_cons p a l : final p (a :: l) = final (Some a) l.
Proof.
  unfold final. destruct l as [|b l]; [done|]. change (last (a :: b :: l)) with (last (b :: l)).
  destruct (last (b :: l)) eqn:E; [done|by apply last_None in E].
Qed.

Lemma chain_app m p l1 l2 n :
  chain m p (l1 ++ l2) n ↔ chain m p l1 (first l2 n) ∧ chain m (final p l1) l2 n.
Proof.
  revert p. induction l1 as [|a l1 IH]; intros p; [cbn; tauto|].
  cbn [app chain]. rewrite IH.
  rewrite final_cons.
  assert (first (l1 ++ l2) n = first l1 (first l2 n)) as -> by (by destruct l1). tauto.
Qed.

Lemma chain_frame m m' p l n :
  (∀ a, a ∈ l → m' !! a = m !! a) → chain m p l n → chain m' p l n.
Proof.
  revert p. induction l as [|a l IH]; intros p Hm; [done|]. cbn. intros [(c & Hc & H) Hl].
  split; [exists c; rewrite Hm by set_solver; done|]. apply IH; [set_solver|done].
Qed.

Lemma chain_lookup m p l n a : chain m p l n → a ∈ l → is_Some (m !! a).
Proof.
  revert p. induction l as [|b l IH]; intros p Hc Ha; [by apply not_elem_of_nil in Ha|].
  destruct Hc as [(c & Hc & _) Hl]. apply elem_of_cons in Ha as [->|Ha]; [by eexists|by eapply IH].
Qed.

Lemma deref_Some h a c : cells h !! a = Some c → deref h (Some a) = Ret (a, c).
Proof. intros H. unfold deref. by rewrite H. Qed.

Lemma set_prev_ok h a c v : cells h !! a = Some c →
  set_prev h (Some a) v = Ret (store h a {| m_fd := m_fd c; m_prev := v; m_next := m_next c; m_thread := m_thread c |}).
Proof. intros H. unfold set_prev. by rewrite (deref_Some _ _ _ H). Qed.
Lemma set_next_ok h a c v : cells h !! a = Some c →
  set_next h (Some a) v = Ret (store h a {| m_fd := m_fd c; m_prev := m_prev c; m_next := v; m_thread := m_thread c |}).
Proof. intros H. unfold set_next. by rewrite (deref_Some _ _ _ H). Qed.
Lemma set_thread_ok h a c v : cells h !! a = Some c →
  set_thread h (Some a) v = Ret (store h a {| m_fd := m_fd c; m_prev := m_prev c; m_next := m_next c; m_thread := Some v |}).
Proof. intros H. unfold set_thread. by rewrite (deref_Some _ _ _ H). Qed.

Ltac heap_lookup :=
  cbn [cells store free]; repeat first [rewrite lookup_insert_eq | rewrite lookup_insert_ne by (congruence || lia)].

(** A new queue is empty. *)
Lemma ConnQueue_new_repr h :
  heap_ok h → ∃ q h', ConnQueue_new h = Ret (q, h') ∧ repr h' q [] ∧ heap_ok h' ∧
    brk h' = brk h + 2 ∧ (∀ a, a < brk h → cells h' !! a = cells h !! a) ∧
    m_head q = brk h ∧ m_tail q = brk h + 1.
Proof.
  intros Hok. unfold ConnQueue_new, new_Conn. cbn [cells brk].
  erewrite set_next_ok by (heap_lookup; done). cbn [mbind outcome_bind].
  erewrite set_prev_ok by (heap_lookup; done). cbn [mbind outcome_bind].
  erewrite set_next_ok by (heap_lookup; done). cbn [mbind outcome_bind].
  erewrite set_prev_ok by (heap_lookup; done). cbn [mbind outcome_bind].
  eexists _, _. split; [done|]. split; [split|split; [|split; [cbn; lia|split; [|done]]]].
  - unfold nodes. cbn [m_head m_tail app chain first]. split; [|split; [|done]].
    + eexists. split; [heap_lookup; done|done].
    + eexists. split; [heap_lookup; done|done].
  - unfold nodes. cbn [m_head m_tail app]. apply NoDup_cons_2; [|apply NoDup_singleton].
    intros E%list_elem_of_singleton. lia.
  - intros a c. cbn. rewrite !lookup_insert_Some. intros H.
    assert (a = brk h ∨ a = brk h + 1 ∨ cells h !! a = Some c) as [->|[->|H']] by naive_solver; [lia..|].
    apply Hok in H'. lia.
  - intros a Ha. heap_lookup. done.
Qed.

(** What the operations do not change about a cell: its descriptor and its thread. *)
Definition tag (h : heap) (a : Z) : option (Z * option Z) := (λ c, (m_fd c, m_thread c)) <$> cells h !! a.

Lemma repr_first h q l :
  repr h q l → ∃ x rest hd cx, l ++ [m_tail q] = x :: rest ∧
    cells h !! m_head q = Some hd ∧ m_prev hd = None ∧ m_next hd = Some x ∧
    cells h !! x = Some cx ∧ m_prev cx = Some (m_head q) ∧ m_next cx = first rest None ∧
    chain (cells h) (Some x) rest None ∧ NoDup (m_head q :: x :: rest).
Proof.
  intros [Hc Hn]. unfold nodes in *. destruct (l ++ [m_tail q]) as [|x rest] eqn:E; [by destruct l|].
  cbn [chain first] in Hc. destruct Hc as [(hd & H1 & H2 & H3) [(cx & H4 & H5 & H6) H7]].
  by exists x, rest, hd, cx.
Qed.

Lemma insertConn_repr h q l fd t :
  heap_ok h → repr h q l →
  ∃ h', insertConn h q fd t = Ret (brk h, h') ∧ repr h' q (brk h :: l) ∧ heap_ok h' ∧
    brk h' = brk h + 1 ∧
    (∀ a, a ∉ nodes q l → a ≠ brk h → cells h' !! a = cells h !! a) ∧
    (∀ a, tag h' a = if decide (a = brk h) then Some (u32 fd, Some t) else tag h a).
Proof.
  intros Hok Hr. destruct (repr_first _ _ _ Hr) as (x & rest & hd & cx & El & H1 & H2 & H3 & H4 & H5 & H6 & H7 & H8).
  assert (m_head q < brk h ∧ x < brk h) as [Hlh Hlx] by (split; by eapply Hok).
  assert (∀ a, a ∈ rest → a < brk h) as Hlr.
  { intros a Ha. destruct (chain_lookup _ _ _ _ _ H7 Ha) as [c Hc]. by eapply Hok. }
  apply NoDup_cons in H8 as [Hn1 [Hn2 Hn3]%NoDup_cons].
  assert (m_head q ≠ x) as Hhx by set_solver.
  unfold insertConn, new_Conn. cbn [cells brk].
  erewrite set_thread_ok by (heap_lookup; done). cbn [mbind outcome_bind].
  erewrite (deref_Some _ (m_head q)) by (heap_lookup; done). cbn [mbind outcome_bind fst snd].
  erewrite set_prev_ok by (heap_lookup; done). cbn [mbind outcome_bind]. rewrite H3.
  erewrite set_next_ok by (heap_lookup; done). cbn [mbind outcome_bind].
  erewrite (set_next_ok _ (m_head q)) by (heap_lookup; done). cbn [mbind outcome_bind].
  erewrite set_prev_ok by (heap_lookup; done). cbn [mbind outcome_bind].
  eexists. split; [done|]. split; [split|split; [|split; [done|split]]].
  - unfold nodes. cbn [app]. rewrite El. cbn [chain first]. split_and!.
    + eexists. split; [heap_lookup; done|done].
    + eexists. split; [heap_lookup; done|done].
    + eexists. split; [heap_lookup; done|done].
    + eapply chain_frame; [|exact H7]. intros a Ha. pose proof (Hlr a Ha).
      assert (a ≠ x ∧ a ≠ m_head q) as [? ?] by (split; set_solver). heap_lookup. done.
  - unfold nodes. cbn [app]. rewrite El. apply NoDup_cons_2; [|apply NoDup_cons_2].
    + intros [?|Hin]%elem_of_cons; [lia|set_solver].
    + intros [?|Hin]%elem_of_cons; [lia|]. specialize (Hlr _ Hin). lia.
    + by apply NoDup_cons_2.
  - intros a c. cbn. rewrite !lookup_insert_Some. intros H.
    assert (a = brk h ∨ a = m_head q ∨ a = x ∨ cells h !! a = Some c) as [->|[->|[->|H']]] by naive_solver; try lia.
    apply Hok in H'. lia.
  - intros a Ha Hne. unfold nodes in Ha. rewrite El in Ha.
    assert (a ≠ m_head q ∧ a ≠ x) as [? ?] by (split; set_solver). heap_lookup. done.
  - intros a. unfold tag. cbn [cells store]. case_decide as E; [subst; heap_lookup; done|].
    destruct (decide (a = x)) as [->|]; [heap_lookup; by rewrite H4|].
    destruct (decide (a = m_head q)) as [->|]; [heap_lookup; by rewrite H1|]. heap_lookup. done.
Qed.

(** Around a connection of the queue. *)
Lemma repr_middle h q l1 c l2 :
  repr h q (l1 ++ c :: l2) →
  ∃ pl p cp cc n nl cn, m_head q :: l1 = pl ++ [p] ∧ l2 ++ [m_tail q] = n :: nl ∧
    cells h !! p = Some cp ∧ m_next cp = Some c ∧
    cells h !! c = Some cc ∧ m_prev cc = Some p ∧ m_next cc = Some n ∧
    cells h !! n = Some cn ∧ m_prev cn = Some c ∧
    chain (cells h) None pl (Some p) ∧ m_prev cp = final None pl ∧
    chain (cells h) (Some n) nl None ∧ m_next cn = first nl None ∧
    NoDup (pl ++ [p] ++ [c] ++ n :: nl).
Proof.
  intros [Hc Hn]. unfold nodes in *.
  destruct (exists_last (l := m_head q :: l1)) as (pl & p & Ep); [done|].
  destruct (l2 ++ [m_tail q]) as [|n nl] eqn:En; [by destruct l2|].
  assert (m_head q :: (l1 ++ c :: l2) ++ [m_tail q] = pl ++ [p] ++ [c] ++ n :: nl) as E.
  { change (m_head q :: (l1 ++ c :: l2) ++ [m_tail q]) with (((m_head q :: l1) ++ c :: l2) ++ [m_tail q]).
    rewrite Ep, <- !app_assoc. cbn. by rewrite En. }
  rewrite E in Hc, Hn. rewrite chain_app in Hc. destruct Hc as [Hpl Hc]. cbn [app chain first] in Hc, Hpl.
  destruct Hc as [(cp & A1 & A2 & A3) [(cc & B1 & B2 & B3) [(cn & C1 & C2 & C3) C4]]].
  by exists pl, p, cp, cc, n, nl, cn.
Qed.

Lemma deleteConn_repr h q l1 c l2 :
  heap_ok h → repr h q (l1 ++ c :: l2) →
  ∃ h', deleteConn h c = Ret h' ∧ repr h' q (l1 ++ l2) ∧ heap_ok h' ∧ brk h' = brk h ∧
    (∀ a, a ∉ nodes q (l1 ++ c :: l2) → cells h' !! a = cells h !! a) ∧
    (∀ a, tag h' a = if decide (a = c) then None else tag h a).
Proof.
  intros Hok Hr.
  destruct (repr_middle _ _ _ _ _ Hr) as (pl & p & cp & cc & n & nl & cn & Ep & En & A1 & A2 & B1 & B2 & B3 & C1 & C2 & D1 & D2 & E1 & E2 & Hn).
  apply NoDup_app in Hn as (Hn1 & Hn2 & Hn3). cbn [app] in Hn2, Hn3.
  apply NoDup_cons in Hn3 as [Hn3 [Hn4 [Hn5 Hn6]%NoDup_cons]%NoDup_cons].
  assert (p ≠ c ∧ p ≠ n ∧ c ≠ n) as (Hpc & Hpn & Hcn) by set_solver.
  unfold deleteConn. rewrite (deref_Some _ _ _ B1). cbn [mbind outcome_bind fst snd]. rewrite B2, B3.
  erewrite set_next_ok by done. cbn [mbind outcome_bind].
  erewrite (deref_Some _ c) by (heap_lookup; done). cbn [mbind outcome_bind fst snd]. rewrite B2, B3.
  erewrite set_prev_ok by (heap_lookup; done). cbn [mbind outcome_bind].
  assert (nodes q (l1 ++ l2) = pl ++ [p] ++ n :: nl) as Enodes.
  { unfold nodes. change (m_head q :: (l1 ++ l2) ++ [m_tail q]) with (((m_head q :: l1) ++ l2) ++ [m_tail q]).
    by rewrite Ep, <- !app_assoc, En. }
  eexists. split; [done|]. split; [split|split; [|split; [done|split]]].
  - rewrite Enodes, chain_app. cbn [app chain first cells store free]. split_and!.
    + eapply chain_frame; [|exact D1]. intros a Ha. specialize (Hn2 a Ha).
      rewrite lookup_delete_ne by set_solver. rewrite !lookup_insert_ne by set_solver. done.
    + eexists. rewrite lookup_delete_ne by done. heap_lookup. split; [done|done].
    + eexists. rewrite lookup_delete_ne by done. heap_lookup. split; [done|done].
    + eapply chain_frame; [|exact E1]. intros a Ha.
      rewrite lookup_delete_ne by set_solver. rewrite !lookup_insert_ne by set_solver. done.
  - rewrite Enodes. apply NoDup_app. cbn [app]. split_and!; [done|set_solver|].
    apply NoDup_cons_2; [set_solver|]. by apply NoDup_cons_2.
  - intros a x. cbn [cells store free brk]. rewrite lookup_delete_Some, !lookup_insert_Some. intros [_ H].
    assert (a = p ∨ a = n ∨ cells h !! a = Some x) as [->|[->|H']] by naive_solver; by eapply Hok.
  - intros a Ha. unfold nodes in Ha.
    change (a ∉ ((m_head q :: l1) ++ c :: l2) ++ [m_tail q]) in Ha. rewrite Ep, <- !app_assoc in Ha. cbn [app] in Ha.
    rewrite En in Ha. cbn [cells store free]. rewrite lookup_delete_ne by set_solver.
    rewrite !lookup_insert_ne by set_solver. done.
  - intros a. unfold tag. cbn [cells store free]. case_decide as E; [subst; by rewrite lookup_delete_eq|].
    rewrite lookup_delete_ne by done.
    destruct (decide (a = n)) as [->|]; [heap_lookup; by rewrite C1|].
    destruct (decide (a = p)) as [->|]; [heap_lookup; by rewrite A1|]. heap_lookup. done.
Qed.

(** The destructor walks the chain. *)
Lemma free_loop_chain l : ∀ h p fuel,
  chain (cells h) p l None → NoDup l → (length l < fuel)%nat →
  ∃ h', ConnQueue_free_loop fuel h (first l None) = Ret h' ∧
    ∀ a, cells h' !! a = if decide (a ∈ l) then None else cells h !! a.
Proof.
  induction l as [|b l IH]; intros h p fuel Hc Hn Hf; (destruct fuel as [|fuel]; [cbn in Hf; lia|]).
  - exists h. split; [done|]. intros a. rewrite decide_False by apply not_elem_of_nil. done.
  - destruct Hc as [(c & H1 & _ & H3) Hl]. apply NoDup_cons in Hn as [Hb Hn].
    cbn [ConnQueue_free_loop first]. rewrite (deref_Some _ _ _ H1). cbn [mbind outcome_bind fst snd]. rewrite H3.
    destruct (IH (free h b) (Some b) fuel) as (h' & E & Hh'); [|done|cbn in Hf; lia|].
    { eapply chain_frame; [|exact Hl]. intros a Ha. cbn. rewrite lookup_delete_ne; [done|]. set_solver. }
    exists h'. split; [exact E|]. intros a. rewrite Hh'. cbn [cells free].
    destruct (decide (a = b)) as [->|Hne].
    + rewrite decide_False by done. rewrite decide_True by set_solver. by rewrite lookup_delete_eq.
    + rewrite lookup_delete_ne by done. destruct (decide (a ∈ l)); [by rewrite decide_True by set_solver|].
      by rewrite decide_False by set_solver.
Qed.

Lemma length_le_cells (m : gmap Z Conn) (l : list Z) :
  NoDup l → (∀ a, a ∈ l → is_Some (m !! a)) → (length l <= size m)%nat.
Proof.
  intros Hn Hl. rewrite <- (size_list_to_set (C := gset Z) l) by done. rewrite <- (size_dom (D := gset Z) m).
  apply subseteq_size. intros a Ha%elem_of_list_to_set. apply elem_of_dom. by apply Hl.
Qed.

Lemma ConnQueue_free_repr h q l :
  repr h q l → ∃ h', ConnQueue_free h q = Ret h' ∧ ∀ a, cells h' !! a = if decide (a ∈ nodes q l) then None else cells h !! a.
Proof.
  intros [Hc Hn]. apply (free_loop_chain (nodes q l) h None (S (S (size (cells h)))) Hc Hn).
  pose proof (length_le_cells (cells h) (nodes q l) Hn ltac:(intros a; by eapply chain_lookup)). lia.
Qed.

Lemma filter_middle (l1 l2 : list Z) c :
  (c ∉ l1) → (c ∉ l2) → filter (λ a, a ≠ c) (l1 ++ c :: l2) = l1 ++ l2.
Proof.
  intros H1 H2. assert (∀ l : list Z, (c ∉ l) → filter (λ a, a ≠ c) l = l) as Hid.
  { induction l as [|b l IH]; intros Hb; [done|]. rewrite filter_cons_True by set_solver. by rewrite IH by set_solver. }
  rewrite filter_app, filter_cons_False by (intros H; by apply H). by rewrite !Hid.
Qed.

(** * Properties *)

(** C29: the linked list implements a list of connections: on a queue that holds [l], [insertConn]
    puts a new connection with the given descriptor and worker in front, [deleteConn] takes any
    connection of [l] out and keeps the others in order, the destructor frees exactly the
    sentinels and the connections; no operation follows a null or dangling pointer, or touches
    a cell of another queue. *)
Theorem ConnQueue_refines (h : heap) (q : ConnQueue) (l : list Z) :
  heap_ok h → repr h q l →
  (∀ fd t, ∃ h', insertConn h q fd t = Ret (brk h, h') ∧ heap_ok h' ∧ repr h' q (brk h :: l) ∧
     (∀ a, tag h' a = if decide (a = brk h) then Some (u32 fd, Some t) else tag h a) ∧
     (∀ a, a ∉ nodes q l → a ≠ brk h → cells h' !! a = cells h !! a)) ∧
  (∀ c, c ∈ l → ∃ h', deleteConn h c = Ret h' ∧ heap_ok h' ∧ repr h' q (filter (λ a, a ≠ c) l) ∧
     (∀ a, tag h' a = if decide (a = c) then None else tag h a) ∧
     (∀ a, a ∉ nodes q l → cells h' !! a = cells h !! a)) ∧
  (∃ h', ConnQueue_free h q = Ret h' ∧
     ∀ a, cells h' !! a = if decide (a ∈ nodes q l) then None else cells h !! a).
Proof.
  intros Hok Hr. split; [|split].
  - intros fd t. destruct (insertConn_repr h q l fd t Hok Hr) as (h' & ? & ? & ? & ? & ? & ?). by exists h'.
  - intros c (l1 & l2 & ->)%list_elem_of_split.
    destruct (deleteConn_repr h q l1 c l2 Hok Hr) as (h' & ? & ? & ? & ? & ? & ?). exists h'.
    destruct Hr as [_ Hn]. unfold nodes in Hn. apply NoDup_cons in Hn as [_ Hn].
    apply NoDup_app in Hn as (Hn & _ & _). apply NoDup_app in Hn as (_ & Hn1 & Hn2).
    apply NoDup_cons in Hn2 as [Hn2 _]. rewrite filter_middle; [done| |done].
    intros Hc. apply (Hn1 c Hc). set_solver.
  - by apply ConnQueue_free_repr.
Qed.

(** An empty queue, and one with a connection. *)
Definition demo_queue : ConnQueue := {| m_head := 1; m_tail := 2 |}.
Definition demo_heap : heap := {|
  cells := <[1 := {| m_fd := 0; m_prev := None; m_next := Some 3; m_thread := None |}]>
          (<[2 := {| m_fd := 0; m_prev := Some 3; m_next := None; m_thread := None |}]>
          (<[3 := {| m_fd := 9; m_prev := Some 1; m_next := Some 2; m_thread := Some 0 |}]> ∅));
  brk := 4 |}.

Lemma demo_heap_ok : heap_ok demo_heap ∧ repr demo_heap demo_queue [3].
Proof.
  split; [|split].
  - intros a c. cbn. rewrite !lookup_insert_Some, lookup_empty. intros H.
    assert (a = 1 ∨ a = 2 ∨ a = 3) by naive_solver. lia.
  - cbn. split_and!; try done; eexists; (split; [vm_compute; reflexivity|done]).
  - apply (bool_decide_unpack _). vm_compute. exact I.
Qed.

Lemma ConnQueue_refines_witness :
  ∃ h', deleteConn demo_heap 3 = Ret h' ∧ repr h' demo_queue [].
Proof.
  destruct demo_heap_ok as [Hok Hr].
  destruct (ConnQueue_refines demo_heap demo_queue [3] Hok Hr) as (_ & Hd & _).
  destruct (Hd 3) as (h' & E & _ & Hr' & _); [by apply list_elem_of_singleton|].
  exists h'. split; [exact E|exact Hr'].
Defined.
