(* ===== verification/Server.v ===== *)
(** [Server] of [src/serv.h], [src/serv.cpp]: the listener thread, the worker threads with
    their notification pipes and connection queues, signal and timer registration.

    The event loop is libevent's: it calls the callbacks below in some order.  What is here of
    [threadProcess] and [closeEventCb] is what they do to the server's own state; [Main] adds the calls
    of the proxy, [Service] and [Sharing] the bufferevents.
    [Libevent] is what the program asks of libevent and the kernel. *)
From S2P Require Import Prelude StdMap ConnQueue.

(** * The environment *)

Class Libevent := {
  event_base_new : Z → bool;            (** succeeds for worker [i] *)
  pipe : Z → bool;                      (** succeeds for worker [i] *)
  event_add_notify : Z → bool;          (** watching worker [i]'s pipe succeeds *)
  listener_bind : Z → bool;             (** binding the port succeeds *)
  get_nprocs : Z;
  setaffinity : Z → bool;
  bufferevent_socket_new : Z → bool;    (** succeeds for a descriptor *)
  evsignal_new : Z → option Z;          (** the event for a signal *)
  event_add : Z → bool
}.

(** * State *)

(** [notify] is the pipe from the listener to the worker: the [int]s written and not yet read.
    [looping] is false once the worker's loop was broken. *)
Record LibeventThread := {
  index : Z; notify : list Z; connect_queue : ConnQueue; looping : bool
}.

Record Server := {
  m_thread_count : Z;
  m_port : Z;
  m_threads : list LibeventThread;
  m_signal_events : gmap Z Z;
  m_cpu_affinity : bool;
  last_thread : Z;           (** the static of [listenerEventCb] *)
  conns : heap
}.

Definition EXIT_CODE : Z := -1.

Definition with_threads (s : Server) (ts : list LibeventThread) (h : heap) : Server := {|
  m_thread_count := m_thread_count s; m_port := m_port s; m_threads := ts;
  m_signal_events := m_signal_events s; m_cpu_affinity := m_cpu_affinity s;
  last_thread := last_thread s; conns := h |}.

Definition with_events (s : Server) (ev : gmap Z Z) : Server := {|
  m_thread_count := m_thread_count s; m_port := m_port s; m_threads := m_threads s;
  m_signal_events := ev; m_cpu_affinity := m_cpu_affinity s;
  last_thread := last_thread s; conns := conns s |}.

Definition setPort (s : Server) (port : Z) : Server := {|
  m_thread_count := m_thread_count s; m_port := u32 port; m_threads := m_threads s;
  m_signal_events := m_signal_events s; m_cpu_affinity := m_cpu_affinity s;
  last_thread := last_thread s; conns := conns s |}.

Definition setThreadCount (s : Server) (thread_count : Z) : Server := {|
  m_thread_count := u32 thread_count; m_port := m_port s; m_threads := m_threads s;
  m_signal_events := m_signal_events s; m_cpu_affinity := m_cpu_affinity s;
  last_thread := last_thread s; conns := conns s |}.

(** [write] to a worker's pipe. *)
Definition send_notify (t : LibeventThread) (v : Z) : LibeventThread := {|
  index := index t; notify := notify t ++ [v]; connect_queue := connect_queue t; looping := looping t |}.

Section server.
Context `{!Libevent}.

(** [errorQuit] prints and exits. *)
Definition errorQuit {A} : outcome A := Exit 1.

Definition setupThread (i : Z) (q : ConnQueue) : outcome LibeventThread :=
  if negb (event_base_new i) then errorQuit
  else if negb (pipe i) then errorQuit
  else if negb (event_add_notify i) then errorQuit
  else Ret {| index := i; notify := []; connect_queue := q; looping := true |}.

(** [new LibeventThread[n]]: one queue each. *)
Fixpoint new_queues (n : nat) (h : heap) : outcome (list ConnQueue * heap) :=
  match n with
  | O => Ret ([], h)
  | S n =>
      r ← ConnQueue_new h;
      r' ← new_queues n r.2;
      Ret (r.1 :: r'.1, r'.2)
  end.

Fixpoint setup_loop (i : Z) (qs : list ConnQueue) : outcome (list LibeventThread) :=
  match qs with
  | [] => Ret []
  | q :: qs => t ← setupThread i q; ts ← setup_loop (i + 1) qs; Ret (t :: ts)
  end.

(** The constructor; the main thread has a queue too, which stays empty. *)
Definition Server_new (count : Z) (cpu_affinity : bool) : outcome Server :=
  main ← ConnQueue_new heap_new;
  qs ← new_queues (Z.to_nat (u32 count)) main.2;
  ts ← setup_loop 0 qs.1;
  Ret {| m_thread_count := u32 count; m_port := u32 (-1); m_threads := ts; m_signal_events := ∅;
         m_cpu_affinity := cpu_affinity; last_thread := -1; conns := qs.2 |}.

(** [startRun] up to the dispatch of the main loop: the workers that are pinned to a CPU.  [linux]
    says whether the macro of that name is defined, without which nothing is pinned. *)
Fixpoint pin_loop (n : nat) (i : Z) : outcome (list Z) :=
  match n with
  | O => Ret []
  | S n => if negb (setaffinity i) then errorQuit else l ← pin_loop n (i + 1); Ret (i :: l)
  end.

Definition startRun (linux : bool) (s : Server) : outcome (list Z) :=
  if negb (bool_decide (m_port s = u32 EXIT_CODE)) && negb (listener_bind (u16 (m_port s))) then errorQuit
  else
    let cpu_num :=
      if negb (linux && m_cpu_affinity s) then 0
      else if decide (m_thread_count s < u32 get_nprocs) then i32 (m_thread_count s) else get_nprocs in
    pin_loop (Z.to_nat cpu_num) 0.

Definition stopRun (s : Server) : Server :=
  with_threads s ((λ t, send_notify t EXIT_CODE) <$> m_threads s) (conns s).

(** A new connection goes to the next worker in turn. *)
Definition listenerEventCb (s : Server) (fd : Z) : outcome Server :=
  if decide (m_thread_count s = 0) then Undef DivByZero
  else
    let num := i32 (u32 (last_thread s + 1) mod m_thread_count s) in
    match m_threads s !! Z.to_nat num with
    | None => Undef OutOfBounds
    | Some t => Ret {|
        m_thread_count := m_thread_count s; m_port := m_port s;
        m_threads := <[Z.to_nat num := send_notify t fd]> (m_threads s);
        m_signal_events := m_signal_events s; m_cpu_affinity := m_cpu_affinity s;
        last_thread := num; conns := conns s |}
    end.

(** Worker [i] reads one [int] from its pipe; the result is the connection it made. *)
Definition threadProcess (s : Server) (i : nat) : outcome (option Z * Server) :=
  match m_threads s !! i with
  | None => Undef OutOfBounds
  | Some me =>
      match notify me with
      | [] => Undef Indeterminate
      | confd :: rest =>
          let me := {| index := index me; notify := rest; connect_queue := connect_queue me; looping := looping me |} in
          let stopped := {| index := index me; notify := rest; connect_queue := connect_queue me; looping := false |} in
          if decide (confd = EXIT_CODE) then Ret (None, with_threads s (<[i := stopped]> (m_threads s)) (conns s))
          else if negb (bufferevent_socket_new confd)
          then Ret (None, with_threads s (<[i := stopped]> (m_threads s)) (conns s))
          else
            r ← insertConn (conns s) (connect_queue me) confd (index me);
            Ret (Some r.1, with_threads s (<[i := me]> (m_threads s)) r.2)
      end
  end.

(** [deleteConn] of [closeEventCb]: the connection leaves its worker's queue. *)
Definition dequeue_conn (s : Server) (c : Z) : outcome Server :=
  h ← deleteConn (conns s) c;
  Ret (with_threads s (m_threads s) h).

Definition deleteSignalEvent (s : Server) (sig : Z) : bool * Server :=
  match m_signal_events s !! sig with
  | None => (false, s)
  | Some _ => (true, with_events s (delete sig (m_signal_events s)))
  end.

Definition addSignalEvent (s : Server) (sig : Z) : outcome (bool * Server) :=
  match evsignal_new sig with
  | None => Undef NullPointer
  | Some ev =>
      if negb (event_add ev) then Ret (false, s)
      else
        let '(_, s) := deleteSignalEvent s sig in
        Ret (true, with_events s (<[sig := ev]> (m_signal_events s)))
  end.

(** A timer: [None] is [NULL]. *)
Definition addTimerEvent (ev : Z) : option Z := if negb (event_add ev) then None else Some ev.

(** [event_del]'s result. *)
Definition deleteTimerEvent (res : Z) : bool := bool_decide (res = 0).

(** [delete [] m_threads] destroys the last thread first. *)
Fixpoint delete_queues (h : heap) (ts : list LibeventThread) : outcome heap :=
  match ts with
  | [] => Ret h
  | t :: ts => h ← delete_queues h ts; ConnQueue_free h (connect_queue t)
  end.

(** The destructor: what is in the workers' pipes and on the heap when the bases were freed and the
    queues destroyed; [main] is the queue of [m_main_base]. *)
Definition Server_delete (s : Server) (main : ConnQueue) : outcome Server :=
  let s := stopRun s in
  h ← ConnQueue_free (conns s) main;
  h ← delete_queues h (m_threads s);
  Ret (with_threads s (m_threads s) h).
End server.

(** * History *)

(** What a run has done: the descriptors accepted and the ones closed. *)
Record history := { accepted : list Z; closed : list Z }.

(** A descriptor [accept] returns, for which a buffer can be made. *)
Definition good_fd `{!Libevent} (fd : Z) : Prop := 0 <= fd <= INT_MAX ∧ bufferevent_socket_new fd = true.

(** Workers there are, and the turn is at one of them. *)
Definition server_ready (s : Server) : Prop :=
  0 < m_thread_count s <= INT_MAX ∧ Z.of_nat (length (m_threads s)) = m_thread_count s ∧
  -1 <= last_thread s < m_thread_count s.

(** * The invariant *)

Definition all_nodes (ts : list LibeventThread) (ls : list (list Z)) : list Z :=
  concat (zip_with (λ t l, nodes (connect_queue t) l) ts ls).

(** The queues hold the connections [ls], on disjoint cells. *)
Definition queues_ok (s : Server) (ls : list (list Z)) : Prop :=
  heap_ok (conns s) ∧ Forall2 (λ t l, repr (conns s) (connect_queue t) l) (m_threads s) ls ∧
  NoDup (all_nodes (m_threads s) ls).

(** The descriptors on their way to a worker, and those in the queues. *)
Definition pending (ts : list LibeventThread) : list Z := filter (λ v, v ≠ EXIT_CODE) (concat (notify <$> ts)).
Definition fd_of (h : heap) (a : Z) : Z := default 0 (fst <$> tag h a).
Definition live (h : heap) (ls : list (list Z)) : list Z := fd_of h <$> concat ls.

Definition server_ok (sg : Server * history) : Prop :=
  ∃ ls, queues_ok sg.1 ls ∧ Forall (λ v, v = EXIT_CODE ∨ 0 <= v <= INT_MAX) (concat (notify <$> m_threads sg.1)) ∧
  accepted sg.2 ≡ₚ pending (m_threads sg.1) ++ live (conns sg.1) ls ++ closed sg.2.

(** * Lemmas *)

Lemma repr_frame h h' q l : (∀ a, a ∈ nodes q l → cells h' !! a = cells h !! a) → repr h q l → repr h' q l.
Proof. intros Hf [Hc Hn]. split; [by eapply chain_frame|done]. Qed.

Lemma repr_nodes h q l a : heap_ok h → repr h q l → a ∈ nodes q l → a < brk h.
Proof. intros Hok [Hc _] Ha. destruct (chain_lookup _ _ _ _ _ Hc Ha) as [c Hl]. by eapply Hok. Qed.

Lemma nodes_incl q l a : a ∈ l → a ∈ nodes q l.
Proof. unfold nodes. set_solver. Qed.

Lemma all_nodes_cons t ts l ls : all_nodes (t :: ts) (l :: ls) = nodes (connect_queue t) l ++ all_nodes ts ls.
Proof. done. Qed.

Lemma all_nodes_app ts1 t ts2 ls1 l ls2 :
  length ts1 = length ls1 →
  all_nodes (ts1 ++ t :: ts2) (ls1 ++ l :: ls2) =
  all_nodes ts1 ls1 ++ nodes (connect_queue t) l ++ all_nodes ts2 ls2.
Proof. intros Hl. unfold all_nodes. rewrite zip_with_app by done. cbn. by rewrite concat_app. Qed.

(** The other queues are not touched by a change that stays off their cells. *)
Lemma repr_others h h' ts ls :
  (∀ a, a ∈ all_nodes ts ls → cells h' !! a = cells h !! a) →
  Forall2 (λ t l, repr h (connect_queue t) l) ts ls →
  Forall2 (λ t l, repr h' (connect_queue t) l) ts ls.
Proof.
  intros Hf H. induction H as [|t l ts ls Hr Hrs IH]; constructor; rewrite all_nodes_cons in Hf.
  - eapply repr_frame; [|exact Hr]. intros a Ha. apply Hf, elem_of_app. by left.
  - apply IH. intros a Ha. apply Hf, elem_of_app. by right.
Qed.

Lemma all_nodes_bound h ts ls a :
  heap_ok h → Forall2 (λ t l, repr h (connect_queue t) l) ts ls → a ∈ all_nodes ts ls → a < brk h.
Proof.
  intros Hok H. induction H as [|t l ts ls Hr Hrs IH]; [by intros ?%not_elem_of_nil|].
  rewrite all_nodes_cons. intros [Ha|Ha]%elem_of_app; [by eapply repr_nodes|auto].
Qed.

Lemma concat_nodes ts ls a : length ts = length ls → a ∈ concat ls → a ∈ all_nodes ts ls.
Proof.
  revert ls. induction ts as [|t ts IH]; intros [|l ls] Hl; try done.
  rewrite all_nodes_cons. cbn [concat]. intros [Ha|Ha]%elem_of_app; apply elem_of_app; [left; by apply nodes_incl|right].
  apply IH; [by injection Hl|done].
Qed.

(** Splitting at worker [i]. *)
Lemma threads_split (s : Server) ls i t :
  queues_ok s ls → m_threads s !! i = Some t →
  ∃ ts1 ts2 ls1 l ls2, m_threads s = ts1 ++ t :: ts2 ∧ ls = ls1 ++ l :: ls2 ∧
    length ts1 = i ∧ length ts1 = length ls1 ∧ length ts2 = length ls2 ∧
    repr (conns s) (connect_queue t) l ∧
    Forall2 (λ t l, repr (conns s) (connect_queue t) l) ts1 ls1 ∧
    Forall2 (λ t l, repr (conns s) (connect_queue t) l) ts2 ls2 ∧
    NoDup (all_nodes ts1 ls1 ++ nodes (connect_queue t) l ++ all_nodes ts2 ls2).
Proof.
  intros (Hok & Hr & Hn) Hi. pose proof Hi as Hlt%lookup_lt_Some.
  rewrite <- (take_drop_middle _ _ _ Hi) in Hr, Hn |- *.
  apply Forall2_app_inv_l in Hr as (ls1 & ls' & H1 & H2 & ->).
  apply Forall2_cons_inv_l in H2 as (l & ls2 & Hl & H2 & ->).
  pose proof (Forall2_length _ _ _ H1) as L1. pose proof (Forall2_length _ _ _ H2) as L2.
  rewrite all_nodes_app in Hn by done.
  exists (take i (m_threads s)), (drop (S i) (m_threads s)), ls1, l, ls2.
  split_and!; try done. rewrite length_take. lia.
Qed.

Lemma insert_middle_at {A} (l1 : list A) x y l2 : <[length l1 := y]> (l1 ++ x :: l2) = l1 ++ y :: l2.
Proof. induction l1 as [|z l1 IH]; [done|]. cbn. by f_equal. Qed.

Lemma insert_split {A} (l : list A) i x y : l !! i = Some x → <[i := y]> l = take i l ++ y :: drop (S i) l.
Proof.
  intros Hi. pose proof Hi as Hlt%lookup_lt_Some. rewrite <- (take_drop_middle _ _ _ Hi) at 1.
  etrans; [|apply (insert_middle_at (take i l) x)]. f_equal. rewrite length_take. lia.
Qed.

Lemma pending_app ts1 t ts2 :
  pending (ts1 ++ t :: ts2) = pending ts1 ++ filter (λ v, v ≠ EXIT_CODE) (notify t) ++ pending ts2.
Proof. unfold pending. rewrite fmap_app, concat_app. cbn. by rewrite !filter_app. Qed.

Lemma live_app h ls1 l ls2 : live h (ls1 ++ l :: ls2) = live h ls1 ++ (fd_of h <$> l) ++ live h ls2.
Proof. unfold live. rewrite concat_app. cbn. by rewrite !fmap_app. Qed.

Lemma live_frame h h' ls : (∀ a, a ∈ concat ls → tag h' a = tag h a) → live h' ls = live h ls.
Proof. intros Hf. unfold live. apply list_fmap_ext. intros i a Ha. unfold fd_of. rewrite Hf; [done|]. by eapply list_elem_of_lookup_2. Qed.

(** * Preservation *)

Section preservation.
Context `{!Libevent}.

(** A change of the pipes only. *)
Lemma queues_ok_pipes s s' ls :
  connect_queue <$> m_threads s' = connect_queue <$> m_threads s → conns s' = conns s →
  queues_ok s ls → queues_ok s' ls.
Proof.
  intros Hq Hh (Hok & Hr & Hn). unfold queues_ok. rewrite Hh. split; [done|].
  assert (∀ ts ts' : list LibeventThread, connect_queue <$> ts' = connect_queue <$> ts →
    (∀ ls, Forall2 (λ t l, repr (conns s) (connect_queue t) l) ts ls →
           Forall2 (λ t l, repr (conns s) (connect_queue t) l) ts' ls) ∧
    (∀ ls, all_nodes ts' ls = all_nodes ts ls)) as Hall.
  { induction ts as [|t ts IH]; intros [|t' ts'] E; try done. cbn in E. injection E as E1 E2.
    destruct (IH ts' E2) as [IH1 IH2]. split.
    - intros l. inversion 1; subst. constructor; [by rewrite E1|by apply IH1].
    - intros [|l ls']; [done|]. rewrite !all_nodes_cons, E1. by rewrite IH2. }
  destruct (Hall _ _ Hq) as [H1 H2]. rewrite H2. split; [by apply H1|done].
Qed.

Lemma accept_ok s g fd s' :
  good_fd fd → listenerEventCb s fd = Ret s' → server_ok (s, g) →
  server_ok (s', {| accepted := fd :: accepted g; closed := closed g |}).
Proof.
  intros [Hfd _] Hl (ls & Hq & Hv & Hp). unfold listenerEventCb in Hl. case_decide; [done|].
  set (num := i32 _) in Hl. destruct (m_threads s !! Z.to_nat num) as [t|] eqn:Ht; [|done].
  injection Hl as <-. cbn [fst snd m_threads conns accepted closed] in *.
  rewrite <- (take_drop_middle _ _ _ Ht) in Hv, Hp. pose proof Ht as Hlt%lookup_lt_Some.
  pose proof (insert_split _ _ _ (send_notify t fd) Ht) as E.
  exists ls. split; [|split]; cbn [fst snd m_threads conns accepted closed].
  - apply (queues_ok_pipes s); [|done|exact Hq]. cbn. rewrite E.
    rewrite <- (take_drop_middle _ _ _ Ht) at 3. by rewrite !fmap_app.
  - rewrite E. rewrite !fmap_app, !concat_app in *. cbn in *.
    apply Forall_app in Hv as [Hv1 [Hv2 Hv3]%Forall_app]. apply Forall_app; split; [done|].
    apply Forall_app; split; [|done]. apply Forall_app; split; [done|]. constructor; [by right|done].
  - rewrite E, Hp, !pending_app. cbn [notify send_notify].
    rewrite filter_app, filter_cons_True by (unfold EXIT_CODE; lia). cbn [filter list_filter].
    rewrite <- !app_assoc. cbn [app]. rewrite !Permutation_middle. done.
Qed.

Lemma stop_ok s g : server_ok (s, g) → server_ok (stopRun s, g).
Proof.
  intros (ls & Hq & Hv & Hp). exists ls. split; [|split]; cbn [fst snd] in *.
  - apply (queues_ok_pipes s); [|done|exact Hq]. cbn. rewrite <- list_fmap_compose. by apply list_fmap_ext.
  - cbn [stopRun with_threads m_threads]. clear - Hv. induction (m_threads s) as [|t ts IH]; [done|].
    cbn in *. apply Forall_app in Hv as [H1 H2]. apply Forall_app. split; [|by apply IH].
    apply Forall_app. split; [done|]. constructor; [by left|done].
  - rewrite Hp. cbn [stopRun with_threads m_threads conns]. f_equiv. clear. unfold pending.
    induction (m_threads s) as [|t ts IH]; [done|]. cbn [fmap list_fmap concat notify send_notify] in *.
    rewrite !filter_app, IH, filter_cons_False by (intros H; by apply H). by rewrite app_nil_r.
Qed.

(** The queue of worker [i] changed from [l] to [l'], within its cells and those at or above the
    old break. *)
Lemma queues_ok_step s ts1 t ts2 ls1 l ls2 h' t' l' :
  heap_ok (conns s) → heap_ok h' → length ts1 = length ls1 → connect_queue t' = connect_queue t →
  Forall2 (λ t l, repr (conns s) (connect_queue t) l) ts1 ls1 →
  Forall2 (λ t l, repr (conns s) (connect_queue t) l) ts2 ls2 →
  NoDup (all_nodes ts1 ls1 ++ nodes (connect_queue t) l ++ all_nodes ts2 ls2) →
  repr h' (connect_queue t) l' →
  (∀ a, a ∈ l' → a ∈ l ∨ brk (conns s) <= a) →
  (∀ a, a ∉ nodes (connect_queue t) l → a < brk (conns s) → cells h' !! a = cells (conns s) !! a) →
  queues_ok (with_threads s (ts1 ++ t' :: ts2) h') (ls1 ++ l' :: ls2).
Proof.
  intros Hok Hok' Hlen Hq H1 H2 Hn Hr Hl' Hf. apply NoDup_app in Hn as (Hn1 & Hn2 & Hn3).
  apply NoDup_app in Hn3 as (Hn3 & Hn4 & Hn5).
  assert (∀ a, a ∈ all_nodes ts1 ls1 → a < brk (conns s)) as Hb1 by (intros a; exact (all_nodes_bound _ _ _ a Hok H1)).
  assert (∀ a, a ∈ all_nodes ts2 ls2 → a < brk (conns s)) as Hb2 by (intros a; exact (all_nodes_bound _ _ _ a Hok H2)).
  assert (∀ a, a ∈ nodes (connect_queue t) l' → a ∈ nodes (connect_queue t) l ∨ brk (conns s) <= a) as Hn'.
  { unfold nodes. intros a [->|[Ha|Ha]%elem_of_app]%elem_of_cons; [left; by left| |left; right; apply elem_of_app; by right].
    destruct (Hl' a Ha); [left; right; apply elem_of_app; by left|by right]. }
  split; [done|split]; cbn [m_threads conns with_threads].
  - apply Forall2_app; [|constructor; [by rewrite Hq|]].
    + eapply repr_others; [|exact H1]. intros a Ha. apply Hf; [|by apply Hb1].
      intros Hin. apply (Hn2 a Ha), elem_of_app. by left.
    + eapply repr_others; [|exact H2]. intros a Ha. apply Hf; [|by apply Hb2].
      intros Hin. by apply (Hn4 a Hin).
  - rewrite all_nodes_app by done. rewrite Hq. apply NoDup_app. split_and!; [done| |].
    + intros a Ha [Hin|Hin]%elem_of_app; [|apply (Hn2 a Ha), elem_of_app; by right].
      destruct (Hn' a Hin) as [Hx|?]; [apply (Hn2 a Ha), elem_of_app; by left|]. specialize (Hb1 a Ha). lia.
    + apply NoDup_app. split_and!; [by destruct Hr| |done]. intros a Hin Ha.
      destruct (Hn' a Hin) as [?|?]; [by apply (Hn4 a)|]. specialize (Hb2 a Ha). lia.
Qed.

(** A connection's worker and its queue. *)
Lemma queues_member s ls a :
  queues_ok s ls → a ∈ concat ls →
  ∃ ts1 t ts2 ls1 la lb ls2, m_threads s = ts1 ++ t :: ts2 ∧ ls = ls1 ++ (la ++ a :: lb) :: ls2 ∧
    length ts1 = length ls1 ∧ length ts2 = length ls2 ∧
    repr (conns s) (connect_queue t) (la ++ a :: lb) ∧
    Forall2 (λ t l, repr (conns s) (connect_queue t) l) ts1 ls1 ∧
    Forall2 (λ t l, repr (conns s) (connect_queue t) l) ts2 ls2 ∧
    NoDup (all_nodes ts1 ls1 ++ nodes (connect_queue t) (la ++ a :: lb) ++ all_nodes ts2 ls2).
Proof.
  intros Hq (l & Hl & Ha)%list_elem_of_In%in_concat.
  apply list_elem_of_In in Hl as [i Hi]%list_elem_of_lookup_1. apply list_elem_of_In in Ha.
  pose proof Hq as (Hheap & Hall & _). destruct (Forall2_lookup_r _ _ _ _ _ Hall Hi) as (t & Ht & _).
  destruct (threads_split s ls i t Hq Ht) as (ts1 & ts2 & ls1 & l' & ls2 & Ets & -> & Li & L1 & L2 & Hr & G1 & G2 & Hnd).
  rewrite lookup_app_r in Hi by lia. replace (i - length ls1)%nat with 0%nat in Hi by lia. injection Hi as ->.
  apply list_elem_of_split in Ha as (la & lb & ->). exists ts1, t, ts2, ls1, la, lb, ls2. by split_and!.
Qed.

(** What the queues hold when a connection is taken out. *)
Lemma queues_delete s ls a h' :
  queues_ok s ls → a ∈ concat ls → deleteConn (conns s) a = Ret h' →
  ∃ ls', queues_ok (with_threads s (m_threads s) h') ls' ∧
    length (concat ls) = S (length (concat ls')) ∧ ∀ a', a' ∈ concat ls' ↔ a' ∈ concat ls ∧ a' ≠ a.
Proof.
  intros Hq Ha Hdel.
  destruct (queues_member s ls a Hq Ha) as (ts1 & t & ts2 & ls1 & la & lb & ls2 & Ets & -> & L1 & L2 & Hr & G1 & G2 & Hnd).
  destruct Hq as (Hheap & _ & _).
  destruct (deleteConn_repr _ _ la a lb Hheap Hr) as (h & E & Hr' & Hheap' & _ & Hcells & _).
  rewrite E in Hdel. injection Hdel as ->. exists (ls1 ++ (la ++ lb) :: ls2). split; [|split].
  - rewrite Ets. apply (queues_ok_step s ts1 t ts2 ls1 (la ++ a :: lb) ls2 h'); try done.
    + intros a' Ha'. left. set_solver.
    + intros a' Ha' _. by apply Hcells.
  - rewrite !concat_app. cbn [concat]. rewrite !length_app. cbn [length]. lia.
  - pose proof Hr as [_ Hnl]. unfold nodes in Hnl. apply NoDup_cons in Hnl as [_ Hnl].
    apply NoDup_app in Hnl as (Hnl & _ & _). apply NoDup_app in Hnl as (_ & Hla & Hlb).
    apply NoDup_cons in Hlb as [Hlb _]. apply NoDup_app in Hnd as (_ & Hd1 & Hnd). apply NoDup_app in Hnd as (_ & Hd2 & _).
    assert (a ∈ nodes (connect_queue t) (la ++ a :: lb)) as Han by (apply nodes_incl; set_solver).
    assert (a ∉ concat ls1) as Hx1 by (intros Hx; apply (concat_nodes ts1 ls1 a L1) in Hx; apply (Hd1 a Hx), elem_of_app; by left).
    assert (a ∉ concat ls2) as Hx2 by (intros Hx; apply (concat_nodes ts2 ls2 a L2) in Hx; by apply (Hd2 a Han)).
    assert (a ∉ la) as Hx3 by (intros Hx; apply (Hla a Hx); set_solver).
    intros a'. rewrite !concat_app. cbn [concat]. rewrite !elem_of_app, elem_of_cons. destruct (decide (a' = a)) as [->|]; naive_solver.
Qed.

(** What they hold when worker [i] puts one in: it is new. *)
Lemma queues_insert s ls i t t' fd :
  queues_ok s ls → m_threads s !! i = Some t → connect_queue t' = connect_queue t →
  ∃ h' ls', insertConn (conns s) (connect_queue t) fd (index t) = Ret (brk (conns s), h') ∧
    queues_ok (with_threads s (<[i := t']> (m_threads s)) h') ls' ∧ (brk (conns s) ∉ concat ls) ∧
    length (concat ls') = S (length (concat ls)) ∧ ∀ a, a ∈ concat ls' ↔ a = brk (conns s) ∨ a ∈ concat ls.
Proof.
  intros Hq Ht Hct.
  destruct (threads_split s ls i t Hq Ht) as (ts1 & ts2 & ls1 & l & ls2 & Ets & -> & Li & L1 & L2 & Hr & H1 & H2 & Hnd).
  destruct Hq as (Hheap & _ & _).
  destruct (insertConn_repr (conns s) (connect_queue t) l fd (index t) Hheap Hr) as (h' & E & Hr' & Hheap' & Hbrk & Hcells & _).
  set (c := brk (conns s)) in *. exists h', (ls1 ++ (c :: l) :: ls2). split; [done|]. split; [|split; [|split]].
  - assert (<[i := t']> (m_threads s) = ts1 ++ t' :: ts2) as -> by (rewrite Ets, <- Li; apply insert_middle_at).
    apply (queues_ok_step s ts1 t ts2 ls1 l ls2 h'); try done.
    + intros a [->|Ha]%elem_of_cons; [right; unfold c; lia|by left].
    + intros a Ha Hlt. apply Hcells; [done|unfold c in *; lia].
  - intros Hc. assert (c < c); [|lia]. rewrite concat_app in Hc. cbn [concat] in Hc. rewrite !elem_of_app in Hc.
    destruct Hc as [Hc|[Hc|Hc]].
    + eapply (all_nodes_bound _ ts1 ls1); [done..|]. by apply concat_nodes.
    + eapply repr_nodes; [done|done|]. by apply nodes_incl.
    + eapply (all_nodes_bound _ ts2 ls2); [done..|]. by apply concat_nodes.
  - rewrite !concat_app, !length_app. cbn [concat app length]. rewrite !length_app. lia.
  - intros a. rewrite !concat_app. cbn [concat app]. rewrite !elem_of_app, elem_of_cons, elem_of_app. naive_solver.
Qed.

(** The pipes alone. *)
Lemma queues_pipes s ls i t t' :
  queues_ok s ls → m_threads s !! i = Some t → connect_queue t' = connect_queue t →
  queues_ok (with_threads s (<[i := t']> (m_threads s)) (conns s)) ls.
Proof.
  intros Hq Ht Hct. apply (queues_ok_pipes s); [|done|done]. cbn. rewrite list_fmap_insert, Hct.
  by rewrite list_insert_id; [|rewrite list_lookup_fmap, Ht].
Qed.

Lemma process_ok s g i t r s' :
  (∀ v, v ∈ notify t → v ≠ EXIT_CODE → bufferevent_socket_new v = true) →
  m_threads s !! i = Some t → threadProcess s i = Ret (r, s') →
  server_ok (s, g) → server_ok (s', g).
Proof.
  intros Hb Ht Hp (ls & Hq & Hv & Hperm). unfold threadProcess in Hp. rewrite Ht in Hp. cbn [fst snd] in *.
  destruct (notify t) as [|confd rest] eqn:En; [done|].
  destruct (threads_split s ls i t Hq Ht) as (ts1 & ts2 & ls1 & l & ls2 & Ets & -> & Li & L1 & L2 & Hr & H1 & H2 & Hn).
  assert (∀ t', <[i := t']> (m_threads s) = ts1 ++ t' :: ts2) as Eins by (intros t'; rewrite Ets, <- Li; apply insert_middle_at).
  rewrite Ets, fmap_app, concat_app in Hv. cbn [fmap list_fmap concat] in Hv. rewrite En in Hv.
  apply Forall_app in Hv as [Hv1 [Hv2 Hv3]%Forall_app]. apply Forall_cons in Hv2 as [Hv0 Hv2].
  assert (∀ t', notify t' = rest → Forall (λ v, v = EXIT_CODE ∨ 0 <= v <= INT_MAX) (concat (notify <$> ts1 ++ t' :: ts2))) as Hv'.
  { intros t' Et. rewrite fmap_app, concat_app. cbn [fmap list_fmap concat]. rewrite Et.
    apply Forall_app; split; [done|]. by apply Forall_app. }
  rewrite Ets, pending_app, En in Hperm.
  destruct Hq as (Hok & Hrs & Hnd). case_decide as He; [|destruct (negb (bufferevent_socket_new confd)) eqn:Eb].
  - injection Hp as _ <-. rewrite Eins. exists (ls1 ++ l :: ls2). split; [|split]; cbn [fst snd with_threads m_threads conns].
    + eapply queues_ok_step; try done. by left.
    + by apply Hv'.
    + rewrite Hperm, pending_app. cbn [notify]. by rewrite filter_cons_False by (intros Hx; by apply Hx).
  - exfalso. apply negb_true_iff in Eb. rewrite Hb in Eb; [done|set_solver|done].
  - apply bind_Ret_inv in Hp as ([c h'] & Hins & Hp). injection Hp as _ <-. rewrite Eins.
    destruct (insertConn_repr (conns s) (connect_queue t) l confd (index t) Hok Hr)
      as (h'' & E & Hr' & Hok' & Hbrk & Hcells & Htag).
    cbn [connect_queue index] in Hins. rewrite E in Hins. injection Hins as <- <-. cbn [snd].
    exists (ls1 ++ (brk (conns s) :: l) :: ls2). split; [|split]; cbn [fst snd with_threads m_threads conns].
    + apply (queues_ok_step s ts1 t ts2 ls1 l ls2 h''); try done.
      * intros a [->|Ha]%elem_of_cons; [right; lia|by left].
      * intros a Ha Hlt. apply Hcells; [done|lia].
    + by apply Hv'.
    + rewrite Hperm, !pending_app, !live_app. cbn [notify fmap list_fmap].
      rewrite filter_cons_True by done.
      assert (∀ a, a ∈ concat ls1 ∨ a ∈ l ∨ a ∈ concat ls2 → tag h'' a = tag (conns s) a) as Hsame.
      { intros a Ha. rewrite Htag, decide_False; [done|]. intros ->.
        assert (brk (conns s) < brk (conns s)); [|lia]. destruct Ha as [Ha|[Ha|Ha]].
        - eapply (all_nodes_bound _ ts1 ls1); [done..|]. by apply concat_nodes.
        - eapply repr_nodes; [done|done|]. by apply nodes_incl.
        - eapply (all_nodes_bound _ ts2 ls2); [done..|]. by apply concat_nodes. }
      rewrite !(live_frame (conns s) h'') by auto.
      assert (fd_of h'' <$> l = fd_of (conns s) <$> l) as ->.
      { apply list_fmap_ext. intros j a Ha. unfold fd_of. rewrite Hsame; [done|].
        right; left. by eapply list_elem_of_lookup_2. }
      assert (fd_of h'' (brk (conns s)) = confd) as ->.
      { unfold fd_of. rewrite Htag, decide_True by done. cbn. apply u32_small. unfold INT_MAX in Hv0. lia. }
      rewrite <- !app_assoc. cbn [app]. by rewrite <- !Permutation_middle.
Qed.

Lemma chain_unique m tl l1 : ∀ p1 p2 l2,
  chain m p1 (l1 ++ [tl]) None → chain m p2 (l2 ++ [tl]) None → (tl ∉ l1) → (tl ∉ l2) →
  first (l1 ++ [tl]) None = first (l2 ++ [tl]) None → l1 = l2.
Proof.
  induction l1 as [|a l1 IH]; intros p1 p2 [|b l2] H1 H2 Hn1 Hn2 Hf; try done.
  - cbn in Hf. injection Hf as ->. set_solver.
  - cbn in Hf. injection Hf as ->. set_solver.
  - cbn [app first] in Hf. injection Hf as ->. f_equal. cbn [app chain] in H1, H2.
    destruct H1 as [(c & Hc & _ & Hn) H1], H2 as [(c' & Hc' & _ & Hn') H2].
    eapply IH; [exact H1|exact H2|set_solver|set_solver|]. congruence.
Qed.

Lemma repr_unique h q l1 l2 : repr h q l1 → repr h q l2 → l1 = l2.
Proof.
  intros [H1 N1] [H2 N2]. unfold nodes in *. cbn [chain] in H1, H2.
  destruct H1 as [(c & Hc & _ & Hn) H1], H2 as [(c' & Hc' & _ & Hn') H2].
  apply NoDup_cons in N1 as [_ N1%NoDup_app], N2 as [_ N2%NoDup_app].
  eapply chain_unique; [exact H1|exact H2| | |congruence].
  - intros Hin. apply N1 in Hin. set_solver.
  - intros Hin. apply N2 in Hin. set_solver.
Qed.

Lemma close_ok s g t c l fd w s' :
  t ∈ m_threads s → repr (conns s) (connect_queue t) l → c ∈ l → tag (conns s) c = Some (fd, w) →
  dequeue_conn s c = Ret s' → server_ok (s, g) →
  server_ok (s', {| accepted := accepted g; closed := fd :: closed g |}).
Proof.
  intros [i Ht]%list_elem_of_lookup_1 Hrl Hc Htagc Hcl (ls & Hq & Hv & Hperm). cbn [fst snd] in *.
  destruct (threads_split s ls i t Hq Ht) as (ts1 & ts2 & ls1 & l0 & ls2 & Ets & -> & Li & L1 & L2 & Hr & H1 & H2 & Hn).
  assert (l0 = l) as -> by (by eapply repr_unique).
  apply list_elem_of_split in Hc as (la & lb & ->). destruct Hq as (Hok & _ & _).
  destruct (deleteConn_repr (conns s) (connect_queue t) la c lb Hok Hr) as (h' & E & Hr' & Hok' & Hbrk & Hcells & Htags).
  unfold dequeue_conn in Hcl. rewrite E in Hcl. injection Hcl as <-.
  exists (ls1 ++ (la ++ lb) :: ls2). split; [|split]; cbn [fst snd with_threads m_threads conns accepted closed].
  - rewrite Ets. apply (queues_ok_step s ts1 t ts2 ls1 (la ++ c :: lb) ls2 h'); try done.
    + intros a Ha. left. set_solver.
    + intros a Ha _. by apply Hcells.
  - done.
  - rewrite Hperm, !live_app, fmap_app. cbn [fmap list_fmap].
    assert (fd_of (conns s) c = fd) as -> by (unfold fd_of; by rewrite Htagc).
    pose proof Hr as [_ Hnl]. unfold nodes in Hnl. apply NoDup_cons in Hnl as [_ Hnl].
    apply NoDup_app in Hnl as (Hnl & _ & _). apply NoDup_app in Hnl as (_ & Hla & Hlb).
    apply NoDup_cons in Hlb as [Hlb _].
    apply NoDup_app in Hn as (_ & Hd1 & Hn). apply NoDup_app in Hn as (_ & Hd2 & _).
    assert (c ∈ nodes (connect_queue t) (la ++ c :: lb)) as Hcn by (apply nodes_incl; set_solver).
    assert (∀ a, a ∈ concat ls1 ∨ a ∈ la ++ lb ∨ a ∈ concat ls2 → tag h' a = tag (conns s) a) as Hsame.
    { intros a Ha. rewrite Htags, decide_False; [done|]. intros ->. destruct Ha as [Ha|[[Ha|Ha]%elem_of_app|Ha]].
      - apply (concat_nodes ts1 ls1 c L1) in Ha. apply (Hd1 c Ha), elem_of_app. by left.
      - apply (Hla c Ha). set_solver.
      - done.
      - apply (concat_nodes ts2 ls2 c L2) in Ha. by apply (Hd2 c Hcn). }
    rewrite !(live_frame (conns s) h') by auto.
    assert (fd_of h' <$> (la ++ lb) = fd_of (conns s) <$> (la ++ lb)) as ->.
    { apply list_fmap_ext. intros j a Ha. unfold fd_of. rewrite Hsame; [done|].
      right; left. by eapply list_elem_of_lookup_2. }
    rewrite fmap_app, <- !app_assoc. cbn [app]. by rewrite <- !Permutation_middle.
Qed.
End preservation.

(** * The constructor *)

Lemma new_queues_ok n : ∀ h, heap_ok h →
  ∃ qs h', new_queues n h = Ret (qs, h') ∧ heap_ok h' ∧ brk h <= brk h' ∧ length qs = n ∧
    (∀ a, a < brk h → cells h' !! a = cells h !! a) ∧
    Forall (λ q, repr h' q [] ∧ ∀ a, a ∈ nodes q [] → brk h <= a) qs ∧
    NoDup (concat ((λ q, nodes q []) <$> qs)).
Proof.
  induction n as [|n IH]; intros h Hok.
  { exists [], h. split_and!; try done. apply NoDup_nil_2. }
  destruct (ConnQueue_new_repr h Hok) as (q & h1 & E & Hr & Hok1 & Hb & Hc & Hhd & Htl).
  destruct (IH h1 Hok1) as (qs & h' & E' & Hok' & Hb' & Hl & Hc' & Hqs & Hn).
  exists (q :: qs), h'. cbn [new_queues]. rewrite E. cbn [mbind outcome_bind snd]. rewrite E'. cbn [mbind outcome_bind fst snd].
  assert (∀ a, a ∈ nodes q [] → brk h <= a < brk h1) as Hq.
  { unfold nodes. cbn. intros a [->|[->|H]%elem_of_cons]%elem_of_cons; [lia|lia|by apply not_elem_of_nil in H]. }
  split_and!; [done|done|lia|cbn; lia| | |].
  - intros a Ha. rewrite Hc' by lia. apply Hc. lia.
  - constructor.
    + split; [|intros a Ha; apply Hq in Ha; lia]. eapply repr_frame; [|exact Hr]. intros a Ha. apply Hc'.
      apply Hq in Ha. lia.
    + eapply Forall_impl; [exact Hqs|]. intros q' [? Hq']. split; [done|]. intros a Ha. apply Hq' in Ha. lia.
  - cbn [fmap list_fmap concat]. apply NoDup_app. split_and!; [by destruct Hr| |done].
    intros a Ha Hin. apply Hq in Ha. apply list_elem_of_In, in_concat in Hin as (l & Hl1 & Hl2).
    apply list_elem_of_In, list_elem_of_fmap in Hl1 as (q' & -> & Hq'). apply list_elem_of_In in Hl2.
    rewrite Forall_forall in Hqs. apply (Hqs q' Hq') in Hl2. lia.
Qed.

Lemma setup_loop_ok `{!Libevent} qs : ∀ i ts,
  setup_loop i qs = Ret ts → connect_queue <$> ts = qs ∧ Forall (λ t, notify t = [] ∧ looping t = true) ts.
Proof.
  induction qs as [|q qs IH]; intros i ts E; cbn in E; [by simplify_eq|].
  apply bind_Ret_inv in E as (t & Et & (ts' & Ets & [= <-])%bind_Ret_inv).
  unfold setupThread in Et. destruct (negb (event_base_new i)), (negb (pipe i)), (negb (event_add_notify i)); try done.
  injection Et as <-. destruct (IH _ _ Ets) as [<- Hf]. split; [done|]. by constructor.
Qed.

(** The server starts with one empty queue and one empty pipe per worker. *)
Lemma Server_new_ok `{!Libevent} count aff s :
  Server_new count aff = Ret s →
  server_ok (s, {| accepted := []; closed := [] |}) ∧ m_thread_count s = u32 count ∧
  Z.of_nat (length (m_threads s)) = u32 count ∧ last_thread s = -1 ∧
  Forall (λ t, notify t = [] ∧ looping t = true) (m_threads s).
Proof.
  unfold Server_new. intros E.
  assert (heap_ok heap_new) as H0 by (intros a c; cbn; by rewrite lookup_empty).
  destruct (ConnQueue_new_repr heap_new H0) as (q & h1 & E1 & _ & Hok1 & _). rewrite E1 in E. cbn [mbind outcome_bind snd] in E.
  destruct (new_queues_ok (Z.to_nat (u32 count)) h1 Hok1) as (qs & h' & E2 & Hok' & _ & Hl & _ & Hqs & Hn).
  rewrite E2 in E. cbn [mbind outcome_bind fst snd] in E.
  apply bind_Ret_inv in E as (ts & Ets & [= <-]). cbn [m_threads m_thread_count last_thread conns].
  apply setup_loop_ok in Ets as [<- Hts]. rewrite length_fmap in Hl. pose proof (u32_range count).
  assert (concat (notify <$> ts) = []) as Enot.
  { clear - Hts. induction Hts as [|t ts [E _] _ IH]; [done|]. cbn. by rewrite E, IH. }
  split; [|split_and!; [done|lia|done|done]].
  exists ((λ _, []) <$> ts). split; [split; [done|split]|split]; cbn [fst snd m_threads conns accepted closed].
  - clear - Hqs. induction ts as [|t ts IH]; [constructor|]. cbn in Hqs. apply Forall_cons in Hqs as [[? _] Hqs].
    constructor; [done|by apply IH].
  - clear - Hn. unfold all_nodes.
    assert (zip_with (λ t l, nodes (connect_queue t) l) ts ((λ _, []) <$> ts) =
            (λ q, nodes q []) <$> (connect_queue <$> ts)) as ->; [|done].
    clear Hn. induction ts as [|t ts IH]; [done|]. cbn. by f_equal.
  - by rewrite Enot.
  - unfold pending. rewrite Enot. cbn. unfold live.
    assert (concat ((λ _ : LibeventThread, @nil Z) <$> ts) = []) as ->; [|done]. clear. by induction ts.
Qed.

(** * Properties *)

(** Everything the system offers succeeds. *)
#[local] Instance demo_libevent : Libevent := {|
  event_base_new _ := true; pipe _ := true; event_add_notify _ := true; listener_bind _ := true;
  get_nprocs := 4; setaffinity _ := true; bufferevent_socket_new _ := true; evsignal_new s := Some s;
  event_add _ := true |}.

(** With workers, the listener hands every connection to one of them. *)
Lemma listener_ready `{!Libevent} (s : Server) (fd : Z) :
  server_ready s →
  ∃ num t s', m_threads s !! Z.to_nat num = Some t ∧ listenerEventCb s fd = Ret s' ∧ server_ready s' ∧
    m_threads s' = <[Z.to_nat num := send_notify t fd]> (m_threads s) ∧ conns s' = conns s.
Proof.
  intros (Hpos & Hlen & Hlast). unfold listenerEventCb. rewrite decide_False by lia.
  pose proof (Z.mod_pos_bound (last_thread s + 1) (m_thread_count s) ltac:(lia)) as Hb.
  rewrite u32_small by (unfold INT_MAX in *; lia). rewrite i32_small by (unfold is_int, INT_MIN; lia).
  set (num := (last_thread s + 1) mod m_thread_count s) in *.
  destruct (lookup_lt_is_Some_2 (m_threads s) (Z.to_nat num)) as [t Ht]; [lia|]. rewrite Ht.
  exists num, t. eexists. split; [done|]. split; [done|]. split; [|done].
  split; [done|]. cbn. rewrite length_insert. split; [done|lia].
Qed.

(** Accepting a list of connections. *)
Fixpoint accept_all `{!Libevent} (s : Server) (fds : list Z) : outcome Server :=
  match fds with
  | [] => Ret s
  | fd :: fds => s ← listenerEventCb s fd; accept_all s fds
  end.

(** Every [n]-th of [fds], counting from [k], for worker [i]. *)
Fixpoint deal (n k i : Z) (fds : list Z) : list Z :=
  match fds with
  | [] => []
  | fd :: fds => (if decide (k mod n = i) then [fd] else []) ++ deal n (k + 1) i fds
  end.

Lemma accept_all_deal `{!Libevent} n fds : ∀ s k,
  m_thread_count s = n → Z.of_nat (length (m_threads s)) = n → 0 < n <= INT_MAX →
  -1 <= last_thread s < n → 0 <= k → (last_thread s + 1) mod n = k mod n →
  ∃ s', accept_all s fds = Ret s' ∧ length (m_threads s') = length (m_threads s) ∧
    ∀ i t, m_threads s !! i = Some t → ∃ t', m_threads s' !! i = Some t' ∧
      notify t' = notify t ++ deal n k (Z.of_nat i) fds.
Proof.
  induction fds as [|fd fds IH]; intros s k Hn Hlen Hpos Hlast Hk Hmod.
  { exists s. split; [done|split; [done|]]. intros i t Ht. exists t. by rewrite app_nil_r. }
  cbn [accept_all]. unfold listenerEventCb. rewrite decide_False by lia.
  pose proof (Z.mod_pos_bound k n ltac:(lia)) as Hb.
  assert (i32 (u32 (last_thread s + 1) mod m_thread_count s) = k mod n) as ->.
  { rewrite u32_small by (unfold INT_MAX in *; lia). rewrite Hn, Hmod. apply i32_small.
    unfold is_int, INT_MIN. lia. }
  destruct (lookup_lt_is_Some_2 (m_threads s) (Z.to_nat (k mod n))) as [t0 Ht0]; [lia|]. rewrite Ht0.
  cbn [mbind outcome_bind]. set (s1 := {| m_thread_count := _ |}).
  destruct (IH s1 (k + 1)) as (s' & E & Hl & Hs'); cbn [s1 m_thread_count m_threads last_thread].
  - done.
  - by rewrite length_insert.
  - done.
  - lia.
  - lia.
  - by rewrite Zplus_mod_idemp_l.
  - exists s'. split; [exact E|]. unfold s1 in *; cbn [m_threads] in *. rewrite length_insert in Hl. split; [exact Hl|].
    intros i t Ht. cbn [deal]. destruct (decide (i = Z.to_nat (k mod n))) as [->|Hne].
    + rewrite decide_True by lia. assert (t0 = t) as -> by congruence.
      destruct (Hs' (Z.to_nat (k mod n)) (send_notify t fd)) as (t' & Ht' & Hnot).
      { apply list_lookup_insert_eq. by eapply lookup_lt_Some. }
      exists t'. split; [done|]. rewrite Hnot. cbn [send_notify notify]. by rewrite <- app_assoc.
    + rewrite decide_False by lia. apply Hs'. by rewrite list_lookup_insert_ne.
Qed.

(** The connections dealt out to the workers of a new server. *)
Lemma deals_in_turn `{!Libevent} count aff (s : Server) (fds : list Z) :
  Server_new count aff = Ret s → 0 < count <= INT_MAX →
  ∃ s', accept_all s fds = Ret s' ∧
    ∀ i t, m_threads s' !! i = Some t → notify t = deal count 0 (Z.of_nat i) fds.
Proof.
  intros Hs Hc. apply Server_new_ok in Hs as (_ & Hn & Hl & Hlast & Hempty).
  rewrite u32_small in Hn, Hl by (unfold INT_MAX in *; lia).
  destruct (accept_all_deal count fds s 0) as (s' & E & Hlen & Hs'); [done|done|done|lia|done| |].
  { rewrite Hlast. done. }
  exists s'. split; [done|]. intros i t Ht.
  destruct (lookup_lt_is_Some_2 (m_threads s) i) as [t0 Ht0]; [rewrite <- Hlen; by eapply lookup_lt_Some|].
  destruct (Hs' i t0 Ht0) as (t' & Ht' & Hnot). assert (t' = t) as -> by congruence. rewrite Hnot.
  rewrite Forall_lookup in Hempty. by destruct (Hempty i t0 Ht0) as [-> _].
Qed.

(** The listener deals the connections out in turn: with [n] workers the [k]-th accepted
    connection is written to the pipe of worker [k mod n], in order of arrival. *)
Theorem listener_round_robin `{!Libevent} count aff (s : Server) (fds : list Z) :
  Server_new count aff = Ret s → 0 < count <= INT_MAX →
  ∃ s', accept_all s fds = Ret s' ∧
    ∀ i t, m_threads s' !! i = Some t → notify t = deal count 0 (Z.of_nat i) fds.
Proof. apply deals_in_turn. Qed.

Lemma listener_round_robin_witness :
  ∃ s s', Server_new 2 false = Ret s ∧ accept_all s [10; 11; 12] = Ret s' ∧
    ∀ t, m_threads s' !! 0%nat = Some t → notify t = [10; 12].
Proof.
  assert (is_ret (Server_new 2 false) = true) as Hr by (vm_compute; reflexivity).
  destruct (is_ret_inv _ Hr) as [s E]. clear Hr.
  destruct (listener_round_robin 2 false s [10; 11; 12] E) as (s' & E' & H); [unfold INT_MAX; lia|].
  exists s, s'. split; [exact E|]. split; [exact E'|]. intros t Ht. exact (H 0%nat t Ht).
Defined.

(** The destructor frees every connection of every worker, and leaves [EXIT_CODE] in their pipes. *)
Lemma Server_delete_ok `{!Libevent} (s : Server) (main : ConnQueue) ls :
  queues_ok s ls → repr (conns s) main [] → (∀ a, a ∈ nodes main [] → a ∉ all_nodes (m_threads s) ls) →
  ∃ s', Server_delete s main = Ret s' ∧ notify <$> m_threads s' = (λ t, notify t ++ [EXIT_CODE]) <$> m_threads s ∧
    ∀ a, cells (conns s') !! a = if decide (a ∈ nodes main [] ++ all_nodes (m_threads s) ls) then None else cells (conns s) !! a.
Proof.
  intros (_ & Hr & Hn) Hm Hd. unfold Server_delete. cbn zeta. cbn [stopRun with_threads conns m_threads].
  destruct (ConnQueue_free_repr _ _ _ Hm) as (h1 & -> & H1). cbn [mbind outcome_bind].
  assert (∀ ts ls, Forall2 (λ t l, repr (conns s) (connect_queue t) l) ts ls → NoDup (all_nodes ts ls) →
    (∀ a, a ∈ nodes main [] → a ∉ all_nodes ts ls) →
    ∃ h', delete_queues h1 ((λ t, send_notify t EXIT_CODE) <$> ts) = Ret h' ∧
      ∀ a, cells h' !! a = if decide (a ∈ all_nodes ts ls) then None else cells h1 !! a) as Hq.
  { clear Hr Hn Hd. induction 1 as [|t l ts' ls' Hr _ IH]; intros Hn Hd.
    - exists h1. split; [done|]. intros a. rewrite decide_False; [done|]. apply not_elem_of_nil.
    - rewrite all_nodes_cons in Hn. apply NoDup_app in Hn as (Hnl & Hdis & Hn).
      destruct (IH Hn) as (h' & E & Hh'); [intros a Ha Hin; apply (Hd a Ha); rewrite all_nodes_cons; set_solver|].
      assert (repr h' (connect_queue t) l) as Hr'.
      { eapply repr_frame; [|exact Hr]. intros a Ha. rewrite Hh', decide_False by (by apply Hdis).
        rewrite H1, decide_False; [done|]. intros Hin. apply (Hd a Hin). rewrite all_nodes_cons. set_solver. }
      destruct (ConnQueue_free_repr _ _ _ Hr') as (h2 & E2 & H2). exists h2. split.
      + cbn [fmap list_fmap delete_queues]. change (fmap _ ts') with ((λ t, send_notify t EXIT_CODE) <$> ts'). rewrite E. exact E2.
      + intros a. rewrite H2, Hh', all_nodes_cons. repeat case_decide; set_solver. }
  destruct (Hq _ _ Hr Hn Hd) as (h' & -> & Hh'). cbn [mbind outcome_bind].
  eexists. split; [done|]. cbn [with_threads m_threads conns]. split.
  - rewrite <- !list_fmap_compose. by apply list_fmap_ext.
  - intros a. rewrite Hh', H1. repeat case_decide; set_solver.
Qed.
