(* ===== verification/Listener.v ===== *)
(** libevent's listeners: [src/deps/libevent2/listener.c], with the calls of [evutil.c] it makes, which
    bind the port and hand each new connection to [Server::listenerEventCb].

    The state is [struct evconnlistener] with its event; how often its lock is held is part of it. *)
From S2P Require Import Prelude ConnQueue Server Net.

(** * The system calls *)

Definition ECONNABORTED : Z := 103.
Definition F_GETFD : Z := 1.
Definition F_SETFD : Z := 2.
Definition F_GETFL : Z := 3.
Definition F_SETFL : Z := 4.
Definition FD_CLOEXEC : Z := 1.
Definition O_NONBLOCK : Z := 2048.

(** [accept] yields the descriptor and the length of the address. *)
Class Listen (W : Type) := {
  sys_accept : W → Z → Z * Z * W;
  sys_fcntl : W → Z → Z → Z → Z * W;
  sys_bind : W → Z → Z → Z * W;
  sys_listen : W → Z → Z → Z * W;
  sys_reuseaddr : W → Z → Z * W
}.

(** None of them opens or closes a descriptor, but for [accept]. *)
Class ListenOk (W : Type) `{!Net W, !Listen W} := {
  accept_open w fd :
    open_fds (sys_accept w fd).2 =
    if decide ((sys_accept w fd).1.1 < 0) then open_fds w else {[ (sys_accept w fd).1.1 ]} ∪ open_fds w;
  fcntl_open w fd cmd x : open_fds (sys_fcntl w fd cmd x).2 = open_fds w;
  bind_open w fd port : open_fds (sys_bind w fd port).2 = open_fds w;
  listen_open w fd n : open_fds (sys_listen w fd n).2 = open_fds w;
  reuseaddr_open w fd : open_fds (sys_reuseaddr w fd).2 = open_fds w
}.

Definition LEV_OPT_LEAVE_SOCKETS_BLOCKING : Z := 1.
Definition LEV_OPT_CLOSE_ON_FREE : Z := 2.
Definition LEV_OPT_CLOSE_ON_EXEC : Z := 4.
Definition LEV_OPT_REUSEABLE : Z := 8.
Definition LEV_OPT_THREADSAFE : Z := 16.

(** [lev_pending]: its event waits for the descriptor; [lev_cb], [lev_errorcb]: the callbacks are set;
    [lev_held]: how often its lock is held. *)
Record evconnlistener := {
  lev_fd : Z; lev_pending : bool; lev_cb : bool; lev_errorcb : bool; lev_flags : Z; lev_refcnt : Z;
  lev_enabled : bool; lev_held : Z
}.

Definition with_refcnt (l : evconnlistener) (n : Z) : evconnlistener := {|
  lev_fd := lev_fd l; lev_pending := lev_pending l; lev_cb := lev_cb l; lev_errorcb := lev_errorcb l;
  lev_flags := lev_flags l; lev_refcnt := n; lev_enabled := lev_enabled l; lev_held := lev_held l |}.
Definition with_held (l : evconnlistener) (n : Z) : evconnlistener := {|
  lev_fd := lev_fd l; lev_pending := lev_pending l; lev_cb := lev_cb l; lev_errorcb := lev_errorcb l;
  lev_flags := lev_flags l; lev_refcnt := lev_refcnt l; lev_enabled := lev_enabled l; lev_held := n |}.
Definition with_event (l : evconnlistener) (pending enabled : bool) : evconnlistener := {|
  lev_fd := lev_fd l; lev_pending := pending; lev_cb := lev_cb l; lev_errorcb := lev_errorcb l;
  lev_flags := lev_flags l; lev_refcnt := lev_refcnt l; lev_enabled := enabled; lev_held := lev_held l |}.
Definition with_lev_cbs (l : evconnlistener) (c e : bool) : evconnlistener := {|
  lev_fd := lev_fd l; lev_pending := lev_pending l; lev_cb := c; lev_errorcb := e;
  lev_flags := lev_flags l; lev_refcnt := lev_refcnt l; lev_enabled := lev_enabled l; lev_held := lev_held l |}.

Definition LOCK (l : evconnlistener) : evconnlistener := with_held l (lev_held l + 1).
Definition UNLOCK (l : evconnlistener) : evconnlistener := with_held l (lev_held l - 1).
Definition has_flag (flags opt : Z) : bool := negb (Z.land flags opt =? 0).

(** * Operations on a listener *)

Definition event_listener_enable (l : evconnlistener) : evconnlistener := with_event l true (lev_enabled l).
Definition event_listener_disable (l : evconnlistener) : evconnlistener := with_event l false (lev_enabled l).

Definition evconnlistener_enable (l : evconnlistener) : evconnlistener :=
  let l := LOCK l in
  let l := with_event l (lev_pending l) true in
  UNLOCK (if lev_cb l then event_listener_enable l else l).

Definition evconnlistener_disable (l : evconnlistener) : evconnlistener :=
  let l := LOCK l in
  UNLOCK (event_listener_disable (with_event l (lev_pending l) false)).

Definition evconnlistener_set_cb (l : evconnlistener) (cb : bool) : evconnlistener :=
  let l := LOCK l in
  let enable := lev_enabled l && negb (lev_cb l) in
  let l := with_lev_cbs l cb (lev_errorcb l) in
  UNLOCK (if enable then evconnlistener_enable l else l).

Definition evconnlistener_set_error_cb (l : evconnlistener) (e : bool) : evconnlistener :=
  UNLOCK (with_lev_cbs (LOCK l) (lev_cb l) e).

Section making.
Context {W : Type} `{!Net W, !Listen W}.

Definition evutil_make_socket_nonblocking (w : W) (fd : Z) : Z * W :=
  let '(flags, w) := sys_fcntl w fd F_GETFL 0 in
  if decide (flags < 0) then (-1, w)
  else
    let '(r, w) := sys_fcntl w fd F_SETFL (Z.lor flags O_NONBLOCK) in
    if decide (r = -1) then (-1, w) else (0, w).

(** [setfd] stands for [_EVENT_HAVE_SETFD]. *)
Definition evutil_make_socket_closeonexec (setfd : bool) (w : W) (fd : Z) : Z * W :=
  if setfd then
    let '(flags, w) := sys_fcntl w fd F_GETFD 0 in
    if decide (flags < 0) then (-1, w)
    else
      let '(r, w) := sys_fcntl w fd F_SETFD (Z.lor flags FD_CLOEXEC) in
      if decide (r = -1) then (-1, w) else (0, w)
  else (0, w).

(** [None] when [listen] or the allocation fails. *)
Definition evconnlistener_new (memory : bool) (w : W) (cb : bool) (flags backlog fd : Z) : option evconnlistener * W :=
  let '(r, w) :=
    if decide (0 < backlog) then sys_listen w fd backlog
    else if decide (backlog < 0) then sys_listen w fd 128 else (0, w) in
  if decide (r < 0) then (None, w)
  else if negb memory then (None, w)
  else
    (Some (evconnlistener_enable {|
       lev_fd := fd; lev_pending := false; lev_cb := cb; lev_errorcb := false; lev_flags := flags; lev_refcnt := 1;
       lev_enabled := false; lev_held := 0 |}), w).

(** The address is given by its port, if at all. *)
Definition evconnlistener_new_bind (setfd memory : bool) (w : W) (cb : bool) (flags backlog : Z) (sa : option Z)
    : option evconnlistener * W :=
  if decide (backlog = 0) then (None, w)
  else
    let '(fd, w) := sys_socket w in
    if decide (fd = -1) then (None, w)
    else
      let '(r, w) := evutil_make_socket_nonblocking w fd in
      if decide (r < 0) then (None, sys_close w fd)
      else
        let '(r, w) := if has_flag flags LEV_OPT_CLOSE_ON_EXEC then evutil_make_socket_closeonexec setfd w fd else (0, w) in
        if decide (r < 0) then (None, sys_close w fd)
        else
          let '(r, w) := sys_setsockopt w fd in
          if decide (r < 0) then (None, sys_close w fd)
          else
            let '(r, w) := if has_flag flags LEV_OPT_REUSEABLE then sys_reuseaddr w fd else (0, w) in
            if decide (r < 0) then (None, sys_close w fd)
            else
              let '(r, w) := match sa with Some port => sys_bind w fd port | None => (0, w) end in
              if decide (r < 0) then (None, sys_close w fd)
              else
                let '(l, w) := evconnlistener_new memory w cb flags backlog fd in
                match l with None => (None, sys_close w fd) | Some l => (Some l, w) end.

(** [None]: the listener is freed. *)
Definition listener_decref_and_unlock (l : evconnlistener) (w : W) : option evconnlistener * W :=
  let l := with_refcnt l (lev_refcnt l - 1) in
  if decide (lev_refcnt l = 0) then
    (None, if has_flag (lev_flags l) LEV_OPT_CLOSE_ON_FREE then sys_close w (lev_fd l) else w)
  else (Some (UNLOCK l), w).

Definition evconnlistener_free (l : evconnlistener) (w : W) : option evconnlistener * W :=
  listener_decref_and_unlock (with_lev_cbs (LOCK l) false false) w.
End making.

(** * Accepting connections *)

Definition accept_retriable (e : Z) : bool := bool_decide (e = EINTR ∨ e = EAGAIN ∨ e = ECONNABORTED).

Section accepting.
Context {W : Type} `{!Net W, !Listen W} {S : Type} (world : S → W) (set_world : S → W → S).
Context (cb : Z → evconnlistener → S → outcome (evconnlistener * S)).
Context (errorcb : evconnlistener → S → outcome (evconnlistener * S)).

Definition decref_in (l : evconnlistener) (s : S) : option evconnlistener * S :=
  let '(o, w) := listener_decref_and_unlock l (world s) in (o, set_world s w).

(** After [accept] failed. *)
Definition accept_failed (l : evconnlistener) (s : S) : outcome (option evconnlistener * S) :=
  if accept_retriable (errno (world s)) then Ret (Some (UNLOCK l), s)
  else if lev_errorcb l then
    r ← errorcb (UNLOCK (with_refcnt l (lev_refcnt l + 1))) s;
    Ret (decref_in (LOCK r.1) r.2)
  else Ret (Some l, s).

Fixpoint accept_loop (fuel : nat) (l : evconnlistener) (s : S) : outcome (option evconnlistener * S) :=
  match fuel with
  | O => NoFuel
  | Datatypes.S fuel =>
      let '(new_fd, socklen, w) := sys_accept (world s) (lev_fd l) in
      if decide (new_fd < 0) then accept_failed l (set_world s w)
      else if decide (socklen = 0) then accept_loop fuel l (set_world s (sys_close w new_fd))
      else
        let w := if has_flag (lev_flags l) LEV_OPT_LEAVE_SOCKETS_BLOCKING then w
                 else (evutil_make_socket_nonblocking w new_fd).2 in
        let s := set_world s w in
        if negb (lev_cb l) then Ret (Some (UNLOCK l), s)
        else
          r ← cb new_fd (UNLOCK (with_refcnt l (lev_refcnt l + 1))) s;
          let l := LOCK r.1 in
          if decide (lev_refcnt l = 1) then
            let '(o, s) := decref_in l r.2 in
            _ ← (match o with None => Ret () | Some _ => Exit 134 end);
            Ret (None, s)
          else accept_loop fuel (with_refcnt l (lev_refcnt l - 1)) r.2
  end.

Definition listener_read_cb (fuel : nat) (l : evconnlistener) (s : S) : outcome (option evconnlistener * S) :=
  accept_loop fuel (LOCK l) s.
End accepting.

(** * The server's listener *)

Section serving.
Context {W : Type} `{!Net W, !Listen W, !Libevent}.

(** [Server::listenerEventCb], which does not touch the listener. *)
Definition serve_accept (fd : Z) (l : evconnlistener) (s : Server * W) : outcome (evconnlistener * (Server * W)) :=
  srv ← listenerEventCb s.1 fd; Ret (l, (srv, s.2)).

(** The port's descriptor can be read; the server sets no callback for errors. *)
Definition on_connections (fuel : nat) (l : evconnlistener) (s : Server * W) : outcome (option evconnlistener * (Server * W)) :=
  listener_read_cb snd (λ s w, (s.1, w)) serve_accept (λ l s, Ret (l, s)) fuel l s.
End serving.

(** * Properties *)

(** What [accept] returns until there is nothing left: connections, and some without an address, which
    are closed; [n] counts both. *)
Inductive incoming {W} `{!Net W, !Listen W} (fd : Z) : nat → W → list Z → W → Prop :=
  | incoming_end w r len w' :
      sys_accept w fd = (r, len, w') → r < 0 → accept_retriable (errno w') = true → incoming fd 0 w [] w'
  | incoming_closed n w f w1 fds w' :
      sys_accept w fd = (f, 0, w1) → 0 <= f → incoming fd n (sys_close w1 f) fds w' → incoming fd (S n) w fds w'
  | incoming_conn n w f len w1 fds w' :
      sys_accept w fd = (f, len, w1) → 0 <= f → len ≠ 0 →
      incoming fd n (evutil_make_socket_nonblocking w1 f).2 fds w' → incoming fd (S n) w (f :: fds) w'.

(** A listener that is not in use, with its callback. *)
Definition lev_ready (l : evconnlistener) : Prop :=
  lev_cb l = true ∧ lev_refcnt l = 1 ∧ has_flag (lev_flags l) LEV_OPT_LEAVE_SOCKETS_BLOCKING = false.

Lemma lev_back l : with_refcnt (LOCK (UNLOCK (with_refcnt l (lev_refcnt l + 1)))) (lev_refcnt l + 1 - 1) = l.
Proof. destruct l. unfold LOCK, UNLOCK, with_held, with_refcnt. cbn. f_equal; lia. Qed.

Lemma unlock_lock l : UNLOCK (LOCK l) = l.
Proof. destruct l. unfold LOCK, UNLOCK, with_held. cbn. f_equal; lia. Qed.

Section dealing.
Context {W : Type} `{!Net W, !Listen W, !Libevent}.

Lemma accept_loop_deals fd n w fds w' :
  incoming fd n w fds w' → ∀ fuel l srv srv',
  lev_ready l → lev_fd l = fd → (n < fuel)%nat → accept_all srv fds = Ret srv' →
  accept_loop snd (λ s w, (s.1, w)) serve_accept (λ l s, Ret (l, s)) fuel l (srv, w) = Ret (Some (UNLOCK l), (srv', w')).
Proof.
  induction 1 as [w r len w' Ha Hr Hre|n w f w1 fds w' Ha Hf _ IH|n w f len w1 fds w' Ha Hf Hlen _ IH];
    intros [|fuel] l srv srv' Hl Hfd Hn Hall; try lia; pose proof Hl as (Hcb & Hrc & Hfl);
    cbn [accept_loop snd]; rewrite Hfd, Ha.
  - rewrite decide_True by done. unfold accept_failed. cbn [fst snd]. rewrite Hre. by injection Hall as ->.
  - rewrite decide_False, decide_True by lia. by apply IH; [..|lia|].
  - rewrite decide_False, decide_False by lia. rewrite Hfl, Hcb. cbn [negb fst].
    cbn [accept_all] in Hall. apply bind_Ret_inv in Hall as (srv1 & E & Hall).
    assert (∀ l' (w2 : W), serve_accept f l' (srv, w2) = Ret (l', (srv1, w2))) as Hcall
      by (intros; unfold serve_accept; cbn [fst]; by rewrite E).
    rewrite Hcall. cbn [mbind outcome_bind fst snd].
    change (lev_refcnt (LOCK (UNLOCK (with_refcnt l (lev_refcnt l + 1))))) with (lev_refcnt l + 1).
    rewrite decide_False by lia. rewrite lev_back. apply IH; [done|done|lia|done].
Qed.
End dealing.

Section binding.
Context {W : Type} `{!Net W, !NetOk W, !Listen W, !ListenOk W}.

Lemma nonblocking_open (w : W) fd : open_fds (evutil_make_socket_nonblocking w fd).2 = open_fds w.
Proof.
  unfold evutil_make_socket_nonblocking. pose proof (fcntl_open w fd F_GETFL 0) as H1.
  destruct (sys_fcntl w fd F_GETFL 0) as [fl w1]. cbn in H1. case_decide; [done|].
  pose proof (fcntl_open w1 fd F_SETFL (Z.lor fl O_NONBLOCK)) as H2.
  destruct (sys_fcntl w1 fd F_SETFL _) as [r w2]. cbn in H2. case_decide; cbn; by rewrite H2.
Qed.

Lemma closeonexec_open setfd (w : W) fd : open_fds (evutil_make_socket_closeonexec setfd w fd).2 = open_fds w.
Proof.
  unfold evutil_make_socket_closeonexec. destruct setfd; [|done]. pose proof (fcntl_open w fd F_GETFD 0) as H1.
  destruct (sys_fcntl w fd F_GETFD 0) as [fl w1]. cbn in H1. case_decide; [done|].
  pose proof (fcntl_open w1 fd F_SETFD (Z.lor fl FD_CLOEXEC)) as H2.
  destruct (sys_fcntl w1 fd F_SETFD _) as [r w2]. cbn in H2. case_decide; cbn; by rewrite H2.
Qed.

(** What a listener that was made is like. *)
Definition lev_made (l : evconnlistener) (flags fd : Z) (cb : bool) : Prop :=
  lev_fd l = fd ∧ lev_flags l = flags ∧ lev_cb l = cb ∧ lev_pending l = cb ∧ lev_enabled l = true ∧
  lev_refcnt l = 1 ∧ lev_held l = 0 ∧ lev_errorcb l = false.

(** Either there is a listener on a new socket, or no socket is left. *)
Definition made_or_closed (w : W) (flags : Z) (cb : bool) (o : option evconnlistener) (w' : W) : Prop :=
  match o with
  | None => open_fds w' = open_fds w
  | Some l => lev_made l flags (lev_fd l) cb ∧ (lev_fd l ∉ open_fds w) ∧ open_fds w' = ({[ lev_fd l ]} ∪ open_fds w)
  end.

Lemma evconnlistener_new_ok memory (w : W) cb flags backlog fd o w' :
  evconnlistener_new memory w cb flags backlog fd = (o, w') →
  open_fds w' = open_fds w ∧ (∀ l, o = Some l → lev_made l flags fd cb).
Proof.
  unfold evconnlistener_new. set (r := if decide (0 < backlog) then _ else _).
  assert (open_fds r.2 = open_fds w) as Hr by (unfold r; repeat case_decide; rewrite ?listen_open; done).
  destruct r as [r w1]. cbn in Hr. case_decide; [by intros [= <- <-]|]. destruct memory; cbn [negb]; [|by intros [= <- <-]].
  intros [= <- <-]. split; [done|]. intros l [= <-]. unfold evconnlistener_enable. destruct cb; cbn; by split_and!.
Qed.

(** One of the steps that close the socket when they fail. *)
Lemma close_on_failure (w w1 : W) fd r (rest : option evconnlistener * W) o w' :
  open_fds w1 = open_fds w → (if decide (r < 0) then (None, sys_close w1 fd) else rest) = (o, w') →
  (o = None ∧ open_fds w' = open_fds w ∖ {[ fd ]}) ∨ rest = (o, w').
Proof. intros Hw. case_decide; [|by right]. intros [= <- <-]. left. split; [done|]. by rewrite close_open, Hw. Qed.

Lemma new_bind_ok setfd memory (w : W) cb flags backlog sa o w' :
  evconnlistener_new_bind setfd memory w cb flags backlog sa = (o, w') →
  made_or_closed w flags cb o w'.
Proof.
  unfold evconnlistener_new_bind. case_decide; [by intros [= <- <-]|].
  pose proof (socket_ok w) as Hsock. destruct (sys_socket w) as [fd w1]. cbn in Hsock.
  case_decide as Hfd; [intros [= <- <-]; destruct Hsock as [[_ ?]|[? _]]; [done|lia]|].
  destruct Hsock as [[? _]|(_ & Hnew & Hopen)]; [done|].
  assert (∀ o w', (o = None ∧ open_fds w' = open_fds w1 ∖ {[ fd ]}) →
    made_or_closed w flags cb o w') as Hclosed by (intros ? ? [-> Hx]; cbn; rewrite Hx, Hopen; set_solver).
  pose proof (nonblocking_open w1 fd) as E2. destruct (evutil_make_socket_nonblocking w1 fd) as [r2 w2]. cbn in E2.
  intros [Hx|Hx]%(close_on_failure w1 w2 fd r2 _ o w' E2); [by apply Hclosed|]. revert Hx.
  set (x3 := if has_flag flags LEV_OPT_CLOSE_ON_EXEC then _ else _).
  assert (open_fds x3.2 = open_fds w1) as E3 by (unfold x3; destruct (has_flag _ _); [by rewrite closeonexec_open|done]).
  destruct x3 as [r3 w3]. cbn in E3. intros [Hx|Hx]%(close_on_failure w1 w3 fd r3 _ o w' E3); [by apply Hclosed|]. revert Hx.
  pose proof (setsockopt_open w3 fd) as E4. destruct (sys_setsockopt w3 fd) as [r4 w4]. cbn in E4. rewrite E3 in E4.
  intros [Hx|Hx]%(close_on_failure w1 w4 fd r4 _ o w' E4); [by apply Hclosed|]. revert Hx.
  set (x5 := if has_flag flags LEV_OPT_REUSEABLE then _ else _).
  assert (open_fds x5.2 = open_fds w1) as E5 by (unfold x5; destruct (has_flag _ _); [by rewrite reuseaddr_open|done]).
  destruct x5 as [r5 w5]. cbn in E5. intros [Hx|Hx]%(close_on_failure w1 w5 fd r5 _ o w' E5); [by apply Hclosed|]. revert Hx.
  set (x6 := match sa with Some _ => _ | None => _ end).
  assert (open_fds x6.2 = open_fds w1) as E6 by (unfold x6; destruct sa; [by rewrite bind_open|done]).
  destruct x6 as [r6 w6]. cbn in E6. intros [Hx|Hx]%(close_on_failure w1 w6 fd r6 _ o w' E6); [by apply Hclosed|]. revert Hx.
  destruct (evconnlistener_new memory w6 cb flags backlog fd) as [o7 w7] eqn:E. apply evconnlistener_new_ok in E as [E7 Ho].
  destruct o7 as [l|]; intros [= <- <-].
  - specialize (Ho l eq_refl). pose proof Ho as (Hl & _). cbn. rewrite Hl. split; [done|]. split; [done|]. by rewrite E7, E6, Hopen.
  - apply Hclosed. split; [done|]. by rewrite close_open, E7, E6.
Qed.
End binding.

(** The flags [startRun] gives. *)
Definition server_flags : Z := Z.lor LEV_OPT_REUSEABLE LEV_OPT_CLOSE_ON_FREE.

(** C6: the port.  [evconnlistener_new_bind], as [startRun] calls it, either makes a listener on a new
    socket, enabled, or leaves no socket open.  When the descriptor can be read, [listener_read_cb] takes
    every connection that waits, closes those that come without an address, and hands the others to
    [listenerEventCb], until [accept] has no more; the server deals them out to its workers' pipes in
    turn, and the listener is as before. *)
Theorem listener_deals `{!Libevent} {W} `{!Net W, !NetOk W, !Listen W, !ListenOk W}
    setfd memory (w0 w1 : W) port o count aff (srv : Server) :
  evconnlistener_new_bind setfd memory w0 true server_flags (-1) (Some port) = (o, w1) →
  Server_new count aff = Ret srv → 0 < count <= INT_MAX →
  made_or_closed w0 server_flags true o w1 ∧
  ∀ l n w fds w' fuel, o = Some l → incoming (lev_fd l) n w fds w' → (n < fuel)%nat →
    ∃ srv', on_connections fuel l (srv, w) = Ret (Some l, (srv', w')) ∧
      ∀ i t, m_threads srv' !! i = Some t → notify t = deal count 0 (Z.of_nat i) fds.
Proof.
  intros Hb Hs Hc. apply new_bind_ok in Hb. split; [done|]. intros l n w fds w' fuel -> Hin Hn. cbn in Hb.
  destruct Hb as ((_ & Hfl & Hcb & _ & _ & Hrc & _) & _).
  destruct (deals_in_turn count aff srv fds Hs Hc) as (srv' & E & Hd). exists srv'. split; [|done].
  unfold on_connections, listener_read_cb. rewrite <- (unlock_lock l) at 2.
  eapply accept_loop_deals; [exact Hin| |done|done|exact E].
  split; [done|]. split; [done|]. change (lev_flags (LOCK l)) with (lev_flags l). by rewrite Hfl.
Qed.

(** * What the listener does and hardly means to *)

Section slips.
Context {W : Type} `{!Net W, !Listen W} {S : Type} (world : S → W) (set_world : S → W → S).
Context (cb : Z → evconnlistener → S → outcome (evconnlistener * S)) (errorcb : evconnlistener → S → outcome (evconnlistener * S)).

(** When [accept] fails for good and no callback for errors is set, the lock stays held. *)
Lemma accept_error_keeps_lock fuel l s r len w' :
  sys_accept (world s) (lev_fd l) = (r, len, w') → r < 0 → lev_errorcb l = false →
  world (set_world s w') = w' → accept_retriable (errno w') = false →
  listener_read_cb world set_world cb errorcb (Datatypes.S fuel) l s = Ret (Some (LOCK l), set_world s w').
Proof.
  intros Ha Hr He Hw Hre. unfold listener_read_cb. cbn [accept_loop]. change (lev_fd (LOCK l)) with (lev_fd l). rewrite Ha.
  rewrite decide_True by done. unfold accept_failed. rewrite Hw, Hre. change (lev_errorcb (LOCK l)) with (lev_errorcb l). by rewrite He.
Qed.

(** A connection that is accepted while no callback is set is neither handed on nor closed. *)
Lemma accept_without_cb_leaks `{!ListenOk W} fuel l s f len w' :
  sys_accept (world s) (lev_fd l) = (f, len, w') → 0 <= f → len ≠ 0 → lev_cb l = false →
  (∀ w, world (set_world s w) = w) →
  ∃ s', listener_read_cb world set_world cb errorcb (Datatypes.S fuel) l s = Ret (Some l, s') ∧
    open_fds (world s') = ({[ f ]} ∪ open_fds (world s)).
Proof.
  intros Ha Hf Hlen Hcb Hw. unfold listener_read_cb. cbn [accept_loop]. change (lev_fd (LOCK l)) with (lev_fd l). rewrite Ha.
  rewrite decide_False, decide_False by lia. change (lev_cb (LOCK l)) with (lev_cb l). rewrite Hcb. cbn [negb].
  rewrite unlock_lock. eexists. split; [done|]. rewrite Hw. pose proof (accept_open (world s) (lev_fd l)) as Ho.
  rewrite Ha in Ho. cbn [fst snd] in Ho. rewrite decide_False in Ho by lia.
  destruct (has_flag _ _); [done|]. by rewrite nonblocking_open.
Qed.
End slips.

(** * A port on the scripted network *)

(** The network and the connections that wait at the port. *)
Record port := { on_sim : sim; waiting : list Z }.
Definition map_sim {A} (p : port) (r : A * sim) : A * port := (r.1, {| on_sim := r.2; waiting := waiting p |}).

#[local] Instance port_net : Net port := {|
  open_fds p := sim_open (on_sim p); errno p := sim_errno (on_sim p);
  sys_socket p := map_sim p (sys_socket (on_sim p));
  sys_setsockopt p fd := map_sim p (sys_setsockopt (on_sim p) fd);
  sys_connect p fd host pt := map_sim p (sys_connect (on_sim p) fd host pt);
  sys_close p fd := {| on_sim := sys_close (on_sim p) fd; waiting := waiting p |};
  sys_send p fd d := map_sim p (sys_send (on_sim p) fd d);
  sys_select p fd t := map_sim p (sys_select (on_sim p) fd t);
  sys_recv p fd n := map_sim p (sys_recv (on_sim p) fd n)
|}.

#[local] Instance port_net_ok : NetOk port.
Proof.
  split; intros [w l]; cbn [open_fds port_net map_sim fst snd on_sim sys_socket sys_setsockopt sys_connect sys_close sys_send
    sys_select sys_recv errno].
  - exact (@socket_ok sim _ _ w).
  - exact (@setsockopt_open sim _ _ w).
  - exact (@connect_open sim _ _ w).
  - exact (@close_open sim _ _ w).
  - exact (@send_open sim _ _ w).
  - exact (@send_len sim _ _ w).
  - exact (@select_open sim _ _ w).
  - exact (@select_closed sim _ _ w).
  - exact (@recv_open sim _ _ w).
  - exact (@recv_len sim _ _ w).
Qed.

#[local] Instance port_listen : Listen port := {|
  sys_accept p _ :=
    match waiting p with
    | [] => (-1, 0, {| on_sim := sim_fail (on_sim p) EAGAIN (sim_sends (on_sim p)) (sim_recvs (on_sim p)); waiting := [] |})
    | fd :: l => (Z.max 0 fd, 16,
        {| on_sim := {| sim_open := {[ Z.max 0 fd ]} ∪ sim_open (on_sim p); sim_errno := sim_errno (on_sim p);
                        sim_up := sim_up (on_sim p); sim_peer := sim_peer (on_sim p); sim_sent := sim_sent (on_sim p);
                        sim_sends := sim_sends (on_sim p); sim_recvs := sim_recvs (on_sim p) |}; waiting := l |})
    end;
  sys_fcntl p _ _ _ := (0, p); sys_bind p _ _ := (0, p); sys_listen p _ _ := (0, p); sys_reuseaddr p _ := (0, p)
|}.

#[local] Instance port_listen_ok : ListenOk port.
Proof.
  split; try done. intros p fd. cbn. destruct (waiting p) as [|f l]; cbn; [done|]. by rewrite decide_False by lia.
Qed.

#[local] Existing Instance Server.demo_libevent.

(** Three connections and two workers. *)
Lemma listener_deals_witness :
  ∃ srv srv' l w1 w', Server_new 2 false = Ret srv ∧
    evconnlistener_new_bind true true {| on_sim := sim_init [] [] []; waiting := [10; 11; 12] |} true server_flags (-1) (Some 11211)
      = (Some l, w1) ∧
    on_connections 4 l (srv, w1) = Ret (Some l, (srv', w')) ∧
    ∀ t, m_threads srv' !! 0%nat = Some t → notify t = [10; 12].
Proof.
  assert (is_ret (Server_new 2 false) = true) as Hr by (vm_compute; reflexivity).
  destruct (is_ret_inv _ Hr) as [srv E]. clear Hr.
  set (w0 := {| on_sim := sim_init [] [] []; waiting := [10; 11; 12] |}).
  assert (∃ l w1 w', evconnlistener_new_bind true true w0 true server_flags (-1) (Some 11211) = (Some l, w1) ∧
    incoming (lev_fd l) 3 w1 [10; 11; 12] w') as (l & w1 & w' & Eb & Hin).
  { eexists _, _, _. split; [vm_compute; reflexivity|].
    eapply incoming_conn; [vm_compute; reflexivity|lia|lia|]. eapply incoming_conn; [vm_compute; reflexivity|lia|lia|].
    eapply incoming_conn; [vm_compute; reflexivity|lia|lia|]. eapply incoming_end; vm_compute; reflexivity. }
  destruct (listener_deals true true w0 w1 11211 (Some l) 2 false srv Eb E) as [_ Hd]; [unfold INT_MAX; lia|].
  destruct (Hd l 3%nat w1 [10; 11; 12] w' 4%nat eq_refl Hin) as (srv' & Er & Hn); [lia|].
  exists srv, srv', l, w1, w'. split; [exact E|]. split; [exact Eb|]. split; [exact Er|]. intros t Ht. exact (Hn 0%nat t Ht).
Defined.
