(* ===== verification/Failover.v ===== *)
(** Hosts, failure counting and failover: [KvProxy::setHostAlias], [failover], [countFail],
    [initVar] and one round of [checkHealthThread] of [src/kvproxy.cpp].

    [Hosts] and [Stats] are the members of [KvProxy] (src/kvproxy.h) that these functions
    use.  The properties: what taking a host out and bringing it back do to the flags and the
    rings, and where they are undefined ([delHost] is, as soon as it erases a point); and the same of
    a whole round, which takes out the hosts over the threshold and brings back the ones that
    answer. *)
From S2P Require Import Prelude StdMap Util Crc32 Hash Net ConnPool.

(** * State *)

Record Hosts := {
  host_alias : gmap Z (bytes * Z);       (** alias index -> host, port *)
  host_infos : gmap Z (Z * Z);           (** alias index -> index, weight *)
  host_offline : gmap Z bool;
  hosts_default : gset Z; hosts_read : gset Z; hosts_backup : gset Z;
  hash : ConsistentHash; hash_backup : ConsistentHash; hash_read : ConsistentHash;
  alias_index_count : Z                  (** the static of [setHostAlias] *)
}.

Record Stats := {
  st_req : Z; st_conn : Z; st_limit : Z;
  st_cont_fail : gmap Z Z; st_fail : gmap Z Z
}.

Definition hosts_new : Hosts := {|
  host_alias := ∅; host_infos := ∅; host_offline := ∅; hosts_default := ∅; hosts_read := ∅;
  hosts_backup := ∅; hash := hash_new; hash_backup := hash_new; hash_read := hash_new;
  alias_index_count := 0 |}.

Definition with_offline (h : Hosts) (m : gmap Z bool) : Hosts := {|
  host_alias := host_alias h; host_infos := host_infos h; host_offline := m;
  hosts_default := hosts_default h; hosts_read := hosts_read h; hosts_backup := hosts_backup h;
  hash := hash h; hash_backup := hash_backup h; hash_read := hash_read h;
  alias_index_count := alias_index_count h |}.

Definition with_rings (h : Hosts) (d b r : ConsistentHash) : Hosts := {|
  host_alias := host_alias h; host_infos := host_infos h; host_offline := host_offline h;
  hosts_default := hosts_default h; hosts_read := hosts_read h; hosts_backup := hosts_backup h;
  hash := d; hash_backup := b; hash_read := r; alias_index_count := alias_index_count h |}.

Definition with_fails (s : Stats) (cont fail : gmap Z Z) : Stats := {|
  st_req := st_req s; st_conn := st_conn s; st_limit := st_limit s;
  st_cont_fail := cont; st_fail := fail |}.

(** * Operations *)

(** The alias of a host: the first in the map with this address, else the next number. *)
Definition setHostAlias (h : Hosts) (host : bytes) (port : Z) : Z * Hosts :=
  match list_find (λ e : Z * (bytes * Z), e.2 = (host, port)) (elems (host_alias h)) with
  | Some (_, (i, _)) => (i, h)
  | None =>
      let index := u32 (alias_index_count h + 1) in
      (index, {| host_alias := <[index := (host, port)]> (host_alias h); host_infos := host_infos h;
                 host_offline := host_offline h; hosts_default := hosts_default h;
                 hosts_read := hosts_read h; hosts_backup := hosts_backup h; hash := hash h;
                 hash_backup := hash_backup h; hash_read := hash_read h; alias_index_count := index |})
  end.

(** "host:port" *)
Definition host_port_str (e : bytes * Z) : bytes := e.1 ++ bs ":" ++ int2str (i32 e.2).

Definition del_if (set : gset Z) (ring : ConsistentHash) (a : Z) : outcome ConsistentHash :=
  if decide (a ∈ set) then r ← delHost ring a; Ret r.2 else Ret ring.
Definition add_if (set : gset Z) (ring : ConsistentHash) (host_port : bytes) (a index weight : Z)
    : outcome ConsistentHash :=
  if decide (a ∈ set) then r ← addHost ring host_port a index weight; Ret r.2 else Ret ring.

(** The results of [delHost] and [addHost] go to the log only. *)
Definition failover (h : Hosts) (alias_index : Z) (is_del : bool) : outcome (bool * Hosts) :=
  let '(offline, m) := at_ false (host_offline h) alias_index in
  let h := with_offline h m in
  if is_del then
    if offline then Ret (true, h)
    else
      match host_alias h !! alias_index with
      | None => Ret (false, h)
      | Some _ =>
          d ← del_if (hosts_default h) (hash h) alias_index;
          r ← del_if (hosts_read h) (hash_read h) alias_index;
          b ← del_if (hosts_backup h) (hash_backup h) alias_index;
          Ret (true, with_offline (with_rings h d b r) (<[alias_index := true]> (host_offline h)))
      end
  else
    if negb offline then Ret (true, h)
    else
      match host_alias h !! alias_index with
      | None => Ret (false, h)
      | Some e =>
          let host_port := host_port_str e in
          match host_infos h !! alias_index with
          | None => Ret (false, h)
          | Some (index, weight) =>
              d ← add_if (hosts_default h) (hash h) host_port alias_index index weight;
              r ← add_if (hosts_read h) (hash_read h) host_port alias_index index weight;
              b ← add_if (hosts_backup h) (hash_backup h) host_port alias_index index weight;
              Ret (true, with_offline (with_rings h d b r) (<[alias_index := false]> (host_offline h)))
          end
      end.

(** [operator[]] creates the counters it reads. *)
Definition countFail (s : Stats) (is_fail : bool) (alias_index : Z) : Stats :=
  if is_fail then
    let '(f, fails) := at_ 0 (st_fail s) alias_index in
    if decide (f < st_limit s) then
      let '(c, conts) := at_ 0 (st_cont_fail s) alias_index in
      with_fails s (<[alias_index := u32 (c + 1)]> conts) (<[alias_index := u32 (f + 1)]> fails)
    else with_fails s (st_cont_fail s) fails
  else
    let '(c, conts) := at_ 0 (st_cont_fail s) alias_index in
    with_fails s (if decide (c ≠ 0) then <[alias_index := 0]> conts else conts) (st_fail s).

(** The loop over [host_alias] in key order. *)
Fixpoint initVar_loop (l : list (Z * (bytes * Z))) (h : Hosts) (s : Stats) : Hosts * Stats :=
  match l with
  | [] => (h, s)
  | (a, _) :: l =>
      initVar_loop l (with_offline h (<[a := false]> (host_offline h)))
        (with_fails s (<[a := 0]> (st_cont_fail s)) (<[a := 0]> (st_fail s)))
  end.

Definition initVar (h : Hosts) (s : Stats) : Hosts * Stats := initVar_loop (elems (host_alias h)) h s.

(** * One round of the health thread *)

(** The hosts over the threshold, in the copy of the counters made at the start of the round. *)
Fixpoint offline_loop (failover_threshold : Z) (l : list (Z * Z)) (h : Hosts) : outcome Hosts :=
  match l with
  | [] => Ret h
  | (a, n) :: l =>
      if decide (failover_threshold <= i32 n) then
        r ← failover h a true; offline_loop failover_threshold l r.2
      else offline_loop failover_threshold l h
  end.

Section health.
Context {W : Type} `{!Net W}.

(** The offline hosts, in the copy of [host_offline] made after the first loop; the addresses
    are those copied when the thread started. *)
Fixpoint online_loop (aliases : gmap Z (bytes * Z)) (l : list (Z * bool))
    (h : Hosts) (s : Stats) (w : W) : outcome (Hosts * Stats * W) :=
  match l with
  | [] => Ret (h, s, w)
  | (a, off) :: l =>
      if (off : bool) then
        match aliases !! a with
        | None => online_loop aliases l h s w
        | Some (host, port) =>
            let '(conn_fd, w) := createConnection w host port in
            if decide (0 < conn_fd) then
              r ← failover h a false;
              online_loop aliases l r.2 (countFail s false a) (closeConnection conn_fd w)
            else online_loop aliases l h s w
        end
      else online_loop aliases l h s w
  end.

Definition checkHealth_round (aliases : gmap Z (bytes * Z)) (failover_threshold : Z)
    (h : Hosts) (s : Stats) (w : W) : outcome (Hosts * Stats * W) :=
  h ← offline_loop failover_threshold (elems (st_cont_fail s)) h;
  online_loop aliases (elems (host_offline h)) h s w.
End health.

(** * Specification *)

(** No other thread is inside a ring. *)
Definition unlocked (h : Hosts) : Prop :=
  _lock (hash h) = false ∧ _lock (hash_read h) = false ∧ _lock (hash_backup h) = false.

(** A host the failover thread takes out when asked to. *)
Definition online_known (h : Hosts) (a : Z) : Prop := host_offline h !! a ≠ Some true ∧ is_Some (host_alias h !! a).
(** A host it brings back when asked to. *)
Definition offline_known (h : Hosts) (a : Z) : Prop :=
  host_offline h !! a = Some true ∧ is_Some (host_alias h !! a) ∧ is_Some (host_infos h !! a).

#[export] Instance online_known_dec h a : Decision (online_known h a).
Proof. unfold online_known. apply _. Defined.
#[export] Instance offline_known_dec h a : Decision (offline_known h a).
Proof. unfold offline_known. apply _. Defined.

Definition ring_with (set : gset Z) (host_port : bytes) (a index weight : Z) (ring : ConsistentHash) : ConsistentHash :=
  if decide (a ∈ set)
  then {| _hash := put_all (points index weight) (host_port, a) (_hash ring); _hash_tmp := _hash ring; _lock := false |}
  else ring.

(** The hosts after [a] was put back. *)
Definition brought_back (h : Hosts) (e : bytes * Z) (a index weight : Z) : Hosts :=
  with_offline (with_rings h (ring_with (hosts_default h) (host_port_str e) a index weight (hash h))
                  (ring_with (hosts_backup h) (host_port_str e) a index weight (hash_backup h))
                  (ring_with (hosts_read h) (host_port_str e) a index weight (hash_read h)))
    (<[a := false]> (host_offline h)).

(** [a] has a point on a ring it is configured for. *)
Definition on_rings (h : Hosts) (a : Z) : Prop :=
  (a ∈ hosts_default h ∧ on_ring (_hash (hash h)) a) ∨ (a ∈ hosts_read h ∧ on_ring (_hash (hash_read h)) a) ∨
  (a ∈ hosts_backup h ∧ on_ring (_hash (hash_backup h)) a).

(** Two states with the same configuration. *)
Definition same_config (h h' : Hosts) : Prop :=
  host_alias h' = host_alias h ∧ host_infos h' = host_infos h ∧ hosts_default h' = hosts_default h ∧
  hosts_read h' = hosts_read h ∧ hosts_backup h' = hosts_backup h.

(** Two states with the same rings. *)
Definition same_rings (h h' : Hosts) : Prop :=
  _hash (hash h') = _hash (hash h) ∧ _hash (hash_read h') = _hash (hash_read h) ∧
  _hash (hash_backup h') = _hash (hash_backup h).

Definition is_off (h : Hosts) (a : Z) : Prop := host_offline h !! a = Some true.

#[export] Instance is_off_dec h a : Decision (is_off h a).
Proof. unfold is_off. apply _. Defined.

(** Of the hosts [B], [a] is to have the point [p] on the ring of [set]. *)
Definition claims (h : Hosts) (B : Z → Prop) (set : gset Z) (p a : Z) : Prop :=
  B a ∧ a ∈ set ∧ ∃ i w, host_infos h !! a = Some (i, w) ∧ p ∈ points i w.

(** The ring [new] of [set] is [old] with the points of the hosts [B] put in, in the order of their aliases. *)
Definition regained (h : Hosts) (B : Z → Prop) (set : gset Z) (old new : hash_type) : Prop :=
  ∀ p v, new !! p = Some v ↔
    (claims h B set p v.2 ∧ (∃ e, host_alias h !! v.2 = Some e ∧ v.1 = host_port_str e) ∧
       ∀ b, claims h B set p b → b <= v.2) ∨
    ((∀ b, ¬ claims h B set p b) ∧ old !! p = Some v).

(** So on all three rings. *)
Definition all_regained (h : Hosts) (B : Z → Prop) (h' : Hosts) : Prop :=
  regained h B (hosts_default h) (_hash (hash h)) (_hash (hash h')) ∧
  regained h B (hosts_read h) (_hash (hash_read h)) (_hash (hash_read h')) ∧
  regained h B (hosts_backup h) (_hash (hash_backup h)) (_hash (hash_backup h')).

(** * Lemmas *)

Lemma del_if_cases set ring a :
  _lock ring = false →
  (a ∈ set ∧ on_ring (_hash ring) a ∧ del_if set ring a = Undef StaleIterator) ∨
  (¬ (a ∈ set ∧ on_ring (_hash ring) a) ∧
   ∃ r, del_if set ring a = Ret r ∧ _hash r = _hash ring ∧ _lock r = false).
Proof.
  intros Hl. unfold del_if. case_decide as Ha; [|right; split; [naive_solver|by exists ring]].
  unfold delHost. rewrite Hl, del_loop_undefined. case_decide as He; cbn; [left|right].
  - split; [done|]. split; [|done]. apply Exists_exists in He as ([p v] & Hin & Hv). exists p, v.
    split; [by apply elem_of_elems|done].
  - split; [|by eexists]. intros [_ (p & v & Hp & Hv)]. apply He, Exists_exists. exists (p, v).
    split; [by apply elem_of_elems|done].
Qed.

Lemma add_if_eq set ring host_port a index weight :
  _lock ring = false → host_cfg_ok index weight →
  add_if set ring host_port a index weight = Ret (ring_with set host_port a index weight ring).
Proof. intros Hl Hc. unfold add_if, ring_with. case_decide; [|done]. by rewrite addHost_eq. Qed.

Lemma ring_with_unlocked set hp a i w ring : _lock ring = false → _lock (ring_with set hp a i w ring) = false.
Proof. unfold ring_with. by case_decide. Qed.

(** Reading [host_offline[a]] changes no lookup that matters. *)
Lemma at_offline (m : gmap Z bool) a : (at_ false m a).1 = default false (m !! a) ∧
  (∀ b, (at_ false m a).2 !! b = Some true ↔ m !! b = Some true) ∧ <[a := true]> (at_ false m a).2 = <[a := true]> m ∧
  <[a := false]> (at_ false m a).2 = <[a := false]> m.
Proof.
  unfold at_. destruct (m !! a) eqn:E; [done|]. split; [done|split].
  - intros b. cbn. rewrite lookup_insert_Some. naive_solver.
  - cbn. by rewrite !insert_insert_eq.
Qed.

(** Taking a host out, in both cases. *)
Lemma failover_del_cases h a : unlocked h →
  (online_known h a ∧ on_rings h a ∧ failover h a true = Undef StaleIterator) ∨
  (¬ (online_known h a ∧ on_rings h a) ∧ ∃ h',
     failover h a true = Ret (bool_decide (is_off h a ∨ is_Some (host_alias h !! a)), h') ∧
     unlocked h' ∧ same_config h h' ∧ same_rings h h' ∧
     host_offline h' = if decide (online_known h a) then <[a := true]> (host_offline h)
                       else (at_ false (host_offline h) a).2).
Proof.
  intros (L1 & L2 & L3). unfold failover.
  destruct (at_offline (host_offline h) a) as (E1 & _ & E2 & _).
  destruct (at_ false (host_offline h) a) as [off m] eqn:Em; cbn [fst snd] in E1, E2.
  destruct (decide (online_known h a)) as [Ho|Ho].
  - pose proof Ho as [Hoff [e He]].
    assert (off = false) as -> by (rewrite E1; destruct (host_offline h !! a) as [[]|]; done).
    cbn [host_alias hosts_default hosts_read hosts_backup hash hash_read hash_backup with_offline]. rewrite He.
    destruct (del_if_cases (hosts_default h) (hash h) a L1) as [(? & ? & ->)|(D1 & d & -> & Hd & Ld)];
      [left; unfold on_rings; split_and!; [done|tauto|done]|cbn [mbind outcome_bind]].
    destruct (del_if_cases (hosts_read h) (hash_read h) a L2) as [(? & ? & ->)|(D2 & r & -> & Hr & Lr)];
      [left; unfold on_rings; split_and!; [done|tauto|done]|cbn [mbind outcome_bind]].
    destruct (del_if_cases (hosts_backup h) (hash_backup h) a L3) as [(? & ? & ->)|(D3 & b & -> & Hb & Lb)];
      [left; unfold on_rings; split_and!; [done|tauto|done]|cbn [mbind outcome_bind]].
    right. split; [unfold on_rings; naive_solver|]. eexists. rewrite bool_decide_eq_true_2 by (right; by eexists).
    split; [done|]. split_and!; try done.
  - right. split; [naive_solver|]. exists (with_offline h m).
    split; [|split_and!; done]. cbn [host_alias with_offline]. destruct off.
    + rewrite bool_decide_eq_true_2; [done|]. left. unfold is_off. by destruct (host_offline h !! a) as [[]|].
    + destruct (host_alias h !! a) as [e|] eqn:He.
      * exfalso. apply Ho. split; [|by eexists]. intros Hoff. by rewrite Hoff in E1.
      * rewrite bool_decide_eq_false_2; [done|]. intros [Hoff|[? [=]]]. unfold is_off in Hoff. by rewrite Hoff in E1.
Qed.

Lemma failover_add_eq h a e index weight :
  unlocked h → host_offline h !! a = Some true → host_alias h !! a = Some e →
  host_infos h !! a = Some (index, weight) → host_cfg_ok index weight →
  failover h a false = Ret (true, brought_back h e a index weight).
Proof.
  intros (L1 & L2 & L3) Hoff He Hi Hc. unfold failover.
  destruct (at_offline (host_offline h) a) as (E1 & _ & _ & E2).
  destruct (at_ false (host_offline h) a) as [off m]; cbn [fst snd] in E1, E2.
  rewrite Hoff in E1. cbn in E1. subst off.
  cbn [host_alias host_infos with_offline negb]. rewrite He, Hi.
  cbn [hosts_default hosts_read hosts_backup hash hash_read hash_backup with_offline].
  rewrite !add_if_eq by done. cbn [mbind outcome_bind]. unfold brought_back. by rewrite <- E2.
Qed.

(** The ring after a host was put in. *)
Lemma regained_ring_with h set a e i w ring :
  host_alias h !! a = Some e → host_infos h !! a = Some (i, w) →
  regained h (λ b, b = a) set (_hash ring) (_hash (ring_with set (host_port_str e) a i w ring)).
Proof.
  intros He Hi p v. unfold ring_with, claims. case_decide as Ha; cbn.
  - rewrite put_all_lookup. case_decide as Hp; (split; [intros Hv|]).
    + simplify_eq. left. cbn. split; [split_and!; [done..|by exists i, w]|]. split; [by exists e|]. intros b (-> & _). lia.
    + intros [((Hva & _) & (e' & He' & Hv1) & _)|[Hno _]].
      * destruct v as [v1 v2]; cbn in *. subst v2. congruence.
      * exfalso. apply (Hno a). split_and!; [done..|by exists i, w].
    + right. split; [|done]. intros b (-> & _ & i' & w' & ? & ?). simplify_eq. done.
    + intros [((-> & _ & i' & w' & ? & ?) & _)|[_ ?]]; [simplify_eq|]; done.
  - split; [intros Hv; right; split; [|done]; intros b (-> & ? & _); done|].
    intros [((-> & ? & _) & _)|[_ ?]]; done.
Qed.

Lemma regained_none h (B : Z → Prop) set r : (∀ b, ¬ B b) → regained h B set r r.
Proof. intros HB p v. unfold claims. naive_solver. Qed.

Lemma regained_iff h B B' set old new :
  (∀ b, B b ↔ B' b) → regained h B set old new → regained h B' set old new.
Proof.
  intros HB H p v. rewrite (H p v). unfold claims. setoid_rewrite HB. done.
Qed.

(** First the hosts [B1], then the hosts [B2] of larger aliases. *)
Lemma regained_compose h B1 B2 set old mid new :
  regained h B1 set old mid → regained h B2 set mid new → (∀ x y, B1 x → B2 y → x < y) →
  regained h (λ b, B1 b ∨ B2 b) set old new.
Proof.
  intros H1 H2 Hlt p v. rewrite (H2 p v), (H1 p v). unfold claims. split.
  - intros [((HB & Hc) & He & Hm)|[Hno [((HB & Hc) & He & Hm)|[Hno' ?]]]].
    + left. split; [split; [by right|done]|]. split; [done|]. intros b ([Hb|Hb] & Hr); [|by apply Hm].
      specialize (Hlt b v.2 Hb HB). lia.
    + left. split; [split; [by left|done]|]. split; [done|]. intros b ([Hb|Hb] & Hr); [by apply Hm|].
      destruct (Hno b). done.
    + right. split; [|done]. intros b ([Hb|Hb] & Hr); [by apply (Hno' b)|by apply (Hno b)].
  - intros [(([HB|HB] & Hc) & He & Hm)|[Hno ?]].
    + right. split.
      * intros b [Hb Hr]. assert (b <= v.2) by (apply Hm; split; [by right|done]). specialize (Hlt v.2 b HB Hb). lia.
      * left. split; [done|]. split; [done|]. intros b [Hb Hr]. apply Hm. split; [by left|done].
    + left. split; [done|]. split; [done|]. intros b [Hb Hr]. apply Hm. split; [by right|done].
    + right. split; [intros b [? ?]; apply (Hno b); split; [by right|done]|].
      right. split; [|done]. intros b [? ?]. apply (Hno b). split; [by left|done].
Qed.

Lemma all_regained_compose h B1 B2 h1 h2 :
  same_config h h1 → all_regained h B1 h1 → all_regained h1 B2 h2 → (∀ x y, B1 x → B2 y → x < y) →
  all_regained h (λ b, B1 b ∨ B2 b) h2.
Proof.
  intros (E1 & E2 & E3 & E4 & E5) (A1 & A2 & A3) (C1 & C2 & C3) Hlt.
  assert (∀ B set o n, regained h1 B set o n → regained h B set o n) as Hh.
  { intros B set o n H p v. rewrite (H p v). unfold claims. by rewrite E1, E2. }
  rewrite E3, E4, E5 in *. split_and!; eapply regained_compose; eauto.
Qed.

Lemma all_regained_iff h B B' h' : (∀ b, B b ↔ B' b) → all_regained h B h' → all_regained h B' h'.
Proof. intros HB (? & ? & ?). split_and!; by apply (regained_iff _ B). Qed.

Lemma brought_back_regained h a e i w :
  host_alias h !! a = Some e → host_infos h !! a = Some (i, w) →
  all_regained h (λ b, b = a) (brought_back h e a i w).
Proof. intros He Hi. split_and!; by apply regained_ring_with. Qed.

(** The rings of [h'] give a key to [v] or as those of [h] do. *)
Definition keys_move_to (v : mapped_type) (h h' : Hosts) : Prop :=
  ∀ k u, 0 <= k < 2 ^ 32 →
    (ring_find (_hash (hash h')) k = Some u → u = v ∨ ring_find (_hash (hash h)) k = Some u) ∧
    (ring_find (_hash (hash_read h')) k = Some u → u = v ∨ ring_find (_hash (hash_read h)) k = Some u) ∧
    (ring_find (_hash (hash_backup h')) k = Some u → u = v ∨ ring_find (_hash (hash_backup h)) k = Some u).

Definition rings_ok (h : Hosts) : Prop :=
  ring_ok (_hash (hash h)) ∧ ring_ok (_hash (hash_read h)) ∧ ring_ok (_hash (hash_backup h)).

Lemma brought_back_keys h e a i w : rings_ok h → keys_move_to (host_port_str e, a) h (brought_back h e a i w).
Proof.
  intros (R1 & R2 & R3) k u Hk. cbn. unfold ring_with.
  split_and!; case_decide; cbn; try by right.
  all: by apply put_all_find.
Qed.

(** * Properties: one host *)

(** C11: taking a host out when it is off already, or not known, changes no ring; when it is
    online it is undefined as soon as one of its rings has a point of it, and otherwise marks it
    offline.  Bringing back a host that is off puts its points, and no others, on the rings it is
    configured for, so that keys move only onto it, and marks it online; a host that is not off, or has no
    address or no weight, changes no ring. *)
Theorem failover_spec (h : Hosts) (a : Z) :
  unlocked h → rings_ok h →
  (is_off h a → failover h a true = Ret (true, h)) ∧
  (¬ is_off h a → host_alias h !! a = None →
     ∃ h', failover h a true = Ret (false, h') ∧ same_config h h' ∧ same_rings h h' ∧ ∀ x, is_off h' x ↔ is_off h x) ∧
  (online_known h a → on_rings h a → failover h a true = Undef StaleIterator) ∧
  (online_known h a → ¬ on_rings h a →
     ∃ h', failover h a true = Ret (true, h') ∧ same_config h h' ∧ same_rings h h' ∧
       host_offline h' = <[a := true]> (host_offline h)) ∧
  (¬ is_off h a →
     ∃ h', failover h a false = Ret (true, h') ∧ same_config h h' ∧ same_rings h h' ∧ ∀ x, is_off h' x ↔ is_off h x) ∧
  (is_off h a → host_alias h !! a = None ∨ host_infos h !! a = None → failover h a false = Ret (false, h)) ∧
  (∀ e i w, is_off h a → host_alias h !! a = Some e → host_infos h !! a = Some (i, w) → host_cfg_ok i w →
     ∃ h', failover h a false = Ret (true, h') ∧ same_config h h' ∧ all_regained h (λ b, b = a) h' ∧
       keys_move_to (host_port_str e, a) h h' ∧ host_offline h' = <[a := false]> (host_offline h)).
Proof.
  intros Hu Hok. destruct (at_offline (host_offline h) a) as (A1 & A2 & _ & _).
  assert (is_off h a → at_ false (host_offline h) a = (true, host_offline h)) as Hat by (unfold is_off, at_; by intros ->).
  split_and!.
  - intros Ho. unfold failover. rewrite (Hat Ho). by destruct h.
  - intros Ho Hn. destruct (failover_del_cases h a Hu) as [([_ [? ?]] & _)|(_ & h' & E & _ & Hc & Hr & Hf)]; [congruence|].
    rewrite bool_decide_eq_false_2 in E by (rewrite Hn; intros [?|[? [=]]]; done).
    exists h'. split_and!; try done. intros x. unfold is_off. rewrite Hf, decide_False; [done|].
    intros [_ [? ?]]. congruence.
  - intros Ho Hr. destruct (failover_del_cases h a Hu) as [(_ & _ & ?)|(Hno & _)]; [done|by destruct Hno].
  - intros Ho Hr. destruct (failover_del_cases h a Hu) as [(_ & ? & _)|(_ & h' & E & _ & Hc & Hr' & Hf)]; [done|].
    rewrite bool_decide_eq_true_2 in E by (right; apply Ho). rewrite decide_True in Hf by done. by exists h'.
  - intros Ho. unfold failover. destruct (at_ false (host_offline h) a) as [off m]; cbn [fst snd] in *. subst off.
    destruct (default false (host_offline h !! a)) eqn:Ed; cbn [negb].
    + destruct Ho. unfold is_off. by destruct (host_offline h !! a) as [[]|].
    + eexists. split; [done|]. done.
  - intros Ho Hn. unfold failover. rewrite (Hat Ho). cbn. destruct Hn as [->|Hn]; [by destruct h|].
    rewrite Hn. destruct (host_alias h !! a); by destruct h.
  - intros e i w Ho He Hi Hc. exists (brought_back h e a i w). split; [by apply failover_add_eq|].
    split; [done|]. split; [by apply brought_back_regained|]. split; [by apply brought_back_keys|done].
Qed.


Definition demo_hosts : Hosts := {|
  host_alias := {[ 1 := (bs "10.0.0.1", 11211) ]}; host_infos := {[ 1 := (1, 3) ]};
  host_offline := {[ 1 := false ]}; hosts_default := {[ 1 ]}; hosts_read := ∅; hosts_backup := ∅;
  hash := demo_hash; hash_backup := hash_new; hash_read := hash_new; alias_index_count := 1 |}.

(** The same host, offline, with nothing of it on the rings. *)
Definition off_hosts : Hosts := {|
  host_alias := host_alias demo_hosts; host_infos := host_infos demo_hosts;
  host_offline := {[ 1 := true ]}; hosts_default := {[ 1 ]}; hosts_read := ∅; hosts_backup := ∅;
  hash := hash_new; hash_backup := hash_new; hash_read := hash_new; alias_index_count := 1 |}.

Lemma failover_spec_witness :
  failover demo_hosts 1 true = Undef StaleIterator ∧
  ∃ h', failover off_hosts 1 false = Ret (true, h') ∧ all_regained off_hosts (λ b, b = 1) h'.
Proof.
  split.
  - destruct (failover_spec demo_hosts 1) as (_ & _ & H & _).
    + split_and!; reflexivity.
    + split_and!; [apply demo_ring_ok|apply empty_ok..].
    + apply H; [split; [vm_compute; discriminate|by eexists]|].
      left. split; [cbn; set_solver|]. exists (vnode_point 1 0), (bs "10.0.0.1:11211", 1). split; [vm_compute; reflexivity|done].
  - destruct (failover_spec off_hosts 1) as (_ & _ & _ & _ & _ & _ & H).
    + split_and!; reflexivity.
    + split_and!; apply empty_ok.
    + destruct (H (bs "10.0.0.1", 11211) 1 3) as (h' & E & _ & Hr & _);
        [reflexivity..|clear H; unfold host_cfg_ok; lia|]. exists h'. split; [exact E|exact Hr].
Defined.

(** When another thread holds a ring's lock, [failover] cannot change that ring, but still
    returns true and records the host as offline: the ring keeps giving it keys, and every later
    attempt to take it out does nothing. *)
Theorem failover_busy (h : Hosts) (a : Z) :
  _lock (hash h) = true → (a ∉ hosts_read h) → (a ∉ hosts_backup h) → online_known h a →
  ∃ h1, failover h a true = Ret (true, h1) ∧ host_offline h1 !! a = Some true ∧ hash h1 = hash h ∧
    failover h1 a true = Ret (true, h1).
Proof.
  intros Hl Hr Hb [Hoff [e He]].
  destruct (at_offline (host_offline h) a) as (E1 & _ & E2 & _).
  assert (failover h a true = Ret (true, with_offline h (<[a := true]> (host_offline h)))) as E.
  { unfold failover. destruct (at_ false (host_offline h) a) as [off m]; cbn [fst snd] in E1, E2.
    assert (off = false) as -> by (rewrite E1; destruct (host_offline h !! a) as [[]|]; done).
    cbn [host_alias with_offline]. rewrite He.
    cbn [hosts_default hosts_read hosts_backup hash hash_read hash_backup with_offline].
    unfold del_if. rewrite (decide_False (P := a ∈ hosts_read h)), (decide_False (P := a ∈ hosts_backup h)) by done.
    assert ((if decide (a ∈ hosts_default h) then r ← delHost (hash h) a; Ret r.2 else Ret (hash h)) = Ret (hash h)) as ->.
    { case_decide; [|done]. unfold delHost. by rewrite Hl. }
    cbn [mbind outcome_bind]. by rewrite <- E2. }
  eexists. split; [exact E|]. split; [cbn; apply lookup_insert_eq|]. split; [done|].
  unfold failover. cbn [host_offline with_offline]. unfold at_. by rewrite lookup_insert_eq.
Qed.

Lemma failover_busy_witness :
  let h := {| host_alias := host_alias demo_hosts; host_infos := host_infos demo_hosts;
              host_offline := host_offline demo_hosts; hosts_default := {[ 1 ]}; hosts_read := ∅; hosts_backup := ∅;
              hash := {| _hash := demo_ring; _hash_tmp := ∅; _lock := true |};
              hash_backup := hash_new; hash_read := hash_new; alias_index_count := 1 |} in
  ∃ h1, failover h 1 true = Ret (true, h1) ∧ host_offline h1 !! 1 = Some true ∧ hash h1 = hash h ∧
    failover h1 1 true = Ret (true, h1).
Proof.
  apply failover_busy.
  - reflexivity.
  - cbn. set_solver.
  - cbn. set_solver.
  - split; [vm_compute; discriminate|]. by eexists.
Defined.

(** * Properties: a round *)

(** A host of the list [l] of counters that has reached the threshold. *)
Definition failing (thr : Z) (l : list (Z * Z)) (a : Z) : Prop := ∃ n, (a, n) ∈ l ∧ thr <= i32 n.

(** Some host over the threshold must be taken out of a ring that has a point of it. *)
Definition must_erase (thr : Z) (l : list (Z * Z)) (h : Hosts) : Prop :=
  ∃ a, failing thr l a ∧ online_known h a ∧ on_rings h a.

Lemma failing_cons thr a n l x : failing thr ((a, n) :: l) x ↔ x = a ∧ thr <= i32 n ∨ failing thr l x.
Proof. unfold failing. setoid_rewrite elem_of_cons. naive_solver. Qed.

Lemma same_on_rings h h' a : same_config h h' → same_rings h h' → on_rings h' a ↔ on_rings h a.
Proof. intros (_ & _ & E3 & E4 & E5) (R1 & R2 & R3). unfold on_rings. by rewrite E3, E4, E5, R1, R2, R3. Qed.

Lemma failover_del_flags h a h' :
  host_offline h' = (if decide (online_known h a) then <[a := true]> (host_offline h) else (at_ false (host_offline h) a).2) →
  ∀ x, is_off h' x ↔ is_off h x ∨ x = a ∧ is_Some (host_alias h !! a).
Proof.
  intros Hf x. unfold is_off. rewrite Hf. destruct (at_offline (host_offline h) a) as (_ & A2 & _ & _). case_decide as Ho.
  - rewrite lookup_insert_Some. destruct Ho as [? ?]. naive_solver.
  - rewrite A2. split; [by left|]. intros [?|[-> Hs]]; [done|].
    destruct (host_offline h !! a) as [[]|] eqn:Eo; [done|exfalso; apply Ho; split; [congruence|done]..].
Qed.

Lemma offline_loop_spec thr l : ∀ h, unlocked h →
  (must_erase thr l h ∧ offline_loop thr l h = Undef StaleIterator) ∨
  (¬ must_erase thr l h ∧ ∃ h', offline_loop thr l h = Ret h' ∧ unlocked h' ∧ same_config h h' ∧ same_rings h h' ∧
     ∀ x, is_off h' x ↔ is_off h x ∨ failing thr l x ∧ is_Some (host_alias h !! x)).
Proof.
  assert (∀ x, ¬ failing thr [] x) as Hnil by (intros x (n & Hin & _); by apply not_elem_of_nil in Hin).
  induction l as [|[a n] l IH]; intros h Hu.
  { right. split; [intros (a & Ha & _); by apply (Hnil a)|]. exists h. split_and!; try done. naive_solver. }
  cbn [offline_loop]. unfold must_erase. setoid_rewrite failing_cons. case_decide as Hn.
  - destruct (failover_del_cases h a Hu) as [(Ho & Hr & E)|(Hno & h1 & E & Hu1 & Hc1 & Hr1 & Hf1)].
    { left. rewrite E. split; [|done]. exists a. split; [by left|done]. }
    rewrite E. cbn [mbind outcome_bind snd].
    pose proof (failover_del_flags h a h1 Hf1) as Hf. pose proof Hc1 as (A1 & A2 & A3 & A4 & A5).
    assert (∀ x, online_known h1 x ↔ online_known h x ∧ x ≠ a) as Hk.
    { intros x. unfold online_known. rewrite A1. fold (is_off h1 x) (is_off h x). rewrite Hf.
      split; [|naive_solver]. intros [? ?]. split; [naive_solver|]. intros ->. naive_solver. }
    destruct (IH h1 Hu1) as [[(x & Hx & Hox & Hrx) E']|(Hno' & h' & E' & Hu' & Hc' & Hr' & Hf')].
    + left. split; [|done]. exists x. split; [by right|]. split; [by apply Hk|]. by apply (same_on_rings h h1).
    + right. split.
      * intros (x & [[-> _]|Hx] & Hox & Hrx); [by apply Hno|]. destruct (decide (x = a)) as [->|Hxa]; [by apply Hno|].
        apply Hno'. exists x. split; [done|]. split; [by apply Hk|]. by apply (same_on_rings h h1).
      * exists h'. split; [done|]. split; [done|].
        destruct Hc' as (B1 & B2 & B3 & B4 & B5), Hr1 as (R1 & R2 & R3), Hr' as (S1 & S2 & S3).
        split; [unfold same_config; intuition congruence|]. split; [unfold same_rings; intuition congruence|].
        intros x. rewrite Hf', Hf, A1. naive_solver.
  - destruct (IH h Hu) as [[(x & Hx & Hr) E]|(Hno & h' & E & Hu' & Hc' & Hr' & Hf')].
    + left. split; [|done]. exists x. split; [by right|done].
    + right. split; [intros (x & [[_ ?]|Hx] & Hr); [lia|]; apply Hno; by exists x|].
      exists h'. split_and!; try done. intros x. rewrite Hf'. naive_solver.
Qed.

(** Worlds, closed under probing, in which exactly the hosts of [up] answer. *)
Definition answers {W} `{!Net W} (P : W → Prop) (up : bytes → Z → bool) : Prop :=
  ∀ w host port, P w →
    (0 < (createConnection w host port).1 ↔ up host port = true) ∧
    P (createConnection w host port).2 ∧
    P (closeConnection (createConnection w host port).1 (createConnection w host port).2).

(** Every host of the configuration has an index and a weight. *)
Definition configured (h : Hosts) : Prop :=
  ∀ a, is_Some (host_alias h !! a) → ∃ i w, host_infos h !! a = Some (i, w) ∧ host_cfg_ok i w.

Lemma countFail_reset s a :
  st_cont_fail (countFail s false a) !! a = Some 0 ∧
  (∀ x, x ≠ a → st_cont_fail (countFail s false a) !! x = st_cont_fail s !! x) ∧
  st_fail (countFail s false a) = st_fail s.
Proof.
  unfold countFail, at_. destruct (st_cont_fail s !! a) as [c|] eqn:E; cbn.
  - case_decide as Hc; cbn; [split; [apply lookup_insert_eq|split; [intros; by rewrite lookup_insert_ne|done]]|].
    split; [|done]. rewrite E. f_equal. lia.
  - rewrite decide_False by lia. cbn. split; [apply lookup_insert_eq|split; [intros; by rewrite lookup_insert_ne|done]].
Qed.

(** The hosts the second loop brings back. *)
Definition back (up : bytes → Z → bool) (h : Hosts) (l : list (Z * bool)) (a : Z) : Prop :=
  (a, true) ∈ l ∧ ∃ e, host_alias h !! a = Some e ∧ up e.1 e.2 = true.

Lemma back_cons up h l a off x :
  back up h ((a, off) :: l) x ↔
  (x = a ∧ off = true ∧ ∃ e, host_alias h !! a = Some e ∧ up e.1 e.2 = true) ∨ back up h l x.
Proof. unfold back. rewrite elem_of_cons. naive_solver. Qed.

Lemma online_loop_spec {W} `{!Net W} (P : W → Prop) up l : ∀ h s w,
  answers P up → P w → unlocked h → configured h → NoDup l.*1 → StronglySorted entry_le l →
  (∀ a, (a, true) ∈ l → is_off h a) →
  ∃ h' s' w', online_loop (host_alias h) l h s w = Ret (h', s', w') ∧ P w' ∧ unlocked h' ∧
    same_config h h' ∧ all_regained h (back up h l) h' ∧
    (∀ a, is_off h' a ↔ is_off h a ∧ ¬ back up h l a) ∧
    (∀ a, back up h l a → st_cont_fail s' !! a = Some 0) ∧
    (∀ a, ¬ back up h l a → st_cont_fail s' !! a = st_cont_fail s !! a) ∧ st_fail s' = st_fail s.
Proof.
  intros h s w Hup. revert h s w. induction l as [|[a off] l IH]; intros h s w Hw Hu Hc Hn Hs Hl.
  { assert (∀ b, ¬ back up h [] b) as Hnil by (intros b [Hb _]; by apply not_elem_of_nil in Hb).
    exists h, s, w. split; [done|]. split; [done|]. split; [done|]. split; [done|].
    split; [split_and!; by apply regained_none|]. naive_solver. }
  cbn [fmap list_fmap fst] in Hn. apply NoDup_cons in Hn as [Ha Hn].
  apply StronglySorted_inv in Hs as [Hs Hle]. rewrite Forall_forall in Hle.
  assert (¬ back up h l a) as Hna.
  { intros [Hin _]. apply Ha, list_elem_of_fmap. by exists (a, true). }
  assert (∀ x, back up h l x → a < x) as Hlt.
  { intros x Hx. assert (a ≠ x) by (intros ->; done). destruct Hx as [Hin _].
    specialize (Hle _ Hin). unfold entry_le in Hle. cbn in Hle. rewrite kle_Z in Hle. lia. }
  pose proof (back_cons up h l a off) as Hcons.
  cbn [online_loop].
  assert ((¬ ∃ e, off = true ∧ host_alias h !! a = Some e ∧ up e.1 e.2 = true) → ∀ w1, P w1 →
    ∃ h' s' w', online_loop (host_alias h) l h s w1 = Ret (h', s', w') ∧ P w' ∧ unlocked h' ∧
      same_config h h' ∧ all_regained h (back up h ((a, off) :: l)) h' ∧
      (∀ x, is_off h' x ↔ is_off h x ∧ ¬ back up h ((a, off) :: l) x) ∧
      (∀ x, back up h ((a, off) :: l) x → st_cont_fail s' !! x = Some 0) ∧
      (∀ x, ¬ back up h ((a, off) :: l) x → st_cont_fail s' !! x = st_cont_fail s !! x) ∧ st_fail s' = st_fail s) as Hskip.
  { intros Hno w1 Hw1.
    assert (∀ x, back up h l x ↔ back up h ((a, off) :: l) x) as Hb by (intros x; rewrite Hcons; naive_solver).
    destruct (IH h s w1) as (h' & s' & w' & E & H1 & H2 & H3 & H4 & H5 & H6 & H7 & H8); try done.
    { intros x Hx. apply Hl. by right. }
    exists h', s', w'. setoid_rewrite <- Hb. split_and!; try done; by apply (all_regained_iff h _ _ _ Hb). }
  destruct off; [|apply Hskip; [naive_solver|done]].
  destruct (host_alias h !! a) as [[host port]|] eqn:He; [|apply Hskip; [naive_solver|done]].
  destruct (Hup w host port Hw) as (H1 & H2 & H3).
  destruct (createConnection w host port) as [fd w1]; cbn [fst snd] in *.
  case_decide as Hfd.
  2: { apply Hskip; [|done]. intros (e & _ & [= <-] & Hue). cbn in Hue. by apply Hfd, H1. }
  clear Hskip. destruct (Hc a) as (i & wt & Hi & Hci); [by eexists|].
  rewrite (failover_add_eq h a (host, port) i wt) by (done || (apply Hl; by left)). cbn [mbind outcome_bind snd].
  set (h1 := brought_back h (host, port) a i wt).
  destruct (IH h1 (countFail s false a) (closeConnection fd w1)) as (h' & s' & w' & E & G1 & G2 & G3 & G4 & G5 & G6 & G7 & G8);
    try done.
  { destruct Hu as (? & ? & ?). split_and!; cbn; by apply ring_with_unlocked. }
  { intros x Hx. unfold is_off. cbn. rewrite lookup_insert_ne; [apply Hl; by right|]. intros ->.
    apply Ha, list_elem_of_fmap. by exists (x, true). }
  destruct (countFail_reset s a) as (R1 & R2 & R3).
  assert (∀ x, x = a ∨ back up h1 l x ↔ back up h ((a, true) :: l) x) as Hb.
  { intros x. rewrite Hcons. change (back up h1 l x) with (back up h l x).
    assert (∃ e, host_alias h !! a = Some e ∧ up e.1 e.2 = true) by (exists (host, port); split; [done|by apply H1]). naive_solver. }
  exists h', s', w'. setoid_rewrite <- Hb. split; [done|]. split; [done|]. split; [done|]. split; [done|]. split.
  { apply (all_regained_iff h (λ x, x = a ∨ back up h1 l x)); [done|].
    apply (all_regained_compose h (λ x, x = a) (back up h1 l) h1); [done|by apply brought_back_regained|done|].
    intros x y -> Hy. by apply Hlt. }
  split_and!.
  - intros x. rewrite G5. unfold is_off. cbn. rewrite lookup_insert_Some. naive_solver.
  - intros x [->|Hx]; [by rewrite G7|by apply G6].
  - intros x Hx. rewrite G7 by naive_solver. apply R2. naive_solver.
  - by rewrite G8.
Qed.

(** The hosts a round brings back: off or over the threshold, known, and answering. *)
Definition comes_back (up : bytes → Z → bool) (thr : Z) (h : Hosts) (s : Stats) (a : Z) : Prop :=
  (is_off h a ∨ failing thr (elems (st_cont_fail s)) a) ∧ ∃ e, host_alias h !! a = Some e ∧ up e.1 e.2 = true.


Lemma sim_answers (u : list (bytes * Z)) :
  answers (λ w : sim, sim_up w = u) (λ host port, bool_decide ((host, u16 port) ∈ u)).
Proof.
  intros w host port Hw. rewrite bool_decide_eq_true. unfold createConnection; cbn.
  assert (2 < sim_fresh w) as Hf.
  { unfold sim_fresh. assert (2 <= set_fold Z.max 2 (sim_open w)); [|lia].
    apply (set_fold_ind_L (λ r (_ : gset Z), 2 <= r)); intros; lia. }
  rewrite decide_False by lia. unfold sim_connect; cbn. rewrite Hw.
  destruct (decide ((host, u16 port) ∈ u)) as [Hin|Hin]; cbn.
  - rewrite decide_False by lia. cbn. split; [split; [done|lia]|]. split; [done|].
    unfold closeConnection. rewrite decide_True by lia. done.
  - rewrite decide_True by lia. cbn. split; [split; [lia|done]|]. split; [done|].
    unfold closeConnection. by rewrite decide_False by lia.
Qed.

Definition demo_stats : Stats := {|
  st_req := 0; st_conn := 0; st_limit := 2100000000; st_cont_fail := {[ 1 := 2 ]}; st_fail := {[ 1 := 2 ]} |}.

