(* ===== verification/Request.v ===== *)
(** Routing: [KvProxy::createReqGroup] of [src/kvproxy.cpp], which sorts the requests of a
    client buffer into groups per backend host, for the default or read ring, the backup ring
    (asynchronous copies) and the synchronous copies. *)
From S2P Require Import Prelude StdMap Util Crc32 Hash Config Extension Net ConnPool Failover.

(** * Operations *)

(** [map<uint32_t, req_ptr_list_t>]; the pointers lead to requests that do not change. *)
Abbreviation req_group_t := (gmap Z (list req_t)).

(** [group[a].push_back(r)] *)
Definition push (m : req_group_t) (a : Z) (r : req_t) : req_group_t := <[a := default [] (m !! a) ++ [r]]> m.

(** A pointer into the request buffer. *)
Definition mem_from (mem : bytes) (off : Z) : outcome bytes :=
  if decide (0 <= off <= Z.of_nat (length mem)) then Ret (drop (Z.to_nat off) mem) else Undef OutOfBounds.

(** [hash.find(req->key, req->key_len)] *)
Definition find_host (ring : ConsistentHash) (mem : bytes) (r : req_t) : outcome (bytes * Z) :=
  k ← mem_from mem (key r); find ring k (key_len r).

(** [strncmp(mem + off, s, s.size()) == 0] *)
Fixpoint strncmp_eq (s : bytes) (mem : bytes) (off : Z) : outcome bool :=
  match s with
  | [] => Ret true
  | b :: s =>
      c ← mem_get mem off;
      if decide (c ≠ b) then Ret false
      else if decide (b = x00) then Ret true
      else strncmp_eq s mem (off + 1)
  end.

Record groups := { group : req_group_t; backup : req_group_t; sync : req_group_t; req_list_each : list req_t }.

Definition groups_new : groups := {| group := ∅; backup := ∅; sync := ∅; req_list_each := [] |}.

(** The end of one turn: the copy for the backup ring. *)
Definition backup_step (h : Hosts) (sync_str mem : bytes) (r : req_t) (g : groups) : outcome groups :=
  if update r && bool_decide (0 < getSize (hash_backup h)) then
    host ← find_host (hash_backup h) mem r;
    if decide (host.2 = 0) then Ret g
    else
      is_sync ← strncmp_eq sync_str mem (key r);
      if (is_sync : bool)
      then Ret {| group := group g; backup := backup g; sync := push (sync g) host.2 r; req_list_each := req_list_each g |}
      else Ret {| group := group g; backup := push (backup g) host.2 r; sync := sync g; req_list_each := req_list_each g |}
  else Ret g.

Definition group_step (h : Hosts) (sync_str mem : bytes) (r : req_t) (g : groups) : outcome groups :=
  if each r then
    backup_step h sync_str mem r
      {| group := group g; backup := backup g; sync := sync g; req_list_each := req_list_each g ++ [r] |}
  else if decide (key_len r = 0) then Ret g
  else
    host ← find_host (if negb (update r) && bool_decide (0 < getSize (hash_read h)) then hash_read h else hash h) mem r;
    if decide (host.2 = 0) then Ret g
    else
      backup_step h sync_str mem r
        {| group := push (group g) host.2 r; backup := backup g; sync := sync g; req_list_each := req_list_each g |}.

Fixpoint group_loop (h : Hosts) (sync_str mem : bytes) (reqs : list req_t) (g : groups) : outcome groups :=
  match reqs with
  | [] => Ret g
  | r :: reqs => g ← group_step h sync_str mem r g; group_loop h sync_str mem reqs g
  end.

(** One marker request for every host of the map. *)
Definition push_all (m : req_group_t) (r : req_t) : req_group_t := foldl (λ m e, push m e.1 r) m (elems m).

Definition each_loop (m : req_group_t) (l : list req_t) : req_group_t := foldl push_all m l.

Definition createReqGroup (h : Hosts) (sync_str mem : bytes) (reqs : list req_t)
    : outcome (req_group_t * req_group_t * req_group_t) :=
  g ← group_loop h sync_str mem reqs groups_new;
  Ret (each_loop (group g) (req_list_each g), each_loop (backup g) (req_list_each g), sync g).

(** * Specification *)

(** The alias a ring gives a request, 0 for none. *)
Definition key_of (mem : bytes) (r : req_t) : bytes := take (Z.to_nat (key_len r)) (drop (Z.to_nat (key r)) mem).
Definition alias_on (ring : ConsistentHash) (mem : bytes) (r : req_t) : Z :=
  default 0 (snd <$> ring_find (_hash ring) (crc32_spec (key_of mem r))).

Definition ring_for (h : Hosts) (r : req_t) : ConsistentHash :=
  if negb (update r) && bool_decide (0 < getSize (hash_read h)) then hash_read h else hash h.

Definition owner (h : Hosts) (mem : bytes) (r : req_t) : Z :=
  if each r || bool_decide (key_len r = 0) then 0 else alias_on (ring_for h r) mem r.

(** The backup host of a request, 0 when it is not copied. *)
Definition backup_owner (h : Hosts) (mem : bytes) (r : req_t) : Z :=
  if (each r || bool_decide (owner h mem r ≠ 0)) && update r && bool_decide (0 < getSize (hash_backup h))
  then alias_on (hash_backup h) mem r else 0.

(** The key starts with the configured prefix. *)
Definition synced (sync_str mem : bytes) (r : req_t) : bool :=
  match strncmp_eq sync_str mem (key r) with Ret b => b | _ => false end.

(** The requests a map must hold for host [a]: those with this owner, in order, then [ends]. *)
Definition holds (m : req_group_t) (own : req_t → Z) (reqs ends : list req_t) : Prop :=
  ∀ a, m !! a =
    let l := filter (λ r, own r = a) reqs in
    if decide (a = 0 ∨ l = []) then None else Some (l ++ ends).

(** The key lies in the buffer, with the prefix to compare it to. *)
Definition readable (sync_str mem : bytes) (r : req_t) : Prop :=
  0 <= key r ∧ 0 <= key_len r < 2 ^ 16 ∧ key r + key_len r <= Z.of_nat (length mem) ∧
  ∃ b, strncmp_eq sync_str mem (key r) = Ret b.

(** * Lemmas *)

Lemma find_host_alias ring sync_str mem r :
  readable sync_str mem r →
  ∃ s, find_host ring mem r = Ret (s, alias_on ring mem r).
Proof.
  intros (H1 & H2 & H3 & _). unfold find_host, mem_from. rewrite decide_True by lia. cbn [mbind outcome_bind].
  set (d := drop (Z.to_nat (key r)) mem).
  assert (Z.of_nat (length (key_of mem r)) = key_len r) as Hl
    by (unfold key_of; rewrite length_take, length_drop; lia).
  assert (d = key_of mem r ++ drop (Z.to_nat (key_len r)) d) as Ed by (unfold key_of; by rewrite take_drop).
  unfold find. rewrite Ed, <- Hl, crc32_ref_eq by lia. cbn [mbind outcome_bind].
  unfold alias_on, crc32_spec. change (Z.lxor 0 4294967295) with 4294967295.
  destruct (ring_find _ _) as [[s a]|]; cbn; by eexists.
Qed.

Lemma push_lookup m a r x :
  push m a r !! x = if decide (x = a) then Some (default [] (m !! a) ++ [r]) else m !! x.
Proof. unfold push. case_decide; [subst; apply lookup_insert_eq|by rewrite lookup_insert_ne]. Qed.

(** What a run of the loop adds to a map: [own] gives the host of each request. *)
Definition adds (m m' : req_group_t) (own : req_t → Z) (reqs : list req_t) : Prop :=
  ∀ a, m' !! a =
    let l := filter (λ r, own r = a) reqs in
    if decide (a = 0 ∨ l = []) then m !! a else Some (default [] (m !! a) ++ l).

Lemma adds_nil m own : adds m m own [].
Proof. intros a. cbn. rewrite decide_True; [done|by right]. Qed.

(** One request, put in the group of its owner, or nowhere. *)
Lemma adds_cons m m1 m' own r reqs :
  m1 = (if decide (own r = 0) then m else push m (own r) r) → adds m1 m' own reqs → adds m m' own (r :: reqs).
Proof.
  intros -> Hm a. rewrite (Hm a). cbv zeta. destruct (decide (own r = 0)) as [E0|E0].
  - destruct (decide (a = 0)) as [->|Ha].
    + rewrite !decide_True by (by left). done.
    + rewrite filter_cons_False by congruence. done.
  - rewrite push_lookup. destruct (decide (a = own r)) as [->|Ha].
    + rewrite filter_cons_True by done. rewrite (decide_False (P := own r = 0 ∨ _ :: _ = [])) by naive_solver.
      destruct (decide (own r = 0 ∨ filter (λ r0, own r0 = own r) reqs = [])) as [[?|En]|Hn]; [done| |].
      * by rewrite En.
      * cbn. by rewrite <- app_assoc.
    + rewrite filter_cons_False by congruence. done.
Qed.

Definition backup_async h sync_str mem r : Z := if synced sync_str mem r then 0 else backup_owner h mem r.
Definition backup_sync h sync_str mem r : Z := if synced sync_str mem r then backup_owner h mem r else 0.

(** The copy step puts the request in at most one of the two maps. *)
Lemma backup_step_eq h sync_str mem r g :
  readable sync_str mem r → (each r || bool_decide (owner h mem r ≠ 0)) = true →
  backup_step h sync_str mem r g = Ret {|
    group := group g;
    backup := if decide (backup_async h sync_str mem r = 0) then backup g
              else push (backup g) (backup_async h sync_str mem r) r;
    sync := if decide (backup_sync h sync_str mem r = 0) then sync g
            else push (sync g) (backup_sync h sync_str mem r) r;
    req_list_each := req_list_each g |}.
Proof.
  intros Hr Ho. unfold backup_step, backup_async, backup_sync, backup_owner, synced. rewrite Ho. cbn [andb].
  pose proof Hr as (H1 & H2 & H3 & b & Hb). rewrite Hb.
  destruct (update r && bool_decide (0 < getSize (hash_backup h))).
  2: { destruct b; rewrite !decide_True by done; by destruct g. }
  destruct (find_host_alias (hash_backup h) sync_str mem r) as [s ->]; [exact Hr|].
  cbn [mbind outcome_bind snd]. destruct (decide (alias_on (hash_backup h) mem r = 0)) as [E|E].
  - destruct b; rewrite ?E, ?decide_True by done; by destruct g.
  - destruct b; rewrite (decide_True (P := 0 = 0)) by done; by rewrite ?decide_False.
Qed.

Lemma owner_none h mem r : (each r || bool_decide (owner h mem r ≠ 0)) = false → owner h mem r = 0 ∧ backup_owner h mem r = 0.
Proof.
  intros E. unfold backup_owner. rewrite E. cbn. split; [|done].
  apply orb_false_iff in E as [_ E]. apply bool_decide_eq_false in E. by destruct (decide (owner h mem r = 0)).
Qed.

(** One turn, in terms of the owners. *)
Lemma group_step_eq h sync_str mem r g :
  readable sync_str mem r →
  group_step h sync_str mem r g = Ret {|
    group := if decide (owner h mem r = 0) then group g else push (group g) (owner h mem r) r;
    backup := if decide (backup_async h sync_str mem r = 0) then backup g
              else push (backup g) (backup_async h sync_str mem r) r;
    sync := if decide (backup_sync h sync_str mem r = 0) then sync g
            else push (sync g) (backup_sync h sync_str mem r) r;
    req_list_each := req_list_each g ++ (if each r then [r] else []) |}.
Proof.
  intros Hr. unfold group_step. destruct (each r) eqn:Ee.
  - rewrite backup_step_eq by (done || by rewrite Ee). cbn. f_equal. f_equal.
    unfold owner. rewrite Ee. cbn. by rewrite decide_True.
  - rewrite app_nil_r.
    assert (owner h mem r = 0 → Ret g = Ret {|
      group := if decide (owner h mem r = 0) then group g else push (group g) (owner h mem r) r;
      backup := if decide (backup_async h sync_str mem r = 0) then backup g
                else push (backup g) (backup_async h sync_str mem r) r;
      sync := if decide (backup_sync h sync_str mem r = 0) then sync g
              else push (sync g) (backup_sync h sync_str mem r) r;
      req_list_each := req_list_each g |}) as Hskip.
    { intros E0. assert (backup_owner h mem r = 0) as E1.
      { apply owner_none. rewrite Ee, E0. done. }
      unfold backup_async, backup_sync. rewrite E1.
      destruct (synced sync_str mem r); rewrite !decide_True by done; by destruct g. }
    destruct (decide (key_len r = 0)) as [Ek|Ek].
    { apply Hskip. unfold owner. rewrite Ee, bool_decide_eq_true_2 by done. done. }
    fold (ring_for h r). destruct (find_host_alias (ring_for h r) sync_str mem r Hr) as [s ->].
    cbn [mbind outcome_bind snd].
    assert (owner h mem r = alias_on (ring_for h r) mem r) as Eo
      by (unfold owner; by rewrite Ee, bool_decide_eq_false_2).
    destruct (decide (alias_on (ring_for h r) mem r = 0)) as [E|E]; [apply Hskip; congruence|].
    rewrite backup_step_eq; [|done|rewrite Ee, Eo; by rewrite bool_decide_eq_true_2].
    cbn. rewrite Eo. by rewrite (decide_False (P := alias_on (ring_for h r) mem r = 0)).
Qed.

Lemma group_loop_adds h sync_str mem reqs : ∀ g,
  Forall (readable sync_str mem) reqs →
  ∃ g', group_loop h sync_str mem reqs g = Ret g' ∧
    adds (group g) (group g') (owner h mem) reqs ∧
    adds (backup g) (backup g') (backup_async h sync_str mem) reqs ∧
    adds (sync g) (sync g') (backup_sync h sync_str mem) reqs ∧
    req_list_each g' = req_list_each g ++ filter (λ r, each r = true) reqs.
Proof.
  induction reqs as [|r reqs IH]; intros g Hr.
  { exists g. split; [done|]. do 3 (split; [apply adds_nil|]). by rewrite filter_nil, app_nil_r. }
  apply Forall_cons in Hr as [Hr Hrs]. cbn [group_loop]. rewrite group_step_eq by done. cbn [mbind outcome_bind].
  match goal with |- context [group_loop _ _ _ _ ?g1] => destruct (IH g1 Hrs) as (g' & E & H1 & H2 & H3 & H4) end.
  exists g'. split; [done|]. cbn [group backup sync req_list_each] in *. split_and!.
  - eapply adds_cons; [reflexivity|done].
  - eapply adds_cons; [reflexivity|done].
  - eapply adds_cons; [reflexivity|done].
  - rewrite H4, <- app_assoc. f_equal. destruct (each r) eqn:Ee.
    + by rewrite filter_cons_True.
    + by rewrite filter_cons_False by congruence.
Qed.

(** Pushing a marker on every host of a map. *)
Lemma push_all_lookup m r a : push_all m r !! a = (λ l, l ++ [r]) <$> m !! a.
Proof.
  unfold push_all.
  assert (∀ (l : list (Z * list req_t)) (acc : req_group_t), NoDup l.*1 →
    (∀ x v, (x, v) ∈ l → acc !! x = Some v) →
    ∀ a, foldl (λ m e, push m e.1 r) acc l !! a =
         if decide (a ∈ l.*1) then (λ v, v ++ [r]) <$> acc !! a else acc !! a) as Hf.
  { induction l as [|[x v] l IH]; intros acc Hn Hl b; cbn [foldl fmap list_fmap fst];
      [by rewrite decide_False by apply not_elem_of_nil|].
    cbn in Hn. apply NoDup_cons in Hn as [Hx Hn]. rewrite IH; [|done|].
    - rewrite push_lookup. destruct (decide (b = x)) as [->|Hne].
      + rewrite decide_False by done. rewrite decide_True by set_solver.
        by rewrite (Hl x v) by (by left).
      + destruct (decide (b ∈ l.*1)); [by rewrite decide_True by set_solver|by rewrite decide_False by set_solver].
    - intros y u Hy. rewrite push_lookup, decide_False; [apply Hl; by right|].
      intros ->. apply Hx, list_elem_of_fmap. by exists (x, u). }
  rewrite Hf; [|apply elems_NoDup_keys|intros x v; by rewrite elem_of_elems].
  case_decide as Ha; [done|]. destruct (m !! a) as [v|] eqn:E; [|done].
  exfalso. apply Ha, list_elem_of_fmap. exists (a, v). split; [done|]. by apply elem_of_elems.
Qed.

Lemma each_loop_lookup l : ∀ m a, each_loop m l !! a = (λ v, v ++ l) <$> m !! a.
Proof.
  induction l as [|r l IH]; intros m a; cbn.
  - destruct (m !! a); cbn; [by rewrite app_nil_r|done].
  - rewrite IH, push_all_lookup. destruct (m !! a); cbn; [by rewrite <- app_assoc|done].
Qed.

(** * Properties *)

(** C10: every request with a key goes to exactly one group, the one of the host its ring gives, in
    the order of the buffer; updates are copied to the backup host's group, synchronously when
    the key starts with the configured prefix - so every one when no prefix is configured; markers
    without a key go to the end of every group of the hosts and of the copies for later, but not of the
    synchronous groups; and nothing else is in any group. *)
Theorem createReqGroup_routes (h : Hosts) (sync_str mem : bytes) (reqs : list req_t) :
  Forall (readable sync_str mem) reqs →
  ∃ g b s, createReqGroup h sync_str mem reqs = Ret (g, b, s) ∧
    holds g (owner h mem) reqs (filter (λ r, each r = true) reqs) ∧
    holds b (λ r, if synced sync_str mem r then 0 else backup_owner h mem r) reqs (filter (λ r, each r = true) reqs) ∧
    holds s (λ r, if synced sync_str mem r then backup_owner h mem r else 0) reqs [].
Proof.
  intros Hr. destruct (group_loop_adds h sync_str mem reqs groups_new Hr) as (g' & E & H1 & H2 & H3 & H4).
  unfold createReqGroup. rewrite E. cbn [mbind outcome_bind]. cbn in H4. rewrite H4.
  assert (∀ (m : req_group_t) own ends, adds ∅ m own reqs → holds (each_loop m ends) own reqs ends) as Hh.
  { intros m own ends Ha a. rewrite each_loop_lookup, (Ha a). cbv zeta. rewrite lookup_empty. case_decide; reflexivity. }
  eexists _, _, _. split; [done|]. split; [by apply Hh|]. split; [by apply Hh|].
  intros a. pose proof (H3 a) as H3a. unfold backup_sync in H3a. cbv zeta in *. rewrite H3a.
  cbn [groups_new sync]. rewrite lookup_empty. case_decide; [reflexivity|]. by rewrite app_nil_r.
Qed.

Definition demo_req : req_t :=
  {| key := 24; key_len := 3; content := 0; content_len := 27; update := false; each := false; ext := x00 |}.

Lemma createReqGroup_routes_witness :
  ∃ g b s, createReqGroup demo_hosts (bs "+") (replicate 24 x00 ++ bs "key") [demo_req] = Ret (g, b, s) ∧
    g !! 2 = Some [demo_req].
Proof.
  destruct (createReqGroup_routes demo_hosts (bs "+") (replicate 24 x00 ++ bs "key") [demo_req])
    as (g & b & s & E & Hg & _).
  - apply Forall_singleton. split; [vm_compute; congruence|]. split; [vm_compute; split; congruence|].
    split; [vm_compute; congruence|]. by eexists.
  - exists g, b, s. split; [exact E|]. rewrite (Hg 2). vm_compute. reflexivity.
Defined.
