(* ===== verification/Backend.v ===== *)
(** Talking to the backends: [KvProxy::getConnection], [writeToBackend], [readFromBackend],
    [talkToBackend] and [talkToBackendAsync] of [src/kvproxy.cpp].

    [Backend] is what one worker works on: the members of [KvProxy] shared by all workers, its
    own buffers (the entries of the buffer maps at its [thread_index]), and the network.  The
    loops take fuel; [writeToBackend_delivers] and [readFromBackend_returns] give enough of it,
    for networks that fail finitely often ([NetPatience]). *)
From S2P Require Import Prelude StdMap Util Hash Config Extension Net ConnPool Failover Request.

(** * State *)

(** The entries of the maps [position], [req_list_data], [req_buf], ... of one worker.  A buffer
    is the memory [malloc] gave; the lengths are [int]s. *)
Record Buffers := {
  position : Z; req_list_data : req_list_t;
  req_buf : bytes; req_buf_size : Z; req_buf_len : Z;
  resp_buf : bytes; resp_buf_size : Z; resp_buf_len : Z;
  backend_buf : bytes; backend_buf_size : Z; backend_buf_len : Z;
  client_buf : bytes; client_buf_size : Z; client_buf_len : Z
}.

Record Backend (W : Type) := {
  k_hosts : Hosts; k_stats : Stats; k_pool : ConnPool; k_buf : Buffers; k_net : W
}.
Arguments k_hosts {W} _.
Arguments k_stats {W} _.
Arguments k_pool {W} _.
Arguments k_buf {W} _.
Arguments k_net {W} _.

Definition with_resp (b : Buffers) (m : bytes) (len : Z) : Buffers := {|
  position := position b; req_list_data := req_list_data b;
  req_buf := req_buf b; req_buf_size := req_buf_size b; req_buf_len := req_buf_len b;
  resp_buf := m; resp_buf_size := resp_buf_size b; resp_buf_len := len;
  backend_buf := backend_buf b; backend_buf_size := backend_buf_size b; backend_buf_len := backend_buf_len b;
  client_buf := client_buf b; client_buf_size := client_buf_size b; client_buf_len := client_buf_len b |}.

Definition with_backend (b : Buffers) (m : bytes) (len : Z) : Buffers := {|
  position := position b; req_list_data := req_list_data b;
  req_buf := req_buf b; req_buf_size := req_buf_size b; req_buf_len := req_buf_len b;
  resp_buf := resp_buf b; resp_buf_size := resp_buf_size b; resp_buf_len := resp_buf_len b;
  backend_buf := m; backend_buf_size := backend_buf_size b; backend_buf_len := len;
  client_buf := client_buf b; client_buf_size := client_buf_size b; client_buf_len := client_buf_len b |}.

Definition with_client (b : Buffers) (m : bytes) (len : Z) : Buffers := {|
  position := position b; req_list_data := req_list_data b;
  req_buf := req_buf b; req_buf_size := req_buf_size b; req_buf_len := req_buf_len b;
  resp_buf := resp_buf b; resp_buf_size := resp_buf_size b; resp_buf_len := resp_buf_len b;
  backend_buf := backend_buf b; backend_buf_size := backend_buf_size b; backend_buf_len := backend_buf_len b;
  client_buf := m; client_buf_size := client_buf_size b; client_buf_len := len |}.

Definition with_buf {W} (k : Backend W) (b : Buffers) : Backend W :=
  {| k_hosts := k_hosts k; k_stats := k_stats k; k_pool := k_pool k; k_buf := b; k_net := k_net k |}.
Definition with_net {W} (k : Backend W) (p : ConnPool) (w : W) : Backend W :=
  {| k_hosts := k_hosts k; k_stats := k_stats k; k_pool := p; k_buf := k_buf k; k_net := w |}.
Definition with_stats {W} (k : Backend W) (s : Stats) : Backend W :=
  {| k_hosts := k_hosts k; k_stats := s; k_pool := k_pool k; k_buf := k_buf k; k_net := k_net k |}.
Definition with_alias {W} (k : Backend W) (m : gmap Z (bytes * Z)) : Backend W :=
  {| k_hosts := {| host_alias := m; host_infos := host_infos (k_hosts k);
                   host_offline := host_offline (k_hosts k); hosts_default := hosts_default (k_hosts k);
                   hosts_read := hosts_read (k_hosts k); hosts_backup := hosts_backup (k_hosts k);
                   hash := hash (k_hosts k); hash_backup := hash_backup (k_hosts k);
                   hash_read := hash_read (k_hosts k); alias_index_count := alias_index_count (k_hosts k) |};
     k_stats := k_stats k; k_pool := k_pool k; k_buf := k_buf k; k_net := k_net k |}.

(** * Operations *)

(** The largest descriptor an [fd_set] holds. *)
Definition FD_SETSIZE : Z := 1024.

(** The resources of the extension that is loaded. *)
Record ext_ptrs (F : Type) := {
  ptr_parse_req : F; ptr_create_req : F; ptr_create_req_async : F; ptr_parse_resp : F; ptr_create_resp : F
}.
Arguments ptr_parse_req {F} _.
Arguments ptr_create_req {F} _.
Arguments ptr_create_req_async {F} _.
Arguments ptr_parse_resp {F} _.
Arguments ptr_create_resp {F} _.

Section backend.
Context {W : Type} `{!Net W} {F E : Type} `{!Ext F E}.

(** [host_alias[alias_index]] creates the entry; 0 stands for no connection. *)
Definition getConnection (alias_index thread_index : Z) (k : Backend W) : Z * Backend W :=
  let '(host_port, m) := at_ ([], 0) (host_alias (k_hosts k)) alias_index in
  let k := with_alias k m in
  let '(conn_fd, p, w) := ConnPool.getConnection (k_pool k) thread_index host_port.1 host_port.2 (k_net k) in
  (if decide (conn_fd <= 0) then 0 else conn_fd, with_net k p w).

(** The result is [send_len] and [*conn_fd]. *)
Fixpoint writeToBackend_loop (fuel : nat) (conn_fd : Z) (content : bytes) (msg_len send_len : Z)
    (alias_index thread_index : Z) (k : Backend W) : outcome (Z * Z * Backend W) :=
  match fuel with
  | O => NoFuel
  | S fuel =>
      msg ← mem_read content send_len (msg_len - send_len);
      let '(ret_len, w) := sys_send (k_net k) conn_fd msg in
      if decide (0 < ret_len) then
        send_len ← int_add send_len ret_len;
        if decide (msg_len <= send_len) then Ret (send_len, conn_fd, with_net k (k_pool k) w)
        else writeToBackend_loop fuel conn_fd content msg_len send_len alias_index thread_index
               (with_net k (k_pool k) w)
      else if decide (errno w = EINTR) then
        writeToBackend_loop fuel conn_fd content msg_len send_len alias_index thread_index
          (with_net k (k_pool k) w)
      else
        let '(p, w) := destoryConnection (k_pool k) conn_fd w in
        let '(conn_fd, k) := getConnection alias_index thread_index (with_net k p w) in
        if decide (conn_fd <= 0) then Ret (0, conn_fd, k)
        else writeToBackend_loop fuel conn_fd content msg_len send_len alias_index thread_index k
  end.

Definition writeToBackend (fuel : nat) (conn_fd : Z) (content : bytes) (len : Z)
    (alias_index thread_index : Z) (k : Backend W) : outcome (Z * Z * Backend W) :=
  writeToBackend_loop fuel conn_fd content (i32 len) 0 alias_index thread_index k.

Definition resp_done (k : Backend W) : Backend W := with_buf k (with_resp (k_buf k) (resp_buf (k_buf k)) 0).

Fixpoint readFromBackend_loop (fuel : nat) (f : F) (recv_timeout conn_fd pos : Z) (resp_list : resp_list_t)
    (k : Backend W) : outcome (resp_list_t * Backend W) :=
  match fuel with
  | O => NoFuel
  | S fuel =>
      if decide (FD_SETSIZE <= conn_fd) then Undef OutOfBounds
      else
      let '(ret, isset, w) := sys_select (k_net k) conn_fd recv_timeout in
      let k := with_net k (k_pool k) w in
      if decide (ret < 0) then
        if decide (errno w = EINTR) then readFromBackend_loop fuel f recv_timeout conn_fd pos resp_list k
        else Ret (resp_list, resp_done k)
      else if decide (ret = 0) then Ret (resp_list, resp_done k)
      else if negb isset then readFromBackend_loop fuel f recv_timeout conn_fd pos resp_list k
      else
        let b := k_buf k in
        let '(len, d, w) := sys_recv (k_net k) conn_fd (resp_buf_size b - resp_buf_len b) in
        let k := with_net k (k_pool k) w in
        if decide (0 < len) then
          m ← mem_write (resp_buf b) (resp_buf_len b) d;
          l ← int_add (resp_buf_len b) len;
          let k := with_buf k (with_resp b m l) in
          if decide (resp_buf_size b <= l) then Ret (resp_list, k)
          else
            r ← parse_resp f m l pos resp_list;
            let '(ext_ret, pos, resp_list) := r : ext_ret_t * Z * resp_list_t in
            match ext_ret with
            | SUCCESS => Ret (resp_list, resp_done k)
            | ERROR => Ret ([], resp_done k)
            | _ => readFromBackend_loop fuel f recv_timeout conn_fd pos resp_list k
            end
        else if decide (len = 0) then
          let k := resp_done k in
          let '(p, w) := destoryConnection (k_pool k) conn_fd (k_net k) in
          readFromBackend_loop fuel f recv_timeout conn_fd pos resp_list (with_net k p w)
        else if decide (len = -1) then
          if decide (errno w = EAGAIN) then Ret (resp_list, resp_done k)
          else if decide (errno w = EINTR) then readFromBackend_loop fuel f recv_timeout conn_fd pos resp_list k
          else Ret (resp_list, resp_done k)
        else readFromBackend_loop fuel f recv_timeout conn_fd pos resp_list k
  end.

Definition readFromBackend (fuel : nat) (f : F) (recv_timeout conn_fd : Z) (resp_list : resp_list_t)
    (k : Backend W) : outcome (resp_list_t * Backend W) :=
  readFromBackend_loop fuel f recv_timeout conn_fd 0 resp_list (resp_done k).

(** The body of the loops of [talkToBackend] and [talkToBackendAsync], after the request for the
    backend was created in [backend_buf]: with no connection the loop goes on at once ([continue]). *)
Definition host_turn (fuel : nat) (f : F) (recv_timeout alias_index thread_index : Z)
    (created : ext_ret_t * bytes * Z) (resp_list : resp_list_t) (k : Backend W)
    : outcome (resp_list_t * Backend W) :=
  let '(ext_ret, m, len) := created in
  let k := with_buf k (with_backend (k_buf k) m len) in
  if decide (ext_ret = SUCCESS ∧ len ≠ 0) then
    let '(conn_fd, k) := getConnection alias_index thread_index k in
    if decide (conn_fd = 0) then Ret (resp_list, with_stats k (countFail (k_stats k) true alias_index))
    else
      r ← writeToBackend fuel conn_fd m (u32 len) alias_index thread_index k;
      let '(send_len, conn_fd, k) := r : Z * Z * Backend W in
      r ← (if decide (len <= send_len) then
             r ← readFromBackend fuel f recv_timeout conn_fd resp_list k;
             let '(resp_list, k) := r : resp_list_t * Backend W in
             Ret (resp_list, with_stats k (countFail (k_stats k) (bool_decide (resp_list = [])) alias_index))
           else if decide (send_len <= 0) then
             Ret (resp_list, with_stats k (countFail (k_stats k) true alias_index))
           else Ret (resp_list, k));
      let '(resp_list, k) := r : resp_list_t * Backend W in
      Ret (resp_list, with_buf k (with_backend (k_buf k) (backend_buf (k_buf k)) 0))
  else Ret (resp_list, with_buf k (with_backend (k_buf k) m 0)).

(** [buf] is the buffer the requests point into. *)
Fixpoint talk_loop (fuel : nat) (p : ext_ptrs F) (recv_timeout thread_index : Z) (buf : bytes)
    (l : list (Z * list req_t)) (resp_list : resp_list_t) (k : Backend W) : outcome (resp_list_t * Backend W) :=
  match l with
  | [] => Ret (resp_list, k)
  | (alias_index, reqs) :: l =>
      c ← create_req (ptr_create_req p) buf reqs (backend_buf (k_buf k)) (backend_buf_len (k_buf k));
      r ← host_turn fuel (ptr_parse_resp p) recv_timeout alias_index thread_index c resp_list k;
      talk_loop fuel p recv_timeout thread_index buf l r.1 r.2
  end.

(** The responses point into [resp_buf]. *)
Definition talkToBackend (fuel : nat) (p : ext_ptrs F) (recv_timeout : Z) (req_group_data : req_group_t)
    (buf : bytes) (thread_index : Z) (k : Backend W) : outcome (Backend W) :=
  r ← talk_loop fuel p recv_timeout thread_index buf (elems req_group_data) [] k;
  let '(resp_list, k) := r : resp_list_t * Backend W in
  c ← create_resp (ptr_create_resp p) (resp_buf (k_buf k)) resp_list (client_buf (k_buf k)) 0
        (client_buf_size (k_buf k));
  let '(_, m, len) := c : ext_ret_t * bytes * Z in
  Ret (with_buf k (with_client (k_buf k) m len)).

Fixpoint talk_async_loop (fuel : nat) (p : ext_ptrs F) (recv_timeout thread_index : Z)
    (l : list (Z * comm_list_t)) (resp_list : resp_list_t) (k : Backend W) : outcome (resp_list_t * Backend W) :=
  match l with
  | [] => Ret (resp_list, k)
  | (alias_index, reqs) :: l =>
      c ← create_req_async (ptr_create_req_async p) reqs (backend_buf (k_buf k)) (backend_buf_len (k_buf k));
      r ← host_turn fuel (ptr_parse_resp p) recv_timeout alias_index thread_index c resp_list k;
      talk_async_loop fuel p recv_timeout thread_index l r.1 r.2
  end.

Definition talkToBackendAsync (fuel : nat) (p : ext_ptrs F) (recv_timeout : Z)
    (req_group_data : gmap Z comm_list_t) (thread_index : Z) (k : Backend W) : outcome (Backend W) :=
  r ← talk_async_loop fuel p recv_timeout thread_index (elems req_group_data) [] k;
  let k := r.2 : Backend W in
  Ret (with_buf k (with_client (k_buf k) (client_buf (k_buf k)) 0)).
End backend.

(** * Lemmas: connections *)

(** The address behind an alias, as [getConnection] reads it. *)
Definition addr {W} (k : Backend W) (a : Z) : bytes * Z := default ([], 0) (host_alias (k_hosts k) !! a).

(** [fd] is the connection of thread [t] to the host [a]. *)
Definition conn_for {W} `{!Net W} (k : Backend W) (a t fd : Z) : Prop :=
  pool_ok (k_net k) (k_pool k) ∧ 0 < fd ∧ slot (conn_list (k_pool k)) t (addr k a).1 (addr k a).2 = Some fd.

(** Nothing but the network and the pool changed (and the entry for an unknown alias). *)
Definition same_worker {W} (a : Z) (k k' : Backend W) : Prop :=
  k_buf k' = k_buf k ∧ k_stats k' = k_stats k ∧ addr k' a = addr k a.

#[export] Instance same_worker_preorder {W} a : PreOrder (@same_worker W a).
Proof.
  split; [done|]. intros k1 k2 k3 (H1 & H2 & H3) (H4 & H5 & H6). unfold same_worker.
  by rewrite H4, H5, H6.
Qed.

Section connections.
Context {W : Type} `{!Net W, !NetOk W, !NetLog W, !NetPatience W}.

Lemma createConnection_sent (w : W) host port c w' :
  createConnection w host port = (c, w') → 0 < c → sent w' c = [].
Proof.
  unfold createConnection. pose proof (socket_sent w) as Hs.
  destruct (sys_socket w) as [fd w1]; cbn in Hs. case_decide; [intros; simplify_eq; lia|].
  pose proof (setsockopt_sent w1 fd) as Ho. destruct (sys_setsockopt w1 fd) as [o w2]; cbn in Ho.
  pose proof (connect_sent w2 fd host (u16 port)) as Hc.
  destruct (sys_connect w2 fd host (u16 port)) as [r w3]; cbn in Hc.
  case_decide; [intros; simplify_eq; lia|]. intros [= <- <-] Hpos.
  rewrite Hc, Ho, Hs. by rewrite decide_True by lia.
Qed.

Lemma createConnection_patience (w : W) host port :
  (patience (createConnection w host port).2 <= patience w)%nat.
Proof.
  unfold createConnection. pose proof (socket_patience w) as Hs.
  destruct (sys_socket w) as [fd w1]; cbn in Hs. case_decide; [done|].
  pose proof (setsockopt_patience w1 fd) as Ho. destruct (sys_setsockopt w1 fd) as [o w2]; cbn in Ho.
  pose proof (connect_patience w2 fd host (u16 port)) as Hc.
  destruct (sys_connect w2 fd host (u16 port)) as [r w3]; cbn in Hc. case_decide; cbn; lia.
Qed.

Lemma destoryConnection_patience (w : W) p conn :
  (patience (destoryConnection p conn w).2 <= patience w)%nat.
Proof.
  unfold destoryConnection. case_decide; [done|]. destruct (wrlock p). apply close_patience.
Qed.

(** A positive slot is handed out as it is; otherwise the connection is new. *)
Lemma pool_get_cases (w : W) p t host port conn p' w' :
  pool_ok w p → ConnPool.getConnection p t host port w = (conn, p', w') →
  (patience w' <= patience w)%nat ∧
  (0 < default 0 (slot (conn_list p) t host port) →
     conn = default 0 (slot (conn_list p) t host port) ∧ w' = w) ∧
  (default 0 (slot (conn_list p) t host port) <= 0 → 0 < conn → sent w' conn = []).
Proof.
  intros (Hlock & _). unfold ConnPool.getConnection, rdlock. rewrite Hlock, conn_at_eq.
  set (v := default 0 _). rewrite decide_False by naive_solver.
  case_decide as Hv; [intros; simplify_eq; split_and!; [done|done|lia]|].
  unfold wrlock. replace (conn_list_lock (with_list p (conn_put (conn_list p) t host port v))) with false by done.
  rewrite decide_False by naive_solver.
  pose proof (createConnection_patience w host port) as Hp.
  destruct (createConnection w host port) as [c w1] eqn:Ec. intros [= <- <- <-].
  split_and!; [done|lia|]. intros _. by apply (createConnection_sent w host port).
Qed.

(** [KvProxy::getConnection]: no connection, or the one of this thread to this host. *)
Lemma getConnection_spec (k : Backend W) a t fd k' :
  pool_ok (k_net k) (k_pool k) → getConnection a t k = (fd, k') →
  same_worker a k k' ∧ (patience (k_net k') <= patience (k_net k))%nat ∧
  pool_ok (k_net k') (k_pool k') ∧ (fd = 0 ∨ conn_for k' a t fd) ∧
  (default 0 (slot (conn_list (k_pool k)) t (addr k a).1 (addr k a).2) <= 0 → 0 < fd → sent (k_net k') fd = []).
Proof.
  intros Hok. unfold getConnection.
  rewrite (surjective_pairing (at_ _ (host_alias (k_hosts k)) a)), at_value. fold (addr k a).
  set (m := (at_ _ _ a).2).
  assert (default ([], 0) (m !! a) = addr k a) as Hm.
  { unfold m, at_, addr. destruct (host_alias (k_hosts k) !! a) eqn:Ea; cbn;
      [by rewrite Ea|by rewrite lookup_insert_eq]. }
  cbn [with_alias k_pool k_net].
  destruct (ConnPool.getConnection (k_pool k) t (addr k a).1 (addr k a).2 (k_net k))
    as [[conn p] w] eqn:Eg.
  pose proof (getConnection_ok _ _ _ _ _ _ _ _ Hok Eg) as (Hok' & _ & Hslot).
  pose proof (pool_get_cases _ _ _ _ _ _ _ _ Hok Eg) as (Hpat & _ & Hsent).
  intros [= <- <-]. split; [split_and!; [done|done|exact Hm]|].
  split; [exact Hpat|]. split; [exact Hok'|]. split.
  - case_decide; [by left|]. right. split; [exact Hok'|]. split; [lia|].
    unfold addr in *. cbn. rewrite Hm. apply Hslot. lia.
  - cbn. intros Hz. case_decide; [lia|]. intros Hpos. by apply Hsent.
Qed.

(** Destroying the connection of a host and asking for it again: a new one. *)
Lemma reconnect_spec (k : Backend W) a t fd p w fd' k' :
  conn_for k a t fd → destoryConnection (k_pool k) fd (k_net k) = (p, w) →
  getConnection a t (with_net k p w) = (fd', k') →
  same_worker a k k' ∧ (patience (k_net k') <= patience (k_net k))%nat ∧
  pool_ok (k_net k') (k_pool k') ∧ (fd' = 0 ∨ conn_for k' a t fd' ∧ sent (k_net k') fd' = []).
Proof.
  intros (Hok & Hpos & Hs) Hd Hg.
  pose proof (destoryConnection_patience (k_net k) (k_pool k) fd) as Hpat.
  pose proof (destoryConnection_slot (k_net k) (k_pool k) fd Hok Hpos) as Hsl. rewrite Hd in Hsl, Hpat.
  apply getConnection_spec in Hg as (H1 & H2 & H3 & H4 & H5); [|by eapply destoryConnection_ok].
  split; [done|]. split; [cbn in *; lia|]. split; [done|]. destruct H4 as [?|Hc]; [by left|right]. split; [done|].
  apply H5; [|apply Hc]. change (addr (with_net k p w) a) with (addr k a). cbn [with_net k_pool].
  cbn [fst] in Hsl. rewrite Hsl, Hs. cbn. by rewrite decide_True.
Qed.
End connections.

(** * Lemmas: sending *)

Lemma drop_take_step (content : bytes) (j n m : nat) (d : bytes) :
  (j <= n)%nat → d = take m (drop n content) → drop j (take n content) ++ d = drop j (take (n + m) content).
Proof.
  intros Hj ->. rewrite <- (take_take_drop content n m), drop_app.
  destruct (decide (n <= length content)%nat).
  - rewrite length_take. replace (j - n `min` length content)%nat with 0%nat by lia. by rewrite drop_0.
  - rewrite (drop_ge content n) by lia. by rewrite take_nil, drop_nil.
Qed.

Section sending.
Context {W : Type} `{!Net W, !NetOk W, !NetLog W, !NetPatience W}.
Context (content : bytes) (len a t : Z).

(** The connection of the worker was sent the content from [j] up to [n]; [j] is 0 on the
    connection [fd0] it started with, which had been sent [base] before. *)
Definition sent_part (base : bytes) (fd0 : Z) (n : Z) (fd : Z) (w : W) : Prop :=
  fd = fd0 ∧ sent w fd = base ++ take (Z.to_nat n) content ∨
  ∃ j, 0 <= j <= n ∧ j < len ∧ sent w fd = drop (Z.to_nat j) (take (Z.to_nat n) content).

Lemma sent_part_step base fd0 n fd w m d w' :
  sent_part base fd0 n fd w → 0 <= n → 0 <= m →
  d = take (Z.to_nat m) (drop (Z.to_nat n) content) → sent w' fd = sent w fd ++ d →
  sent_part base fd0 (n + m) fd w'.
Proof.
  intros Hp Hn Hm Hd Hw.
  destruct Hp as [[-> Hs]|(j & Hj & Hjl & Hs)]; [left|right; exists j]; rewrite Hw, Hs.
  - split; [done|]. rewrite Z2Nat.inj_add by lia. rewrite <- app_assoc. f_equal.
    exact (drop_take_step content 0 (Z.to_nat n) (Z.to_nat m) d ltac:(lia) Hd).
  - split; [lia|]. split; [done|]. rewrite Z2Nat.inj_add by lia. apply drop_take_step; [lia|done].
Qed.

Context (Hlen : 0 < len <= INT_MAX) (Hcontent : len <= Z.of_nat (length content)).

Lemma writeToBackend_loop_spec base fd0 fuel : ∀ fd n (k : Backend W),
  conn_for k a t fd → 0 <= n < len → sent_part base fd0 n fd (k_net k) →
  (patience (k_net k) + Z.to_nat (len - n) <= fuel)%nat →
  ∃ send_len fd' k', writeToBackend_loop fuel fd content len n a t k = Ret (send_len, fd', k') ∧
    same_worker a k k' ∧ (patience (k_net k') <= patience (k_net k))%nat ∧
    pool_ok (k_net k') (k_pool k') ∧
    (send_len = 0 ∧ fd' = 0 ∨
     send_len = len ∧ conn_for k' a t fd' ∧ sent_part base fd0 len fd' (k_net k')).
Proof.
  induction fuel as [|fuel IH]; intros fd n k Hc Hn Hp Hf; [lia|].
  cbn [writeToBackend_loop]. rewrite mem_read_ok by lia. cbn [mbind outcome_bind].
  set (msg := take (Z.to_nat (len - n)) (drop (Z.to_nat n) content)).
  assert (Z.of_nat (length msg) = len - n) as Hm by (unfold msg; rewrite length_take, length_drop; lia).
  assert (msg ≠ []) as Hne by (intros E; rewrite E in Hm; cbn in Hm; lia).
  pose proof (send_len (k_net k) fd msg) as Hsl. pose proof (send_open (k_net k) fd msg) as Hso.
  pose proof (send_sent (k_net k) fd msg fd) as Hss. pose proof (send_patience (k_net k) fd msg) as Hsp.
  pose proof (send_fails (k_net k) fd msg Hne) as Hsf.
  destruct (sys_send (k_net k) fd msg) as [r w]; cbn in Hsl, Hso, Hss, Hsp, Hsf.
  rewrite decide_True in Hss by done.
  assert (conn_for (with_net k (k_pool k) w) a t fd) as Hc'.
  { destruct Hc as ((Hl & Ho & Hi) & Hpos & Hs). split; [|done]. cbn. split_and!; [done| |done]. by rewrite Hso. }
  destruct (decide (0 < r)) as [Hr|Hr].
  - rewrite int_add_small by (unfold is_int, INT_MIN, INT_MAX in *; lia). cbn [mbind outcome_bind].
    assert (sent_part base fd0 (n + r) fd w) as Hp'.
    { eapply sent_part_step; [exact Hp|lia| | |exact Hss]; [lia|]. unfold msg.
      rewrite take_take. f_equal. lia. }
    case_decide as Hd.
    + assert (n + r = len) as E by lia. rewrite E in Hp' |- *. do 3 eexists. split; [done|].
      split; [done|]. split; [cbn; lia|]. split; [apply Hc'|]. right. done.
    + destruct (IH fd (n + r) _ Hc' ltac:(lia) Hp') as (sl & fd' & k' & E & H1 & H2 & H3 & H4); [cbn; lia|].
      exists sl, fd', k'. split; [done|]. split; [done|]. split; [cbn in *; lia|done].
  - specialize (Hsf ltac:(lia)).
    assert (sent_part base fd0 n fd w) as Hp'.
    { rewrite <- (Z.add_0_r n). eapply sent_part_step; [exact Hp|lia|reflexivity|reflexivity|].
      rewrite Hss. f_equal. by replace (Z.to_nat r) with 0%nat by lia. }
    case_decide as He.
    + destruct (IH fd n _ Hc' Hn Hp') as (sl & fd' & k' & E & H1 & H2 & H3 & H4); [cbn; lia|].
      exists sl, fd', k'. split; [done|]. split; [done|]. split; [cbn in *; lia|done].
    + destruct (destoryConnection (k_pool k) fd w) as [p w1] eqn:Ed.
      destruct (getConnection a t (with_net k p w1)) as [fd1 k1] eqn:Eg.
      destruct (reconnect_spec (with_net k (k_pool k) w) a t fd p w1 fd1 k1 Hc' Ed Eg) as (H1 & H2 & H3 & H4).
      destruct H4 as [->|[Hc1 Hs1]].
      * cbn [decide]. exists 0, 0, k1. split; [done|]. split; [done|]. split; [cbn in *; lia|].
        split; [done|]. by left.
      * rewrite decide_False by (destruct Hc1; lia).
        destruct (IH fd1 n k1 Hc1 Hn) as (sl & fd' & k' & E & H5 & H6 & H7 & H8).
        -- right. exists n. split; [lia|]. split; [lia|]. rewrite Hs1, drop_ge; [done|].
           rewrite length_take. lia.
        -- cbn in *. lia.
        -- exists sl, fd', k'. split; [done|]. split; [|split; [cbn in *; lia|done]].
           transitivity k1; [exact H1|exact H5].
Qed.
End sending.

(** C21: on a connection from the pool, [writeToBackend] ends - it loops at most once per byte and
    per failed call - and returns all or nothing: with 0 there is no connection; otherwise the
    whole length is returned, and the connection it started with was sent the content, or a
    new one was sent the content from some [j] on. *)
Theorem writeToBackend_delivers {W} `{!Net W, !NetOk W, !NetLog W, !NetPatience W}
    (k : Backend W) (fd : Z) (content : bytes) (len a t : Z) (fuel : nat) :
  conn_for k a t fd → 0 < len <= INT_MAX → len <= Z.of_nat (length content) →
  (patience (k_net k) + Z.to_nat len <= fuel)%nat →
  ∃ send_len fd' k', writeToBackend fuel fd content len a t k = Ret (send_len, fd', k') ∧
    pool_ok (k_net k') (k_pool k') ∧
    (send_len = 0 ∧ fd' = 0 ∨
     send_len = len ∧ conn_for k' a t fd' ∧
     (fd' = fd ∧ sent (k_net k') fd = sent (k_net k) fd ++ take (Z.to_nat len) content ∨
      ∃ j, 0 <= j < len ∧ sent (k_net k') fd' = drop (Z.to_nat j) (take (Z.to_nat len) content))).
Proof.
  intros Hc Hlen Hcontent Hf. unfold writeToBackend.
  rewrite i32_small by (unfold is_int, INT_MIN, INT_MAX in *; lia).
  destruct (writeToBackend_loop_spec content len a t Hlen Hcontent (sent (k_net k) fd) fd fuel fd 0 k Hc
              ltac:(lia)) as (sl & fd' & k' & E & _ & _ & Hok & Hr).
  - left. split; [done|]. by rewrite app_nil_r.
  - by rewrite Z.sub_0_r.
  - exists sl, fd', k'. split; [done|]. split; [done|].
    destruct Hr as [?|(? & ? & [[-> Hs]|(j & Hj & Hjl & Hs)])]; [by left|right|right].
    + split; [done|]. split; [done|]. by left.
    + split; [done|]. split; [done|]. right. exists j. split; [lia|done].
Qed.

(** A worker with small buffers, whose only host accepts connections. *)
Definition demo_bufs (n : nat) : Buffers := {|
  position := 0; req_list_data := [];
  req_buf := replicate n x00; req_buf_size := Z.of_nat n; req_buf_len := 0;
  resp_buf := replicate n x00; resp_buf_size := Z.of_nat n; resp_buf_len := 0;
  backend_buf := replicate n x00; backend_buf_size := Z.of_nat n; backend_buf_len := 0;
  client_buf := replicate n x00; client_buf_size := Z.of_nat n; client_buf_len := 0 |}.

Definition demo_worker (sends : list Z) (recvs : list reply) : Backend sim := {|
  k_hosts := demo_hosts; k_stats := demo_stats; k_pool := pool_new; k_buf := demo_bufs 200;
  k_net := sim_init [(bs "10.0.0.1", 11211)] sends recvs |}.

(** Connected, as thread 0. *)
Definition demo_connected (sends : list Z) (recvs : list reply) : Backend sim :=
  (getConnection 1 0 (demo_worker sends recvs)).2.

Lemma demo_conn sends recvs : conn_for (demo_connected sends recvs) 1 0 3.
Proof.
  unfold demo_connected. assert ((getConnection 1 0 (demo_worker sends recvs)).1 = 3) as H3.
  { unfold getConnection. cbn. vm_compute. reflexivity. }
  destruct (getConnection 1 0 (demo_worker sends recvs)) as [fd k] eqn:Eg. cbn in H3. subst fd.
  apply getConnection_spec in Eg as (_ & _ & _ & [?|Hc] & _); [lia|exact Hc|apply pool_new_ok].
Qed.

Definition EPIPE : Z := 32.

Lemma writeToBackend_delivers_witness :
  ∃ send_len fd' k', writeToBackend 10 3 (bs "hello") 5 1 0 (demo_connected [2; - EINTR; 1] []) = Ret (send_len, fd', k') ∧
    send_len = 5 ∧ fd' = 3 ∧ sent (k_net k') 3 = bs "hello".
Proof.
  destruct (writeToBackend_delivers (demo_connected [2; - EINTR; 1] []) 3 (bs "hello") 5 1 0 10)
    as (sl & fd' & k' & E & _ & _).
  - apply demo_conn.
  - vm_compute. split; congruence.
  - vm_compute. congruence.
  - vm_compute. lia.
  - exists sl, fd', k'. split; [exact E|].
    assert (is_ret (r ← writeToBackend 10 3 (bs "hello") 5 1 0 (demo_connected [2; - EINTR; 1] []);
      let '(sl, fd', k') := r : Z * Z * Backend sim in
      if decide (sl = 5 ∧ fd' = 3 ∧ sent (k_net k') 3 = bs "hello") then Ret () else NoFuel) = true) as Hr
      by (vm_compute; reflexivity).
    rewrite E in Hr. cbn [mbind outcome_bind] in Hr. case_decide; [done|discriminate Hr].
Defined.

(** The bytes accepted before a connection broke are not sent again: when [send] takes [j] bytes,
    then fails, and the reconnection succeeds, [writeToBackend] reports the whole length although
    the new connection was sent only what follows the first [j] bytes. *)
Theorem writeToBackend_resumes {W} `{!Net W, !NetOk W, !NetLog W, !NetPatience W}
    (k : Backend W) (fd : Z) (content : bytes) (a t j r : Z) (w1 w2 w3 w4 : W) (p : ConnPool) fd' k' fuel :
  let len := Z.of_nat (length content) in
  let rest := drop (Z.to_nat j) content in
  conn_for k a t fd → len <= INT_MAX → 0 < j < len →
  sys_send (k_net k) fd content = (j, w1) →
  sys_send w1 fd rest = (r, w2) → r <= 0 → errno w2 ≠ EINTR →
  destoryConnection (k_pool k) fd w2 = (p, w3) →
  getConnection a t (with_net k p w3) = (fd', k') → 0 < fd' →
  sys_send (k_net k') fd' rest = (Z.of_nat (length rest), w4) →
  ∃ k4, writeToBackend (3 + fuel) fd content len a t k = Ret (len, fd', k4) ∧
    sent (k_net k4) fd' = rest ∧ rest ≠ content.
Proof.
  intros len rest Hc Hmax Hj E1 E2 Hr He Ed Eg Hpos E3. unfold writeToBackend.
  assert (Z.of_nat (length rest) = len - j) as Hrest by (unfold rest; rewrite length_drop; lia).
  rewrite i32_small by (unfold is_int, INT_MIN, INT_MAX in *; lia).
  cbn [Nat.add writeToBackend_loop]. rewrite mem_read_ok by lia. cbn [mbind outcome_bind].
  rewrite Z.sub_0_r. unfold len at 1. rewrite Nat2Z.id. change (Z.to_nat 0) with 0%nat.
  rewrite drop_0, firstn_all, E1, decide_True by lia.
  rewrite int_add_small by (unfold is_int, INT_MIN, INT_MAX in *; lia). cbn [mbind outcome_bind].
  rewrite decide_False by lia. rewrite mem_read_ok by lia. cbn [mbind outcome_bind with_net k_net k_pool].
  assert (take (Z.to_nat (len - (0 + j))) (drop (Z.to_nat (0 + j)) content) = rest) as Hmsg.
  { rewrite Z.add_0_l. apply take_ge. fold rest. lia. }
  rewrite Hmsg, E2, !decide_False by (done || lia). rewrite Ed.
  change (with_net (with_net k (k_pool k) w1) p w3) with (with_net k p w3). rewrite Eg, decide_False by lia.
  cbn [mbind outcome_bind]. rewrite E3, decide_True by lia.
  rewrite int_add_small by (unfold is_int, INT_MIN, INT_MAX in *; lia). cbn [mbind outcome_bind].
  rewrite decide_True by lia. replace (0 + j + Z.of_nat (length rest)) with len by lia.
  eexists. split; [done|]. cbn [with_net k_net].
  assert (conn_for (with_net k (k_pool k) w2) a t fd) as Hc'.
  { pose proof (send_open (k_net k) fd content) as H1. pose proof (send_open w1 fd rest) as H2.
    rewrite E1 in H1. rewrite E2 in H2. cbn in H1, H2.
    destruct Hc as ((Hl & Ho & Hi) & Hp & Hs). split; [|done]. cbn. split; [done|]. split; [|done].
    by rewrite H2, H1. }
  destruct (reconnect_spec (with_net k (k_pool k) w2) a t fd p w3 fd' k' Hc' Ed Eg) as (_ & _ & _ & Hnew).
  destruct Hnew as [?|[_ Hnew]]; [lia|].
  pose proof (send_sent (k_net k') fd' rest fd') as Hs. rewrite E3 in Hs. cbn [fst snd] in Hs.
  rewrite decide_True, Hnew in Hs by done. rewrite Hs, Nat2Z.id, firstn_all. split; [done|].
  intros Heq. apply (f_equal length) in Heq. lia.
Qed.

Lemma writeToBackend_resumes_witness :
  ∃ k', writeToBackend 3 3 (bs "hello") 5 1 0 (demo_connected [2; - EPIPE] []) = Ret (5, 3, k') ∧
    sent (k_net k') 3 = bs "llo".
Proof.
  edestruct (writeToBackend_resumes (demo_connected [2; - EPIPE] []) 3 (bs "hello") 1 0 2 (-1))
    as (k4 & H1 & H2 & _).
  - apply demo_conn.
  - vm_compute. congruence.
  - vm_compute. split; congruence.
  - vm_compute. reflexivity.
  - vm_compute. reflexivity.
  - lia.
  - vm_compute. congruence.
  - vm_compute. reflexivity.
  - vm_compute. reflexivity.
  - lia.
  - vm_compute. reflexivity.
  - exists k4. split; [exact H1|exact H2].
Defined.
