(* ===== verification/BackendRead.v ===== *)
(** Reading a backend's response ([KvProxy::readFromBackend] of [src/kvproxy.cpp], modelled in
    Backend): the loop ends, and a response that arrives in pieces is put together.

    [receives], [retries] and [asks] follow a reading turn by turn to the places where it applies the
    extension's parser, the only callee that may not return.

    [delivers] says what the next receptions on a descriptor will be; [Framed] is what the
    proxy needs of an extension's response parser, and the memcached extension provides it for
    a single response. *)
From S2P Require Import Prelude StdMap Util Hash Config Extension Net ConnPool Failover Request Backend.
From S2P Require Import ProtocolBinary Memcached MemcachedBinary MemcachedForward.

(** * Termination *)

(** The response buffer is as large as its size says. *)
Definition resp_ok (b : Buffers) : Prop :=
  Z.of_nat (length (resp_buf b)) = resp_buf_size b ∧ 0 < resp_buf_size b <= INT_MAX.

(** Only the network, the pool and the response buffer changed. *)
Definition only_resp {W} (k k' : Backend W) : Prop :=
  k_hosts k' = k_hosts k ∧ k_stats k' = k_stats k ∧
  ∃ m n, k_buf k' = with_resp (k_buf k) m n ∧ length m = length (resp_buf (k_buf k)).

Lemma only_resp_refl {W} (k : Backend W) : only_resp k k.
Proof. split; [done|]. split; [done|]. exists (resp_buf (k_buf k)), (resp_buf_len (k_buf k)). by destruct (k_buf k). Qed.

Lemma only_resp_trans {W} (k1 k2 k3 : Backend W) : only_resp k1 k2 → only_resp k2 k3 → only_resp k1 k3.
Proof.
  intros (H1 & H2 & m & n & H3 & H4) (H5 & H6 & m' & n' & H7 & H8).
  split; [congruence|]. split; [congruence|]. exists m', n'. rewrite H7, H3. split; [done|].
  rewrite H8, H3. exact H4.
Qed.

Section reading.
Context {W : Type} `{!Net W, !NetOk W, !NetPatience W} {F E : Type} `{!Ext F E}.
Implicit Types (k : Backend W) (l : resp_list_t).

Lemma only_resp_net k p w : only_resp k (with_net k p w).
Proof. apply (only_resp_refl k). Qed.

Lemma only_resp_done k : only_resp k (resp_done k).
Proof. split; [done|]. split; [done|]. by eexists _, _. Qed.

Lemma only_resp_store k d m n :
  mem_write (resp_buf (k_buf k)) (resp_buf_len (k_buf k)) d = Ret m →
  only_resp k (with_buf k (with_resp (k_buf k) m n)).
Proof. intros Hm. split; [done|]. split; [done|]. eexists _, _. split; [done|]. by eapply mem_write_length. Qed.

Lemma only_resp_ok k k' : only_resp k k' → resp_ok (k_buf k) → resp_ok (k_buf k').
Proof. intros (_ & _ & m & n & -> & Hm) (H1 & H2). split; cbn; [lia|done]. Qed.

(** What a reading that returns leaves. *)
Definition read_result k (r : resp_list_t * Backend W) : Prop :=
  only_resp k r.2 ∧ pool_ok (k_net r.2) (k_pool r.2) ∧
  (resp_buf_len (k_buf r.2) = 0 ∨ resp_buf_len (k_buf r.2) = resp_buf_size (k_buf r.2)).

(** A turn of the loop without data: it was interrupted, or woke up for nothing. *)
Inductive retries (tmo fd : Z) k : Backend W → Prop :=
  | retries_select ret isset w :
      sys_select (k_net k) fd tmo = (ret, isset, w) → ret < 0 ∧ errno w = EINTR ∨ 0 < ret ∧ isset = false →
      retries tmo fd k (with_net k (k_pool k) w)
  | retries_recv ret w d w1 :
      sys_select (k_net k) fd tmo = (ret, true, w) → 0 < ret →
      sys_recv w fd (resp_buf_size (k_buf k) - resp_buf_len (k_buf k)) = (-1, d, w1) → errno w1 = EINTR →
      retries tmo fd k (with_net k (k_pool k) w1).

(** A turn that received [d] behind what the buffer holds, and did not fill it. *)
Inductive receives (tmo fd : Z) k : Backend W → Prop :=
  | receives_data ret w len d w1 m :
      sys_select (k_net k) fd tmo = (ret, true, w) → 0 < ret →
      sys_recv w fd (resp_buf_size (k_buf k) - resp_buf_len (k_buf k)) = (len, d, w1) → 0 < len →
      mem_write (resp_buf (k_buf k)) (resp_buf_len (k_buf k)) d = Ret m →
      resp_buf_len (k_buf k) + len < resp_buf_size (k_buf k) →
      receives tmo fd k
        (with_buf (with_net k (k_pool k) w1) (with_resp (k_buf k) m (resp_buf_len (k_buf k) + len))).

(** The parser applied to what was received so far. *)
Definition parse_at (f : F) pos l k : outcome (ext_ret_t * Z * resp_list_t) :=
  parse_resp f (resp_buf (k_buf k)) (resp_buf_len (k_buf k)) pos l.

(** A reading that starts with [pos], [l] and [k] comes to apply the parser with [pos'], [l'] and [k']:
    data was just received, and the parser returned each time before and wanted more. *)
Inductive asks (f : F) (tmo fd : Z) : Z → resp_list_t → Backend W → Z → resp_list_t → Backend W → Prop :=
  | asks_now pos l k k' : receives tmo fd k k' → asks f tmo fd pos l k pos l k'
  | asks_retry pos l k k1 pos' l' k' :
      retries tmo fd k k1 → asks f tmo fd pos l k1 pos' l' k' → asks f tmo fd pos l k pos' l' k'
  | asks_more pos l k k1 e pos1 l1 pos' l' k' :
      receives tmo fd k k1 → parse_at f pos l k1 = Ret (e, pos1, l1) → e ≠ SUCCESS → e ≠ ERROR →
      asks f tmo fd pos1 l1 k1 pos' l' k' → asks f tmo fd pos l k pos' l' k'.

(** [o] ends as [x] does, which is not by returning. *)
Definition ends_as {A B} (x : outcome A) (o : outcome B) : Prop :=
  match x with
  | Ret _ => False
  | Exit c => o = Exit c
  | Undef u => o = Undef u
  | NoFuel => o = NoFuel
  end.

(** The only way not to return: the extension's parser does not return on what this reading received. *)
Definition parser_fails (f : F) (tmo fd : Z) pos l k (o : outcome (resp_list_t * Backend W)) : Prop :=
  ∃ pos' l' k', asks f tmo fd pos l k pos' l' k' ∧ ends_as (parse_at f pos' l' k') o.

Lemma pool_ok_same (w w' : W) p : open_fds w' = open_fds w → pool_ok w p → pool_ok w' p.
Proof. intros E1 (H1 & H2 & H3). split; [done|]. split; [|done]. rewrite E1. exact H2. Qed.

(** After the connection was closed the next [select] fails, and the loop ends. *)
Lemma read_closed f tmo fd pos l fuel k :
  fd < FD_SETSIZE → fd ∉ open_fds (k_net k) → pool_ok (k_net k) (k_pool k) →
  ∃ k', readFromBackend_loop (S fuel) f tmo fd pos l k = Ret (l, k') ∧ read_result k (l, k').
Proof.
  intros Hfd Hc Hok. cbn [readFromBackend_loop]. rewrite decide_False by lia.
  pose proof (select_closed (k_net k) fd tmo Hc) as [Hr He].
  pose proof (select_open (k_net k) fd tmo) as Ho.
  destruct (sys_select (k_net k) fd tmo) as [[r b] w]; cbn in Hr, He, Ho. subst r.
  rewrite decide_True, He by lia. rewrite decide_False by done.
  eexists. split; [done|]. split; [|split; [|by left]].
  - eapply only_resp_trans; [apply only_resp_net|apply only_resp_done].
  - cbn. by apply (pool_ok_same (k_net k)).
Qed.

Lemma read_result_trans k k1 r : only_resp k k1 → read_result k1 r → read_result k r.
Proof. intros H1 (H2 & H3). split; [by eapply only_resp_trans|done]. Qed.

(** How a reading ends that goes on with [pos], [l] and [k1]; [k] is the state before. *)
Definition reads_on k f tmo fd pos l k1 (o : outcome (resp_list_t * Backend W)) : Prop :=
  (∃ r, o = Ret r ∧ read_result k r) ∨ parser_fails f tmo fd pos l k1 o.

Lemma reads_on_trans k k1 f tmo fd pos l k2 o :
  only_resp k k1 → reads_on k1 f tmo fd pos l k2 o → reads_on k f tmo fd pos l k2 o.
Proof. intros Hk [(r & E1 & Hr)|?]; [left|by right]. exists r. split; [done|]. by eapply read_result_trans. Qed.

Lemma reads_on_done k k1 f tmo fd pos l k2 l' :
  only_resp k k1 → pool_ok (k_net k1) (k_pool k1) → reads_on k f tmo fd pos l k2 (Ret (l', resp_done k1)).
Proof.
  intros Hk Hok. left. eexists. split; [done|]. split; [|split; [done|by left]].
  eapply only_resp_trans; [exact Hk|apply only_resp_done].
Qed.

(** After a turn that received nothing, and after one the parser wanted more of. *)
Lemma reads_on_retry k k1 f tmo fd pos l o :
  only_resp k k1 → retries tmo fd k k1 → reads_on k1 f tmo fd pos l k1 o → reads_on k f tmo fd pos l k o.
Proof.
  intros Hk Hr Ho. apply (reads_on_trans _ _ _ _ _ _ _ _ _ Hk) in Ho as [?|(pos' & l' & k' & Ha & He)]; [by left|right].
  exists pos', l', k'. split; [by eapply asks_retry|done].
Qed.

Lemma reads_on_more k k1 f tmo fd pos l e pos1 l1 o :
  only_resp k k1 → receives tmo fd k k1 → parse_at f pos l k1 = Ret (e, pos1, l1) → e ≠ SUCCESS → e ≠ ERROR →
  reads_on k1 f tmo fd pos1 l1 k1 o → reads_on k f tmo fd pos l k o.
Proof.
  intros Hk Hr Hp H1 H2 Ho.
  apply (reads_on_trans _ _ _ _ _ _ _ _ _ Hk) in Ho as [?|(pos' & l' & k' & Ha & He)]; [by left|right].
  exists pos', l', k'. split; [by eapply asks_more|done].
Qed.

(** The peer has closed the connection. *)
Lemma read_hung_up f tmo fd pos l fuel k k2 p w :
  0 < fd < FD_SETSIZE → pool_ok (k_net k) (k_pool k) → destoryConnection (k_pool k) fd (k_net k) = (p, w) →
  reads_on k f tmo fd pos l k2 (readFromBackend_loop (S fuel) f tmo fd pos l (with_net (resp_done k) p w)).
Proof.
  intros Hfd Hok Ed. eapply (reads_on_trans _ (with_net (resp_done k) p w)).
  { eapply only_resp_trans; [apply only_resp_done|apply only_resp_net]. }
  left. destruct (read_closed f tmo fd pos l fuel (with_net (resp_done k) p w)) as (k' & E1 & Hr); [lia| | |by eauto].
  - cbn. pose proof Ed as Ec. unfold destoryConnection in Ec. rewrite decide_False in Ec by lia.
    destruct (wrlock (k_pool k)). injection Ec as <- <-. rewrite close_open. set_solver.
  - cbn. by eapply destoryConnection_ok.
Qed.

(** The turn after data came in. *)
Lemma read_data f tmo fd fuel pos l k k1 :
  only_resp k k1 → receives tmo fd k k1 → pool_ok (k_net k1) (k_pool k1) →
  (∀ pos l, reads_on k1 f tmo fd pos l k1 (readFromBackend_loop fuel f tmo fd pos l k1)) →
  reads_on k f tmo fd pos l k
    (r ← parse_at f pos l k1;
     let '(ext_ret, pos, resp_list) := r : ext_ret_t * Z * resp_list_t in
     match ext_ret with
     | SUCCESS => Ret (resp_list, resp_done k1)
     | ERROR => Ret ([], resp_done k1)
     | _ => readFromBackend_loop fuel f tmo fd pos resp_list k1
     end).
Proof.
  intros Hk Hr Hok Hloop. destruct (parse_at f pos l k1) as [[[e pos'] l']| | |] eqn:Ep.
  2-4: right; exists pos, l, k1; split; [by apply asks_now|by rewrite Ep].
  cbn [mbind outcome_bind]. destruct e; [|by apply reads_on_done..|];
    (eapply reads_on_more; [exact Hk|exact Hr|exact Ep|done|done|apply Hloop]).
Qed.

Lemma read_loop_returns f tmo fd fuel : 0 < fd < FD_SETSIZE → ∀ pos l k,
  resp_ok (k_buf k) → 0 <= resp_buf_len (k_buf k) < resp_buf_size (k_buf k) →
  fd ∈ open_fds (k_net k) → pool_ok (k_net k) (k_pool k) →
  (patience (k_net k) + Z.to_nat (resp_buf_size (k_buf k) - resp_buf_len (k_buf k)) + 1 <= fuel)%nat →
  reads_on k f tmo fd pos l k (readFromBackend_loop fuel f tmo fd pos l k).
Proof.
  intros Hfd. induction fuel as [|fuel IH]; intros pos l k Hb Hlen Hopen Hok Hf; [lia|].
  (* the next turn, with the network of this one, and leaving the loop *)
  assert (∀ w, retries tmo fd k (with_net k (k_pool k) w) → open_fds w = open_fds (k_net k) →
    (patience w < patience (k_net k))%nat →
    reads_on k f tmo fd pos l k (readFromBackend_loop fuel f tmo fd pos l (with_net k (k_pool k) w))) as Hagain.
  { intros w Hr Ho Hp. eapply reads_on_retry; [apply only_resp_net|exact Hr|].
    apply (IH pos l (with_net k (k_pool k) w)); [done|done|cbn; by rewrite Ho|by apply (pool_ok_same (k_net k))|cbn; lia]. }
  assert (∀ w, open_fds w = open_fds (k_net k) →
    reads_on k f tmo fd pos l k (Ret (l, resp_done (with_net k (k_pool k) w)))) as Hdone.
  { intros w Ho. apply reads_on_done; [apply only_resp_net|by apply (pool_ok_same (k_net k))]. }
  cbn [readFromBackend_loop]. rewrite decide_False by lia.
  pose proof (select_open (k_net k) fd tmo) as Ho. pose proof (select_patience (k_net k) fd tmo) as Hp.
  pose proof (select_fails (k_net k) fd tmo) as Hs.
  destruct (sys_select (k_net k) fd tmo) as [[ret isset] w] eqn:Esel; cbn in Ho, Hp, Hs.
  destruct (decide (ret < 0)) as [Hneg|Hnn].
  { destruct (decide (errno w = EINTR)); [|by apply Hdone].
    apply Hagain; [eapply retries_select; [exact Esel|by left]|done|apply Hs; by left]. }
  destruct (decide (ret = 0)); [by apply Hdone|].
  destruct isset; cbn [negb]; [|apply Hagain; [eapply retries_select; [exact Esel|right; split; [lia|done]]|done|apply Hs; right; split; [lia|done]]].
  cbn [with_net k_buf k_net k_pool].
  set (room := resp_buf_size (k_buf k) - resp_buf_len (k_buf k)).
  pose proof (recv_open w fd room) as Hro. pose proof (recv_len w fd room) as [Hrl Hrd].
  pose proof (recv_patience w fd room) as Hrp. pose proof (recv_fails w fd room) as Hrf.
  destruct (sys_recv w fd room) as [[len d] w1] eqn:Erecv; cbn in Hro, Hrl, Hrd, Hrp, Hrf.
  assert (open_fds w1 = open_fds (k_net k)) as Ho1 by (by rewrite Hro).
  assert (pool_ok w1 (k_pool k)) as Hok1 by (by apply (pool_ok_same (k_net k))).
  destruct (decide (0 < len)) as [Hpos|Hnp].
  - destruct Hb as [Hb1 Hb2]. destruct (mem_write (resp_buf (k_buf k)) (resp_buf_len (k_buf k)) d) as [m| | |] eqn:Hm;
      [|exfalso; unfold mem_write in Hm; rewrite decide_True in Hm by lia; done..].
    cbn [mbind outcome_bind]. rewrite int_add_small by (unfold is_int, INT_MIN, INT_MAX in *; lia). cbn [mbind outcome_bind].
    set (k1 := with_buf (with_net (with_net k (k_pool k) w) (k_pool k) w1) _).
    assert (only_resp k k1) as Hk1.
    { eapply only_resp_trans; [apply only_resp_net|]. by eapply (only_resp_store (with_net k (k_pool k) w1)). }
    destruct (decide (resp_buf_size (k_buf k) <= resp_buf_len (k_buf k) + len)) as [Hfull|Hroom].
    { left. eexists. split; [done|]. split; [exact Hk1|]. split; [done|]. right. cbn. lia. }
    apply (read_data f tmo fd fuel pos l k k1); [done| |done|].
    + eapply (receives_data tmo fd k ret w len d w1 m); [exact Esel|lia|exact Erecv|done|exact Hm|lia].
    + intros pos' l'. apply (IH pos' l' k1); [by eapply only_resp_ok|cbn; lia|cbn; by rewrite Ho1|done|cbn; lia].
  - destruct (decide (len = 0)) as [->|Hn0].
    + cbn [resp_done with_buf k_pool k_net with_net].
      destruct (destoryConnection (k_pool k) fd w1) as [p w2] eqn:Ed. destruct fuel as [|fuel]; [unfold room in *; lia|].
      apply (reads_on_trans k (with_net k (k_pool k) w1)); [apply only_resp_net|].
      by apply (read_hung_up f tmo fd pos l fuel (with_net k (k_pool k) w1)).
    + assert (len = -1) as -> by lia. rewrite decide_True by done.
      destruct (decide (errno w1 = EAGAIN)); [by apply Hdone|]. destruct (decide (errno w1 = EINTR)); [|by apply Hdone].
      apply Hagain; [eapply retries_recv; [exact Esel|lia|exact Erecv|done]|done|]. specialize (Hrf ltac:(lia) ltac:(done)). lia.
Qed.
End reading.


(** With the memcached extension, after an interrupted call and an answer in two pieces. *)
Definition demo_read : Backend sim :=
  let d := packet_bytes (demo_resp PROTOCOL_BINARY_CMD_GET [] (bs "value")) in
  demo_connected [] [Fails EINTR; Data (take 10 d); Data (drop 10 d)].


(** * Responses in pieces *)

(** What the network hands over next on [fd]: the pieces [cs], each a reception into the room that
    is left. *)
Fixpoint delivers {W} `{!Net W} (fd tmo : Z) (w : W) (room : Z) (cs : list bytes) (w' : W) : Prop :=
  match cs with
  | [] => w' = w
  | c :: cs => ∃ r w1 w2, 0 < r ∧ c ≠ [] ∧ sys_select w fd tmo = (r, true, w1) ∧
      sys_recv w1 fd room = (Z.of_nat (length c), c, w2) ∧
      delivers fd tmo w2 (room - Z.of_nat (length c)) cs w'
  end.

(** The parser waits for every proper part of [d], and reads [d] itself as [items]. *)
Definition waits {F E} `{!Ext F E} (f : F) (d : bytes) : Prop :=
  ∀ n tail l, (0 < n < length d)%nat → parse_resp f (take n d ++ tail) (Z.of_nat n) 0 l = Ret (AGAIN, 0, l).
Definition whole {F E} `{!Ext F E} (f : F) (d : bytes) (items : resp_list_t) : Prop :=
  ∀ tail l, parse_resp f (d ++ tail) (Z.of_nat (length d)) 0 l = Ret (SUCCESS, Z.of_nat (length d), l ++ items).

(** [d] can be put together from [cs]: the parser waits, unless there is one piece only. *)
Definition framed {F E} `{!Ext F E} (f : F) (d : bytes) (items : resp_list_t) (cs : list bytes) : Prop :=
  whole f d items ∧ (waits f d ∨ length cs = 1%nat) ∧ concat cs = d ∧ cs ≠ [].

(** The worker after it received [d]. *)
Definition received {W} (k : Backend W) (d : bytes) (w : W) : Backend W :=
  with_net (with_buf k (with_resp (k_buf k) (d ++ drop (length d) (resp_buf (k_buf k))) 0)) (k_pool k) w.

Lemma mem_write_at pre rest d :
  (length pre + length d <= length rest)%nat →
  mem_write (pre ++ drop (length pre) rest) (Z.of_nat (length pre)) d =
  Ret ((pre ++ d) ++ drop (length (pre ++ d)) rest).
Proof.
  intros Hl. rewrite mem_write_append by (rewrite length_drop; lia).
  by rewrite drop_drop, <- length_app.
Qed.

Section pieces.
Context {W : Type} `{!Net W} {F E : Type} `{!Ext F E}.
Context (f : F) (fd tmo : Z) (items l : resp_list_t) (w' : W).

Lemma read_pieces cs : ∀ pre rest fuel (k : Backend W) w,
  whole f (pre ++ concat cs) items → waits f (pre ++ concat cs) ∨ length cs = 1%nat → cs ≠ [] → fd < FD_SETSIZE →
  resp_buf_size (k_buf k) = Z.of_nat (length rest) → Z.of_nat (length rest) <= INT_MAX →
  (length (pre ++ concat cs) < length rest)%nat →
  delivers fd tmo w (resp_buf_size (k_buf k) - Z.of_nat (length pre)) cs w' → (length cs <= fuel)%nat →
  readFromBackend_loop fuel f tmo fd 0 l
    (with_net (with_buf k (with_resp (k_buf k) (pre ++ drop (length pre) rest) (Z.of_nat (length pre)))) (k_pool k) w) =
  Ret (l ++ items, with_net (with_buf k (with_resp (k_buf k)
    ((pre ++ concat cs) ++ drop (length (pre ++ concat cs)) rest) 0)) (k_pool k) w').
Proof.
  induction cs as [|c cs IH]; intros pre rest fuel k w Hf Hwait Hne Hfd Hs Hmax Hroom Hd Hfuel; [done|].
  destruct fuel as [|fuel]; [cbn in Hfuel; lia|]. destruct Hd as (r & w1 & w2 & Hr & Hc & E1 & E2 & Hd).
  cbn [concat] in Hf, Hwait, Hroom. rewrite !length_app in Hroom.
  assert (0 < length c)%nat by (destruct c; [done|cbn; lia]).
  cbn [readFromBackend_loop]. rewrite decide_False by lia.
  cbn [with_net with_buf k_net k_buf k_pool with_resp resp_buf_size resp_buf_len resp_buf]. rewrite E1.
  rewrite !decide_False by lia. cbn [negb].
  cbn [with_net with_buf k_net k_buf k_pool with_resp resp_buf_size resp_buf_len resp_buf]. rewrite E2.
  rewrite decide_True by lia.
  rewrite mem_write_at by lia. cbn [mbind outcome_bind].
  rewrite int_add_small by (unfold is_int, INT_MIN, INT_MAX in *; lia). cbn [mbind outcome_bind].
  rewrite Hs, decide_False by lia. rewrite <- Nat2Z.inj_add, <- length_app.
  destruct cs as [|c' cs].
  - cbn [concat delivers] in *. rewrite app_nil_r in Hf |- *. rewrite Hf. subst w'. done.
  - destruct Hwait as [Hpart|]; [|done].
    assert (parse_resp f ((pre ++ c) ++ drop (length (pre ++ c)) rest) (Z.of_nat (length (pre ++ c))) 0 l =
            Ret (AGAIN, 0, l)) as ->.
    { specialize (Hpart (length (pre ++ c)) (drop (length (pre ++ c)) rest) l).
      rewrite (app_assoc pre c), take_app_length in Hpart. apply Hpart.
      destruct Hd as (_ & _ & _ & _ & Hc' & _). cbn [concat].
      assert (0 < length c')%nat by (destruct c'; [done|cbn; lia]). rewrite !length_app. lia. }
    cbn [mbind outcome_bind].
    specialize (IH (pre ++ c) rest fuel k w2). rewrite <- (app_assoc pre c) in IH.
    apply IH; [done|by left|done|done|done|done| | |].
    + rewrite !length_app. lia.
    + rewrite length_app, Nat2Z.inj_add, Z.sub_add_distr. exact Hd.
    + cbn in Hfuel |- *. lia.
Qed.
End pieces.

(** However a response is cut into receptions, [readFromBackend] puts it together: it adds the
    response's items once, leaves the response at the start of the buffer, and stops. *)
Lemma readFromBackend_pieces {W} `{!Net W} {F E} `{!Ext F E} (f : F) (fd tmo : Z) (d : bytes)
    (items l : resp_list_t) (cs : list bytes) (k : Backend W) (w' : W) (fuel : nat) :
  framed f d items cs → fd < FD_SETSIZE → resp_ok (k_buf k) → Z.of_nat (length d) < resp_buf_size (k_buf k) →
  delivers fd tmo (k_net k) (resp_buf_size (k_buf k)) cs w' → (length cs <= fuel)%nat →
  readFromBackend fuel f tmo fd l k = Ret (l ++ items, received k d w').
Proof.
  intros (Hw & Hc & <- & Hne) Hfd [Hb1 Hb2] Hd Hdel Hfuel.
  apply (read_pieces f fd tmo items l w' cs [] (resp_buf (k_buf k)) fuel k (k_net k)); try done.
  - lia.
  - cbn. lia.
  - cbn [length Z.of_nat]. by rewrite Z.sub_0_r.
Qed.

(** * The memcached parser *)

(** A single response is waited for. *)
Lemma memcached_waits (p : packet) :
  packet_ok PROTOCOL_BINARY_RES p → plen p <= INT_MAX → waits SYM_parse_resp (packet_bytes p).
Proof.
  intros Hp Hmax n tail l Hn. pose proof (parse_resp_cut [] p n tail l) as Hc. cbv zeta in Hc.
  change (stream []) with (@nil byte) in Hc. change (heads []) with (@nil header) in Hc.
  cbn [app length Z.of_nat resp_items] in Hc. rewrite Z.add_0_l, app_nil_r in Hc. unfold plen in Hmax.
  apply Hc; [by apply Forall_singleton|lia|lia|right; split; [done|lia]].
Qed.

(** A stream of responses whose last one is not quiet is read as a whole. *)
Lemma memcached_whole (ps : list packet) :
  Forall (packet_ok PROTOCOL_BINARY_RES) ps → ps ≠ [] → last_quiet None (heads ps) = Some false →
  Z.of_nat (length (stream ps)) <= INT_MAX → whole SYM_parse_resp (stream ps) (resp_items 0 (heads ps)).
Proof.
  intros Hps Hne Hq Hmax tail l. pose proof (parse_resp_stream [] ps tail l Hps Hne Hmax) as Hs.
  cbn [app] in Hs. rewrite Hq in Hs. exact Hs.
Qed.

Lemma stream_single p : stream [p] = packet_bytes p.
Proof. unfold stream. cbn [fmap list_fmap concat]. apply app_nil_r. Qed.

Lemma memcached_framed (p : packet) cs :
  packet_ok PROTOCOL_BINARY_RES p → resp_quiet (p_head p) = false → plen p <= INT_MAX →
  concat cs = packet_bytes p → framed SYM_parse_resp (packet_bytes p) [resp_item 0 (p_head p)] cs.
Proof.
  intros Hp Hq Hmax Hc. split; [|split; [|split; [done|]]].
  - rewrite <- stream_single. apply (memcached_whole [p]); [by apply Forall_singleton|done| |by rewrite stream_single].
    cbn [heads fmap list_fmap last_quiet]. by rewrite Hq.
  - left. by apply memcached_waits.
  - intros ->. pose proof (plen_ge p) as Hge. unfold plen in Hge. rewrite <- Hc in Hge. cbn in Hge. lia.
Qed.

(** * On the scripted network *)

Lemma sim_delivers fd tmo cs : ∀ (w : sim) room rest,
  fd ∈ sim_open w → sim_recvs w = (Data <$> cs) ++ rest → Forall (λ c, c ≠ []) cs →
  Z.of_nat (length (concat cs)) <= room →
  delivers fd tmo w room cs (if cs is [] then w else sim_fail w (sim_errno w) (sim_sends w) rest).
Proof.
  induction cs as [|c cs IH]; intros w room rest Hfd Hr Hne Hroom; [done|].
  apply Forall_cons in Hne as [Hc Hne]. cbn [concat] in Hroom. rewrite length_app in Hroom.
  cbn [delivers]. exists 1, w, (sim_fail w (sim_errno w) (sim_sends w) ((Data <$> cs) ++ rest)).
  split; [lia|]. split; [done|]. cbn [fmap list_fmap app] in Hr. split.
  { cbn [sys_select sim_net]. unfold sim_select. by rewrite decide_True, Hr by done. }
  split.
  { cbn [sys_recv sim_net]. unfold sim_recv. rewrite Hr. by rewrite take_ge by lia. }
  specialize (IH (sim_fail w (sim_errno w) (sim_sends w) ((Data <$> cs) ++ rest))
                (room - Z.of_nat (length c)) rest Hfd eq_refl Hne ltac:(lia)).
  by destruct cs.
Qed.

Definition demo_answer : packet := demo_resp PROTOCOL_BINARY_CMD_GET [] (bs "value").

Lemma readFromBackend_pieces_witness :
  let d := packet_bytes demo_answer in
  let cs := [take 10 d; drop 10 d] in
  let k := demo_connected [] (Data <$> cs) in
  ∃ k', readFromBackend 2 SYM_parse_resp 0 3 [] k = Ret ([resp_item 0 (p_head demo_answer)], k') ∧
    take (length d) (resp_buf (k_buf k')) = d.
Proof.
  intros d cs k. eexists. split.
  - apply (readFromBackend_pieces SYM_parse_resp 3 0 d [resp_item 0 (p_head demo_answer)] [] cs k
             (sim_fail (k_net k) (sim_errno (k_net k)) (sim_sends (k_net k)) []) 2).
    + apply memcached_framed; [split; vm_compute; intuition congruence|reflexivity|vm_compute; congruence|reflexivity].
    + reflexivity.
    + vm_compute. repeat split; congruence.
    + reflexivity.
    + apply (sim_delivers 3 0 cs (k_net k) _ []).
      * destruct (demo_conn [] (Data <$> cs)) as ((_ & Ho & _) & Hp & Hs). by eapply Ho.
      * vm_compute. reflexivity.
      * repeat constructor; discriminate.
      * vm_compute. congruence.
    + cbn. lia.
  - vm_compute. reflexivity.
Defined.
