(* ===== verification/Evbuf.v ===== *)
(** The byte queues of a connection, as an interface: what [Conn] of [src/serv.h] asks of
    libevent's [evbuffer]s.

    [Evbuf B] are the calls, [EvbufOk B] is what the proxy relies on: a buffer is a queue of
    bytes.  [plain] implements it by a list of bytes; the proxy is proved against the
    interface. *)
From S2P Require Import Prelude.

Class Evbuf (B : Type) := {
  evbuffer_get_length : B → Z;
  (** the bytes copied to the caller *)
  evbuffer_copyout : B → Z → bytes;
  evbuffer_remove : B → Z → bytes * B;
  evbuffer_drain : B → Z → Z * B;
  evbuffer_add : B → bytes → Z * B;
  evbuffer_add_buffer : B → B → Z * B * B
}.

(** What is in a buffer; the buffers that can be read from - a client's input - and the ones that can
    be added to - its output. *)
Class EvbufOk (B : Type) `{!Evbuf B} := {
  content_of : B → bytes;
  in_ok : B → Prop;
  out_ok : B → Prop;
  get_length_content b : in_ok b → evbuffer_get_length b = Z.of_nat (length (content_of b));
  copyout_content b n : in_ok b → 0 <= n → evbuffer_copyout b n = take (Z.to_nat n) (content_of b);
  remove_content b n : in_ok b → 0 <= n →
    (evbuffer_remove b n).1 = take (Z.to_nat n) (content_of b) ∧
    content_of (evbuffer_remove b n).2 = drop (Z.to_nat n) (content_of b) ∧ in_ok (evbuffer_remove b n).2;
  drain_content b n : in_ok b → 0 <= n →
    (evbuffer_drain b n).1 = 0 ∧ content_of (evbuffer_drain b n).2 = drop (Z.to_nat n) (content_of b) ∧
    in_ok (evbuffer_drain b n).2;
  add_content b d : out_ok b → Z.of_nat (length (content_of b)) + Z.of_nat (length d) <= INT_MAX →
    (evbuffer_add b d).1 = 0 ∧ content_of (evbuffer_add b d).2 = content_of b ++ d ∧ out_ok (evbuffer_add b d).2
}.

(** A list of bytes. *)
Record plain := { plain_bytes : bytes }.

#[export] Instance plain_evbuf : Evbuf plain := {|
  evbuffer_get_length b := Z.of_nat (length (plain_bytes b));
  evbuffer_copyout b n := take (Z.to_nat n) (plain_bytes b);
  evbuffer_remove b n := (take (Z.to_nat n) (plain_bytes b), {| plain_bytes := drop (Z.to_nat n) (plain_bytes b) |});
  evbuffer_drain b n := (0, {| plain_bytes := drop (Z.to_nat n) (plain_bytes b) |});
  evbuffer_add b d := (0, {| plain_bytes := plain_bytes b ++ d |});
  evbuffer_add_buffer out inb := (0, {| plain_bytes := plain_bytes out ++ plain_bytes inb |}, {| plain_bytes := [] |})
|}.

#[export] Program Instance plain_evbuf_ok : EvbufOk plain := {|
  content_of := plain_bytes;
  in_ok _ := True;
  out_ok _ := True
|}.
Solve All Obligations with done.
