(* ===== verification/Evbuffer.v ===== *)
(** libevent's buffers: [src/deps/libevent2/buffer.c], [evbuffer-internal.h], as far as [Conn] of
    [src/serv.h] uses them.

    An [evbuffer] is a list of chains, each a piece of memory of which a part is in use; pointers
    to chains are positions in the list, and [last_with_datap] - which points at a [next] field, or
    at [first] - is the position of the chain it leads to.  [evbuffer_ok] shows that the buffers
    implement the interface [EvbufOk] the proxy is proved against. *)
From S2P Require Import Prelude Evbuf.

(** * State *)

Definition u64 (z : Z) : Z := z mod 2 ^ 64.

(** [malloc]: the memory it gives, or [None] for [NULL]. *)
Class Malloc := { mm_malloc : Z → option bytes }.

Definition EVBUFFER_IMMUTABLE : Z := 0x0008.
Definition EVBUFFER_MEM_PINNED_R : Z := 0x0010.
Definition EVBUFFER_MEM_PINNED_W : Z := 0x0020.
Definition EVBUFFER_MEM_PINNED_ANY : Z := Z.lor EVBUFFER_MEM_PINNED_R EVBUFFER_MEM_PINNED_W.
Definition MIN_BUFFER_SIZE : Z := 1024.
Definition EVBUFFER_CHAIN_MAX_AUTO_SIZE : Z := 4096.
Definition MAX_TO_REALIGN_IN_EXPAND : Z := 2048.

(** [sizeof(struct evbuffer_chain)] with eight-byte pointers. *)
Definition EVBUFFER_CHAIN_SIZE : Z := 48.

Record evbuffer_chain := { buffer_len : Z; misalign : Z; off : Z; flags : Z; buffer : bytes }.

(** [callbacks]: whether any are registered; [cb_log]: what they were called with - the original
    size, the bytes added and deleted. *)
Record evbuffer := {
  chains : list evbuffer_chain; last_with_datap : nat; total_len : Z;
  n_add_for_cb : Z; n_del_for_cb : Z; freeze_start : bool; freeze_end : bool;
  callbacks : bool; cb_log : list (Z * Z * Z)
}.

Definition with_used (c : evbuffer_chain) (mis o : Z) (m : bytes) : evbuffer_chain :=
  {| buffer_len := buffer_len c; misalign := mis; off := o; flags := flags c; buffer := m |}.

Definition with_chains (b : evbuffer) (l : list evbuffer_chain) (lwd : nat) (total : Z) : evbuffer := {|
  chains := l; last_with_datap := lwd; total_len := total; n_add_for_cb := n_add_for_cb b;
  n_del_for_cb := n_del_for_cb b; freeze_start := freeze_start b; freeze_end := freeze_end b;
  callbacks := callbacks b; cb_log := cb_log b |}.

Definition with_counts (b : evbuffer) (added deleted : Z) (log : list (Z * Z * Z)) : evbuffer := {|
  chains := chains b; last_with_datap := last_with_datap b; total_len := total_len b; n_add_for_cb := added;
  n_del_for_cb := deleted; freeze_start := freeze_start b; freeze_end := freeze_end b;
  callbacks := callbacks b; cb_log := log |}.

(** The pointer [buf->last], when there is one, is the last position. *)
Definition set_last (b : evbuffer) (c : evbuffer_chain) : evbuffer :=
  with_chains b (<[pred (length (chains b)) := c]> (chains b)) (last_with_datap b) (total_len b).

Definition CHAIN_PINNED (c : evbuffer_chain) : bool := negb (Z.land (flags c) EVBUFFER_MEM_PINNED_ANY =? 0).
Definition CHAIN_PINNED_R (c : evbuffer_chain) : bool := negb (Z.land (flags c) EVBUFFER_MEM_PINNED_R =? 0).
Definition immutable (c : evbuffer_chain) : bool := negb (Z.land (flags c) EVBUFFER_IMMUTABLE =? 0).

Definition HAS_PINNED_R (b : evbuffer) : bool :=
  match last (chains b) with Some c => CHAIN_PINNED_R c | None => false end.

(** A failed assertion ends the process with [abort()]; 134 is what a shell reports. *)
Definition EVUTIL_ASSERT (cond : bool) : outcome unit := if cond then Ret () else Exit 134.

(** * Chains *)

Section buffers.
Context `{!Malloc}.

(** Memory for [size] bytes and the header, doubled from the least size. *)
Fixpoint alloc_loop (fuel : nat) (to_alloc size : Z) : outcome Z :=
  match fuel with
  | O => NoFuel
  | S fuel => if decide (to_alloc < size) then alloc_loop fuel (u64 (Z.shiftl to_alloc 1)) size else Ret to_alloc
  end.

Definition evbuffer_chain_new (size : Z) : outcome (option evbuffer_chain) :=
  to_alloc ← alloc_loop 64 MIN_BUFFER_SIZE (u64 (size + EVBUFFER_CHAIN_SIZE));
  Ret ((λ m, {| buffer_len := to_alloc - EVBUFFER_CHAIN_SIZE; misalign := 0; off := 0; flags := 0;
                buffer := drop (Z.to_nat EVBUFFER_CHAIN_SIZE) m |}) <$> mm_malloc to_alloc).

(** The first chain from [l] on, counted from [k], that is neither in use nor pinned. *)
Fixpoint find_victim (k : nat) (l : list evbuffer_chain) : nat :=
  match l with
  | [] => k
  | c :: l => if decide (off c ≠ 0 ∨ CHAIN_PINNED c = true) then find_victim (S k) l else k
  end.

Definition evbuffer_chains_all_empty (l : list evbuffer_chain) : bool := forallb (λ c, off c =? 0) l.

(** A new last chain, in the place of the empty ones at the end. *)
Definition evbuffer_chain_insert (b : evbuffer) (c : evbuffer_chain) : outcome evbuffer :=
  let lwd := last_with_datap b in
  let total := u64 (total_len b + off c) in
  match chains b !! lwd with
  | None =>
      _ ← EVUTIL_ASSERT (lwd =? 0)%nat;
      _ ← EVUTIL_ASSERT (length (chains b) =? 0)%nat;
      Ret (with_chains b [c] lwd total)
  | Some _ =>
      let k := find_victim lwd (drop lwd (chains b)) in
      if decide (k = length (chains b)) then
        Ret (with_chains b (chains b ++ [c]) (if decide (off c ≠ 0) then length (chains b) else lwd) total)
      else
        _ ← EVUTIL_ASSERT (evbuffer_chains_all_empty (drop k (chains b)));
        Ret (with_chains b (take k (chains b) ++ [c]) lwd total)
  end.

Definition evbuffer_chain_align (c : evbuffer_chain) : outcome evbuffer_chain :=
  d ← mem_read (buffer c) (misalign c) (off c);
  m ← mem_write (buffer c) 0 d;
  Ret (with_used c 0 (off c) m).

Definition evbuffer_chain_should_realign (c : evbuffer_chain) (datlen : Z) : bool :=
  bool_decide (datlen <= u64 (buffer_len c - off c)) && bool_decide (off c < buffer_len c / 2) &&
  bool_decide (off c <= MAX_TO_REALIGN_IN_EXPAND).

(** * Buffers *)

Definition evbuffer_new : evbuffer := {|
  chains := []; last_with_datap := 0; total_len := 0; n_add_for_cb := 0; n_del_for_cb := 0;
  freeze_start := false; freeze_end := false; callbacks := false; cb_log := [] |}.

Definition evbuffer_get_length (b : evbuffer) : Z := total_len b.

Definition evbuffer_invoke_callbacks (b : evbuffer) : evbuffer :=
  if negb (callbacks b) then with_counts b 0 0 (cb_log b)
  else if decide (n_add_for_cb b = 0 ∧ n_del_for_cb b = 0) then b
  else with_counts b 0 0
         (cb_log b ++ [(u64 (total_len b + n_del_for_cb b - n_add_for_cb b), n_add_for_cb b, n_del_for_cb b)]).

Definition count_added (b : evbuffer) (n : Z) : evbuffer :=
  with_counts b (u64 (n_add_for_cb b + n)) (n_del_for_cb b) (cb_log b).
Definition count_deleted (b : evbuffer) (n : Z) : evbuffer :=
  with_counts b (n_add_for_cb b) (u64 (n_del_for_cb b + n)) (cb_log b).

(** [d] was written into the chain [c], the last one, which is now [c']. *)
Definition grown (b : evbuffer) (c' : evbuffer_chain) (datlen : Z) : evbuffer :=
  let b := set_last b c' in
  count_added (with_chains b (chains b) (last_with_datap b) (u64 (total_len b + datlen))) datlen.

Definition ZERO_CHAIN (b : evbuffer) : evbuffer := with_chains b [] 0 0.

(** A new chain, behind the last one: what does not fit there goes into it. *)
Definition add_chain (b : evbuffer) (chain : evbuffer_chain) (remain : Z) (data : bytes) : outcome (Z * evbuffer) :=
  let datlen := Z.of_nat (length data) in
  let to_alloc := buffer_len chain in
  let to_alloc := if decide (to_alloc <= EVBUFFER_CHAIN_MAX_AUTO_SIZE / 2) then u64 (Z.shiftl to_alloc 1) else to_alloc in
  let to_alloc := if decide (to_alloc < datlen) then datlen else to_alloc in
  tmp ← evbuffer_chain_new to_alloc;
  match tmp with
  | None => Ret (-1, b)
  | Some tmp =>
      b ← (if decide (remain ≠ 0) then
             d ← mem_read data 0 remain;
             m ← mem_write (buffer chain) (misalign chain + off chain) d;
             Ret (grown b (with_used chain (misalign chain) (u64 (off chain + remain)) m) remain)
           else Ret b);
      rest ← mem_read data remain (datlen - remain);
      m ← mem_write (buffer tmp) 0 rest;
      b ← evbuffer_chain_insert b (with_used tmp (misalign tmp) (datlen - remain) m);
      Ret (0, evbuffer_invoke_callbacks (count_added b (datlen - remain)))
  end.

(** The last chain, which is made when there is none. *)
Definition last_chain (b : evbuffer) (datlen : Z) : outcome (option (evbuffer_chain * evbuffer)) :=
  match last (chains b) with
  | Some c => Ret (Some (c, b))
  | None =>
      c ← evbuffer_chain_new datlen;
      match c with None => Ret None | Some c => b ← evbuffer_chain_insert b c; Ret (Some (c, b)) end
  end.

Definition evbuffer_add (b : evbuffer) (data : bytes) : outcome (Z * evbuffer) :=
  let datlen := Z.of_nat (length data) in
  if freeze_end b then Ret (-1, b)
  else
    r ← last_chain b datlen;
    match r with
    | None => Ret (-1, b)
    | Some (chain, b) =>
        let remain := if immutable chain then 0 else u64 (buffer_len chain - misalign chain - off chain) in
        if decide (immutable chain = false ∧ datlen <= remain) then
          m ← mem_write (buffer chain) (misalign chain + off chain) data;
          Ret (0, evbuffer_invoke_callbacks
                    (grown b (with_used chain (misalign chain) (u64 (off chain + datlen)) m) datlen))
        else if decide (immutable chain = false ∧ CHAIN_PINNED chain = false ∧
                        evbuffer_chain_should_realign chain datlen = true) then
          chain ← evbuffer_chain_align chain;
          m ← mem_write (buffer chain) (off chain) data;
          Ret (0, evbuffer_invoke_callbacks
                    (grown b (with_used chain (misalign chain) (u64 (off chain + datlen)) m) datlen))
        else add_chain b chain remain data
    end.

(** What is copied, from the chains [l]. *)
Fixpoint copyout_loop (l : list evbuffer_chain) (datlen : Z) (data : bytes) : outcome bytes :=
  if decide (datlen = 0) then Ret data
  else
    match l with
    | [] => Undef NullPointer
    | c :: l =>
        if decide (off c <= datlen) then
          d ← mem_read (buffer c) (misalign c) (off c);
          copyout_loop l (datlen - off c) (data ++ d)
        else d ← mem_read (buffer c) (misalign c) datlen; Ret (data ++ d)
    end.

Definition evbuffer_copyout (b : evbuffer) (datlen : Z) : outcome (Z * bytes) :=
  let datlen := if decide (total_len b <= datlen) then total_len b else datlen in
  if decide (datlen = 0) then Ret (0, [])
  else if freeze_start b then Ret (-1, [])
  else d ← copyout_loop (chains b) datlen []; Ret (datlen, d).

(** From the chain number [i] on; the result is the number of the chain where it stops,
    [last_with_datap] - 0 is [&buf->first] - and [remaining]. *)
Fixpoint drain_loop (l : list evbuffer_chain) (i lwd : nat) (remaining : Z)
    : outcome (nat * nat * Z * list evbuffer_chain) :=
  match l with
  | [] => Undef NullPointer
  | c :: l =>
      if decide (off c <= remaining) then
        let lwd := if decide (i = lwd) then 0%nat else lwd in
        let lwd := if decide (S i = lwd) then 0%nat else lwd in
        if CHAIN_PINNED_R c then
          _ ← EVUTIL_ASSERT (remaining - off c =? 0);
          Ret (i, lwd, remaining - off c, with_used c (misalign c + off c) 0 (buffer c) :: l)
        else drain_loop l (S i) lwd (remaining - off c)
      else Ret (i, lwd, remaining, c :: l)
  end.

Definition evbuffer_drain (b : evbuffer) (len : Z) : outcome (Z * evbuffer) :=
  let old_len := total_len b in
  if decide (old_len = 0) then Ret (0, b)
  else if freeze_start b then Ret (-1, b)
  else
    r ← (if decide (old_len <= len ∧ HAS_PINNED_R b = false) then Ret (old_len, ZERO_CHAIN b)
         else
           let len := if decide (old_len <= len) then old_len else len in
           r ← drain_loop (chains b) 0 (last_with_datap b) len;
           let '(i, lwd, remaining, l) := r : nat * nat * Z * list evbuffer_chain in
           let l := match l with
                    | [] => []
                    | c :: l => with_used c (misalign c + remaining) (off c - remaining) (buffer c) :: l
                    end in
           Ret (len, with_chains b l (lwd - i)%nat (u64 (old_len - len))));
    Ret (0, evbuffer_invoke_callbacks (count_deleted r.2 r.1)).

Definition evbuffer_remove (b : evbuffer) (datlen : Z) : outcome (Z * bytes * evbuffer) :=
  c ← evbuffer_copyout b datlen;
  if decide (0 < c.1) then
    r ← evbuffer_drain b c.1;
    Ret (i32 (if decide (r.1 < 0) then -1 else c.1), c.2, r.2)
  else Ret (i32 c.1, c.2, b).

(** The read-pinned chains at the end of [src]; [None]: no memory. *)
Definition PRESERVE_PINNED (src : evbuffer) : outcome (option (evbuffer * list evbuffer_chain)) :=
  if negb (HAS_PINNED_R src) then Ret (Some (src, []))
  else
    let lwd := last_with_datap src in
    match chains src !! lwd with
    | None => Undef NullPointer
    | Some c =>
        let pinned := if CHAIN_PINNED_R c then lwd else S lwd in
        match chains src !! pinned with
        | None => Undef NullPointer
        | Some chain =>
            if decide (off chain ≠ 0) then
              tmp ← evbuffer_chain_new (off chain);
              match tmp with
              | None => Ret None
              | Some tmp =>
                  d ← mem_read (buffer chain) (misalign chain) (off chain);
                  m ← mem_write (buffer tmp) 0 d;
                  Ret (Some (with_chains src (take lwd (chains src) ++ [with_used tmp (misalign tmp) (off chain) m])
                               lwd (total_len src),
                             with_used chain (misalign chain + off chain) 0 (buffer chain) :: drop (S pinned) (chains src)))
              end
            else Ret (Some (with_chains src (take pinned (chains src)) lwd (total_len src), drop pinned (chains src)))
        end
    end.

Definition RESTORE_PINNED (src : evbuffer) (pinned : list evbuffer_chain) : evbuffer :=
  if decide (length pinned = 0%nat) then ZERO_CHAIN src else with_chains src pinned 0 0.

Definition COPY_CHAIN (dst src : evbuffer) : evbuffer :=
  with_chains dst (chains src) (last_with_datap src) (total_len src).
Definition APPEND_CHAIN (dst src : evbuffer) : evbuffer :=
  with_chains dst (chains dst ++ chains src) (length (chains dst) + last_with_datap src)
    (u64 (total_len dst + total_len src)).

(** Of two buffers that are not the same one. *)
Definition evbuffer_add_buffer (outbuf inbuf : evbuffer) : outcome (Z * evbuffer * evbuffer) :=
  let in_total_len := total_len inbuf in
  if decide (in_total_len = 0) then Ret (0, outbuf, inbuf)
  else if freeze_end outbuf || freeze_start inbuf then Ret (-1, outbuf, inbuf)
  else
    p ← PRESERVE_PINNED inbuf;
    match p with
    | None => Ret (-1, outbuf, inbuf)
    | Some (inbuf, pinned) =>
        let outbuf := if decide (total_len outbuf = 0) then COPY_CHAIN outbuf inbuf else APPEND_CHAIN outbuf inbuf in
        let inbuf := RESTORE_PINNED inbuf pinned in
        Ret (0, evbuffer_invoke_callbacks (count_added outbuf in_total_len),
             evbuffer_invoke_callbacks (count_deleted inbuf in_total_len))
    end.
End buffers.

(** * What is in a buffer *)

Definition chain_data (c : evbuffer_chain) : bytes :=
  take (Z.to_nat (off c)) (drop (Z.to_nat (misalign c)) (buffer c)).

Definition chains_data (l : list evbuffer_chain) : bytes := concat (chain_data <$> l).
Arguments chains_data : simpl never.

(** A chain of plain memory, of at most 4 gigabytes. *)
Definition chain_ok (c : evbuffer_chain) : Prop :=
  0 <= misalign c ∧ 0 <= off c ∧ misalign c + off c <= buffer_len c ∧
  Z.of_nat (length (buffer c)) = buffer_len c ∧ flags c = 0 ∧ buffer_len c + EVBUFFER_CHAIN_SIZE <= 2 ^ 32.

(** Chains with data, and empty ones behind them.  In a buffer that is added to ([out]) at most one is
    empty, and the search for it starts at a chain with data, when there is one; in a buffer that is
    read into, at the last chain with data, and the empty ones are all free. *)
Definition shape_ok (out : bool) (l : list evbuffer_chain) (lwd : nat) : Prop :=
  ∃ full free, l = full ++ free ∧ Forall (λ c, 0 < off c) full ∧ Forall (λ c, off c = 0) free ∧
    if out then (length free <= 1)%nat ∧ (lwd <= pred (length full))%nat
    else lwd = pred (length full) ∧ Forall (λ c, misalign c = 0 ∧ 0 < buffer_len c) free.

(** With the ends that are frozen. *)
Definition evb_ok (out fs fe : bool) (b : evbuffer) : Prop :=
  Forall chain_ok (chains b) ∧ shape_ok out (chains b) (last_with_datap b) ∧
  total_len b = Z.of_nat (length (chains_data (chains b))) ∧ total_len b <= INT_MAX ∧
  freeze_start b = fs ∧ freeze_end b = fe.

(** A client's input, as [bufferevent] fills it, and output, as the proxy does. *)
Definition evb_in (b : evbuffer) : Prop := evb_ok false false (freeze_end b) b.
Definition evb_out (b : evbuffer) : Prop := evb_ok true (freeze_start b) false b.

Lemma evb_in_intro fe b : evb_ok false false fe b → evb_in b.
Proof. intros H. unfold evb_in. by destruct H as (? & ? & ? & ? & ? & <-). Qed.
Lemma evb_out_intro fs b : evb_ok true fs false b → evb_out b.
Proof. intros H. unfold evb_out. by destruct H as (? & ? & ? & ? & <- & ?). Qed.

(** [malloc] does not fail. *)
Class MallocOk `{!Malloc} := {
  malloc_ok n : 0 <= n <= 2 ^ 32 → ∃ m, mm_malloc n = Some m ∧ Z.of_nat (length m) = n
}.

(** * Lemmas: chains *)

Lemma u64_small z : 0 <= z < 2 ^ 64 → u64 z = z.
Proof. apply Z.mod_small. Qed.

Lemma length_chain_data c : chain_ok c → Z.of_nat (length (chain_data c)) = off c.
Proof. intros (H1 & H2 & H3 & H4 & _). unfold chain_data. rewrite length_take, length_drop. lia. Qed.

Lemma chain_flags c : chain_ok c → immutable c = false ∧ CHAIN_PINNED c = false ∧ CHAIN_PINNED_R c = false.
Proof.
  intros (_ & _ & _ & _ & Hf & _). unfold immutable, CHAIN_PINNED, CHAIN_PINNED_R. by rewrite Hf, !Z.land_0_l.
Qed.

Lemma chain_read c n :
  chain_ok c → 0 <= n <= off c →
  mem_read (buffer c) (misalign c) n = Ret (take (Z.to_nat n) (chain_data c)).
Proof.
  intros (H1 & H2 & H3 & H4 & _) Hn. rewrite mem_read_ok by lia. unfold chain_data.
  rewrite take_take. by replace (Z.to_nat n `min` Z.to_nat (off c))%nat with (Z.to_nat n) by lia.
Qed.

Lemma chain_read_all c : chain_ok c → mem_read (buffer c) (misalign c) (off c) = Ret (chain_data c).
Proof.
  intros Hc. pose proof Hc as (_ & H2 & _). rewrite chain_read by (done || lia). f_equal.
  apply take_ge. pose proof (length_chain_data c Hc). lia.
Qed.

(** Writing behind what is in use. *)
Lemma chain_write c d :
  chain_ok c → misalign c + off c + Z.of_nat (length d) <= buffer_len c →
  ∃ m, mem_write (buffer c) (misalign c + off c) d = Ret m ∧
    let c' := with_used c (misalign c) (off c + Z.of_nat (length d)) m in
    chain_ok c' ∧ chain_data c' = chain_data c ++ d.
Proof.
  intros (H1 & H2 & H3 & H4 & H5 & H6) Hd. unfold mem_write. rewrite decide_True by lia. eexists. split; [done|].
  split.
  - split_and!; cbn; try lia; try done. rewrite !length_app, length_take, length_drop. lia.
  - unfold chain_data, with_used. cbn.
    rewrite drop_app_le by (rewrite length_take; lia).
    set (o := Z.to_nat (off c)). set (s := Z.to_nat (misalign c)).
    replace (Z.to_nat (misalign c + off c)) with (s + o)%nat by lia.
    replace (Z.to_nat (off c + Z.of_nat (length d))) with (o + length d)%nat by lia.
    rewrite skipn_firstn_comm. replace (s + o - s)%nat with o by lia.
    rewrite app_assoc, take_app_le by (rewrite length_app, length_take, length_drop; lia).
    rewrite take_ge by (rewrite length_app, length_take, length_drop; lia). done.
Qed.

(** Moving what is in use to the start of the memory. *)
Lemma chain_align_ok c :
  chain_ok c → ∃ c', evbuffer_chain_align c = Ret c' ∧ chain_ok c' ∧ misalign c' = 0 ∧ off c' = off c ∧
    buffer_len c' = buffer_len c ∧ chain_data c' = chain_data c.
Proof.
  intros Hc. pose proof Hc as (H1 & H2 & H3 & H4 & H5 & H6). pose proof (length_chain_data c Hc) as Hl.
  unfold evbuffer_chain_align. rewrite chain_read_all by done. cbn [mbind outcome_bind].
  unfold mem_write. rewrite decide_True by lia. cbn [mbind outcome_bind]. eexists. split; [done|].
  change (Z.to_nat 0) with 0%nat. rewrite take_0, Nat.add_0_l. split_and!; try done.
  - unfold chain_ok. cbn. rewrite length_app, length_drop. split_and!; lia || done.
  - set (d := chain_data c) in *. unfold chain_data. cbn [with_used off misalign buffer].
    change (Z.to_nat 0) with 0%nat. rewrite drop_0, app_nil_l, take_app_le by lia. apply take_ge. lia.
Qed.

Section memory.
Context `{!Malloc, !MallocOk}.

Lemma alloc_loop_ok fuel : ∀ (k : nat) size,
  (k <= 22)%nat → (22 - k < fuel)%nat → size <= 2 ^ 32 →
  ∃ j : nat, (j <= 22)%nat ∧ alloc_loop fuel (MIN_BUFFER_SIZE * 2 ^ Z.of_nat k) size = Ret (MIN_BUFFER_SIZE * 2 ^ Z.of_nat j) ∧
    size <= MIN_BUFFER_SIZE * 2 ^ Z.of_nat j.
Proof.
  unfold MIN_BUFFER_SIZE. induction fuel as [|fuel IH]; intros k size Hk Hf Hs; [lia|]. cbn [alloc_loop].
  case_decide as Hlt; [|exists k; split; [done|split; [done|lia]]].
  destruct (decide (k = 22%nat)) as [->|Hne]; [change (1024 * 2 ^ Z.of_nat 22) with (2 ^ 32) in Hlt; lia|].
  assert (u64 (Z.shiftl (1024 * 2 ^ Z.of_nat k) 1) = 1024 * 2 ^ Z.of_nat (S k)) as ->; [|apply IH; lia].
  rewrite Z.shiftl_mul_pow2 by lia. rewrite u64_small.
  - rewrite Nat2Z.inj_succ, Z.pow_succ_r by lia. lia.
  - pose proof (Z.pow_pos_nonneg 2 (Z.of_nat k) ltac:(lia) ltac:(lia)). lia.
Qed.

Lemma chain_new_ok size :
  0 <= size → size + EVBUFFER_CHAIN_SIZE <= 2 ^ 32 →
  ∃ c, evbuffer_chain_new size = Ret (Some c) ∧ chain_ok c ∧ off c = 0 ∧ misalign c = 0 ∧ size <= buffer_len c.
Proof.
  unfold EVBUFFER_CHAIN_SIZE. intros Hpos Hs. unfold evbuffer_chain_new, EVBUFFER_CHAIN_SIZE. rewrite u64_small by lia.
  destruct (alloc_loop_ok 64 0 (size + 48)) as (j & Hj & E & Hle); [lia|lia|lia|].
  change (MIN_BUFFER_SIZE * 2 ^ Z.of_nat 0) with MIN_BUFFER_SIZE in E. rewrite E. cbn [mbind outcome_bind].
  assert (MIN_BUFFER_SIZE * 2 ^ Z.of_nat j <= 2 ^ 32) as Hmax.
  { unfold MIN_BUFFER_SIZE. pose proof (Z.pow_le_mono_r 2 (Z.of_nat j) 22 ltac:(lia) ltac:(lia)). lia. }
  destruct (malloc_ok (MIN_BUFFER_SIZE * 2 ^ Z.of_nat j)) as (m & -> & Hm); [lia|].
  cbn [fmap option_fmap option_map]. eexists. split; [done|]. split; [|cbn; split_and!; lia].
  unfold chain_ok, EVBUFFER_CHAIN_SIZE. cbn. rewrite length_drop. split_and!; lia || done.
Qed.
End memory.

(** * Lemmas: lists of chains *)

Lemma chains_data_nil : chains_data [] = [].
Proof. done. Qed.

Lemma chains_data_app l1 l2 : chains_data (l1 ++ l2) = chains_data l1 ++ chains_data l2.
Proof. unfold chains_data. by rewrite fmap_app, concat_app. Qed.

Lemma chains_data_one c : chains_data [c] = chain_data c.
Proof. unfold chains_data. cbn. apply app_nil_r. Qed.

Lemma chains_data_free l : Forall (λ c, off c = 0) l → chains_data l = [].
Proof.
  induction 1 as [|c l Hc _ IH]; [done|]. unfold chains_data in *. cbn. rewrite IH. unfold chain_data. by rewrite Hc.
Qed.

Lemma find_victim_full l : ∀ k r,
  Forall (λ c, 0 < off c) l → find_victim k (l ++ r) = find_victim (k + length l) r.
Proof.
  induction l as [|c l IH]; intros k r Hl; cbn [app length find_victim]; [by rewrite Nat.add_0_r|].
  apply Forall_cons in Hl as [Hc Hl]. rewrite decide_True by (left; lia). rewrite IH by done. f_equal. lia.
Qed.

Lemma all_empty l : Forall (λ c, off c = 0) l → evbuffer_chains_all_empty l = true.
Proof. induction 1 as [|c l Hc _ IH]; [done|]. unfold evbuffer_chains_all_empty in *. cbn. by rewrite Hc, IH. Qed.

(** A chain is put where the first free one is, or behind all. *)
Lemma chain_insert_ok b c full free :
  chains b = full ++ free → Forall chain_ok free → Forall (λ c, 0 < off c) full → Forall (λ c, off c = 0) free →
  (last_with_datap b <= pred (length full))%nat → (length free <= 1)%nat →
  ∃ lwd, evbuffer_chain_insert b c = Ret (with_chains b (full ++ [c]) lwd (u64 (total_len b + off c))) ∧
    (lwd <= length full)%nat ∧ (off c = 0 → (lwd <= pred (length full))%nat).
Proof.
  intros Hb Hok Hf He Hl Hone. pose proof (all_empty free He) as Hall. unfold evbuffer_chain_insert. rewrite Hb.
  destruct full as [|c0 full].
  - cbn [length pred] in Hl. assert (last_with_datap b = 0%nat) as -> by lia.
    destruct free as [|e free]; cbn [app lookup]; [by exists 0%nat; split; [|lia]|].
    cbn [list_lookup length drop find_victim].
    apply Forall_cons in He as [He _]. apply Forall_cons in Hok as [Hok _].
    destruct (chain_flags e Hok) as (_ & Hp & _). rewrite (decide_False (P := off e ≠ 0 ∨ _)) by (intros [?|?]; congruence).
    rewrite decide_False by done. cbn [drop]. rewrite Hall. exists 0%nat. split; [done|cbn; lia].
  - set (lwd := last_with_datap b) in *. cbn [length pred] in Hl.
    destruct (lookup_lt_is_Some_2 ((c0 :: full) ++ free) lwd) as [x ->]; [rewrite length_app; cbn; lia|].
    rewrite drop_app_le by (cbn; lia). rewrite find_victim_full by (by apply Forall_drop).
    assert ((lwd + length (drop lwd (c0 :: full)))%nat = length (c0 :: full)) as -> by (rewrite length_drop; cbn; lia).
    destruct free as [|e free].
    + cbn [find_victim]. rewrite app_nil_r, decide_True by done. eexists. split; [done|].
      case_decide; cbn in *; split; lia.
    + cbn [find_victim]. apply Forall_cons in He as [He _]. apply Forall_cons in Hok as [Hok _].
      destruct (chain_flags e Hok) as (_ & Hp & _). rewrite (decide_False (P := off e ≠ 0 ∨ _)) by (intros [?|?]; congruence).
      rewrite decide_False by (rewrite length_app; cbn; lia). rewrite drop_app_length, Hall, take_app_length.
      eexists. split; [done|]. cbn. lia.
Qed.

(** * Lemmas: adding *)

(** Two buffers that differ in what the callbacks are told. *)
Definition same_data (b b' : evbuffer) : Prop :=
  chains b' = chains b ∧ last_with_datap b' = last_with_datap b ∧ total_len b' = total_len b ∧
  freeze_start b' = freeze_start b ∧ freeze_end b' = freeze_end b.

Lemma same_data_ok out fs fe b b' : same_data b b' → evb_ok out fs fe b → evb_ok out fs fe b'.
Proof. intros (E1 & E2 & E3 & E4 & E5). unfold evb_ok. by rewrite E1, E2, E3, E4, E5. Qed.

Lemma invoke_same b : same_data b (evbuffer_invoke_callbacks b).
Proof. unfold evbuffer_invoke_callbacks. destruct (negb _); [done|]. by case_decide. Qed.

Lemma finish_ok out fs fe b data :
  evb_ok out fs fe b ∧ chains_data (chains b) = data →
  evb_ok out fs fe (evbuffer_invoke_callbacks b) ∧ chains_data (chains (evbuffer_invoke_callbacks b)) = data.
Proof.
  intros [Hok Hd]. pose proof (invoke_same b) as Hs. split; [by eapply same_data_ok|].
  destruct Hs as [-> _]. done.
Qed.

Lemma shape_nil out : shape_ok out [] 0.
Proof. exists [], []. split; [done|]. split; [constructor|]. split; [constructor|]. destruct out; cbn; [lia|]. split; [done|constructor]. Qed.

Section last_chain.
Context {fs fe : bool}.

(** A buffer and its last chain. *)
Definition ends_with (b : evbuffer) (init : list evbuffer_chain) (c : evbuffer_chain) : Prop :=
  evb_ok true fs fe b ∧ chains b = init ++ [c] ∧ Forall (λ c, 0 < off c) init ∧
  (last_with_datap b <= length init)%nat ∧ (off c = 0 → (last_with_datap b <= pred (length init))%nat).

Lemma shape_snoc init c lwd :
  Forall (λ c, 0 < off c) init → 0 <= off c → (lwd <= length init)%nat → (off c = 0 → (lwd <= pred (length init))%nat) →
  shape_ok true (init ++ [c]) lwd.
Proof.
  intros Hi Hc Hl Hz. destruct (decide (off c = 0)) as [E|E].
  - exists init, [c]. split_and!; [done|done|by constructor|done|by apply Hz].
  - exists (init ++ [c]), []. rewrite app_nil_r, length_app. split_and!; [done| |done|cbn; lia|cbn; lia].
    apply Forall_app. split; [done|]. constructor; [lia|done].
Qed.

Lemma shape_last l lwd :
  Forall chain_ok l → shape_ok true l lwd → l ≠ [] →
  ∃ init c, l = init ++ [c] ∧ Forall (λ c, 0 < off c) init ∧ (lwd <= length init)%nat ∧
    (off c = 0 → (lwd <= pred (length init))%nat).
Proof.
  intros Hok (full & free & -> & Hf & He & Hone & Hl) Hne. destruct free as [|e [|]]; [|..].
  - rewrite app_nil_r in *. destruct full as [|c init _] using rev_ind; [done|].
    apply Forall_app in Hf as [Hi [Hc _]%Forall_cons]. rewrite length_app in Hl. cbn in Hl.
    exists init, c. split_and!; [done|done|lia|lia].
  - exists full, e. split_and!; [done|done|lia|done].
  - cbn in Hone. lia.
Qed.

(** The last chain grew by [d]. *)
Lemma grown_ok b init c c' d :
  ends_with b init c → chain_ok c' → chain_data c' = chain_data c ++ d → off c' = off c + Z.of_nat (length d) →
  total_len b + Z.of_nat (length d) <= INT_MAX →
  let b' := grown b c' (Z.of_nat (length d)) in
  ends_with b' init c' ∧ chains_data (chains b') = chains_data (chains b) ++ d ∧
  total_len b' = total_len b + Z.of_nat (length d).
Proof.
  intros ((Hok & _ & Ht & Hmax & Hfs & Hfe) & Hch & Hi & Hl & Hz) Hc' Hd Ho Hroom b'.
  assert (chains b' = init ++ [c']) as E.
  { unfold b', grown. cbn. rewrite Hch, length_app. cbn. replace (pred (length init + 1)) with (length init) by lia.
    by rewrite insert_app_r_alt, Nat.sub_diag by lia. }
  assert (total_len b' = total_len b + Z.of_nat (length d)) as Et.
  { unfold b', grown. cbn. apply u64_small. unfold INT_MAX in *. lia. }
  assert (last_with_datap b' = last_with_datap b) as El by done.
  rewrite Hch in Hok, Ht |- *. apply Forall_app in Hok as [Hoki Hokc]. apply Forall_cons in Hokc as [Hokc _].
  pose proof Hokc as (_ & Hoff & _). pose proof Hc' as (_ & Hoff' & _).
  assert (chains_data (init ++ [c']) = chains_data (init ++ [c]) ++ d) as Ed
    by (by rewrite !chains_data_app, !chains_data_one, Hd, app_assoc).
  rewrite E. split; [|by split].
  assert (off c' = 0 → (last_with_datap b <= pred (length init))%nat) as Hz' by (intros; apply Hz; lia).
  split_and!; [|exact E|done|by rewrite El|by rewrite El].
  split_and!.
  - rewrite E. apply Forall_app. split; [done|]. by constructor.
  - rewrite E, El. by apply shape_snoc.
  - rewrite E, Et, Ed, length_app. lia.
  - lia.
  - done.
  - done.
Qed.

Section adding.
Context `{!Malloc, !MallocOk}.

Lemma last_chain_ok b n :
  evb_ok true fs fe b → 0 <= n <= INT_MAX →
  ∃ init c b1, last_chain b n = Ret (Some (c, b1)) ∧ ends_with b1 init c ∧
    chains_data (chains b1) = chains_data (chains b) ∧ total_len b1 = total_len b.
Proof.
  intros Hb Hn. pose proof Hb as (Hok & Hshape & Ht & Hmax & Hfs & Hfe). unfold last_chain.
  destruct (decide (chains b = [])) as [Enil|Hne].
  - rewrite Enil in *. destruct Hshape as (full & free & E & Hf & He & Hone & Hl).
    symmetry in E. apply app_eq_nil in E as [-> ->]. cbn [last].
    destruct (chain_new_ok n) as (c & -> & Hc & Ho & _); [lia|unfold EVBUFFER_CHAIN_SIZE, INT_MAX in *; lia|].
    cbn [mbind outcome_bind].
    destruct (chain_insert_ok b c [] [] Enil) as (lwd & -> & Hlwd & Hz); [done|done|done|done|cbn; lia|].
    cbn [app length] in *. change (chains_data []) with (@nil byte) in *. cbn [length] in Ht.
    rewrite Ht, Ho. change (u64 (Z.of_nat 0 + 0)) with 0. change (Z.of_nat 0) with 0.
    assert (chains_data [c] = []) as Ed by (apply chains_data_free; by constructor).
    exists [], c, (with_chains b [c] lwd 0). split; [done|]. split; [|by split].
    split; [|split; [done|split; [done|split; [done|done]]]].
    split; [by constructor|]. split; [apply (shape_snoc [] c); (done || lia)|].
    cbn [with_chains chains total_len freeze_start freeze_end]. rewrite Ed. split_and!; done.
  - destruct (shape_last _ _ Hok Hshape Hne) as (init & c & E & Hi & Hl & Hz).
    rewrite E, last_snoc. exists init, c, b. split; [done|]. split; [by split_and!|]. by rewrite E.
Qed.

Lemma chain_room b init c : ends_with b init c → chain_ok c.
Proof. intros ((Hok & _) & E & _). rewrite E in Hok. by apply Forall_app in Hok as [_ [? _]%Forall_cons]. Qed.

(** The part that fits into the last chain. *)
Lemma fill_ok b init c d remain :
  ends_with b init c → remain = buffer_len c - misalign c - off c → remain < Z.of_nat (length d) →
  total_len b + Z.of_nat (length d) <= INT_MAX →
  ∃ b1, (if decide (remain ≠ 0) then
           x ← mem_read d 0 remain; m ← mem_write (buffer c) (misalign c + off c) x;
           Ret (grown b (with_used c (misalign c) (u64 (off c + remain)) m) remain)
         else Ret b) = Ret b1 ∧
    evb_ok true fs fe b1 ∧ chains_data (chains b1) = chains_data (chains b) ++ take (Z.to_nat remain) d ∧
    total_len b1 = total_len b + remain.
Proof.
  intros He Hr Hlt Hroom. pose proof (chain_room _ _ _ He) as Hc. pose proof Hc as (H1 & H2 & H3 & H4 & H5 & H6).
  case_decide as Hz.
  - rewrite mem_read_ok by lia. cbn [mbind outcome_bind]. change (Z.to_nat 0) with 0%nat. rewrite drop_0.
    set (x := take (Z.to_nat remain) d). assert (Z.of_nat (length x) = remain) as Hx by (unfold x; rewrite length_take; lia).
    destruct (chain_write c x Hc) as (m & -> & Hc' & Hd); [lia|]. cbn [mbind outcome_bind]. rewrite Hx in Hc', Hd.
    rewrite u64_small by (unfold EVBUFFER_CHAIN_SIZE in *; lia). eexists. split; [done|].
    pose proof (grown_ok b init c _ x He Hc' Hd) as Hg. rewrite Hx in Hg.
    destruct Hg as ((Hok & _) & Hdata & Ht); [done|unfold x in Hx; lia|]. by split_and!.
  - assert (remain = 0) as -> by lia. exists b. split; [done|]. rewrite app_nil_r, Z.add_0_r. split; [apply He|done].
Qed.

Lemma add_chain_ok b init c d :
  ends_with b init c → buffer_len c - misalign c - off c < Z.of_nat (length d) →
  total_len b + Z.of_nat (length d) <= INT_MAX →
  ∃ b', add_chain b c (buffer_len c - misalign c - off c) d = Ret (0, b') ∧ evb_ok true fs fe b' ∧
    chains_data (chains b') = chains_data (chains b) ++ d.
Proof.
  intros He Hlt Hroom. pose proof (chain_room _ _ _ He) as Hc. pose proof Hc as (H1 & H2 & H3 & H4 & H5 & H6).
  pose proof He as ((_ & _ & Hpos & _) & _). unfold INT_MAX, EVBUFFER_CHAIN_SIZE in *.
  unfold add_chain. set (remain := buffer_len c - misalign c - off c) in *.
  match goal with |- context [evbuffer_chain_new ?n] => set (to_alloc := n) end.
  assert (Z.of_nat (length d) <= to_alloc ∧ to_alloc + 48 <= 2 ^ 32) as [Ha1 Ha2].
  { unfold to_alloc, EVBUFFER_CHAIN_MAX_AUTO_SIZE.
    destruct (decide (buffer_len c <= 4096 / 2)) as [Hs|Hs].
    - rewrite Z.shiftl_mul_pow2 by lia. change (4096 / 2) with 2048 in Hs. rewrite u64_small by lia.
      case_decide; lia.
    - case_decide; lia. }
  destruct (chain_new_ok to_alloc) as (tmp & -> & Htmp & Ho & Hm & Hlen); [lia|unfold EVBUFFER_CHAIN_SIZE; lia|].
  cbn [mbind outcome_bind].
  destruct (fill_ok b init c d remain He eq_refl Hlt) as (b1 & -> & Hb1 & Hd1 & Ht1); [unfold INT_MAX; lia|].
  cbn [mbind outcome_bind]. rewrite mem_read_ok by lia. cbn [mbind outcome_bind].
  set (x := take _ (drop _ d)).
  assert (x = drop (Z.to_nat remain) d) as Ex by (unfold x; apply take_ge; rewrite length_drop; lia).
  assert (Z.of_nat (length x) = Z.of_nat (length d) - remain) as Hx by (rewrite Ex, length_drop; lia).
  destruct (chain_write tmp x Htmp) as (m & Hw & Hc' & Hd'); [lia|]. rewrite Ho, Hm in Hw. change (0 + 0) with 0 in Hw.
  rewrite Hw. cbn [mbind outcome_bind]. rewrite Ho, Z.add_0_l, Hx in Hc', Hd'.
  set (tmp' := with_used tmp (misalign tmp) (Z.of_nat (length d) - remain) m) in *.
  pose proof Hb1 as (Hok1 & (full & free & Ef & Hf & Hfree & Hone & Hlwd) & Htot & Hmax1 & Hfs & Hfe).
  assert (Forall chain_ok free ∧ Forall chain_ok full) as [Hokfree Hokfull]
    by (rewrite Ef in Hok1; by apply Forall_app in Hok1 as [? ?]).
  destruct (chain_insert_ok b1 tmp' full free Ef) as (lwd & -> & Hl1 & _);
    [done..|].
  eexists. split; [done|]. apply finish_ok.
  assert (chains_data (full ++ [tmp']) = chains_data (chains b) ++ d) as Edata.
  { rewrite Ef, chains_data_app, (chains_data_free free), app_nil_r in Hd1 by done.
    rewrite chains_data_app, Hd1, chains_data_one, Hd', <- app_assoc. f_equal.
    assert (chain_data tmp = []) as -> by (unfold chain_data; by rewrite Ho). cbn. by rewrite Ex, take_drop. }
  split; [|exact Edata]. unfold count_added, with_counts, with_chains. split_and!; cbn [chains last_with_datap total_len freeze_start freeze_end].
  - apply Forall_app. split; [done|by constructor].
  - apply shape_snoc; [done|unfold tmp'; cbn; lia|done|unfold tmp'; cbn; lia].
  - rewrite Edata, length_app, Nat2Z.inj_add. unfold tmp'. cbn. rewrite u64_small by lia. lia.
  - unfold tmp'. cbn. rewrite u64_small by lia. unfold INT_MAX. lia.
  - done.
  - done.
Qed.
End adding.

(** What was written into the last chain: directly, or after its data moved to the front. *)
Lemma write_last_ok b init c c2 d :
  ends_with b init c → chain_ok c2 → off c2 = off c → chain_data c2 = chain_data c →
  misalign c2 + off c2 + Z.of_nat (length d) <= buffer_len c2 → total_len b + Z.of_nat (length d) <= INT_MAX →
  ∃ m, mem_write (buffer c2) (misalign c2 + off c2) d = Ret m ∧
    let b' := evbuffer_invoke_callbacks
                (grown b (with_used c2 (misalign c2) (u64 (off c2 + Z.of_nat (length d))) m) (Z.of_nat (length d))) in
    evb_ok true fs fe b' ∧ chains_data (chains b') = chains_data (chains b) ++ d.
Proof.
  intros He Hc2 Ho Hd Hroom Hmax. destruct (chain_write c2 d Hc2 Hroom) as (m & Hw & Hc' & Hd').
  exists m. split; [done|]. pose proof Hc2 as (? & ? & ? & ? & ? & ?). unfold EVBUFFER_CHAIN_SIZE in *.
  rewrite u64_small by lia. apply finish_ok.
  destruct (grown_ok b init c _ d He Hc') as ((Hok & _) & Hg & _); [by rewrite Hd', Hd|cbn; by rewrite Ho|done|].
  by split.
Qed.

End last_chain.

Lemma add_ok `{!Malloc, !MallocOk} fs b d :
  evb_ok true fs false b → total_len b + Z.of_nat (length d) <= INT_MAX →
  ∃ b', evbuffer_add b d = Ret (0, b') ∧ evb_ok true fs false b' ∧ chains_data (chains b') = chains_data (chains b) ++ d.
Proof.
  intros Hb Hroom. pose proof Hb as (_ & _ & Ht & Hmax & Hfs & Hfe). unfold evbuffer_add. rewrite Hfe.
  destruct (last_chain_ok b (Z.of_nat (length d)) Hb) as (init & c & b1 & -> & He & Hd1 & Ht1); [lia|].
  cbn [mbind outcome_bind]. pose proof (chain_room _ _ _ He) as Hc. pose proof Hc as (H1 & H2 & H3 & H4 & H5 & H6).
  destruct (chain_flags c Hc) as (-> & -> & _). unfold EVBUFFER_CHAIN_SIZE, INT_MAX in *. rewrite u64_small by lia.
  rewrite <- Hd1. case_decide as Hfit.
  - destruct (write_last_ok b1 init c c d He Hc eq_refl eq_refl) as (m & -> & Hok & Hd); [lia|unfold INT_MAX; lia|].
    cbn [mbind outcome_bind]. by eexists.
  - assert (buffer_len c - misalign c - off c < Z.of_nat (length d)) as Hlt by (apply Z.nle_gt; naive_solver).
    case_decide as Hre.
    + destruct Hre as (_ & _ & Hre). unfold evbuffer_chain_should_realign in Hre.
      rewrite !andb_true_iff, !bool_decide_eq_true, u64_small in Hre by lia.
      destruct (chain_align_ok c Hc) as (c2 & -> & Hc2 & Hm2 & Ho2 & Hl2 & Hd2). cbn [mbind outcome_bind].
      destruct (write_last_ok b1 init c c2 d He Hc2 Ho2 Hd2) as (m & Hw & Hok & Hd); [lia|unfold INT_MAX; lia|].
      rewrite Hm2, Z.add_0_l in Hw. rewrite Hw. cbn [mbind outcome_bind]. by eexists.
    + destruct (add_chain_ok b1 init c d He Hlt) as (b' & -> & Hok & Hd); [unfold INT_MAX; lia|]. by exists b'.
Qed.

(** * Lemmas: reading and draining *)

Lemma chains_data_cons c l : chains_data (c :: l) = chain_data c ++ chains_data l.
Proof. done. Qed.

Lemma copyout_loop_ok l : ∀ n acc,
  Forall chain_ok l → 0 <= n <= Z.of_nat (length (chains_data l)) →
  copyout_loop l n acc = Ret (acc ++ take (Z.to_nat n) (chains_data l)).
Proof.
  induction l as [|c l IH]; intros n acc Hok Hn; cbn [copyout_loop].
  - rewrite chains_data_nil in *. cbn in Hn. assert (n = 0) as -> by lia. by rewrite decide_True, app_nil_r.
  - apply Forall_cons in Hok as [Hc Hl]. pose proof (length_chain_data c Hc) as Hlen.
    pose proof Hc as (_ & Hoff & _). rewrite chains_data_cons, length_app in *. case_decide as Hz.
    { subst n. by rewrite app_nil_r. }
    case_decide as Hle.
    + rewrite chain_read_all by done. cbn [mbind outcome_bind]. rewrite IH by (done || lia).
      rewrite <- app_assoc. do 2 f_equal. rewrite take_app_ge by lia. do 2 f_equal. lia.
    + rewrite chain_read by (done || lia). cbn [mbind outcome_bind]. by rewrite take_app_le by lia.
Qed.

Lemma copyout_ok out fe b n :
  evb_ok out false fe b → 0 <= n →
  ∃ r, evbuffer_copyout b n = Ret (r, take (Z.to_nat n) (chains_data (chains b))) ∧
    r = Z.min n (total_len b).
Proof.
  intros (Hok & _ & Ht & _ & Hfs & _) Hn. unfold evbuffer_copyout. rewrite Hfs. exists (Z.min n (total_len b)).
  assert ((if decide (total_len b <= n) then total_len b else n) = Z.min n (total_len b)) as -> by (case_decide; lia).
  split; [|done]. case_decide as Hz.
  - rewrite Hz. f_equal. f_equal. destruct (decide (n = 0)) as [->|]; [done|].
    assert (length (chains_data (chains b)) = 0%nat) as E%nil_length_inv by lia. by rewrite E, take_nil.
  - rewrite copyout_loop_ok by (done || lia). cbn [mbind outcome_bind app]. do 2 f_equal.
    destruct (decide (n <= total_len b)); [by rewrite Z.min_l by lia|].
    rewrite Z.min_r by lia. rewrite !take_ge by lia. done.
Qed.

(** The loop stops in the chain that holds the first byte that stays. *)
Lemma drain_loop_ok l : ∀ i lwd n,
  Forall chain_ok l → 0 <= n < Z.of_nat (length (chains_data l)) →
  ∃ j lwd' n' c rest, drain_loop l i lwd n = Ret ((i + j)%nat, lwd', n', c :: rest) ∧ drop j l = c :: rest ∧
    0 <= n' < off c ∧ drop (Z.to_nat n) (chains_data l) = drop (Z.to_nat n') (chain_data c) ++ chains_data rest ∧
    (lwd' - (i + j) = lwd - (i + j))%nat.
Proof.
  induction l as [|c l IH]; intros i lwd n Hok Hn; [rewrite chains_data_nil in Hn; cbn in Hn; lia|]. cbn [drain_loop].
  apply Forall_cons in Hok as [Hc Hl]. pose proof (length_chain_data c Hc) as Hlen. pose proof Hc as (_ & Hoff & _).
  rewrite chains_data_cons, length_app in *. case_decide as Hle.
  - destruct (chain_flags c Hc) as (_ & _ & ->).
    match goal with |- context [drain_loop l (S i) ?x _] => set (lwd1 := x) end.
    assert (∀ j, (lwd1 - (S i + j) = lwd - (S i + j))%nat) as Hl1 by (intros j; unfold lwd1; repeat case_decide; lia).
    destruct (IH (S i) lwd1 (n - off c) Hl) as (j & lwd' & n' & c' & rest & E & Hd & Hn' & Hdata & Hlwd); [lia|].
    exists (S j), lwd', n', c', rest. rewrite E. split; [f_equal; f_equal; f_equal; f_equal; lia|].
    split; [done|]. split; [done|].
    split; [rewrite drop_app_ge by lia; rewrite <- Hdata; f_equal; lia|]. specialize (Hl1 j). lia.
  - exists 0%nat, lwd, n, c, l. rewrite Nat.add_0_r. split_and!; try done; try lia. by rewrite drop_app_le by lia.
Qed.

Lemma drop_shape out l lwd j c rest :
  shape_ok out l lwd → drop j l = c :: rest → 0 < off c →
  ∀ c', 0 < off c' → shape_ok out (c' :: rest) (lwd - j).
Proof.
  intros (full & free & -> & Hf & He & Hl) Hd Hpos c' Hc'.
  destruct (decide (j < length full)%nat) as [Hlt|Hge].
  - rewrite drop_app_le in Hd by lia. destruct (drop j full) as [|c0 full'] eqn:Ed.
    { apply (f_equal length) in Ed. rewrite length_drop in Ed. cbn in Ed. lia. }
    cbn in Hd. injection Hd as -> <-. exists (c' :: full'), free. split; [done|].
    pose proof (Forall_drop _ j _ Hf) as Hf'. rewrite Ed in Hf'. apply Forall_cons in Hf' as [_ Hf'].
    apply (f_equal length) in Ed. rewrite length_drop in Ed. cbn in Ed.
    split; [by constructor|]. split; [done|]. destruct out; cbn in *; [lia|]. split; [lia|apply Hl].
  - rewrite drop_app_ge in Hd by lia. pose proof (Forall_drop _ (j - length full) _ He) as He'.
    rewrite Hd in He'. apply Forall_cons in He' as [He' _]. lia.
Qed.

Lemma drain_ok out fe b n :
  evb_ok out false fe b → 0 <= n →
  ∃ b', evbuffer_drain b n = Ret (0, b') ∧ evb_ok out false fe b' ∧ chains_data (chains b') = drop (Z.to_nat n) (chains_data (chains b)).
Proof.
  intros Hb Hn. pose proof Hb as (Hok & Hshape & Ht & Hmax & Hfs & Hfe).
  unfold evbuffer_drain. rewrite Hfs. case_decide as Hz.
  { exists b. split; [done|]. split; [done|]. assert (length (chains_data (chains b)) = 0%nat) as E%nil_length_inv by lia.
    by rewrite E, drop_nil. }
  assert (HAS_PINNED_R b = false) as ->.
  { unfold HAS_PINNED_R. destruct (last (chains b)) as [c|] eqn:El; [|done]. apply last_Some in El as [l' El].
    rewrite El in Hok. apply Forall_app in Hok as [_ [Hc _]%Forall_cons]. by apply chain_flags. }
  case_decide as Hall.
  - cbn [mbind outcome_bind]. eexists. split; [done|]. apply finish_ok. cbn. split; [|by rewrite drop_ge by lia].
    split_and!; cbn; try done. apply shape_nil.
  - rewrite decide_False by naive_solver.
    destruct (drain_loop_ok (chains b) 0 (last_with_datap b) n Hok) as (j & lwd & n' & c & rest & -> & Hd & Hn' & Hdata & Hl);
      [naive_solver lia|].
    cbn [mbind outcome_bind fst snd Nat.add]. eexists. split; [done|]. apply finish_ok.
    cbn [count_deleted with_counts with_chains chains]. rewrite chains_data_cons.
    assert (Forall chain_ok (c :: rest)) as [Hc Hrest]%Forall_cons by (rewrite <- Hd; by apply Forall_drop).
    pose proof Hc as (C1 & C2 & C3 & C4 & C5 & C6). pose proof (length_chain_data c Hc) as Hlen.
    set (c' := with_used c (misalign c + n') (off c - n') (buffer c)).
    assert (chain_data c' = drop (Z.to_nat n') (chain_data c)) as Hc'.
    { unfold chain_data, c'. cbn. rewrite skipn_firstn_comm, drop_drop.
      f_equal; [lia|]. f_equal. lia. }
    split; [|by rewrite Hc', Hdata].
    assert (n < total_len b) as Hlt by (apply Z.nle_gt; naive_solver).
    split_and!; cbn; try done.
    + constructor; [|done]. unfold chain_ok, c'. cbn. split_and!; lia || done.
    + cbn [Nat.add] in Hl. rewrite Hl. apply (drop_shape out _ _ _ c rest Hshape Hd); [lia|cbn; lia].
    + rewrite chains_data_cons, Hc', <- Hdata, length_drop, u64_small by (unfold INT_MAX in *; lia). lia.
    + rewrite u64_small by (unfold INT_MAX in *; lia). lia.
Qed.

Lemma remove_ok out fe b n :
  evb_ok out false fe b → 0 <= n →
  ∃ r b', evbuffer_remove b n = Ret (r, take (Z.to_nat n) (chains_data (chains b)), b') ∧ evb_ok out false fe b' ∧
    chains_data (chains b') = drop (Z.to_nat n) (chains_data (chains b)).
Proof.
  intros Hb Hn. unfold evbuffer_remove. destruct (copyout_ok _ _ b n Hb) as (r & -> & Hr); [lia|].
  cbn [mbind outcome_bind fst snd]. pose proof Hb as (_ & _ & Ht & _). case_decide as Hz.
  - destruct (drain_ok _ _ b r Hb) as (b' & -> & Hok & Hd); [lia|]. cbn [mbind outcome_bind fst snd].
    eexists _, b'. split; [done|]. split; [done|]. rewrite Hd. destruct (decide (n <= total_len b)).
    + by replace r with n by lia.
    + rewrite !drop_ge by lia. done.
  - eexists _, b. split; [done|]. split; [done|]. destruct (decide (n = 0)) as [->|]; [done|].
    assert (length (chains_data (chains b)) = 0%nat) as E%nil_length_inv by lia. by rewrite E, drop_nil.
Qed.

(** All of [inb] is moved behind [outbuf]; an empty chain between them would be in the way of
    later additions. *)
Lemma add_buffer_ok `{!Malloc} fs fe outbuf inb :
  evb_ok true fs false outbuf → evb_ok true false fe inb → Forall (λ c, 0 < off c) (chains outbuf) ∨ total_len outbuf = 0 →
  total_len outbuf + total_len inb <= INT_MAX →
  ∃ outbuf' inb', evbuffer_add_buffer outbuf inb = Ret (0, outbuf', inb') ∧ evb_ok true fs false outbuf' ∧ evb_ok true false fe inb' ∧
    chains_data (chains outbuf') = chains_data (chains outbuf) ++ chains_data (chains inb) ∧
    chains_data (chains inb') = [].
Proof.
  intros Hout Hin Hfull Hmax. pose proof Hout as (Ook & Oshape & Ot & Omax & Os & Oe).
  pose proof Hin as (Iok & (full & free & Ef & If & Ifree & Ione & Ilwd) & It & Imax & Is & Ie).
  unfold evbuffer_add_buffer. rewrite Oe, Is. cbn [orb].
  case_decide as Hz.
  { exists outbuf, inb. split; [done|]. split; [done|]. split; [done|].
    assert (length (chains_data (chains inb)) = 0%nat) as E%nil_length_inv by lia. by rewrite E, app_nil_r. }
  assert (HAS_PINNED_R inb = false) as Hp.
  { unfold HAS_PINNED_R. destruct (last (chains inb)) as [c|] eqn:El; [|done]. apply last_Some in El as [l' El].
    rewrite El in Iok. apply Forall_app in Iok as [_ [Hc _]%Forall_cons]. by apply chain_flags. }
  unfold PRESERVE_PINNED. rewrite Hp. cbn [negb mbind outcome_bind]. eexists _, _. split; [done|].
  assert (∀ b, evb_ok true false fe (RESTORE_PINNED b []) ↔ freeze_start b = false ∧ freeze_end b = fe) as Hr.
  { intros b. unfold RESTORE_PINNED, evb_ok. cbn. split; [naive_solver|]. intros [? ?]. pose proof (shape_nil true).
    by split_and!. }
  assert (full ≠ []) as Hne.
  { intros ->. rewrite Ef, app_nil_l, chains_data_free in It by done. cbn in It. lia. }
  assert (0 < length full)%nat by (destruct full; [done|cbn; lia]).
  set (out1 := if decide (total_len outbuf = 0) then _ else _).
  assert (evb_ok true fs false out1 ∧ chains_data (chains out1) = chains_data (chains outbuf) ++ chains_data (chains inb)) as [Hok Hdata].
  { unfold out1. case_decide as Hout0.
    - assert (length (chains_data (chains outbuf)) = 0%nat) as E%nil_length_inv by lia. rewrite E. cbn. split; [|done].
      split_and!; cbn; try done. by exists full, free.
    - destruct Hfull as [Hfull|?]; [|done]. cbn. rewrite chains_data_app. split; [|done].
      split_and!; cbn; try done.
      + by apply Forall_app.
      + exists (chains outbuf ++ full), free. rewrite Ef, app_assoc, length_app. split; [done|].
        split; [by apply Forall_app|]. split; [done|]. split; [done|lia].
      + rewrite chains_data_app, length_app, u64_small by (unfold INT_MAX in *; lia). lia.
      + rewrite u64_small by (unfold INT_MAX in *; lia). lia. }
  destruct (finish_ok _ _ _ (count_added out1 (total_len inb)) _ (conj Hok Hdata)) as [H1 H2].
  destruct (finish_ok _ _ _ (count_deleted (RESTORE_PINNED inb []) (total_len inb)) [] (conj (proj2 (Hr inb) (conj Is Ie)) eq_refl))
    as [H3 H4].
  by split_and!.
Qed.

(** * The interface *)

(** The call's results, for a call that returns; [evbuffer_ok] shows that they all do. *)
Definition returns {A} (d : A) (m : outcome A) : A := match m with Ret a => a | _ => d end.

#[export] Instance evbuffer_evbuf `{!Malloc} : Evbuf evbuffer := {|
  Evbuf.evbuffer_get_length := evbuffer_get_length;
  Evbuf.evbuffer_copyout b n := (returns (-1, []) (evbuffer_copyout b n)).2;
  Evbuf.evbuffer_remove b n := let r := returns (-1, [], b) (evbuffer_remove b n) in (r.1.2, r.2);
  Evbuf.evbuffer_drain b n := returns (-1, b) (evbuffer_drain b n);
  Evbuf.evbuffer_add b d := returns (-1, b) (evbuffer_add b d);
  Evbuf.evbuffer_add_buffer out inb := returns (-1, out, inb) (evbuffer_add_buffer out inb)
|}.

#[export] Program Instance evbuffer_ok `{!Malloc, !MallocOk} : EvbufOk evbuffer := {|
  content_of b := chains_data (chains b);
  in_ok := evb_in;
  out_ok := evb_out
|}.
Next Obligation. intros ? ? b (_ & _ & Ht & _). exact Ht. Qed.
Next Obligation. intros ? ? b n Hb Hn. cbn. by destruct (copyout_ok _ _ b n Hb Hn) as (r & -> & _). Qed.
Next Obligation.
  intros ? ? b n Hb Hn. cbn. destruct (remove_ok _ _ b n Hb Hn) as (r & b' & -> & Hok & Hd).
  split; [done|]. split; [exact Hd|by eapply evb_in_intro].
Qed.
Next Obligation.
  intros ? ? b n Hb Hn. cbn. destruct (drain_ok _ _ b n Hb Hn) as (b' & -> & Hok & Hd).
  split; [done|]. split; [exact Hd|by eapply evb_in_intro].
Qed.
Next Obligation.
  intros ? ? b d Hb Hd. cbn. pose proof Hb as (_ & _ & Ht & _).
  destruct (add_ok _ b d Hb) as (b' & -> & Hok & Hdata); [lia|].
  split; [done|]. split; [exact Hdata|by eapply evb_out_intro].
Qed.

(** * Properties *)

(** C14: libevent's chains behave as one queue of bytes: on well-formed buffers every call returns -
    no access outside a chain's memory, no chain missing - and reports success; copying gives the
    first bytes of the content, removing and draining take them away, adding appends, and the
    buffer stays well formed.  The input of a client can be read whether or not its end is frozen,
    the output added to whether or not its start is. *)
Theorem evbuffer_refines `{!Malloc, !MallocOk} (b : evbuffer) :
  (evb_in b →
   evbuffer_get_length b = Z.of_nat (length (chains_data (chains b))) ∧
   (∀ n, 0 <= n →
      evbuffer_copyout b n = Ret (Z.min n (total_len b), take (Z.to_nat n) (chains_data (chains b)))) ∧
   (∀ n, 0 <= n → ∃ b', evbuffer_drain b n = Ret (0, b') ∧ evb_in b' ∧
      chains_data (chains b') = drop (Z.to_nat n) (chains_data (chains b))) ∧
   (∀ n, 0 <= n → ∃ r b',
      evbuffer_remove b n = Ret (r, take (Z.to_nat n) (chains_data (chains b)), b') ∧ evb_in b' ∧
      chains_data (chains b') = drop (Z.to_nat n) (chains_data (chains b)))) ∧
  (evb_out b →
   evbuffer_get_length b = Z.of_nat (length (chains_data (chains b))) ∧
   (∀ d, total_len b + Z.of_nat (length d) <= INT_MAX → ∃ b', evbuffer_add b d = Ret (0, b') ∧ evb_out b' ∧
      chains_data (chains b') = chains_data (chains b) ++ d)).
Proof.
  split; intros Hb; (split; [apply Hb|]).
  - split; [|split]; intros n Hn.
    + by destruct (copyout_ok _ _ b n Hb Hn) as (r & -> & ->).
    + destruct (drain_ok _ _ b n Hb Hn) as (b' & ? & ?%evb_in_intro & ?). by exists b'.
    + destruct (remove_ok _ _ b n Hb Hn) as (r & b' & ? & ?%evb_in_intro & ?). by exists r, b'.
  - intros d Hd. destruct (add_ok _ b d Hb Hd) as (b' & ? & ?%evb_out_intro & ?). by exists b'.
Qed.

(** Memory full of zeros. *)
#[local] Instance demo_malloc : Malloc := {| mm_malloc n := Some (replicate (Z.to_nat n) x00) |}.
#[local] Instance demo_malloc_ok : MallocOk.
Proof. split. intros n Hn. eexists. split; [done|]. rewrite length_replicate. lia. Qed.

(** Two additions to an output, and three bytes drained of an input that holds the same. *)
Lemma evbuffer_refines_witness :
  ∃ b1 b2 b3, evbuffer_add evbuffer_new (bs "hello ") = Ret (0, b1) ∧ evbuffer_add b1 (bs "world") = Ret (0, b2) ∧
    evbuffer_drain b2 3 = Ret (0, b3) ∧ evbuffer_copyout b3 5 = Ret (5, bs "lo wo").
Proof.
  assert (evb_out evbuffer_new) as H0.
  { split; [constructor|]. split; [apply shape_nil|done]. }
  destruct (proj2 (evbuffer_refines evbuffer_new) H0) as (_ & Ha).
  destruct (Ha (bs "hello ")) as (b1 & E1 & Hok1 & Hd1); [vm_compute; congruence|].
  destruct (proj2 (evbuffer_refines b1) Hok1) as (Hl1 & Ha1).
  change (evbuffer_get_length b1) with (total_len b1) in Hl1.
  destruct (Ha1 (bs "world")) as (b2 & E2 & Hok2 & Hd2); [rewrite Hl1, Hd1; vm_compute; congruence|].
  assert (evb_in b2) as Hin.
  { assert ((r ← evbuffer_add evbuffer_new (bs "hello "); evbuffer_add r.2 (bs "world")) = Ret (0, b2)) as Hrun
      by (rewrite E1; exact E2).
    destruct Hok2 as (H1 & _ & H3 & H4 & _). split; [exact H1|].
    destruct (evbuffer_add evbuffer_new (bs "hello ")) as [r| | |] eqn:Er; [|discriminate Hrun..].
    vm_compute in Er. injection Er as <-. vm_compute in Hrun. injection Hrun as <-.
    split; [|split; [exact H3|split; [exact H4|split; reflexivity]]].
    eexists [_], []. split; [reflexivity|]. split; [constructor; [reflexivity|constructor]|]. split; [constructor|]. split; [reflexivity|constructor]. }
  destruct (proj1 (evbuffer_refines b2) Hin) as (_ & _ & Hdr & _).
  destruct (Hdr 3) as (b3 & E3 & Hok3 & Hd3); [lia|].
  destruct (proj1 (evbuffer_refines b3) Hok3) as (Hl3 & Hc & _).
  change (evbuffer_get_length b3) with (total_len b3) in Hl3.
  exists b1, b2, b3. split; [exact E1|]. split; [exact E2|]. split; [exact E3|].
  rewrite Hc by lia. rewrite Hl3, Hd3, Hd2, Hd1. vm_compute. reflexivity.
Defined.
