(* ===== verification/EvbufferIO.v ===== *)
(** libevent's buffers and their descriptors: [evbuffer_read] and [evbuffer_write_atmost] of
    [src/deps/libevent2/buffer.c], through which a client's bytes enter and leave the proxy.

    [evbuffer_read] makes room behind the data, at most four chains of it, reads into that room with
    one [readv] and moves [last_with_datap]; [evbuffer_write_atmost] hands the first bytes to one
    [writev] and drains what was taken. *)
From S2P Require Import Prelude Net Evbuf Evbuffer.

Definition EVBUFFER_SENDFILE : Z := 0x0002.
Definition NUM_READ_IOVEC : nat := 4.
Definition NUM_WRITE_IOVEC : nat := 128.
Definition EVBUFFER_MAX_READ : Z := 4096.

(** The calls on a client's descriptor: [ioctl(FIONREAD)] (-1 when it fails), [readv] into room for
    that many bytes, [writev], [sendfile]. *)
Class EvIO (W : Type) := {
  get_n_bytes_readable_on_socket : W → Z → Z;
  sys_readv : W → Z → Z → Z * bytes * W;
  sys_writev : W → Z → bytes → Z * W;
  evbuffer_write_sendfile : W → Z → evbuffer_chain → Z → Z * W
}.

(** A positive result counts the bytes. *)
Class EvIOOk (W : Type) `{!EvIO W} := {
  readv_ok w fd n : (sys_readv w fd n).1.1 = -1 ∨ (sys_readv w fd n).1.1 = 0 ∨
    (0 < (sys_readv w fd n).1.1 <= n ∧ (sys_readv w fd n).1.1 = Z.of_nat (length (sys_readv w fd n).1.2));
  writev_ok w fd d : (sys_writev w fd d).1 <= Z.of_nat (length d)
}.

Definition CHAIN_SPACE_LEN (c : evbuffer_chain) : Z :=
  if immutable c then 0 else u64 (buffer_len c - (misalign c + off c)).

(** * Room for reading *)

Section expanding.
Context `{!Malloc}.

(** One chain - [first] is the one [last_with_datap] leads to -, which is realigned when it is empty. *)
Definition scan_chain (first : bool) (c : evbuffer_chain) (used : nat) (avail : Z) : outcome (evbuffer_chain * nat * Z) :=
  if decide (off c ≠ 0) then
    let space := CHAIN_SPACE_LEN c in
    _ ← EVUTIL_ASSERT first;
    Ret (if decide (space ≠ 0) then (c, S used, u64 (avail + space)) else (c, used, avail))
  else Ret (with_used c 0 (off c) (buffer c), S used, u64 (avail + buffer_len c)).

(** From [last_with_datap] on, until there is room for [datlen] bytes or [n] chains are used: whether
    there is room, the chains used, their room, and the chains. *)
Fixpoint expand_scan (n : nat) (datlen : Z) (first : bool) (l : list evbuffer_chain) (used : nat) (avail : Z)
    : outcome (bool * nat * Z * list evbuffer_chain) :=
  match l with
  | [] => Ret (false, used, avail, [])
  | c :: l =>
      r ← scan_chain first c used avail;
      let '(c, used, avail) := r : evbuffer_chain * nat * Z in
      if decide (datlen <= avail) then Ret (true, used, avail, c :: l)
      else if decide (used = n) then Ret (false, used, avail, c :: l)
      else
        r ← expand_scan n datlen false l used avail;
        Ret (r.1, c :: r.2)
  end.

(** All empty chains are replaced by one. *)
Definition expand_replace (b : evbuffer) (datlen : Z) : outcome (Z * evbuffer) :=
  let lwd := last_with_datap b in
  match drop lwd (chains b) with
  | [] => Undef NullPointer
  | chain :: rest =>
      let rmv_all := bool_decide (off chain = 0) in
      _ ← (if rmv_all then EVUTIL_ASSERT (lwd =? 0)%nat else Ret ());
      _ ← EVUTIL_ASSERT (evbuffer_chains_all_empty (if rmv_all then chain :: rest else rest));
      let avail := if rmv_all then 0 else CHAIN_SPACE_LEN chain in
      let keep := if rmv_all then [] else take (S lwd) (chains b) in
      tmp ← evbuffer_chain_new (u64 (datlen - avail));
      match tmp with
      | None => Ret (-1, if rmv_all then ZERO_CHAIN b else with_chains b keep lwd (total_len b))
      | Some tmp => Ret (0, with_chains b (keep ++ [tmp]) (if rmv_all then 0 else lwd)%nat (total_len b))
      end
  end.

Definition evbuffer_expand_fast (b : evbuffer) (datlen : Z) (n : nat) : outcome (Z * evbuffer) :=
  if match last (chains b) with None => true | Some c => immutable c end then
    c ← evbuffer_chain_new datlen;
    match c with
    | None => Ret (-1, b)
    | Some c => b ← evbuffer_chain_insert b c; Ret (0, b)
    end
  else
    let lwd := last_with_datap b in
    r ← expand_scan n datlen true (drop lwd (chains b)) 0 0;
    let '(enough, used, avail, l) := r : bool * nat * Z * list evbuffer_chain in
    let b := with_chains b (take lwd (chains b) ++ l) lwd (total_len b) in
    if (enough : bool) then Ret (0, b)
    else if decide (used < n)%nat then
      tmp ← evbuffer_chain_new (u64 (datlen - avail));
      match tmp with
      | None => Ret (-1, b)
      | Some tmp => Ret (0, with_chains b (chains b ++ [tmp]) lwd (total_len b))
      end
    else expand_replace b datlen.
End expanding.

(** The lengths of the vectors, over the chains [l]. *)
Fixpoint setup_vecs (n_vecs_avail : nat) (l : list evbuffer_chain) (howmuch so_far : Z) (exact : bool) : outcome (list Z) :=
  match n_vecs_avail with
  | O => Ret []
  | S n =>
      if decide (so_far < howmuch) then
        match l with
        | [] => Undef NullPointer
        | c :: l =>
            let avail := CHAIN_SPACE_LEN c in
            let avail := if decide (howmuch - so_far < avail ∧ exact = true) then howmuch - so_far else avail in
            r ← setup_vecs n l howmuch (so_far + avail) exact;
            Ret (avail :: r)
        end
      else Ret []
  end.

(** The first chain with room, and the vectors; [howmuch] is not negative. *)
Definition evbuffer_read_setup_vecs (b : evbuffer) (howmuch : Z) (n_vecs_avail : nat) (exact : bool)
    : outcome (nat * list Z) :=
  match chains b !! last_with_datap b with
  | None => Undef NullPointer
  | Some c =>
      let k := if decide (CHAIN_SPACE_LEN c = 0) then S (last_with_datap b) else last_with_datap b in
      vecs ← setup_vecs n_vecs_avail (drop k (chains b)) howmuch 0 exact;
      Ret (k, vecs)
  end.

(** [readv] stores [d] into the vectors, which point behind what is in use. *)
Fixpoint scatter (vecs : list Z) (l : list evbuffer_chain) (d : bytes) : outcome (list evbuffer_chain) :=
  match vecs with
  | [] => Ret l
  | v :: vecs =>
      match l with
      | [] => Undef NullPointer
      | c :: l =>
          m ← mem_write (buffer c) (misalign c + off c) (take (Z.to_nat v) d);
          l ← scatter vecs l (drop (Z.to_nat v) d);
          Ret (with_used c (misalign c) (off c) m :: l)
      end
  end.

(** From chain number [i] on; the result is [last_with_datap]. *)
Fixpoint commit_read (nvecs i : nat) (l : list evbuffer_chain) (remaining : Z) (lwd : nat)
    : outcome (list evbuffer_chain * nat) :=
  match nvecs with
  | O => Ret (l, lwd)
  | S nvecs =>
      match l with
      | [] => Undef NullPointer
      | c :: l =>
          let space := CHAIN_SPACE_LEN c in
          if decide (space < remaining) then
            r ← commit_read nvecs (S i) l (remaining - space) lwd;
            Ret (with_used c (misalign c) (u64 (off c + space)) (buffer c) :: r.1, r.2)
          else Ret (with_used c (misalign c) (u64 (off c + remaining)) (buffer c) :: l, i)
      end
  end.

Section io.
Context `{!Malloc} {W : Type} `{!EvIO W}.

(** What is asked for: what there is, as far as it is known, and at most [howmuch] and 4096 bytes. *)
Definition read_len (w : W) (fd howmuch : Z) : Z :=
  let n := get_n_bytes_readable_on_socket w fd in
  let n := if decide (n <= 0 ∨ EVBUFFER_MAX_READ < n) then EVBUFFER_MAX_READ else n in
  if decide (howmuch < 0 ∨ n < howmuch) then n else howmuch.

Definition evbuffer_read (b : evbuffer) (fd howmuch : Z) (w : W) : outcome (Z * evbuffer * W) :=
  if freeze_end b then Ret (-1, b, w)
  else
    let howmuch := read_len w fd howmuch in
    r ← evbuffer_expand_fast b howmuch NUM_READ_IOVEC;
    let b := r.2 in
    if decide (r.1 = -1) then Ret (-1, b, w)
    else
      v ← evbuffer_read_setup_vecs b howmuch NUM_READ_IOVEC true;
      let '(n, d, w) := sys_readv w fd (foldr Z.add 0 v.2) in
      if decide (n = -1) then Ret (-1, b, w)
      else if decide (n = 0) then Ret (0, b, w)
      else
        l ← scatter v.2 (drop v.1 (chains b)) d;
        c ← commit_read (length v.2) v.1 l n (last_with_datap b);
        let b := with_chains b (take v.1 (chains b) ++ c.1) c.2 (u64 (total_len b + n)) in
        Ret (n, evbuffer_invoke_callbacks (count_added b n), w).

(** What [writev] is given: at most [howmuch] bytes from the first chains. *)
Fixpoint write_vecs (n : nat) (l : list evbuffer_chain) (howmuch : Z) : outcome (list bytes) :=
  match n, l with
  | S n, c :: l =>
      if decide (howmuch = 0) then Ret []
      else if negb (Z.land (flags c) EVBUFFER_SENDFILE =? 0) then Ret []
      else if decide (off c <= howmuch) then
        d ← mem_read (buffer c) (misalign c) (off c);
        r ← write_vecs n l (howmuch - off c);
        Ret (d :: r)
      else d ← mem_read (buffer c) (misalign c) howmuch; Ret [d]
  | _, _ => Ret []
  end.

Definition evbuffer_write_iovec (b : evbuffer) (fd howmuch : Z) (w : W) : outcome (Z * W) :=
  if decide (howmuch < 0) then Ret (-1, w)
  else
    iov ← write_vecs NUM_WRITE_IOVEC (chains b) howmuch;
    if decide (iov = []) then Ret (0, w) else Ret (sys_writev w fd (concat iov)).

Definition evbuffer_write_atmost (b : evbuffer) (fd howmuch : Z) (w : W) : outcome (Z * evbuffer * W) :=
  if freeze_start b then Ret (-1, b, w)
  else
    let howmuch := if decide (howmuch < 0 ∨ total_len b < howmuch) then total_len b else howmuch in
    r ← (if decide (0 < howmuch) then
           match chains b with
           | c :: _ =>
               if negb (Z.land (flags c) EVBUFFER_SENDFILE =? 0) then Ret (evbuffer_write_sendfile w fd c howmuch)
               else evbuffer_write_iovec b fd howmuch w
           | [] => evbuffer_write_iovec b fd howmuch w
           end
         else Ret (-1, w));
    let '(n, w) := r : Z * W in
    if decide (0 < n) then d ← evbuffer_drain b n; Ret (n, d.2, w) else Ret (n, b, w).

Definition evbuffer_write (b : evbuffer) (fd : Z) (w : W) : outcome (Z * evbuffer * W) :=
  evbuffer_write_atmost b fd (-1) w.
End io.

Definition evbuffer_freeze (b : evbuffer) (start : bool) : evbuffer := {|
  chains := chains b; last_with_datap := last_with_datap b; total_len := total_len b; n_add_for_cb := n_add_for_cb b;
  n_del_for_cb := n_del_for_cb b; freeze_start := if start then true else freeze_start b;
  freeze_end := if start then freeze_end b else true; callbacks := callbacks b; cb_log := cb_log b |}.
Definition evbuffer_unfreeze (b : evbuffer) (start : bool) : evbuffer := {|
  chains := chains b; last_with_datap := last_with_datap b; total_len := total_len b; n_add_for_cb := n_add_for_cb b;
  n_del_for_cb := n_del_for_cb b; freeze_start := if start then false else freeze_start b;
  freeze_end := if start then freeze_end b else false; callbacks := callbacks b; cb_log := cb_log b |}.

(** * Lemmas: room *)

Definition is_free (c : evbuffer_chain) : Prop := off c = 0 ∧ misalign c = 0 ∧ 0 < buffer_len c.
Definition spaces (l : list evbuffer_chain) : Z := foldr (λ c s, CHAIN_SPACE_LEN c + s) 0 l.
Arguments spaces : simpl never.

Lemma space_eq c : chain_ok c → CHAIN_SPACE_LEN c = buffer_len c - misalign c - off c.
Proof.
  intros Hc. pose proof Hc as (H1 & H2 & H3 & _ & _ & H6). unfold CHAIN_SPACE_LEN, EVBUFFER_CHAIN_SIZE in *.
  destruct (chain_flags c Hc) as (-> & _). rewrite u64_small by lia. lia.
Qed.

Lemma space_pos c : chain_ok c → 0 <= CHAIN_SPACE_LEN c < 2 ^ 32.
Proof. intros Hc. rewrite space_eq by done. destruct Hc as (? & ? & ? & _ & _ & ?). unfold EVBUFFER_CHAIN_SIZE in *. lia. Qed.

Lemma space_free c : chain_ok c → is_free c → CHAIN_SPACE_LEN c = buffer_len c ∧ 0 < buffer_len c.
Proof. intros Hc (Ho & Hm & ?). rewrite space_eq by done. lia. Qed.

Lemma spaces_cons c l : spaces (c :: l) = CHAIN_SPACE_LEN c + spaces l.
Proof. done. Qed.
Lemma spaces_app l1 l2 : spaces (l1 ++ l2) = spaces l1 + spaces l2.
Proof. induction l1 as [|c l1 IH]; cbn [app]; [done|]. rewrite !spaces_cons, IH. lia. Qed.
Lemma spaces_pos l : Forall chain_ok l → 0 <= spaces l.
Proof. induction 1 as [|c l Hc _ IH]; [done|]. rewrite spaces_cons. pose proof (space_pos c Hc). lia. Qed.

Lemma realign_free c : is_free c → with_used c 0 (off c) (buffer c) = c.
Proof. intros (_ & Hm & _). destruct c. cbn in *. by subst. Qed.

Lemma free_data l : Forall is_free l → chains_data l = [].
Proof. intros Hl. apply chains_data_free. eapply Forall_impl; [exact Hl|]. by intros c [? _]. Qed.

Lemma scan_free n datlen l : ∀ used avail,
  Forall chain_ok l → Forall is_free l → (used < n)%nat → 0 <= avail < datlen → datlen <= 2 ^ 32 →
  ∃ enough used' avail', expand_scan n datlen false l used avail = Ret (enough, used', avail', l) ∧
    if (enough : bool) then datlen <= avail + spaces (take (n - used) l)
    else used' = n ∨ (used' = (used + length l)%nat ∧ (used' < n)%nat ∧ avail' = avail + spaces l ∧ avail' < datlen).
Proof.
  induction l as [|c l IH]; intros used avail Hok Hf Hu Ha Hd; cbn [expand_scan].
  { exists false, used, avail. split; [done|]. right. cbn. unfold spaces. cbn. lia. }
  apply Forall_cons in Hok as [Hc Hok]. apply Forall_cons in Hf as [Hfc Hf].
  destruct (space_free c Hc Hfc) as [Hs Hpos]. pose proof (space_pos c Hc) as Hs'. pose proof Hfc as [Ho _].
  unfold scan_chain. rewrite (decide_False (P := off c ≠ 0)) by (intros Hx; by apply Hx). cbn [mbind outcome_bind].
  rewrite realign_free by done. rewrite u64_small by lia. rewrite <- Hs.
  replace (n - used)%nat with (S (n - S used)) by lia. cbn [take]. rewrite !spaces_cons.
  pose proof (spaces_pos (take (n - S used) l) ltac:(by apply Forall_take)).
  case_decide as Hen; [exists true, (S used), (avail + CHAIN_SPACE_LEN c); split; [done|lia]|].
  case_decide as Hn; [exists false, (S used), (avail + CHAIN_SPACE_LEN c); split; [done|by left]|].
  destruct (IH (S used) (avail + CHAIN_SPACE_LEN c)) as (e & u & a & -> & Hr); [done|done|lia|lia|done|].
  cbn [mbind outcome_bind fst snd]. exists e, u, a. split; [done|]. destruct e; [lia|].
  destruct Hr as [?|(-> & ? & -> & ?)]; [by left|right]. cbn [length]. lia.
Qed.

(** The chains [readv] may use, from the last with data on. *)
Definition room (c : evbuffer_chain) (rest : list evbuffer_chain) : list evbuffer_chain :=
  if decide (CHAIN_SPACE_LEN c = 0) then rest else c :: rest.

Lemma scan_room n datlen c rest :
  chain_ok c → Forall chain_ok rest → Forall is_free rest → 0 < off c ∨ is_free c → (2 <= n)%nat →
  0 < datlen <= 2 ^ 32 →
  ∃ enough used avail, expand_scan n datlen true (c :: rest) 0 0 = Ret (enough, used, avail, c :: rest) ∧
    if (enough : bool) then datlen <= spaces (take n (room c rest))
    else CHAIN_SPACE_LEN c < datlen ∧
      (used = n ∨ (used = length (room c rest) ∧ (used < n)%nat ∧ avail = spaces (room c rest) ∧ avail < datlen)).
Proof.
  intros Hc Hrest Hf Hor Hn Hd. pose proof (space_pos c Hc) as Hs. unfold room. cbn [expand_scan].
  assert (∃ used avail, scan_chain true c 0 0 = Ret (c, used, avail) ∧
          avail = CHAIN_SPACE_LEN c ∧ used = (if decide (CHAIN_SPACE_LEN c = 0) then 0%nat else 1%nat))
    as (used & avail & -> & -> & Hused).
  { unfold scan_chain. destruct (decide (off c ≠ 0)) as [Ho|Ho]; cbn [EVUTIL_ASSERT mbind outcome_bind].
    - destruct (decide (CHAIN_SPACE_LEN c = 0)) as [Hz|Hz].
      + rewrite (decide_False (P := CHAIN_SPACE_LEN c ≠ 0)) by (intros Hx; by apply Hx). by eexists _, _.
      + rewrite decide_True by done. rewrite u64_small by lia. eexists _, _. split; [done|]. lia.
    - destruct Hor as [?|Hfc]; [lia|]. destruct (space_free c Hc Hfc) as [Hsp Hp]. rewrite realign_free by done.
      rewrite u64_small by lia. rewrite (decide_False (P := CHAIN_SPACE_LEN c = 0)) by lia. eexists _, _.
      split; [done|]. lia. }
  cbn [mbind outcome_bind].
  destruct (decide (datlen <= CHAIN_SPACE_LEN c)) as [Hen|Hen].
  { eexists _, _, _. split; [done|]. rewrite decide_False by lia. destruct n; [lia|]. cbn [take].
    rewrite spaces_cons. pose proof (spaces_pos (take n rest) ltac:(by apply Forall_take)). lia. }
  assert (used <> n) by (subst used; case_decide; lia). rewrite (decide_False (P := used = n)) by done.
  destruct (scan_free n datlen rest used (CHAIN_SPACE_LEN c) Hrest Hf) as (e & u & a & -> & Hr);
    [subst used; case_decide; lia|lia|lia|].
  cbn [mbind outcome_bind fst snd]. exists e, u, a. split; [done|]. subst used. case_decide as Hz.
  - rewrite Hz, Z.add_0_l, Nat.sub_0_r in Hr. destruct e; [done|]. split; [lia|].
    destruct Hr as [?|(-> & ? & -> & ?)]; [by left|right]. cbn. lia.
  - destruct e.
    + destruct n; [lia|]. cbn [take]. rewrite spaces_cons. by replace (S n - 1)%nat with n in Hr by lia.
    + split; [lia|]. destruct Hr as [?|(-> & ? & -> & ?)]; [by left|right]. rewrite spaces_cons. cbn [length]. lia.
Qed.

(** An input buffer, split at the chain [last_with_datap] leads to. *)
Definition in_split (b : evbuffer) (pre : list evbuffer_chain) (c : evbuffer_chain) (rest : list evbuffer_chain) : Prop :=
  chains b = pre ++ c :: rest ∧ last_with_datap b = length pre ∧ Forall (λ c, 0 < off c) pre ∧ Forall is_free rest ∧
  (0 < off c ∨ (is_free c ∧ pre = [])).

Lemma in_split_shape fs fe b :
  evb_ok false fs fe b → chains b ≠ [] → ∃ pre c rest, in_split b pre c rest.
Proof.
  intros (_ & (full & free & E & Hf & He & Hl & Hfree) & _) Hne.
  assert (Forall is_free free) as Hfr.
  { apply Forall_forall. intros c Hc. rewrite Forall_forall in He, Hfree. split; [by apply He|by apply Hfree]. }
  destruct full as [|c pre _] using rev_ind.
  - destruct free as [|c rest]; [by rewrite E in Hne|]. apply Forall_cons in Hfr as [Hc Hfr].
    exists [], c, rest. split_and!; [done|done|done|done|by right].
  - rewrite length_app in Hl. cbn in Hl. apply Forall_app in Hf as [Hp [Hc _]%Forall_cons].
    exists pre, c, free. split_and!; [by rewrite E, <- app_assoc|lia|done|done|by left].
Qed.

Lemma in_split_ok fs fe b b' pre c rest :
  evb_ok false fs fe b → in_split b' pre c rest → Forall chain_ok (chains b') →
  chains_data (chains b') = chains_data (chains b) → total_len b' = total_len b →
  freeze_start b' = freeze_start b → freeze_end b' = freeze_end b → evb_ok false fs fe b'.
Proof.
  intros (_ & _ & Ht & Hmax & Hs & He) (E & El & Hp & Hr & Hc) Hok Hd Et Es Ee. unfold evb_ok. rewrite Hd, Et, Es, Ee.
  split; [done|]. split; [|done]. rewrite E, El.
  assert (Forall (λ c, off c = 0) rest ∧ Forall (λ c, misalign c = 0 ∧ 0 < buffer_len c) rest) as [Hr1 Hr2]
    by (split; (eapply Forall_impl; [exact Hr|]); by intros x (? & ? & ?)).
  destruct Hc as [Hc|[(H1 & H2 & H3) ->]].
  - exists (pre ++ [c]), rest. rewrite <- app_assoc, length_app. split; [done|]. split; [by apply Forall_app; split; [|constructor]|].
    split; [done|]. split; [cbn; lia|done].
  - exists [], (c :: rest). split; [done|]. split; [constructor|]. split; [by constructor|]. split; [done|by constructor].
Qed.

Section expand_ok.
Context `{!Malloc, !MallocOk}.

(** A buffer with room for [n] more bytes. *)
Definition has_space (b : evbuffer) (datlen : Z) : Prop :=
  ∃ pre c rest, in_split b pre c rest ∧ datlen <= spaces (take NUM_READ_IOVEC (room c rest)).

Lemma new_free n : 0 < n <= INT_MAX →
  ∃ c, evbuffer_chain_new n = Ret (Some c) ∧ chain_ok c ∧ is_free c ∧ chain_data c = [] ∧ n <= CHAIN_SPACE_LEN c.
Proof.
  intros Hn. destruct (chain_new_ok n) as (c & E & Hc & Ho & Hm & Hl); [lia|unfold EVBUFFER_CHAIN_SIZE, INT_MAX in *; lia|].
  exists c. split; [done|]. split; [done|]. split; [split_and!; (done || lia)|]. split; [unfold chain_data; by rewrite Ho|].
  rewrite space_eq by done. lia.
Qed.

Lemma expand_empty fs fe b n :
  evb_ok false fs fe b → chains b = [] → 0 < n <= EVBUFFER_MAX_READ →
  ∃ b', evbuffer_expand_fast b n NUM_READ_IOVEC = Ret (0, b') ∧ evb_ok false fs fe b' ∧ has_space b' n ∧
    chains_data (chains b') = chains_data (chains b) ∧ total_len b' = total_len b.
Proof.
  intros Hb E Hn. unfold EVBUFFER_MAX_READ in *. unfold evbuffer_expand_fast. rewrite E. cbn [last].
  destruct (new_free n) as (c & -> & Hc & Hf & Hd & Hs); [unfold INT_MAX; lia|]. cbn [mbind outcome_bind].
  pose proof Hb as (_ & Hsh & Ht & Hmax & _). pose proof Hf as (Ho & _).
  assert (last_with_datap b = 0%nat) as El.
  { destruct Hsh as (full & free & Ef & _ & _ & Hl & _). rewrite E in Ef. symmetry in Ef. apply app_eq_nil in Ef as [-> ->]. done. }
  unfold evbuffer_chain_insert. rewrite E, El. cbn [lookup list_lookup EVUTIL_ASSERT length Nat.eqb mbind outcome_bind].
  rewrite Ho, Z.add_0_r, u64_small by (unfold INT_MAX in *; lia). set (b' := with_chains _ _ _ _).
  assert (in_split b' [] c []) as Hsp by (split_and!; [done|done|done|done|by right]).
  assert (chains_data (chains b') = chains_data (chains b)) as Hdata by (cbn; by rewrite chains_data_one, Hd, E).
  exists b'. split; [done|]. split; [|split; [|by rewrite Hdata, E]].
  - eapply in_split_ok; [exact Hb|exact Hsp|exact (Forall_cons_2 _ _ _ Hc (Forall_nil_2 _))|done..].
  - exists [], c, []. split; [done|]. pose proof (space_free c Hc Hf). unfold room. rewrite decide_False by lia.
    cbn. unfold spaces. cbn. lia.
Qed.

Lemma in_split_chains b pre c rest : in_split b pre c rest → Forall chain_ok (chains b) →
  Forall chain_ok pre ∧ chain_ok c ∧ Forall chain_ok rest.
Proof. intros [E _]. rewrite E, Forall_app, Forall_cons. naive_solver. Qed.

Lemma room_app c rest l : room c (rest ++ l) = room c rest ++ l.
Proof. unfold room. by case_decide. Qed.

(** Another chain behind the last one. *)
Lemma expand_append fs fe b pre c rest n :
  evb_ok false fs fe b → in_split b pre c rest → (length (room c rest) < NUM_READ_IOVEC)%nat →
  spaces (room c rest) < n <= EVBUFFER_MAX_READ →
  ∃ tmp, evbuffer_chain_new (u64 (n - spaces (room c rest))) = Ret (Some tmp) ∧
    let b' := with_chains b (chains b ++ [tmp]) (last_with_datap b) (total_len b) in
    evb_ok false fs fe b' ∧ has_space b' n ∧ chains_data (chains b') = chains_data (chains b).
Proof.
  intros Hb Hsp Hlen Hn. pose proof (in_split_chains _ _ _ _ Hsp (proj1 Hb)) as (Hp & Hc & Hr).
  pose proof Hsp as (E & El & Hfp & Hfr & Hor).
  assert (0 <= spaces (room c rest)) by (apply spaces_pos; unfold room; case_decide; [done|by constructor]).
  unfold EVBUFFER_MAX_READ in *. rewrite u64_small by lia.
  destruct (new_free (n - spaces (room c rest))) as (tmp & -> & Ht & Hf & Hd & Hs); [unfold INT_MAX; lia|].
  exists tmp. split; [done|]. set (b' := with_chains _ _ _ _).
  assert (in_split b' pre c (rest ++ [tmp])) as Hsp'.
  { split_and!; [cbn; by rewrite E, <- app_assoc|done|done| |done]. apply Forall_app. split; [done|by constructor]. }
  assert (chains_data (chains b') = chains_data (chains b)) as Hdata
    by (cbn; by rewrite chains_data_app, chains_data_one, Hd, app_nil_r).
  split; [|split; [|done]].
  - eapply in_split_ok; [exact Hb|exact Hsp'| |done..]. cbn. apply Forall_app. split; [apply Hb|by constructor].
  - exists pre, c, (rest ++ [tmp]). split; [done|]. rewrite room_app, take_ge by (rewrite length_app; cbn; lia).
    rewrite spaces_app, spaces_cons. change (spaces []) with 0. lia.
Qed.

(** One chain in the place of the empty ones. *)
Lemma expand_replace_ok fs fe b pre c rest n :
  evb_ok false fs fe b → in_split b pre c rest → CHAIN_SPACE_LEN c < n <= EVBUFFER_MAX_READ →
  ∃ b', expand_replace b n = Ret (0, b') ∧ evb_ok false fs fe b' ∧ has_space b' n ∧
    chains_data (chains b') = chains_data (chains b) ∧ total_len b' = total_len b.
Proof.
  intros Hb Hsp Hn. pose proof (in_split_chains _ _ _ _ Hsp (proj1 Hb)) as (Hp & Hc & Hr).
  pose proof Hsp as (E & El & Hfp & Hfr & Hor). pose proof (space_pos c Hc). unfold EVBUFFER_MAX_READ in *.
  assert (evbuffer_chains_all_empty rest = true) as Hall.
  { apply all_empty. eapply Forall_impl; [exact Hfr|]. by intros x [? _]. }
  set (D := chains_data (chains b)). unfold expand_replace. rewrite E, El, drop_app_length. destruct Hor as [Hc0|[Hfc ->]].
  - rewrite bool_decide_eq_false_2 by lia. cbn [mbind outcome_bind]. rewrite Hall. cbn [EVUTIL_ASSERT mbind outcome_bind].
    rewrite u64_small by lia.
    destruct (new_free (n - CHAIN_SPACE_LEN c)) as (tmp & -> & Ht & Hf & Hd & Hs); [unfold INT_MAX; lia|]. cbn [mbind outcome_bind].
    assert (take (S (length pre)) (pre ++ c :: rest) = pre ++ [c]) as Htk.
    { replace (S (length pre)) with (length (pre ++ [c])) by (rewrite length_app; cbn; lia).
      change (c :: rest) with ([c] ++ rest). by rewrite app_assoc, take_app_length. }
    rewrite Htk. set (b' := with_chains _ _ _ _).
    assert (in_split b' pre c [tmp]) as Hsp'.
    { split_and!; [cbn; by rewrite <- app_assoc|done|done|by constructor|by left]. }
    assert (chains_data (chains b') = chains_data (chains b)) as Hdata.
    { cbn. rewrite E, <- app_assoc, !chains_data_app. f_equal. cbn. rewrite !chains_data_cons, Hd, (free_data rest Hfr).
      by rewrite chains_data_nil, !app_nil_r. }
    exists b'. split; [done|]. split; [|split; [|by split]].
    + eapply in_split_ok; [exact Hb|exact Hsp'| |done..]. cbn. rewrite <- app_assoc. apply Forall_app.
      split; [done|]. constructor; [done|by constructor].
    + exists pre, c, [tmp]. split; [done|]. unfold room. case_decide; cbn [take NUM_READ_IOVEC]; rewrite ?spaces_cons;
        change (spaces []) with 0; lia.
  - pose proof Hfc as [Ho _]. rewrite bool_decide_eq_true_2 by done. cbn [length Nat.eqb EVUTIL_ASSERT mbind outcome_bind].
    assert (evbuffer_chains_all_empty (c :: rest) = true) as ->.
    { unfold evbuffer_chains_all_empty in *. cbn. by rewrite Ho, Hall. }
    cbn [EVUTIL_ASSERT mbind outcome_bind app]. rewrite Z.sub_0_r, u64_small by lia.
    destruct (new_free n) as (tmp & -> & Ht & Hf & Hd & Hs); [unfold INT_MAX; lia|]. cbn [mbind outcome_bind].
    set (b' := with_chains _ _ _ _).
    assert (in_split b' [] tmp []) as Hsp' by (split_and!; [done|done|done|done|by right]).
    assert (chains_data (chains b') = chains_data (chains b)) as Hdata.
    { cbn. rewrite E, chains_data_one, Hd. symmetry. by apply (free_data (c :: rest)), Forall_cons. }
    exists b'. split; [done|]. split; [|split; [|by split]].
    + eapply in_split_ok; [exact Hb|exact Hsp'|exact (Forall_cons_2 _ _ _ Ht (Forall_nil_2 _))|done..].
    + exists [], tmp, []. split; [done|]. pose proof (space_free tmp Ht Hf). unfold room. rewrite decide_False by lia.
      cbn. unfold spaces. cbn. lia.
Qed.

Lemma expand_fast_ok fs fe b n :
  evb_ok false fs fe b → 0 < n <= EVBUFFER_MAX_READ →
  ∃ b', evbuffer_expand_fast b n NUM_READ_IOVEC = Ret (0, b') ∧ evb_ok false fs fe b' ∧ has_space b' n ∧
    chains_data (chains b') = chains_data (chains b) ∧ total_len b' = total_len b.
Proof.
  intros Hb Hn. destruct (decide (chains b = [])) as [|Hne]; [by apply expand_empty|].
  destruct (in_split_shape _ _ _ Hb Hne) as (pre & c & rest & Hsp).
  pose proof (in_split_chains _ _ _ _ Hsp (proj1 Hb)) as (Hp & Hc & Hr). pose proof Hsp as (E & El & Hfp & Hfr & Hor).
  set (D := chains_data (chains b)). unfold evbuffer_expand_fast.
  assert (∃ x, last (chains b) = Some x ∧ immutable x = false) as (x & -> & ->).
  { destruct (last (chains b)) as [x|] eqn:Ex; [|by apply last_None in Ex]. exists x. split; [done|].
    apply last_Some in Ex as [l' Ex]. pose proof (proj1 Hb) as Hok. rewrite Ex in Hok.
    apply Forall_app in Hok as [_ [Hx _]%Forall_cons]. by apply chain_flags. }
  rewrite E, El, drop_app_length.
  destruct (scan_room NUM_READ_IOVEC n c rest Hc Hr Hfr) as (e & u & a & -> & Hres);
    [destruct Hor as [?|[? _]]; auto|unfold NUM_READ_IOVEC; lia|unfold EVBUFFER_MAX_READ in *; lia|].
  cbn [mbind outcome_bind]. rewrite take_app_length.
  assert (evb_ok false fs fe (with_chains b (pre ++ c :: rest) (length pre) (total_len b))) as Hb'.
  { rewrite <- E, <- El. exact Hb. }
  assert (in_split (with_chains b (pre ++ c :: rest) (length pre) (total_len b)) pre c rest) as Hsp' by (by split_and!).
  assert (chains_data (pre ++ c :: rest) = D) as HD by (unfold D; by rewrite E).
  destruct e.
  { eexists. split; [done|]. split; [done|]. split; [by exists pre, c, rest|by split]. }
  destruct Hres as [Hlt [->|(-> & Hlt2 & -> & Ha)]].
  - rewrite decide_False by lia. destruct (expand_replace_ok _ _ _ _ _ _ n Hb' Hsp') as (b' & -> & H1 & H2 & H3 & H4); [lia|].
    exists b'. split; [done|]. split; [done|]. split; [done|]. split; [by rewrite H3|done].
  - rewrite decide_True by done.
    destruct (expand_append _ _ _ _ _ _ n Hb' Hsp') as (tmp & -> & H1 & H2 & H3); [done|lia|]. cbn [mbind outcome_bind].
    eexists. split; [done|]. split; [exact H1|]. split; [exact H2|]. split; [exact (eq_trans H3 HD)|done].
Qed.
End expand_ok.

(** * Lemmas: reading into the room *)

(** Vectors over the chains [l]: all full, but for the last. *)
Fixpoint vecs_fit (vecs : list Z) (l : list evbuffer_chain) : Prop :=
  match vecs, l with
  | [], _ => True
  | v :: vecs, c :: l => 0 <= v <= CHAIN_SPACE_LEN c ∧ (vecs ≠ [] → v = CHAIN_SPACE_LEN c) ∧ vecs_fit vecs l
  | _ :: _, [] => False
  end.

Lemma setup_vecs_ok n : ∀ l howmuch so_far,
  Forall chain_ok l → so_far <= howmuch <= so_far + spaces (take n l) →
  ∃ vecs, setup_vecs n l howmuch so_far true = Ret vecs ∧ foldr Z.add 0 vecs = howmuch - so_far ∧ vecs_fit vecs l.
Proof.
  induction n as [|n IH]; intros l howmuch so_far Hok Hh; cbn [setup_vecs].
  { rewrite take_0 in Hh. change (spaces []) with 0 in Hh. exists []. split; [done|]. split; [cbn; lia|by destruct l]. }
  case_decide as Hlt; [|exists []; split; [done|]; split; [cbn; lia|by destruct l]].
  destruct l as [|c l]; [rewrite take_nil in Hh; change (spaces []) with 0 in Hh; lia|].
  apply Forall_cons in Hok as [Hc Hok]. cbn [firstn] in Hh. rewrite spaces_cons in Hh. pose proof (space_pos c Hc) as Hs.
  pose proof (spaces_pos (take n l) ltac:(by apply Forall_take)).
  case_decide as Hx.
  - destruct n as [|n]; cbn [setup_vecs]; rewrite ?(decide_False (P := so_far + (howmuch - so_far) < howmuch)) by lia;
      cbn [mbind outcome_bind]; (eexists; split; [done|]; cbn; split; [lia|]; split; [naive_solver lia|]; split; [by intros []|by destruct l]).
  - destruct (IH l howmuch (so_far + CHAIN_SPACE_LEN c) Hok) as (vecs & -> & Hsum & Hfit); [naive_solver lia|].
    cbn [mbind outcome_bind]. eexists. split; [done|]. cbn. split; [lia|]. split; [lia|]. by split.
Qed.

Lemma with_same c : with_used c (misalign c) (off c) (buffer c) = c.
Proof. by destruct c. Qed.

Lemma scatter_nil vecs : ∀ l, Forall chain_ok l → vecs_fit vecs l → scatter vecs l [] = Ret l.
Proof.
  induction vecs as [|v vecs IH]; intros l Hok Hfit; [done|]. destruct l as [|c l]; [done|].
  apply Forall_cons in Hok as [Hc Hok]. destruct Hfit as (_ & _ & Hfit). cbn [scatter].
  rewrite take_nil, drop_nil. unfold mem_write. pose proof Hc as (? & ? & ? & ? & _).
  rewrite decide_True by (cbn; lia). cbn [mbind outcome_bind]. rewrite IH by done. cbn [mbind outcome_bind].
  cbn [app length]. rewrite Nat.add_0_r, take_drop. by rewrite with_same.
Qed.

(** What [readv] stored is behind the data, in chains that are full but for the last. *)
Lemma read_into vecs : ∀ l d i lwd,
  Forall chain_ok l → vecs_fit vecs l → match l with [] => True | c :: rest => 0 < CHAIN_SPACE_LEN c ∧ Forall is_free rest end →
  0 < Z.of_nat (length d) <= foldr Z.add 0 vecs →
  ∃ l1 full free, scatter vecs l d = Ret l1 ∧
    commit_read (length vecs) i l1 (Z.of_nat (length d)) lwd = Ret (full ++ free, (i + pred (length full))%nat) ∧
    Forall chain_ok (full ++ free) ∧ Forall (λ c, 0 < off c) full ∧ Forall is_free free ∧ full ≠ [] ∧
    chains_data (full ++ free) = chains_data l ++ d.
Proof.
  induction vecs as [|v vecs IH]; intros l d i lwd Hok Hfit Hl Hd; [cbn in Hd; lia|].
  destruct l as [|c rest]; [done|]. apply Forall_cons in Hok as [Hc Hok]. destruct Hfit as (Hv & Hfull & Hfit).
  destruct Hl as [Hsp Hfree]. cbn [foldr] in Hd. pose proof (space_eq c Hc) as Hs. pose proof Hc as (C1 & C2 & C3 & C4 & C5 & C6).
  assert (vecs = [] → foldr Z.add 0 vecs = 0) as Hnil by (by intros ->).
  assert (CHAIN_SPACE_LEN c < Z.of_nat (length d) → vecs ≠ []) as Hne by (intros ? ?; specialize (Hnil ltac:(done)); lia).
  assert (chains_data rest = []) as Hrest by (by apply free_data).
  cbn [scatter length commit_read]. set (x := take (Z.to_nat v) d).
  destruct (chain_write c x Hc) as (m & -> & Hc' & Hd'); [unfold x; rewrite length_take; lia|]. cbn [mbind outcome_bind].
  unfold EVBUFFER_CHAIN_SIZE in *.
  assert (CHAIN_SPACE_LEN (with_used c (misalign c) (off c) m) = CHAIN_SPACE_LEN c) as Hsm by done.
  destruct (decide (CHAIN_SPACE_LEN c < Z.of_nat (length d))) as [Hlt|Hge].
  - specialize (Hne Hlt). specialize (Hfull Hne).
    assert (Z.of_nat (length x) = v) as Hx by (unfold x; rewrite length_take; lia).
    destruct (IH rest (drop (Z.to_nat v) d) (S i) lwd Hok Hfit) as (l1 & full & free & -> & Hcm & Hok' & Hf & Hfr & Hnf & Hdata).
    { destruct rest as [|c2 rest]; [done|]. apply Forall_cons in Hfree as [Hf2 Hfree], Hok as [Hc2 _].
      pose proof (space_free c2 Hc2 Hf2). split; [lia|done]. }
    { rewrite length_drop. lia. }
    cbn [mbind outcome_bind]. eexists _, (with_used c (misalign c) (off c + v) m :: full), free. split; [done|].
    cbn [commit_read]. rewrite Hsm, decide_True by done.
    rewrite length_drop, Nat2Z.inj_sub in Hcm by lia. rewrite Z2Nat.id in Hcm by lia. rewrite <- Hfull. rewrite Hcm.
    cbn [mbind outcome_bind fst snd]. cbn [with_used off misalign buffer]. rewrite u64_small by lia.
    rewrite Hx in Hc', Hd'. split; [f_equal; f_equal; destruct full; [done|]; cbn; lia|].
    split; [by constructor|]. split; [constructor; [cbn; lia|done]|]. split; [done|]. split; [done|].
    cbn [app]. rewrite !chains_data_cons, Hdata, Hd', Hrest, app_nil_r. cbn [app]. rewrite <- app_assoc. unfold x. by rewrite take_drop.
  - assert (x = d) as Ex.
    { unfold x. apply take_ge. destruct (decide (vecs = [])) as [En|En]; [specialize (Hnil En); lia|specialize (Hfull En); lia]. }
    assert (drop (Z.to_nat v) d = []) as ->.
    { apply drop_ge. apply (f_equal length) in Ex. unfold x in Ex. rewrite length_take in Ex. lia. }
    rewrite scatter_nil by done. cbn [mbind outcome_bind].
    eexists _, [with_used c (misalign c) (off c + Z.of_nat (length d)) m], rest. split; [done|]. cbn [commit_read].
    rewrite Hsm, decide_False by done. cbn [with_used off misalign buffer]. rewrite u64_small by lia. rewrite Ex in Hc', Hd'.
    split; [f_equal; f_equal; cbn; lia|]. split; [by constructor|]. split; [constructor; [cbn; lia|done]|].
    split; [done|]. split; [done|]. cbn [app]. by rewrite !chains_data_cons, Hd', Hrest, !app_nil_r.
Qed.

(** * Lemmas: reading and writing *)

(** The room is what [_evbuffer_read_setup_vecs] finds. *)
Lemma read_setup_ok b n :
  Forall chain_ok (chains b) → has_space b n → 0 < n →
  ∃ pre act vecs, evbuffer_read_setup_vecs b n NUM_READ_IOVEC true = Ret (length pre, vecs) ∧
    chains b = pre ++ act ∧ Forall (λ c, 0 < off c) pre ∧ foldr Z.add 0 vecs = n ∧ vecs_fit vecs act ∧
    match act with [] => True | c :: rest => 0 < CHAIN_SPACE_LEN c ∧ Forall is_free rest end.
Proof.
  intros Hok (pre & c & rest & Hsp & Hspace) Hn. pose proof (in_split_chains _ _ _ _ Hsp Hok) as (Hp & Hc & Hr).
  destruct Hsp as (E & El & Hfp & Hfr & Hor). pose proof (space_pos c Hc). unfold evbuffer_read_setup_vecs. rewrite E, El.
  rewrite lookup_app_r, Nat.sub_diag by done. cbn [lookup list_lookup]. unfold room in Hspace. case_decide as Hz.
  - replace (S (length pre)) with (length (pre ++ [c])) by (rewrite length_app; cbn; lia).
    assert (pre ++ c :: rest = (pre ++ [c]) ++ rest) as E2 by (by rewrite <- app_assoc). rewrite E2, drop_app_length.
    destruct (setup_vecs_ok NUM_READ_IOVEC rest n 0 Hr) as (vecs & -> & Hsum & Hfit); [lia|]. cbn [mbind outcome_bind].
    exists (pre ++ [c]), rest, vecs. split; [done|]. split; [done|]. split.
    { apply Forall_app. split; [done|]. constructor; [|done]. destruct Hor as [?|[Hf _]]; [done|].
      pose proof (space_free c Hc Hf). lia. }
    split; [lia|]. split; [done|]. destruct rest as [|c2 rest]; [done|].
    apply Forall_cons in Hfr as [Hf2 Hfr], Hr as [Hc2 _]. pose proof (space_free c2 Hc2 Hf2). split; [lia|done].
  - rewrite drop_app_length.
    destruct (setup_vecs_ok NUM_READ_IOVEC (c :: rest) n 0) as (vecs & -> & Hsum & Hfit); [by constructor|lia|]. cbn [mbind outcome_bind].
    exists pre, (c :: rest), vecs. split_and!; try done; lia.
Qed.

Section io_ok.
Context `{!Malloc, !MallocOk} {W : Type} `{!EvIO W, !EvIOOk W}.

Lemma read_len_ok (w : W) fd howmuch :
  howmuch ≠ 0 → 0 < read_len w fd howmuch <= EVBUFFER_MAX_READ ∧ (0 < howmuch → read_len w fd howmuch <= howmuch).
Proof.
  intros Hh. unfold read_len. set (n := if decide (_ ∨ _) then EVBUFFER_MAX_READ else _).
  assert (0 < n <= EVBUFFER_MAX_READ) as Hn by (unfold n, EVBUFFER_MAX_READ in *; case_decide; naive_solver lia).
  case_decide; naive_solver lia.
Qed.

(** One event reads what one [readv] gives, into a buffer that is not frozen. *)
Lemma read_ok fs b fd howmuch w :
  evb_ok false fs false b → howmuch ≠ 0 → total_len b + EVBUFFER_MAX_READ <= INT_MAX →
  let '(len, d, w') := sys_readv w fd (read_len w fd howmuch) in
  ∃ b', evbuffer_read b fd howmuch w = Ret (len, b', w') ∧ evb_ok false fs false b' ∧
      chains_data (chains b') = chains_data (chains b) ++ (if decide (0 < len) then d else []) ∧
      (len = -1 ∨ len = 0 ∨ 0 < len <= EVBUFFER_MAX_READ ∧ len = Z.of_nat (length d)).
Proof.
  intros Hb Hh Hmax. pose proof Hb as (_ & _ & _ & _ & Hfs & Hfe). unfold evbuffer_read. rewrite Hfe.
  destruct (read_len_ok w fd howmuch Hh) as [Hm _]. set (m := read_len w fd howmuch) in *.
  destruct (expand_fast_ok fs false b m Hb) as (b1 & -> & Hb1 & Hsp & Hd1 & Ht1); [lia|]. cbn [mbind outcome_bind fst snd].
  rewrite (decide_False (P := 0 = -1)) by done.
  destruct (read_setup_ok b1 m (proj1 Hb1) Hsp ltac:(lia)) as (pre & act & vecs & -> & E & Hpre & Hsum & Hfit & Hact).
  cbn [mbind outcome_bind fst snd]. rewrite Hsum. pose proof (readv_ok w fd m) as Hr.
  destruct (sys_readv w fd m) as [[len d] w'] eqn:Ereadv. cbn [fst snd] in Hr.
  destruct (decide (len = -1)) as [->|Hne]; [exists b1; split; [done|]; split; [done|]; split; [by rewrite decide_False, app_nil_r|by left]|].
  destruct (decide (len = 0)) as [->|Hnz]; [exists b1; split; [done|]; split; [done|]; split; [by rewrite decide_False, app_nil_r|by right; left]|].
  destruct Hr as [?|[?|[Hlen Hld]]]; [done|done|]. rewrite E, drop_app_length, take_app_length.
  pose proof (proj1 Hb1) as Hok1. rewrite E in Hok1. apply Forall_app in Hok1 as [Hokp Hoka].
  destruct (read_into vecs act d (length pre) (last_with_datap b1) Hoka Hfit Hact) as
    (l1 & full & free & -> & Hcm & Hok' & Hf & Hfr & Hnf & Hdata); [lia|].
  cbn [mbind outcome_bind]. rewrite Hld, Hcm. cbn [mbind outcome_bind fst snd]. eexists. split; [done|].
  rewrite (assoc (∧)). split; [|right; right; lia].
  apply finish_ok. cbn [count_added with_counts with_chains chains].
  assert (chains_data (pre ++ full ++ free) = chains_data (chains b) ++ d) as Hall.
  { rewrite chains_data_app, Hdata, <- Hd1, E, chains_data_app. by rewrite app_assoc. }
  rewrite decide_True by lia. split; [|done].
  pose proof Hb1 as (_ & _ & Htl & _ & Hs1 & He1).
  assert (total_len b1 = Z.of_nat (length (chains_data (chains b)))) as Htot by (rewrite Ht1; apply Hb).
  assert (u64 (total_len b1 + Z.of_nat (length d)) = total_len b1 + Z.of_nat (length d)) as Hu
    by (apply u64_small; unfold EVBUFFER_MAX_READ, INT_MAX in *; lia).
  split; [|split; [|split; [|split; [|by split]]]]; cbn [chains last_with_datap total_len count_added with_counts with_chains].
  - by apply Forall_app.
  - exists (pre ++ full), free. rewrite app_assoc, length_app. split; [done|]. split; [by apply Forall_app|].
    split; [eapply Forall_impl; [exact Hfr|]; by intros x [? _]|]. split.
    + destruct full; [done|]. cbn. lia.
    + eapply Forall_impl; [exact Hfr|]. by intros x [_ ?].
  - rewrite Hall, Hu, length_app. lia.
  - rewrite Hu. unfold EVBUFFER_MAX_READ in *. lia.
Qed.

Lemma write_vecs_ok n : ∀ l howmuch,
  Forall chain_ok l → 0 <= howmuch → ∃ iov rest, write_vecs n l howmuch = Ret iov ∧
    take (Z.to_nat howmuch) (chains_data l) = concat iov ++ rest ∧
    (0 < howmuch → (0 < n)%nat → match l with c :: _ => 0 < off c | [] => False end → concat iov ≠ []) ∧
    ((length l <= n)%nat → rest = []).
Proof.
  induction n as [|n IH]; intros l howmuch Hok Hh; cbn [write_vecs].
  { exists [], (take (Z.to_nat howmuch) (chains_data l)). split; [done|]. split; [done|]. split; [lia|].
    intros Hl. assert (l = []) as -> by (by apply nil_length_inv; lia). by rewrite chains_data_nil, take_nil. }
  destruct l as [|c l]; [exists [], []; rewrite chains_data_nil, take_nil; by split_and!|].
  apply Forall_cons in Hok as [Hc Hok]. pose proof (length_chain_data c Hc) as Hlen. pose proof Hc as (_ & C2 & _ & _ & C5 & _).
  case_decide as Hz; [exists [], []; subst; split; [done|]; split; [done|]; split; [lia|done]|].
  rewrite C5, Z.land_0_l. cbn [Z.eqb negb]. rewrite chains_data_cons. case_decide as Hle.
  - rewrite chain_read_all by done. cbn [mbind outcome_bind].
    destruct (IH l (howmuch - off c) Hok) as (iov & rest & -> & Hd & _ & Hr); [lia|]. cbn [mbind outcome_bind].
    exists (chain_data c :: iov), rest. split; [done|]. split; [|split; [|cbn; intros; apply Hr; lia]].
    2: { intros _ _ Hoff. cbn [concat]. intros [E _]%app_nil. rewrite E in Hlen. cbn in Hlen. lia. }
    rewrite take_app_ge by lia. cbn [concat]. rewrite <- app_assoc, <- Hd. do 2 f_equal. lia.
  - rewrite chain_read by (done || lia). cbn [mbind outcome_bind]. exists [take (Z.to_nat howmuch) (chain_data c)], [].
    split; [done|]. split; [cbn; by rewrite !app_nil_r, take_app_le by lia|]. split; [|done].
    intros _ _ Hoff. cbn [concat]. rewrite app_nil_r. intros E. apply (f_equal length) in E. rewrite length_take in E. cbn in E. lia.
Qed.

(** One event writes a part of the first bytes, all of them when they are in 128 chains; what [writev]
    takes is gone from the buffer. *)
Lemma write_atmost_ok fe b fd howmuch w :
  evb_ok true false fe b → 0 < total_len b → howmuch ≠ 0 →
  ∃ iov rest, iov ++ rest = take (Z.to_nat (if decide (howmuch < 0) then total_len b else howmuch)) (chains_data (chains b)) ∧
    iov ≠ [] ∧ ((length (chains b) <= NUM_WRITE_IOVEC)%nat → rest = []) ∧
    let '(n, w') := sys_writev w fd iov in
    ∃ b', evbuffer_write_atmost b fd howmuch w = Ret (n, b', w') ∧ evb_ok true false fe b' ∧
      chains_data (chains b') = drop (Z.to_nat n) (chains_data (chains b)).
Proof.
  intros Hb Htot Hh. pose proof Hb as (Hok & (full & free & Efull & Hfull & Hfree & _) & Ht & _ & Hfs & Hfe).
  unfold evbuffer_write_atmost. rewrite Hfs.
  set (m := if decide (_ ∨ _) then total_len b else howmuch).
  assert (0 < m) as Hm by (unfold m; case_decide; naive_solver lia). rewrite (decide_True (P := 0 < m)) by done.
  assert (chains b ≠ []) as Hne by (intros Hx; rewrite Hx, chains_data_nil in Ht; cbn in Ht; lia).
  destruct (write_vecs_ok NUM_WRITE_IOVEC (chains b) m Hok) as (iov & rest & Hw & Hd & Hi & Hr); [lia|].
  exists (concat iov), rest. split.
  { rewrite <- Hd. unfold m. destruct (decide (howmuch < 0)) as [Hx|Hx]; [by rewrite decide_True by (by left)|].
    destruct (decide (total_len b < howmuch)) as [Hy|Hy].
    - rewrite decide_True by (by right). rewrite !take_ge by lia. done.
    - by rewrite decide_False by (intros [?|?]; lia). }
  assert (concat iov ≠ []) as Hne2.
  { apply Hi; [lia|unfold NUM_WRITE_IOVEC; lia|]. rewrite Efull. destruct full as [|c full]; [|by apply Forall_cons in Hfull as [? _]].
    rewrite Efull, app_nil_l, chains_data_free in Ht by done. cbn in Ht. lia. }
  split; [done|]. split; [done|].
  assert (evbuffer_write_iovec b fd m w = Ret (sys_writev w fd (concat iov))) as Hiov.
  { unfold evbuffer_write_iovec. rewrite decide_False by lia. rewrite Hw. cbn [mbind outcome_bind].
    rewrite decide_False; [done|]. by intros ->. }
  destruct (sys_writev w fd (concat iov)) as [n w'] eqn:Ew.
  destruct (chains b) as [|c l] eqn:Ec; [done|]. pose proof Hok as [(_ & _ & _ & _ & C5 & _) _]%Forall_cons.
  rewrite C5, Z.land_0_l. cbn [Z.eqb negb]. rewrite Hiov. cbn [mbind outcome_bind].
  case_decide as Hn.
  - destruct (drain_ok true fe b n Hb) as (b' & -> & Hok' & Hdata); [lia|]. cbn [mbind outcome_bind snd].
    exists b'. split; [done|]. split; [done|]. by rewrite Hdata, Ec.
  - exists b. split; [done|]. split; [done|]. rewrite Ec. by replace (Z.to_nat n) with 0%nat by lia.
Qed.
End io_ok.

(** * Sockets *)

(** On a socket, [readv] is [recv] and [writev] is [send]; here nobody says how much there is to read. *)
Definition socket_io {W} `{!Net W} : EvIO W := {|
  get_n_bytes_readable_on_socket _ _ := -1; sys_readv := sys_recv; sys_writev := sys_send;
  evbuffer_write_sendfile w _ _ _ := (-1, w) |}.

Lemma socket_io_ok {W} `{!Net W, !NetOk W} : @EvIOOk W socket_io.
Proof.
  split; cbn.
  - intros w fd n. destruct (recv_len w fd n) as [H1 H2]. destruct (decide ((sys_recv w fd n).1.1 <= 0)); lia.
  - intros w fd d. apply send_len.
Qed.

(** * Properties *)

(** C15: the buffers and the descriptors: one [evbuffer_read] makes room, asks [readv] for at most 4096
    bytes and puts what it gets, if anything, behind the content; one [evbuffer_write_atmost] hands
    [writev] the first bytes of the content, up to [howmuch] when they are in at most 128 chains, and
    takes away what was written.  No call leaves a chain, and the buffers stay well formed. *)
Theorem evbuffer_io_refines `{!Malloc, !MallocOk} {W} `{!EvIO W, !EvIOOk W} (b : evbuffer) (fd howmuch : Z) (w : W) :
  howmuch ≠ 0 →
  (evb_in b → freeze_end b = false → total_len b + EVBUFFER_MAX_READ <= INT_MAX →
   let '(n, d, w') := sys_readv w fd (read_len w fd howmuch) in
   ∃ b', evbuffer_read b fd howmuch w = Ret (n, b', w') ∧ evb_in b' ∧ (0 < n → n = Z.of_nat (length d)) ∧
     chains_data (chains b') = chains_data (chains b) ++ (if decide (0 < n) then d else [])) ∧
  (evb_out b → freeze_start b = false → 0 < total_len b →
   let want := if decide (howmuch < 0) then total_len b else howmuch in
   ∃ iov rest, iov ++ rest = take (Z.to_nat want) (chains_data (chains b)) ∧
     ((length (chains b) <= NUM_WRITE_IOVEC)%nat → rest = []) ∧
     let '(n, w') := sys_writev w fd iov in
     ∃ b', evbuffer_write_atmost b fd howmuch w = Ret (n, b', w') ∧ evb_out b' ∧
       chains_data (chains b') = drop (Z.to_nat n) (chains_data (chains b))).
Proof.
  intros Hh. split.
  - intros Hb Hfe Hmax. unfold evb_in in Hb. rewrite Hfe in Hb. pose proof (read_ok _ b fd howmuch w Hb Hh Hmax) as Hr.
    destruct (sys_readv w fd _) as [[n d] w']. destruct Hr as (b' & E & Hok & Hd & Hn). exists b'. split; [done|].
    split; [by eapply evb_in_intro|]. split; [lia|done].
  - intros Hb Hfs Htot. unfold evb_out in Hb. rewrite Hfs in Hb.
    destruct (write_atmost_ok _ b fd howmuch w Hb Htot Hh) as (iov & rest & H1 & _ & H2 & Hw). exists iov, rest.
    split; [done|]. split; [done|]. destruct (sys_writev w fd iov) as [n w']. destruct Hw as (b' & E & Hok & Hd).
    exists b'. split; [done|]. split; [by eapply evb_out_intro|done].
Qed.

#[local] Instance demo_malloc : Malloc := {| mm_malloc n := Some (replicate (Z.to_nat n) x00) |}.
#[local] Instance demo_malloc_ok : MallocOk.
Proof. split. intros n Hn. eexists. split; [done|]. rewrite length_replicate. lia. Qed.
#[local] Existing Instance socket_io.
#[local] Existing Instance socket_io_ok.

(** Eleven bytes arrive in a new buffer; of "hello world" six are written. *)
Lemma evbuffer_io_refines_witness :
  ∃ b' w' b1 b2 w2, evbuffer_read evbuffer_new 9 (-1) (sim_init [] [6] [Data (bs "hello world")]) = Ret (11, b', w') ∧
    chains_data (chains b') = bs "hello world" ∧
    evbuffer_add evbuffer_new (bs "hello world") = Ret (0, b1) ∧
    evbuffer_write_atmost b1 9 (-1) w' = Ret (6, b2, w2) ∧ chains_data (chains b2) = bs "world".
Proof.
  assert (evb_in evbuffer_new) as Hin by (split; [constructor|split; [apply shape_nil|done]]).
  assert (evb_out evbuffer_new) as Hout by (split; [constructor|split; [apply shape_nil|done]]).
  set (w := sim_init [] [6] [Data (bs "hello world")]).
  destruct (evbuffer_io_refines evbuffer_new 9 (-1) w) as [Hr _]; [discriminate|].
  specialize (Hr Hin eq_refl). destruct (sys_readv w 9 (read_len w 9 (-1))) as [[n d] w'] eqn:E.
  vm_compute in E. injection E as <- <- <-. destruct Hr as (b' & Eb & _ & _ & Hd); [vm_compute; congruence|].
  destruct (add_ok _ evbuffer_new (bs "hello world") Hout) as (b1 & E1 & Hok1 & Hd1); [vm_compute; congruence|].
  match type of Eb with _ = Ret (_, _, ?x) => set (w1 := x) in * end.
  destruct (evbuffer_io_refines b1 9 (-1) w1) as [_ Hw]; [discriminate|].
  pose proof Hok1 as (_ & _ & Ht & _ & Hs & _). rewrite Hd1 in Ht.
  destruct Hw as (iov & rest & Hiov & Hrest & Hw); [by eapply evb_out_intro|exact Hs|rewrite Ht; reflexivity|].
  rewrite Hd1 in Hiov, Hw. rewrite Ht in Hiov. assert (rest = []) as ->.
  { apply Hrest. destruct (evbuffer_add evbuffer_new (bs "hello world")) as [r| | |] eqn:Er; [|discriminate E1..].
    vm_compute in Er. injection Er as <-. injection E1 as <-. vm_compute. lia. }
  rewrite app_nil_r in Hiov. subst iov.
  destruct (sys_writev w1 9 _) as [n2 w2] eqn:E2. vm_compute in E2. injection E2 as <- <-.
  destruct Hw as (b2 & Ew & _ & Hd2).
  eexists b', _, b1, b2, _. split; [exact Eb|]. split; [rewrite Hd; reflexivity|]. split; [exact E1|]. split; [exact Ew|].
  rewrite Hd2. reflexivity.
Defined.

(** [evbuffer_add] puts bytes into the last chain, behind an empty one that [evbuffer_read] left room in,
    and does not move [last_with_datap]: the next [evbuffer_read] finds a chain with data where it
    asserts that there is none.  (The program reads into one buffer and adds to another.) *)
Lemma add_after_read_aborts :
  (r ← evbuffer_read evbuffer_new 9 100 (sim_init [] [] [Data (bs "abc"); Data (bs "def")]);
   r ← evbuffer_read r.1.2 9 4096 r.2;
   a ← evbuffer_add r.1.2 (bs "xyz");
   r ← evbuffer_read a.2 9 4096 r.2;
   Ret r.1.1) = Exit 134.
Proof. vm_compute. reflexivity. Qed.
