(* ===== verification/Bufferevent.v ===== *)
(** libevent's socket bufferevents: [src/deps/libevent2/bufferevent_sock.c], [bufferevent.c], which
    move a client's bytes between its descriptor and the buffers and call the program.

    The state is [struct bufferevent] with [bufferevent_private]; the program's callbacks are
    parameters that are given the bufferevent and the rest of the world.  Adding an event is taken
    to succeed; there are no timeouts, rate limits, or deferred callbacks. *)
From S2P Require Import Prelude Net Evbuf Evbuffer EvbufferIO.

(** * State *)

(** [cbs]: whether the callbacks are set; [ev_read], [ev_write]: whether the events are pending. *)
Record bufferevent := {
  input : evbuffer; output : evbuffer; be_fd : Z;
  ev_read : bool; ev_write : bool; enabled_read : bool; enabled_write : bool;
  read_suspended : Z; write_suspended : Z;
  wm_read_low : Z; wm_read_high : Z; wm_write_low : Z;
  connecting : bool; connection_refused : bool; refcnt : Z; cbs : bool
}.

Definition BEV_EVENT_READING : Z := 0x01.
Definition BEV_EVENT_WRITING : Z := 0x02.
Definition BEV_EVENT_EOF : Z := 0x10.
Definition BEV_EVENT_ERROR : Z := 0x20.
Definition BEV_EVENT_TIMEOUT : Z := 0x40.
Definition BEV_EVENT_CONNECTED : Z := 0x80.
Definition BEV_SUSPEND_WM : Z := 0x01.

Definition MAX_TO_READ_EVER : Z := 16384.
Definition MAX_TO_WRITE_EVER : Z := 16384.

Definition with_buffers (be : bufferevent) (i o : evbuffer) : bufferevent := {|
  input := i; output := o; be_fd := be_fd be; ev_read := ev_read be; ev_write := ev_write be;
  enabled_read := enabled_read be; enabled_write := enabled_write be; read_suspended := read_suspended be;
  write_suspended := write_suspended be; wm_read_low := wm_read_low be; wm_read_high := wm_read_high be;
  wm_write_low := wm_write_low be; connecting := connecting be; connection_refused := connection_refused be;
  refcnt := refcnt be; cbs := cbs be |}.

Definition with_events (be : bufferevent) (r w er ew : bool) : bufferevent := {|
  input := input be; output := output be; be_fd := be_fd be; ev_read := r; ev_write := w;
  enabled_read := er; enabled_write := ew; read_suspended := read_suspended be;
  write_suspended := write_suspended be; wm_read_low := wm_read_low be; wm_read_high := wm_read_high be;
  wm_write_low := wm_write_low be; connecting := connecting be; connection_refused := connection_refused be;
  refcnt := refcnt be; cbs := cbs be |}.

Definition with_suspended (be : bufferevent) (r w : Z) : bufferevent := {|
  input := input be; output := output be; be_fd := be_fd be; ev_read := ev_read be; ev_write := ev_write be;
  enabled_read := enabled_read be; enabled_write := enabled_write be; read_suspended := r; write_suspended := w;
  wm_read_low := wm_read_low be; wm_read_high := wm_read_high be; wm_write_low := wm_write_low be;
  connecting := connecting be; connection_refused := connection_refused be; refcnt := refcnt be; cbs := cbs be |}.

Definition with_refs (be : bufferevent) (n : Z) (c conn refused : bool) : bufferevent := {|
  input := input be; output := output be; be_fd := be_fd be; ev_read := ev_read be; ev_write := ev_write be;
  enabled_read := enabled_read be; enabled_write := enabled_write be; read_suspended := read_suspended be;
  write_suspended := write_suspended be; wm_read_low := wm_read_low be; wm_read_high := wm_read_high be;
  wm_write_low := wm_write_low be; connecting := conn; connection_refused := refused; refcnt := n; cbs := c |}.

Definition set_input (be : bufferevent) (i : evbuffer) : bufferevent := with_buffers be i (output be).
Definition set_output (be : bufferevent) (o : evbuffer) : bufferevent := with_buffers be (input be) o.

(** * Events *)

(** [event_add] and [event_del]. *)
Definition add_read (be : bufferevent) : bufferevent :=
  with_events be true (ev_write be) (enabled_read be) (enabled_write be).
Definition add_write (be : bufferevent) : bufferevent :=
  with_events be (ev_read be) true (enabled_read be) (enabled_write be).
Definition del_read (be : bufferevent) : bufferevent :=
  with_events be false (ev_write be) (enabled_read be) (enabled_write be).
Definition del_write (be : bufferevent) : bufferevent :=
  with_events be (ev_read be) false (enabled_read be) (enabled_write be).

Definition be_socket_enable (be : bufferevent) (r w : bool) : bufferevent :=
  let be := if r then add_read be else be in
  if w then add_write be else be.

(** The write event stays while a connection is made. *)
Definition be_socket_disable (be : bufferevent) (r w : bool) : bufferevent :=
  let be := if r then del_read be else be in
  if w && negb (connecting be) then del_write be else be.

Definition bufferevent_enable (be : bufferevent) (r w : bool) : bufferevent :=
  let be' := with_events be (ev_read be) (ev_write be) (enabled_read be || r) (enabled_write be || w) in
  be_socket_enable be' (r && (read_suspended be =? 0)) (w && (write_suspended be =? 0)).

Definition bufferevent_disable (be : bufferevent) (r w : bool) : bufferevent :=
  let be' := with_events be (ev_read be) (ev_write be) (enabled_read be && negb r) (enabled_write be && negb w) in
  be_socket_disable be' r w.

Definition bufferevent_suspend_read (be : bufferevent) (what : Z) : bufferevent :=
  let be' := if decide (read_suspended be = 0) then be_socket_disable be true false else be in
  with_suspended be' (Z.lor (read_suspended be) what) (write_suspended be).

Definition bufferevent_unsuspend_read (be : bufferevent) (what : Z) : bufferevent :=
  let be' := with_suspended be (Z.ldiff (read_suspended be) what) (write_suspended be) in
  if decide (read_suspended be' = 0 ∧ enabled_read be' = true) then be_socket_enable be' true false else be'.

Definition bufferevent_setcb (be : bufferevent) (set : bool) : bufferevent :=
  with_refs be (refcnt be) set (connecting be) (connection_refused be).

(** [bufferevent_socket_outbuf_cb] for each call of the output's callbacks, with the bytes added.  The
    program's callbacks cannot see the write event, so it is up to date before libevent looks again. *)
Definition outbuf_cb (be : bufferevent) (info : Z * Z * Z) : bufferevent :=
  if decide (info.1.2 ≠ 0 ∧ enabled_write be = true ∧ ev_write be = false ∧ write_suspended be = 0)
  then add_write be else be.

Definition run_outbuf_cbs (be : bufferevent) : bufferevent :=
  let log := cb_log (output be) in
  foldl outbuf_cb (set_output be (with_counts (output be) (n_add_for_cb (output be)) (n_del_for_cb (output be)) [])) log.

Definition evbuffer_add_cb (b : evbuffer) : evbuffer := {|
  chains := chains b; last_with_datap := last_with_datap b; total_len := total_len b; n_add_for_cb := n_add_for_cb b;
  n_del_for_cb := n_del_for_cb b; freeze_start := freeze_start b; freeze_end := freeze_end b; callbacks := true;
  cb_log := cb_log b |}.

Definition bufferevent_socket_new (fd : Z) : bufferevent := {|
  input := evbuffer_freeze evbuffer_new false; output := evbuffer_freeze (evbuffer_add_cb evbuffer_new) true;
  be_fd := fd; ev_read := false; ev_write := false; enabled_read := false; enabled_write := true;
  read_suspended := 0; write_suspended := 0; wm_read_low := 0; wm_read_high := 0; wm_write_low := 0;
  connecting := false; connection_refused := false; refcnt := 1; cbs := false |}.

Definition incref (be : bufferevent) : bufferevent :=
  with_refs be (refcnt be + 1) (cbs be) (connecting be) (connection_refused be).

(** [EVUTIL_ERR_RW_RETRIABLE]. *)
Definition rw_retriable (e : Z) : bool := bool_decide (e = EINTR ∨ e = EAGAIN).

(** * The callbacks of the events *)

Section sockets.
Context `{!Malloc} {W : Type} `{!Net W, !EvIO W}.

(** The rest of the world, with the descriptors in it; the program's callbacks; what a descriptor
    that is being connected says. *)
Context {S : Type} (world : S → W) (set_world : S → W → S).
Context (readcb writecb : bufferevent → S → outcome (bufferevent * S)).
Context (errorcb : Z → bufferevent → S → outcome (bufferevent * S)).
Context (evutil_socket_finished_connecting : W → Z → Z).

(** [None] stands for a bufferevent that is freed: its descriptor is closed. *)
Definition decref (be : bufferevent) (s : S) : option bufferevent * S :=
  if decide (refcnt be - 1 = 0) then
    (None, if decide (0 <= be_fd be) then set_world s (sys_close (world s) (be_fd be)) else s)
  else (Some (with_refs be (refcnt be - 1) (cbs be) (connecting be) (connection_refused be)), s).

Definition run_cb (cb : bufferevent → S → outcome (bufferevent * S)) (be : bufferevent) (s : S)
    : outcome (bufferevent * S) :=
  if negb (cbs be) then Ret (be, s) else r ← cb be s; Ret (run_outbuf_cbs r.1, r.2).

(** The end of both callbacks. *)
Definition finish (r : bufferevent * S) : outcome (option bufferevent * S) := Ret (decref r.1 r.2).

Definition read_error (be : bufferevent) (what : Z) (s : S) : outcome (option bufferevent * S) :=
  r ← run_cb (errorcb what) (bufferevent_disable be true false) s; finish r.

Definition bufferevent_readcb (timeout : bool) (be : bufferevent) (s : S) : outcome (option bufferevent * S) :=
  let be := incref be in
  if timeout then read_error be (Z.lor BEV_EVENT_READING BEV_EVENT_TIMEOUT) s
  else
    let howmuch := if decide (wm_read_high be = 0) then -1 else wm_read_high be - evbuffer_get_length (input be) in
    if decide (wm_read_high be ≠ 0 ∧ howmuch <= 0) then finish (bufferevent_suspend_read be BEV_SUSPEND_WM, s)
    else
      let howmuch := if decide (howmuch < 0 ∨ MAX_TO_READ_EVER < howmuch) then MAX_TO_READ_EVER else howmuch in
      if decide (read_suspended be ≠ 0) then finish (be, s)
      else
        r ← evbuffer_read (evbuffer_unfreeze (input be) false) (be_fd be) (i32 howmuch) (world s);
        let '(res, b, w) := r : Z * evbuffer * W in
        let be := set_input be (evbuffer_freeze b false) in
        let s := set_world s w in
        if decide (res = -1) then
          if rw_retriable (errno w) then finish (be, s)
          else read_error be (Z.lor BEV_EVENT_READING BEV_EVENT_ERROR) s
        else if decide (res <= 0) then
          read_error be (if decide (res = 0) then Z.lor BEV_EVENT_READING BEV_EVENT_EOF else BEV_EVENT_READING) s
        else if decide (wm_read_low be <= evbuffer_get_length (input be)) then r ← run_cb readcb be s; finish r
        else finish (be, s).

Definition write_error (be : bufferevent) (what : Z) (s : S) : outcome (option bufferevent * S) :=
  r ← run_cb (errorcb what) (bufferevent_disable be false true) s; finish r.

(** What is left to do when [res] bytes were written. *)
Definition write_done (be : bufferevent) (res : Z) (connected : bool) (s : S) : outcome (option bufferevent * S) :=
  let be := if decide (evbuffer_get_length (output be) = 0) then del_write be else be in
  if decide ((res ≠ 0 ∨ connected = false) ∧ evbuffer_get_length (output be) <= wm_write_low be)
  then r ← run_cb writecb be s; finish r
  else finish (be, s).

Definition write_out (be : bufferevent) (connected : bool) (s : S) : outcome (option bufferevent * S) :=
  if decide (write_suspended be ≠ 0) then finish (be, s)
  else if decide (evbuffer_get_length (output be) ≠ 0) then
    r ← evbuffer_write_atmost (evbuffer_unfreeze (output be) true) (be_fd be) MAX_TO_WRITE_EVER (world s);
    let '(res, b, w) := r : Z * evbuffer * W in
    let be := run_outbuf_cbs (set_output be (evbuffer_freeze b true)) in
    let s := set_world s w in
    if decide (res = -1) then
      if rw_retriable (errno w) then
        finish (if decide (evbuffer_get_length (output be) = 0) then del_write be else be, s)
      else write_error be (Z.lor BEV_EVENT_WRITING BEV_EVENT_ERROR) s
    else if decide (res <= 0) then
      write_error be (if decide (res = 0) then Z.lor BEV_EVENT_WRITING BEV_EVENT_EOF else BEV_EVENT_WRITING) s
    else write_done be res connected s
  else write_done be 0 connected s.

Definition bufferevent_writecb (timeout : bool) (be : bufferevent) (s : S) : outcome (option bufferevent * S) :=
  let be := incref be in
  if timeout then write_error be (Z.lor BEV_EVENT_WRITING BEV_EVENT_TIMEOUT) s
  else if connecting be then
    let c := evutil_socket_finished_connecting (world s) (be_fd be) in
    let c := if connection_refused be then -1 else c in
    let be := with_refs be (refcnt be) (cbs be) (connecting be) false in
    if decide (c = 0) then finish (be, s)
    else
      let be := with_refs be (refcnt be) (cbs be) false (connection_refused be) in
      if decide (c < 0) then
        r ← run_cb (errorcb BEV_EVENT_ERROR) (del_read (del_write be)) s; finish r
      else
        r ← run_cb (errorcb BEV_EVENT_CONNECTED) be s;
        let '(be, s) := r : bufferevent * S in
        if decide (enabled_write be = false ∨ write_suspended be ≠ 0) then finish (del_write be, s)
        else write_out be true s
  else write_out be false s.

(** The caller still holds a reference when it is called from a callback. *)
Definition bufferevent_free (be : bufferevent) (s : S) : option bufferevent * S := decref (bufferevent_setcb be false) s.
End sockets.

(** * What the callbacks are told *)

(** The callbacks' counts of [b]; the output of an idle bufferevent has told them all. *)
Definition told (b : evbuffer) : bool * Z * Z * list (Z * Z * Z) := (callbacks b, n_add_for_cb b, n_del_for_cb b, cb_log b).
Definition quiet_buf (b : evbuffer) : Prop := told b = (true, 0, 0, []).

Lemma insert_told b c b' : evbuffer_chain_insert b c = Ret b' → told b' = told b.
Proof.
  unfold evbuffer_chain_insert. destruct (_ !! _).
  - case_decide; [by intros [= <-]|]. by intros ([] & _ & [= <-])%bind_Ret_inv.
  - by intros ([] & _ & ([] & _ & [= <-])%bind_Ret_inv)%bind_Ret_inv.
Qed.

(** What [evbuffer_add] tells: the bytes it added. *)
Lemma told_added b n :
  told b = (true, n, 0, []) → 0 < n →
  ∃ size, told (evbuffer_invoke_callbacks b) = (true, 0, 0, [(size, n, 0)]).
Proof.
  intros Ht Hn. injection Ht as Hc Ha Hd Hl. unfold evbuffer_invoke_callbacks. rewrite Hc. cbn [negb].
  rewrite decide_False by lia. eexists. unfold told. cbn. by rewrite Hc, Ha, Hd, Hl.
Qed.

Section told.
Context `{!Malloc}.

Lemma last_chain_told b n c b' : last_chain b n = Ret (Some (c, b')) → told b' = told b.
Proof.
  unfold last_chain. destruct (last _); [by intros [= <- <-]|].
  intros ([c'|] & _ & Hr)%bind_Ret_inv; [|done]. apply bind_Ret_inv in Hr as (b1 & Hi & [= <- <-]). by apply insert_told in Hi.
Qed.

Lemma grown_told b c n : told b = (true, 0, 0, []) → 0 <= n < 2 ^ 64 → told (grown b c n) = (true, n, 0, []).
Proof. intros Ht Hn. injection Ht as Hc Ha Hd Hl. unfold told, grown. cbn. rewrite Hc, Ha, Hd, Hl, Z.add_0_l, u64_small; done. Qed.

Lemma add_told b d b' :
  quiet_buf b → d ≠ [] → Z.of_nat (length d) < 2 ^ 64 → evbuffer_add b d = Ret (0, b') →
  ∃ size, told b' = (true, 0, 0, [(size, Z.of_nat (length d), 0)]).
Proof.
  intros Hq Hd Hmax. assert (0 < Z.of_nat (length d)) as Hpos by (destruct d; [done|cbn; lia]).
  unfold evbuffer_add. destruct (freeze_end b); [done|]. intros ([[c b1]|] & Hl & Hr)%bind_Ret_inv; [|done].
  apply last_chain_told in Hl. unfold quiet_buf in Hq. rewrite Hq in Hl.
  case_decide; [|case_decide].
  - apply bind_Ret_inv in Hr as (m & _ & [= <-]). apply told_added; [|done]. apply grown_told; [done|lia].
  - apply bind_Ret_inv in Hr as (c2 & _ & (m & _ & [= <-])%bind_Ret_inv). apply told_added; [|done]. apply grown_told; [done|lia].
  - unfold add_chain in Hr. apply bind_Ret_inv in Hr as ([tmp|] & _ & Hr); [|done].
    apply bind_Ret_inv in Hr as (b2 & Hfill & Hr). set (remain := if immutable c then 0 else _) in *.
    apply bind_Ret_inv in Hr as (rest & Hrest & Hr). apply bind_Ret_inv in Hr as (m & _ & Hr).
    apply bind_Ret_inv in Hr as (b3 & Hi & [= <-]). apply insert_told in Hi.
    assert (0 <= remain ∧ remain <= Z.of_nat (length d)) as [Hr1 Hr2].
    { unfold mem_read in Hrest. case_decide; [|done]. lia. }
    assert (told b2 = (true, remain, 0, [])) as Ht2.
    { case_decide as Hz.
      - apply bind_Ret_inv in Hfill as (x & _ & (m2 & _ & [= <-])%bind_Ret_inv). apply grown_told; [done|lia].
      - injection Hfill as <-. by assert (remain = 0) as -> by lia. }
    apply told_added; [|done]. rewrite Ht2 in Hi. injection Hi as Hc Ha Hdl Hlog. unfold told, count_added. cbn.
    rewrite Hc, Ha, Hdl, Hlog, u64_small by lia. do 3 f_equal. lia.
Qed.

Lemma drain_told b n r b' :
  quiet_buf b → evbuffer_drain b n = Ret (r, b') →
  told b' = (true, 0, 0, []) ∨ ∃ size del, told b' = (true, 0, 0, [(size, 0, del)]).
Proof.
  intros Hq. unfold evbuffer_drain. case_decide; [intros [= _ <-]; by left|]. destruct (freeze_start b); [intros [= _ <-]; by left|].
  intros ([k b1] & Hr & [= _ <-])%bind_Ret_inv. cbn [fst snd].
  assert (told b1 = (true, 0, 0, [])) as Ht.
  { rewrite <- Hq. case_decide; [by injection Hr as _ <-|].
    by apply bind_Ret_inv in Hr as ([[[i lwd] rem] l] & _ & [= _ <-]). }
  clear Hr. injection Ht as Hc Ha Hd Hl. unfold evbuffer_invoke_callbacks. cbn. rewrite Hc. cbn. unfold told.
  case_decide as Hx; cbn; rewrite ?Hc, ?Ha, ?Hd, ?Hl.
  - left. destruct Hx as [_ Hx]. rewrite Hd in Hx. by rewrite Hx.
  - right. by eexists _, _.
Qed.
End told.

(** * An open connection *)

(** The state of a connection that is neither closing nor held up, with [n] references: the output is
    well formed and its callbacks were told of everything, and when there is something to write the
    write event is pending. *)
Record be_core (n : Z) (be : bufferevent) : Prop := {
  core_in : evb_ok false false true (input be);
  core_out : evb_ok true true false (output be);
  core_enabled : enabled_read be = true ∧ enabled_write be = true;
  core_going : read_suspended be = 0 ∧ write_suspended be = 0 ∧ connecting be = false;
  core_marks : wm_read_low be = 0 ∧ wm_read_high be = 0 ∧ wm_write_low be = 0;
  core_held : refcnt be = n ∧ cbs be = true
}.

Definition out_data (be : bufferevent) : bytes := chains_data (chains (output be)).
Definition in_data (be : bufferevent) : bytes := chains_data (chains (input be)).
Definition owes (be : bufferevent) : Prop := out_data be ≠ [] → ev_write be = true.
Definition be_ok (n : Z) (be : bufferevent) : Prop := be_core n be ∧ quiet_buf (output be) ∧ owes be.

(** The same input, output and events. *)
Definition alike (be be' : bufferevent) : Prop :=
  input be' = input be ∧ out_data be' = out_data be ∧ be_fd be' = be_fd be ∧
  ev_read be' = ev_read be ∧ ev_write be' = ev_write be.

Lemma alike_owes be be' : alike be be' → owes be → owes be'.
Proof. intros (_ & Ho & _ & _ & Hw). unfold owes. by rewrite Ho, Hw. Qed.

(** With nothing to write no write event is pending. *)
Definition rests (be : bufferevent) : Prop := out_data be = [] → ev_write be = false.

Lemma alike_rests be be' : alike be be' → rests be → rests be'.
Proof. intros (_ & Ho & _ & _ & Hw). unfold rests. by rewrite Ho, Hw. Qed.

#[export] Instance alike_preorder : PreOrder alike.
Proof.
  split; [by intros be|]. intros a b c (H1 & H2 & H3 & H4 & H5) (G1 & G2 & G3 & G4 & G5).
  unfold alike. by rewrite G1, G2, G3, G4, G5.
Qed.

Lemma core_set_output n be o :
  be_core n be → evb_ok true true false o → be_core n (set_output be o).
Proof. intros [] Ho. by constructor. Qed.

Lemma length_out n be : be_core n be → evbuffer_get_length (output be) = Z.of_nat (length (out_data be)).
Proof. intros H. by destruct (core_out _ _ H) as (_ & _ & Ht & _). Qed.

Lemma forget_told b : told b = (true, 0, 0, cb_log b) → quiet_buf (with_counts b (n_add_for_cb b) (n_del_for_cb b) []).
Proof. intros Ht. injection Ht as Hc Ha Hd. unfold quiet_buf, told. cbn. by rewrite Hc, Ha, Hd. Qed.

(** Nothing was added. *)
Lemma run_quiet n be :
  be_core n be → (quiet_buf (output be) ∨ ∃ size del, told (output be) = (true, 0, 0, [(size, 0, del)])) →
  be_core n (run_outbuf_cbs be) ∧ quiet_buf (output (run_outbuf_cbs be)) ∧ alike be (run_outbuf_cbs be).
Proof.
  intros Hc Ht. set (o := with_counts (output be) (n_add_for_cb (output be)) (n_del_for_cb (output be)) []).
  assert (run_outbuf_cbs be = set_output be o ∧ told (output be) = (true, 0, 0, cb_log (output be))) as [-> Hl].
  { unfold run_outbuf_cbs. fold o. destruct Ht as [Ht|(sz & dl & Ht)]; injection Ht as H1 H2 H3 H4; unfold told;
      rewrite ?H1, ?H2, ?H3, ?H4; [done|]. cbn [foldl]. unfold outbuf_cb at 1. cbn [fst snd].
    by rewrite decide_False by naive_solver. }
  split; [apply core_set_output; [done|]; eapply same_data_ok; [|apply Hc]; done|].
  split; [by apply forget_told|done].
Qed.

(** Something was added: the write event is pending. *)
Lemma run_added n be size k :
  be_core n be → told (output be) = (true, 0, 0, [(size, k, 0)]) → 0 < k →
  let be' := run_outbuf_cbs be in
  be_core n be' ∧ quiet_buf (output be') ∧ ev_write be' = true ∧ input be' = input be ∧ out_data be' = out_data be ∧
  be_fd be' = be_fd be ∧ ev_read be' = ev_read be.
Proof.
  intros Hc Ht Hk. pose proof Ht as H4. injection H4 as H1 H2 H3 H4.
  set (o := with_counts (output be) (n_add_for_cb (output be)) (n_del_for_cb (output be)) []).
  assert (be_core n (set_output be o)) as Hc'.
  { apply core_set_output; [done|]. eapply same_data_ok; [|apply Hc]. done. }
  assert (quiet_buf o) as Hq by (apply forget_told; by rewrite Ht, H4).
  assert (run_outbuf_cbs be = outbuf_cb (set_output be o) (size, k, 0)) as ->.
  { unfold run_outbuf_cbs. fold o. by rewrite H4. }
  destruct (core_enabled _ _ Hc) as [_ He]. destruct (core_going _ _ Hc) as (_ & Hs & _).
  unfold outbuf_cb. cbn [fst snd]. change (enabled_write (set_output be o)) with (enabled_write be).
  change (ev_write (set_output be o)) with (ev_write be). change (write_suspended (set_output be o)) with (write_suspended be).
  case_decide as Hx.
  - destruct Hc'. split; [by constructor|]. by split_and!.
  - split; [done|]. split; [done|]. split; [|by split_and!].
    cbn. destruct (ev_write be); [done|]. exfalso. apply Hx. split_and!; try done. lia.
Qed.

Lemma incref_core n be : be_core n be → be_core (n + 1) (incref be) ∧ alike be (incref be).
Proof. intros []. split; [|done]. constructor; try done. cbn. by destruct core_held0 as [-> ?]. Qed.

(** The bytes the peer of a descriptor has been given. *)
Class EvIOLog (W : Type) `{!EvIO W} := {
  peer_got : W → Z → bytes;
  writev_got w fd d : peer_got (sys_writev w fd d).2 fd = peer_got w fd ++ take (Z.to_nat (sys_writev w fd d).1) d
}.

(** A descriptor that can be written to, now or later. *)
Definition writable {W} `{!Net W, !EvIO W} (w : W) (fd : Z) : Prop :=
  ∀ d, d ≠ [] → 0 < (sys_writev w fd d).1 ∨ ((sys_writev w fd d).1 = -1 ∧ rw_retriable (errno (sys_writev w fd d).2) = true).

Section events.
Context `{!Malloc, !MallocOk} {W : Type} `{!Net W, !EvIO W, !EvIOOk W, !EvIOLog W}.
Context {S : Type} (world : S → W) (set_world : S → W → S).
Context (readcb writecb : bufferevent → S → outcome (bufferevent * S)).
Context (errorcb : Z → bufferevent → S → outcome (bufferevent * S)).
Context (finished_connecting : W → Z → Z).
Hypothesis world_set : ∀ s w, world (set_world s w) = w.

(** What else the program's callback for writing leaves as it is. *)
Context (keeps : relation S) `{!PreOrder keeps}.
Hypothesis keeps_set : ∀ s w, keeps s (set_world s w).
Hypothesis writecb_idle : ∀ be s, ∃ s', writecb be s = Ret (be, s') ∧ world s' = world s ∧ keeps s s'.

Lemma finish_open be s :
  be_core 2 be → quiet_buf (output be) → owes be →
  ∃ be', finish world set_world (be, s) = Ret (Some be', s) ∧ be_ok 1 be' ∧ alike be be'.
Proof.
  intros Hc Hq Ho. unfold finish, decref. cbn [fst snd]. destruct (core_held _ _ Hc) as [Hr Hcb].
  rewrite Hr. rewrite decide_False by done. eexists. split; [done|]. split; [|done]. split; [|by split].
  destruct Hc. by constructor.
Qed.

(** With nothing left the write event is taken out. *)
Lemma stop_when_empty be :
  be_core 2 be → quiet_buf (output be) → owes be →
  let be1 := if decide (evbuffer_get_length (output be) = 0) then del_write be else be in
  be_core 2 be1 ∧ quiet_buf (output be1) ∧ owes be1 ∧ input be1 = input be ∧ out_data be1 = out_data be ∧
  be_fd be1 = be_fd be ∧ ev_read be1 = ev_read be ∧ rests be1.
Proof.
  intros Hc Hq Ho. rewrite (length_out _ _ Hc). case_decide as Hz; [|split_and!; try done; intros Hx; by rewrite Hx in Hz].
  split; [destruct Hc; by constructor|]. split; [done|]. split; [|by split_and!].
  intros Hne. exfalso. apply Hne. apply nil_length_inv. change (out_data (del_write be)) with (out_data be). lia.
Qed.

(** Both ends of a write: with the callback when the output is empty. *)
Lemma write_done_ok be res s :
  be_core 2 be → quiet_buf (output be) → owes be →
  ∃ be' s', write_done world set_world writecb be res false s = Ret (Some be', s') ∧ be_ok 1 be' ∧ world s' = world s ∧ keeps s s' ∧
    input be' = input be ∧ out_data be' = out_data be ∧ be_fd be' = be_fd be ∧ ev_read be' = ev_read be ∧ rests be'.
Proof.
  intros Hc Hq Ho. unfold write_done.
  destruct (stop_when_empty be Hc Hq Ho) as (Hc1 & Hq1 & Ho1 & E1 & E2 & E3 & E4 & Hrest).
  set (be1 := if decide (_ = 0) then del_write be else be) in *.
  rewrite <- E1, <- E2, <- E3, <- E4. clearbody be1. case_decide.
  - unfold run_cb. destruct (core_held _ _ Hc1) as [_ ->]. cbn [negb]. destruct (writecb_idle be1 s) as (s' & -> & Hs & Hk).
    cbn [mbind outcome_bind fst snd].
    destruct (run_quiet _ _ Hc1 (or_introl Hq1)) as (Hc2 & Hq2 & Ha2).
    destruct (finish_open _ s' Hc2 Hq2) as (be' & -> & Hok & Ha); [by eapply alike_owes|].
    exists be', s'. split; [done|]. split; [done|]. pose proof (transitivity Ha2 Ha) as Ha3.
    pose proof (alike_rests _ _ Ha3 Hrest). destruct Ha3 as (? & ? & ? & ? & ?). by split_and!.
  - destruct (finish_open _ s Hc1 Hq1 Ho1) as (be' & -> & Hok & Ha). exists be', s.
    pose proof (alike_rests _ _ Ha Hrest). destruct Ha as (? & ? & ? & ? & ?). by split_and!.
Qed.

(** What is not taken stays; the peer is given the rest. *)
Definition conserved (be be' : bufferevent) (s s' : S) : Prop :=
  input be' = input be ∧ be_fd be' = be_fd be ∧ ev_read be' = ev_read be ∧
  peer_got (world s') (be_fd be) ++ out_data be' = peer_got (world s) (be_fd be) ++ out_data be.

(** What one write event does to the output: nothing when it is empty, and otherwise it hands some of it
    to [writev] and keeps what is not taken. *)
Definition written (be be' : bufferevent) (s s' : S) : Prop :=
  conserved be be' s s' ∧ rests be' ∧ keeps s s' ∧
  ((out_data be = [] ∧ world s' = world s) ∨
   (out_data be ≠ [] ∧ ∃ iov, iov ≠ [] ∧ world s' = (sys_writev (world s) (be_fd be) iov).2 ∧
      out_data be' = drop (Z.to_nat (sys_writev (world s) (be_fd be) iov).1) (out_data be))).

Lemma write_atmost_told b fd h w n b' w' :
  evbuffer_write_atmost b fd h w = Ret (n, b', w') → quiet_buf b →
  quiet_buf b' ∨ ∃ size del, told b' = (true, 0, 0, [(size, 0, del)]).
Proof.
  unfold evbuffer_write_atmost. destruct (freeze_start b); [intros [= _ <- _]; by left|].
  intros ([m w1] & _ & Hr)%bind_Ret_inv Hq. case_decide.
  - apply bind_Ret_inv in Hr as ([r b1] & Hd & [= _ <- _]). by apply drain_told in Hd.
  - injection Hr as _ <- _. by left.
Qed.

(** The part of a list that was taken, and what is left of it. *)
Lemma take_prefix_drop {A} (p r l : list A) (n m : nat) : p ++ r = take m l → (n <= length p)%nat → take n p ++ drop n l = l.
Proof.
  intros E Hn. rewrite <- (take_drop n l) at 2. f_equal. rewrite <- (take_drop m l), <- E, <- app_assoc.
  by rewrite take_app_le.
Qed.

Lemma write_out_ok be s :
  be_core 2 be → quiet_buf (output be) → owes be → writable (world s) (be_fd be) →
  ∃ be' s', write_out world set_world writecb errorcb be false s = Ret (Some be', s') ∧ be_ok 1 be' ∧ written be be' s s'.
Proof.
  intros Hc Hq Ho Hwr. unfold write_out. destruct (core_going _ _ Hc) as (_ & Hs & _).
  rewrite Hs. rewrite (decide_False (P := 0 ≠ 0)) by (intros Hx; by apply Hx).
  rewrite (length_out _ _ Hc). case_decide as Hlen.
  2: { destruct (write_done_ok be 0 s Hc Hq Ho) as (be' & s' & -> & Hok & Es & Hk & E1 & E2 & E3 & E4 & Hrest). exists be', s'. split; [done|].
       split; [done|]. split; [split_and!; try done; by rewrite E2, Es|]. split; [done|]. split; [done|]. left. split; [|done].
       apply nil_length_inv. lia. }
  assert (out_data be ≠ []) as Hne by (intros Hx; by rewrite Hx in Hlen).
  set (b := evbuffer_unfreeze (output be) true).
  assert (evb_ok true false false b) as Hb by (destruct (core_out _ _ Hc) as (? & ? & ? & ? & ? & ?); by split_and!).
  assert (quiet_buf b) as Hqb by done.
  destruct (write_atmost_ok false b (be_fd be) MAX_TO_WRITE_EVER (world s) Hb) as (iov & rest & Hiov & Hiov0 & _ & Hw).
  { change (total_len b) with (evbuffer_get_length (output be)). rewrite (length_out _ _ Hc). lia. }
  { done. }
  rewrite decide_False in Hiov by done. change (chains_data (chains b)) with (out_data be) in Hiov, Hw.
  pose proof (Hwr iov Hiov0) as Hn. pose proof (writev_got (world s) (be_fd be) iov) as Hgot.
  pose proof (writev_ok (world s) (be_fd be) iov) as Hle.
  destruct (sys_writev (world s) (be_fd be) iov) as [n w'] eqn:Ew. cbn [fst snd] in *.
  destruct Hw as (b' & Ewr & Hb' & Hdata). rewrite Ewr. cbn [mbind outcome_bind].
  pose proof (write_atmost_told _ _ _ _ _ _ _ Ewr Hqb) as Ht.
  set (be1 := set_output be (evbuffer_freeze b' true)).
  assert (be_core 2 be1) as Hc1.
  { apply core_set_output; [done|]. destruct Hb' as (? & ? & ? & ? & ? & ?). by split_and!. }
  destruct (run_quiet 2 be1 Hc1 Ht) as (Hc2 & Hq2 & Ha2). set (be2 := run_outbuf_cbs be1) in *.
  assert (out_data be2 = drop (Z.to_nat n) (out_data be)) as Hout by (destruct Ha2 as (_ & -> & _); exact Hdata).
  assert (peer_got w' (be_fd be) ++ out_data be2 = peer_got (world s) (be_fd be) ++ out_data be) as Hcons.
  { rewrite Hgot, Hout, <- app_assoc. f_equal. apply (take_prefix_drop _ _ _ _ _ Hiov). lia. }
  assert (owes be2) as Ho2 by (intros _; destruct Ha2 as (_ & _ & _ & _ & ->); by apply Ho).
  assert (input be2 = input be ∧ be_fd be2 = be_fd be ∧ ev_read be2 = ev_read be) as (I1 & I2 & I3)
    by (destruct Ha2 as (-> & _ & -> & -> & _); done).
  clearbody be2. destruct Hn as [Hn|[-> Hretry]].
  - rewrite (decide_False (P := n = -1)), (decide_False (P := n <= 0)) by lia.
    destruct (write_done_ok be2 n (set_world s w') Hc2 Hq2 Ho2) as (be' & s' & -> & Hok & Es & Hk & E1 & E2 & E3 & E4 & Hrest).
    exists be', s'. split; [done|]. split; [done|]. unfold written, conserved.
    rewrite Es, world_set, E1, E2, E3, E4. split; [by split_and!|]. split; [done|].
    split; [etransitivity; [apply keeps_set|exact Hk]|]. right. split; [done|].
    exists iov. by rewrite Ew.
  - rewrite decide_True by done. rewrite Hretry.
    destruct (stop_when_empty be2 Hc2 Hq2 Ho2) as (Hc3 & Hq3 & Ho3 & E1 & E2 & E3 & E4 & Hrest).
    set (be3 := if decide (_ = 0) then del_write be2 else be2) in *.
    destruct (finish_open be3 (set_world s w') Hc3 Hq3 Ho3) as (be' & -> & Hok & Ha3). pose proof (alike_rests _ _ Ha3 Hrest) as Hrest'.
    destruct Ha3 as (F1 & F2 & F3 & F4 & F5).
    exists be', (set_world s w'). split; [done|]. split; [done|]. unfold written, conserved.
    rewrite world_set, F1, F2, F3, F4, E1, E2, E3, E4. split; [by split_and!|]. split; [done|].
    split; [apply keeps_set|]. right. split; [done|]. exists iov. by rewrite Ew.
Qed.

(** A write event of an open connection. *)
Lemma writecb_ok be s :
  be_ok 1 be → writable (world s) (be_fd be) →
  ∃ be' s', bufferevent_writecb world set_world writecb errorcb finished_connecting false be s = Ret (Some be', s') ∧
    be_ok 1 be' ∧ written be be' s s'.
Proof.
  intros (Hc & Hq & Ho) Hw. unfold bufferevent_writecb. destruct (incref_core 1 be Hc) as [Hc1 Ha].
  destruct (core_going _ _ Hc1) as (_ & _ & ->).
  apply (write_out_ok (incref be) s Hc1); [done|by eapply alike_owes|done].
Qed.

(** What [readv] returns, and what is done about it. *)
Lemma readcb_reads be s n d w' :
  be_ok 1 be → Z.of_nat (length (in_data be)) + EVBUFFER_MAX_READ <= INT_MAX →
  sys_readv (world s) (be_fd be) (read_len (world s) (be_fd be) MAX_TO_READ_EVER) = (n, d, w') →
  ∃ be1, be_ok 2 be1 ∧ in_data be1 = in_data be ++ (if decide (0 < n) then d else []) ∧
    output be1 = output be ∧ be_fd be1 = be_fd be ∧ ev_write be1 = ev_write be ∧
    bufferevent_readcb world set_world readcb errorcb false be s =
    (if decide (n = -1) then
       if rw_retriable (errno w') then finish world set_world (be1, set_world s w')
       else read_error world set_world errorcb be1 (Z.lor BEV_EVENT_READING BEV_EVENT_ERROR) (set_world s w')
     else if decide (n <= 0) then
       read_error world set_world errorcb be1
         (if decide (n = 0) then Z.lor BEV_EVENT_READING BEV_EVENT_EOF else BEV_EVENT_READING) (set_world s w')
     else r ← run_cb readcb be1 (set_world s w'); finish world set_world r).
Proof.
  intros (Hc & Hq & Ho) Hmax Hrd. destruct (incref_core 1 be Hc) as [Hc1 Ha]. unfold bufferevent_readcb.
  destruct (core_marks _ _ Hc1) as (Hlow & Hhigh & _). destruct (core_going _ _ Hc1) as (Hs & _ & _).
  rewrite Hhigh, (decide_True (P := 0 = 0)) by done. rewrite (decide_False (P := 0 ≠ 0 ∧ _)) by (intros [Hx _]; by apply Hx).
  rewrite (decide_True (P := -1 < 0 ∨ _)) by (left; lia). rewrite Hs, (decide_False (P := 0 ≠ 0)) by (intros Hx; by apply Hx).
  set (b := evbuffer_unfreeze (input (incref be)) false).
  assert (evb_ok false false false b) as Hb by (destruct (core_in _ _ Hc) as (? & ? & ? & ? & ? & ?); by split_and!).
  change (i32 MAX_TO_READ_EVER) with MAX_TO_READ_EVER.
  pose proof (read_ok false b (be_fd be) MAX_TO_READ_EVER (world s) Hb) as Hread.
  change (be_fd (incref be)) with (be_fd be). rewrite Hrd in Hread.
  destruct Hread as (b' & -> & Hb' & Hdata & _).
  { done. }
  { destruct Hb as (_ & _ & -> & _). exact Hmax. }
  cbn [mbind outcome_bind]. set (be1 := set_input (incref be) (evbuffer_freeze b' false)).
  assert (evb_ok false false true (evbuffer_freeze b' false)) as Hf by (destruct Hb' as (? & ? & ? & ? & ? & ?); by split_and!).
  assert (be_core 2 be1) as Hc2 by (destruct Hc1; by constructor).
  change (wm_read_low be1) with (wm_read_low (incref be)). rewrite Hlow.
  assert (0 <= evbuffer_get_length (input be1)) as Hlen.
  { destruct Hf as (_ & _ & Ht & _). change (evbuffer_get_length (input be1)) with (total_len (evbuffer_freeze b' false)). lia. }
  rewrite (decide_True (P := 0 <= _)) by done. exists be1. split; [split; [done|split; [done|exact Ho]]|]. by split_and!.
Qed.

(** A client's bytes: [readv] puts them behind the others, and the program is called. *)
Lemma readcb_ok be s d w' :
  be_ok 1 be → Z.of_nat (length (in_data be)) + EVBUFFER_MAX_READ <= INT_MAX →
  sys_readv (world s) (be_fd be) (read_len (world s) (be_fd be) MAX_TO_READ_EVER) = (Z.of_nat (length d), d, w') → d ≠ [] →
  ∃ be1, be_ok 2 be1 ∧ in_data be1 = in_data be ++ d ∧ out_data be1 = out_data be ∧ be_fd be1 = be_fd be ∧
    output be1 = output be ∧
    bufferevent_readcb world set_world readcb errorcb false be s =
    (r ← run_cb readcb be1 (set_world s w'); finish world set_world r).
Proof.
  intros Hok Hmax Hrd Hd. assert (0 < Z.of_nat (length d)) as Hpos by (destruct d; [done|cbn; lia]).
  destruct (readcb_reads be s _ d w' Hok Hmax Hrd) as (be1 & Hok1 & Hin & Hout & Hfd & _ & ->).
  rewrite (decide_True (P := 0 < _)) in Hin by done.
  rewrite (decide_False (P := Z.of_nat (length d) = -1)), (decide_False (P := Z.of_nat (length d) <= 0)) by lia.
  exists be1. split_and!; try done. unfold out_data. by rewrite Hout.
Qed.

(** What [readv] returns when the client is gone, or unreachable. *)
Definition gone (n : Z) (w' : W) : Prop := n = 0 ∨ (n = -1 ∧ rw_retriable (errno w') = false).

(** Then reading is disabled and the program told; it lets go of the bufferevent. *)
Lemma readcb_gone be s n d w' :
  be_ok 1 be → Z.of_nat (length (in_data be)) + EVBUFFER_MAX_READ <= INT_MAX →
  sys_readv (world s) (be_fd be) (read_len (world s) (be_fd be) MAX_TO_READ_EVER) = (n, d, w') → gone n w' →
  ∃ be1 what, refcnt be1 = 2 ∧ quiet_buf (output be1) ∧ be_fd be1 = be_fd be ∧ ev_read be1 = false ∧
    bufferevent_readcb world set_world readcb errorcb false be s =
    (r ← errorcb what be1 (set_world s w'); finish world set_world (run_outbuf_cbs r.1, r.2)).
Proof.
  intros Hok Hmax Hrd Hg.
  destruct (readcb_reads be s n d w' Hok Hmax Hrd) as (be1 & (Hc & Hq & _) & _ & Hout & Hfd & _ & ->).
  exists (bufferevent_disable be1 true false),
    (Z.lor BEV_EVENT_READING (if decide (n = 0) then BEV_EVENT_EOF else BEV_EVENT_ERROR)).
  destruct (core_held _ _ Hc) as [Hr Hcb].
  assert (∀ what, read_error world set_world errorcb be1 what (set_world s w') =
    (r ← errorcb what (bufferevent_disable be1 true false) (set_world s w'); finish world set_world (run_outbuf_cbs r.1, r.2))) as He.
  { intros what. unfold read_error, run_cb. change (cbs (bufferevent_disable be1 true false)) with (cbs be1). rewrite Hcb.
    cbn [negb]. by destruct (errorcb what _ _). }
  split; [done|]. split; [done|]. split; [done|]. split; [done|]. destruct Hg as [->|[-> Hre]].
  - rewrite (decide_False (P := 0 = -1)), (decide_True (P := 0 <= 0)), (decide_True (P := 0 = 0)) by (done || lia). apply He.
  - rewrite Hre, (decide_True (P := -1 = -1)), (decide_False (P := -1 = 0)) by (done || lia). apply He.
Qed.

(** A descriptor whose peer takes nothing any more. *)
Definition unwritable (w : W) (fd : Z) : Prop := ∀ d, d ≠ [] → gone (sys_writev w fd d).1 (sys_writev w fd d).2.

(** Then, when there is something to write, writing is disabled and the program told. *)
Lemma writecb_gone be s :
  be_ok 1 be → out_data be ≠ [] → unwritable (world s) (be_fd be) →
  ∃ be1 what iov, refcnt be1 = 2 ∧ quiet_buf (output be1) ∧ be_fd be1 = be_fd be ∧ iov ≠ [] ∧
    bufferevent_writecb world set_world writecb errorcb finished_connecting false be s =
    (r ← errorcb what be1 (set_world s (sys_writev (world s) (be_fd be) iov).2);
     finish world set_world (run_outbuf_cbs r.1, r.2)).
Proof.
  intros (Hc0 & Hq & _) Hne Hun. destruct (incref_core 1 be Hc0) as [Hc Ha]. unfold bufferevent_writecb.
  destruct (core_going _ _ Hc) as (_ & Hs & ->). unfold write_out. rewrite Hs.
  rewrite (decide_False (P := 0 ≠ 0)) by (intros Hx; by apply Hx). rewrite (length_out _ _ Hc).
  change (out_data (incref be)) with (out_data be).
  rewrite decide_True by (destruct (out_data be); [done|cbn; lia]).
  set (b := evbuffer_unfreeze (output (incref be)) true).
  assert (evb_ok true false false b) as Hb by (destruct (core_out _ _ Hc) as (? & ? & ? & ? & ? & ?); by split_and!).
  destruct (write_atmost_ok false b (be_fd be) MAX_TO_WRITE_EVER (world s) Hb) as (iov & rest & _ & Hiov0 & _ & Hw).
  { change (total_len b) with (evbuffer_get_length (output (incref be))). rewrite (length_out _ _ Hc).
    change (out_data (incref be)) with (out_data be). destruct (out_data be); [done|cbn; lia]. }
  { done. }
  pose proof (Hun iov Hiov0) as Hg. destruct (sys_writev (world s) (be_fd be) iov) as [n w'] eqn:Ew. cbn [fst snd] in *.
  destruct Hw as (b' & Ewr & Hb' & _). change (be_fd (incref be)) with (be_fd be). rewrite Ewr. cbn [mbind outcome_bind].
  pose proof (write_atmost_told _ _ _ _ _ _ _ Ewr Hq) as Ht.
  set (be1 := set_output (incref be) (evbuffer_freeze b' true)).
  assert (be_core 2 be1) as Hc1.
  { apply core_set_output; [done|]. destruct Hb' as (? & ? & ? & ? & ? & ?). by split_and!. }
  destruct (run_quiet 2 be1 Hc1 Ht) as (Hc2 & Hq2 & (_ & _ & Hfd & _ & _)). destruct (core_held _ _ Hc2) as [Hr Hcb].
  exists (bufferevent_disable (run_outbuf_cbs be1) false true),
    (Z.lor BEV_EVENT_WRITING (if decide (n = 0) then BEV_EVENT_EOF else BEV_EVENT_ERROR)), iov. rewrite Ew. cbn [snd].
  destruct (core_going _ _ Hc2) as (_ & _ & Hcon).
  assert (bufferevent_disable (run_outbuf_cbs be1) false true =
          del_write (with_events (run_outbuf_cbs be1) (ev_read (run_outbuf_cbs be1)) (ev_write (run_outbuf_cbs be1))
             (enabled_read (run_outbuf_cbs be1) && true) (enabled_write (run_outbuf_cbs be1) && false))) as Edis.
  { unfold bufferevent_disable, be_socket_disable. cbn [negb andb]. cbn [with_events connecting]. by rewrite Hcon. }
  assert (∀ what, write_error world set_world errorcb (run_outbuf_cbs be1) what (set_world s w') =
    (r ← errorcb what (bufferevent_disable (run_outbuf_cbs be1) false true) (set_world s w');
     finish world set_world (run_outbuf_cbs r.1, r.2))) as He.
  { intros what. unfold write_error, run_cb. rewrite Edis. cbn [del_write with_events cbs]. rewrite Hcb.
    cbn [negb]. by destruct (errorcb what _ _). }
  split; [rewrite Edis; exact Hr|]. split; [rewrite Edis; exact Hq2|]. split; [rewrite Edis; exact Hfd|]. split; [done|].
  destruct Hg as [->|[-> Hre]].
  - rewrite (decide_False (P := 0 = -1)), (decide_True (P := 0 <= 0)), (decide_True (P := 0 = 0)) by (done || lia). apply He.
  - rewrite Hre, (decide_True (P := -1 = -1)), (decide_False (P := -1 = 0)) by (done || lia). apply He.
Qed.
End events.

(** * What becomes of a bufferevent *)

(** The references, the callbacks and the descriptor are the same. *)
Definition same_hold (be be' : bufferevent) : Prop :=
  refcnt be' = refcnt be ∧ cbs be' = cbs be ∧ connecting be' = connecting be ∧ be_fd be' = be_fd be.

(** A connected client's bufferevent: one reference, the callbacks set. *)
Definition held (be : bufferevent) : Prop := refcnt be = 1 ∧ cbs be = true ∧ connecting be = false ∧ 0 <= be_fd be.

#[export] Instance same_hold_preorder : PreOrder same_hold.
Proof. split; [done|]. intros a b c (? & ? & ? & ?) (? & ? & ? & ?). split_and!; congruence. Qed.

Lemma outbuf_hold log : ∀ be, same_hold be (foldl outbuf_cb be log).
Proof.
  induction log as [|x log IH]; intros be; [done|]. cbn [foldl]. etransitivity; [|apply IH].
  unfold outbuf_cb. by case_decide.
Qed.

Lemma run_hold be : same_hold be (run_outbuf_cbs be).
Proof. unfold run_outbuf_cbs. etransitivity; [|apply outbuf_hold]. done. Qed.

Section fate.
Context `{!Malloc} {W : Type} `{!Net W, !EvIO W}.
Context {S : Type} (world : S → W) (set_world : S → W → S).
Context (readcb writecb : bufferevent → S → outcome (bufferevent * S)).
Context (errorcb : Z → bufferevent → S → outcome (bufferevent * S)).
Context (finished_connecting : W → Z → Z).

(** What the callbacks for data keep, and what the one for errors, which lets go of a reference, does. *)
Context (stays leaves : relation S) `{!PreOrder stays}.
Hypothesis stays_set : ∀ s w, stays s (set_world s w).
Hypothesis leaves_after : ∀ s1 s2 s3, stays s1 s2 → leaves s2 s3 → leaves s1 s3.
Hypothesis readcb_stays : ∀ be s be' s', readcb be s = Ret (be', s') → same_hold be be' ∧ stays s s'.
Hypothesis writecb_stays : ∀ be s be' s', writecb be s = Ret (be', s') → same_hold be be' ∧ stays s s'.
Hypothesis errorcb_leaves : ∀ what be s be' s', errorcb what be s = Ret (be', s') →
  refcnt be' = refcnt be - 1 ∧ be_fd be' = be_fd be ∧ leaves s s'.

(** It stays as it was, or the program let go of it and its descriptor was closed, and nothing after that. *)
Definition fate (be : bufferevent) (s : S) (o : option bufferevent) (s' : S) : Prop :=
  match o with
  | Some be' => same_hold be be' ∧ stays s s'
  | None => ∃ s2, leaves s s2 ∧ s' = set_world s2 (sys_close (world s2) (be_fd be))
  end.

Lemma finish_fate be be2 s s2 o s' :
  held be → same_hold (incref be) be2 → stays s s2 → finish world set_world (be2, s2) = Ret (o, s') → fate be s o s'.
Proof.
  intros (Hr & _) (H1 & H2 & H3 & H4) Hs. unfold finish, decref. cbn [fst snd incref with_refs refcnt cbs connecting be_fd] in *.
  rewrite H1, Hr, decide_False by lia. intros [= <- <-]. split; [|done]. unfold same_hold. cbn. split_and!; [lia|done|done|done].
Qed.

Lemma data_fate cb be be2 s s2 o s' :
  (∀ be s be' s', cb be s = Ret (be', s') → same_hold be be' ∧ stays s s') →
  held be → same_hold (incref be) be2 → stays s s2 → (r ← run_cb cb be2 s2; finish world set_world r) = Ret (o, s') →
  fate be s o s'.
Proof.
  intros Hcb Hb Hh Hs ([be3 s3] & Hr & Hf)%bind_Ret_inv. unfold run_cb in Hr.
  destruct (negb (cbs be2)); [injection Hr as <- <-; by eapply finish_fate|].
  apply bind_Ret_inv in Hr as ([be4 s4] & Hr & [= <- <-]). apply Hcb in Hr as [Hh' Hs'].
  eapply finish_fate; [done| | |exact Hf]; [|by etransitivity].
  etransitivity; [exact Hh|]. etransitivity; [exact Hh'|apply run_hold].
Qed.

Lemma error_fate what be be2 s s2 o s' :
  held be → same_hold (incref be) be2 → stays s s2 →
  (r ← run_cb (errorcb what) be2 s2; finish world set_world r) = Ret (o, s') → fate be s o s'.
Proof.
  intros (Hr & Hcbs & _ & Hfd) (H1 & H2 & _ & H4) Hs ([be3 s3] & Hrun & Hf)%bind_Ret_inv. unfold run_cb in Hrun.
  cbn [incref with_refs refcnt cbs be_fd] in *. rewrite H2, Hcbs in Hrun. cbn [negb] in Hrun.
  apply bind_Ret_inv in Hrun as ([be4 s4] & Hcb & [= <- <-]). apply errorcb_leaves in Hcb as (Hr4 & Hf4 & Hl).
  destruct (run_hold be4) as (E1 & _ & _ & E4). unfold finish, decref in Hf. cbn [fst snd] in Hf, E1, E4.
  rewrite E1, E4, Hr4, Hf4, H1, H4, Hr in Hf. rewrite (decide_True (P := 1 + 1 - 1 - 1 = 0)), (decide_True (P := 0 <= be_fd be)) in Hf by lia.
  injection Hf as <- <-. exists s4. split; [by eapply leaves_after|done].
Qed.

Lemma disable_hold be r w : same_hold be (bufferevent_disable be r w).
Proof. unfold bufferevent_disable, be_socket_disable. destruct r, w; cbn; try done; by destruct (connecting be). Qed.

Lemma readcb_fate be s o s' :
  held be → bufferevent_readcb world set_world readcb errorcb false be s = Ret (o, s') → fate be s o s'.
Proof.
  intros Hb. unfold bufferevent_readcb. set (be1 := incref be). cbv zeta.
  generalize (if decide (wm_read_high be1 = 0) then -1 else wm_read_high be1 - evbuffer_get_length (input be1)) as how. intros how.
  destruct (decide (wm_read_high be1 ≠ 0 ∧ how <= 0)).
  { intros Hf. eapply finish_fate; [done| |reflexivity|exact Hf]. unfold bufferevent_suspend_read. subst be1.
    by destruct (decide (read_suspended (incref be) = 0)). }
  destruct (decide (read_suspended be1 ≠ 0)); [by apply finish_fate|]. intros ([[res b] w] & _ & Hf)%bind_Ret_inv. revert Hf.
  set (be2 := set_input be1 _). assert (same_hold (incref be) be2) as Hh by done.
  assert (∀ what, read_error world set_world errorcb be2 what (set_world s w) = Ret (o, s') → fate be s o s') as He.
  { intros what. apply error_fate; [done| |apply stays_set]. etransitivity; [exact Hh|apply disable_hold]. }
  case_decide; [case_match; [apply finish_fate; [done|done|apply stays_set]|apply He]|].
  case_decide; [apply He|]. case_decide; [|apply finish_fate; [done|done|apply stays_set]].
  apply data_fate; [exact readcb_stays|done|done|apply stays_set].
Qed.

Lemma write_done_fate be be2 res s s2 o s' :
  held be → same_hold (incref be) be2 → stays s s2 →
  write_done world set_world writecb be2 res false s2 = Ret (o, s') → fate be s o s'.
Proof.
  intros Hb Hh Hs. unfold write_done. set (be3 := if decide (_ = 0) then del_write be2 else be2).
  assert (same_hold (incref be) be3) as Hh3 by (unfold be3; by case_decide).
  case_decide; [by apply (data_fate writecb)|by apply finish_fate].
Qed.

Lemma writecb_fate be s o s' :
  held be → bufferevent_writecb world set_world writecb errorcb finished_connecting false be s = Ret (o, s') →
  fate be s o s'.
Proof.
  intros Hb. unfold bufferevent_writecb. cbn [incref with_refs connecting]. destruct Hb as (Hr & Hc & Hcon & Hfd).
  rewrite Hcon. unfold write_out. fold (incref be). assert (held be) as Hb by done.
  case_decide; [by apply finish_fate|]. case_decide; [|by apply write_done_fate].
  intros ([[res b] w] & _ & Hf)%bind_Ret_inv. revert Hf. set (be2 := run_outbuf_cbs _).
  assert (same_hold (incref be) be2) as Hh by (etransitivity; [|apply run_hold]; done).
  assert (∀ what, write_error world set_world errorcb be2 what (set_world s w) = Ret (o, s') → fate be s o s') as He.
  { intros what. apply error_fate; [done| |apply stays_set]. etransitivity; [exact Hh|apply disable_hold]. }
  case_decide.
  { case_match; [|apply He]. apply finish_fate; [done| |apply stays_set]. case_decide; [|done].
    etransitivity; [exact Hh|done]. }
  case_decide; [apply He|]. apply write_done_fate; [done|done|apply stays_set].
Qed.
End fate.
