(* ===== verification/KvProxy.v ===== *)
(** The proxy itself: the class [KvProxy] of [src/kvproxy.h], [src/kvproxy.cpp] - its
    construction, the extension and the hosts it is set up with, the asynchronous copies,
    [getStatus], and [readEvent], which serves a client's request from end to end. *)
From S2P Require Import Prelude StdMap Util Hash Config Extension Net ConnPool Failover Request Backend Evbuf.

Definition FAST_BUFF_SIZE : Z := 10240.
Definition TIMEOUT : Z := 100000.
Definition ST_LIMIT : Z := 2100000000.
Definition ASYNC_SIZE : Z := 50000.
Definition MAX_PACKET : Z := 1.
Definition FAILOVER_THRESHOLD : Z := 10.
Definition FAILOVER_INTERVAL : Z := 10.

(** * State *)

(** The options the constructor reads; [connect_timeout] and [send_timeout] keep no value when the
    configuration has none. *)
Record Options := {
  connect_timeout : option Z; send_timeout : option Z; recv_timeout : Z; thread_count : Z;
  max_packet : Z; failover_threshold : Z; failover_interval : Z; async_size : Z
}.

Abbreviation req_group_async_t := (gmap Z comm_list_t).

(** [ptrs] are the extension's functions once [loadExt] found them; [statics_] the static variables
    of the extension; [px_conf] the configuration, which reading extends. *)
Record KvProxy (W F E : Type) := {
  opts : Options;
  hosts : Hosts; stats : Stats; pool : ConnPool; bufs : gmap Z Buffers;
  ext_ : Extension F; ptrs : option (ext_ptrs F); sync_str : bytes;
  async_req : list req_group_async_t; is_async : bool;
  px_conf : Config; statics_ : E; net : W
}.
Arguments opts {W F E} _.
Arguments hosts {W F E} _.
Arguments stats {W F E} _.
Arguments pool {W F E} _.
Arguments bufs {W F E} _.
Arguments ext_ {W F E} _.
Arguments ptrs {W F E} _.
Arguments sync_str {W F E} _.
Arguments async_req {W F E} _.
Arguments is_async {W F E} _.
Arguments px_conf {W F E} _.
Arguments statics_ {W F E} _.
Arguments net {W F E} _.

(** The entries of the buffer maps that [operator[]] makes for an unknown thread. *)
Definition bufs_null : Buffers := {|
  position := 0; req_list_data := []; req_buf := []; req_buf_size := 0; req_buf_len := 0;
  resp_buf := []; resp_buf_size := 0; resp_buf_len := 0; backend_buf := []; backend_buf_size := 0;
  backend_buf_len := 0; client_buf := []; client_buf_size := 0; client_buf_len := 0 |}.

Definition with_parsed (b : Buffers) (pos : Z) (l : req_list_t) : Buffers := {|
  position := pos; req_list_data := l;
  req_buf := req_buf b; req_buf_size := req_buf_size b; req_buf_len := req_buf_len b;
  resp_buf := resp_buf b; resp_buf_size := resp_buf_size b; resp_buf_len := resp_buf_len b;
  backend_buf := backend_buf b; backend_buf_size := backend_buf_size b; backend_buf_len := backend_buf_len b;
  client_buf := client_buf b; client_buf_size := client_buf_size b; client_buf_len := client_buf_len b |}.

Definition with_req_buf (b : Buffers) (m : bytes) : Buffers := {|
  position := position b; req_list_data := req_list_data b;
  req_buf := m; req_buf_size := req_buf_size b; req_buf_len := req_buf_len b;
  resp_buf := resp_buf b; resp_buf_size := resp_buf_size b; resp_buf_len := resp_buf_len b;
  backend_buf := backend_buf b; backend_buf_size := backend_buf_size b; backend_buf_len := backend_buf_len b;
  client_buf := client_buf b; client_buf_size := client_buf_size b; client_buf_len := client_buf_len b |}.

Definition with_conn (s : Stats) (n : Z) : Stats := {|
  st_req := st_req s; st_conn := n; st_limit := st_limit s; st_cont_fail := st_cont_fail s; st_fail := st_fail s |}.
Definition with_req (s : Stats) (n : Z) : Stats := {|
  st_req := n; st_conn := st_conn s; st_limit := st_limit s; st_cont_fail := st_cont_fail s; st_fail := st_fail s |}.

(** A client's connection: its worker, and the two buffers of its [bufferevent]. *)
Record Client (B : Type) := { cl_fd : Z; cl_thread : Z; m_read_buf : B; m_write_buf : B }.
Arguments cl_fd {B} _.
Arguments cl_thread {B} _.
Arguments m_read_buf {B} _.
Arguments m_write_buf {B} _.

(** What the program asks of the thread library: 0 is success. *)
Class Threads := { mutex_init : Z; pthread_create : Z }.

Section updates.
Context {W F E : Type}.
Implicit Types (px : KvProxy W F E).

(** What worker [t] works on, and the proxy after it. *)
Definition worker px (t : Z) : Backend W := {|
  k_hosts := hosts px; k_stats := stats px; k_pool := pool px; k_buf := default bufs_null (bufs px !! t);
  k_net := net px |}.

Definition put_worker px (t : Z) (k : Backend W) : KvProxy W F E := {|
  opts := opts px; hosts := k_hosts k; stats := k_stats k; pool := k_pool k; bufs := <[t := k_buf k]> (bufs px);
  ext_ := ext_ px; ptrs := ptrs px; sync_str := sync_str px; async_req := async_req px; is_async := is_async px;
  px_conf := px_conf px; statics_ := statics_ px; net := k_net k |}.

Definition put_buf px (t : Z) (b : Buffers) : KvProxy W F E := put_worker px t (with_buf (worker px t) b).

Definition put_hosts px (h : Hosts) (p : ConnPool) (w : W) (c : Config) : KvProxy W F E := {|
  opts := opts px; hosts := h; stats := stats px; pool := p; bufs := bufs px; ext_ := ext_ px; ptrs := ptrs px;
  sync_str := sync_str px; async_req := async_req px; is_async := is_async px; px_conf := c;
  statics_ := statics_ px; net := w |}.

Definition put_stats px (s : Stats) : KvProxy W F E := {|
  opts := opts px; hosts := hosts px; stats := s; pool := pool px; bufs := bufs px; ext_ := ext_ px; ptrs := ptrs px;
  sync_str := sync_str px; async_req := async_req px; is_async := is_async px; px_conf := px_conf px;
  statics_ := statics_ px; net := net px |}.

Definition put_statics px (e : E) (c : Config) : KvProxy W F E := {|
  opts := opts px; hosts := hosts px; stats := stats px; pool := pool px; bufs := bufs px; ext_ := ext_ px;
  ptrs := ptrs px; sync_str := sync_str px; async_req := async_req px; is_async := is_async px; px_conf := c;
  statics_ := e; net := net px |}.

Definition put_async px (q : list req_group_async_t) (a : bool) : KvProxy W F E := {|
  opts := opts px; hosts := hosts px; stats := stats px; pool := pool px; bufs := bufs px; ext_ := ext_ px;
  ptrs := ptrs px; sync_str := sync_str px; async_req := q; is_async := a; px_conf := px_conf px;
  statics_ := statics_ px; net := net px |}.

Definition put_ext px (x : Extension F) (p : option (ext_ptrs F)) (s : bytes) (c : Config) : KvProxy W F E := {|
  opts := opts px; hosts := hosts px; stats := stats px; pool := pool px; bufs := bufs px; ext_ := x; ptrs := p;
  sync_str := s; async_req := async_req px; is_async := is_async px; px_conf := c; statics_ := statics_ px;
  net := net px |}.
End updates.

(** * Construction *)

(** Signed multiplication: overflow is undefined. *)
Definition int_mul (x y : Z) : outcome Z := if decide (is_int (x * y)) then Ret (x * y) else Undef IntOverflow.

(** A timeout in milliseconds, kept in microseconds when the option is set. *)
Definition conf_timeout (conf : Config) (key : bytes) (old : option Z) : outcome (option Z * Config) :=
  r ← getConfInt conf (bs "kvproxy") key;
  if decide (r.1 = 0) then Ret (old, r.2) else t ← int_mul r.1 1000; Ret (Some t, r.2).

(** An option with a default for values that are not positive. *)
Definition conf_positive (conf : Config) (key : bytes) (dflt : Z) : outcome (Z * Config) :=
  r ← getConfInt conf (bs "kvproxy") key;
  Ret (if decide (r.1 <= 0) then dflt else r.1, r.2).

Definition conf_options (count : Z) (conf : Config) : outcome (Options * Config) :=
  c ← conf_timeout conf (bs "connect_timeout") None;
  s ← conf_timeout c.2 (bs "send_timeout") None;
  r ← conf_timeout s.2 (bs "recv_timeout") (Some TIMEOUT);
  m ← conf_positive r.2 (bs "max_packet") MAX_PACKET;
  ft ← conf_positive m.2 (bs "failover_threshold") FAILOVER_THRESHOLD;
  fi ← conf_positive ft.2 (bs "failover_interval") FAILOVER_INTERVAL;
  a ← conf_positive fi.2 (bs "async_size") ASYNC_SIZE;
  Ret ({| connect_timeout := c.1; send_timeout := s.1; recv_timeout := default TIMEOUT r.1; thread_count := count;
          max_packet := m.1; failover_threshold := ft.1; failover_interval := fi.1; async_size := a.1 |}, a.2).

(** [malloc] gives the buffer of a thread under a number from 0 to 3. *)
Definition new_bufs (malloc : Z → nat → Z → bytes) (id size : Z) : Buffers := {|
  position := 0; req_list_data := [];
  req_buf := malloc id 0%nat size; req_buf_size := size; req_buf_len := 0;
  resp_buf := malloc id 1%nat size; resp_buf_size := size; resp_buf_len := 0;
  backend_buf := malloc id 2%nat size; backend_buf_size := size; backend_buf_len := 0;
  client_buf := malloc id 3%nat size; client_buf_size := size; client_buf_len := 0 |}.

(** [for (id = 0; id <= thread_count; id++)], from [id]. *)
Fixpoint bufs_loop (n : nat) (malloc : Z → nat → Z → bytes) (id size : Z) (m : gmap Z Buffers) : gmap Z Buffers :=
  match n with
  | O => m
  | S n => bufs_loop n malloc (id + 1) size (<[id := new_bufs malloc id size]> m)
  end.

Definition stats_new : Stats :=
  {| st_req := 0; st_conn := 0; st_limit := ST_LIMIT; st_cont_fail := ∅; st_fail := ∅ |}.

(** [max_packet * 1024 * 1024], computed in every turn of the loop with the same result. *)
Definition packet_size (o : Options) : outcome Z := kilo ← int_mul (max_packet o) 1024; int_mul kilo 1024.

Definition KvProxy_new {W F E : Type} (malloc : Z → nat → Z → bytes) (count : Z) (conf : Config)
    (p : option ConnPool) (e : E) (w : W) : outcome (KvProxy W F E) :=
  o ← conf_options count conf;
  size ← (if decide (count < 0) then Ret 0 else packet_size o.1);
  Ret {| opts := o.1; hosts := hosts_new; stats := stats_new; pool := getInstance p;
         bufs := bufs_loop (Z.to_nat (count + 1)) malloc 0 size ∅; ext_ := extension_new; ptrs := None;
         sync_str := []; async_req := []; is_async := false; px_conf := o.2; statics_ := e; net := w |}.

(** The buffers by thread and number (0 the requests', 1 the responses', 2 the backend's, 3 the client's):
    those the constructor allocates, and what is left of the allocated ones after the destructor. *)
Fixpoint alloc_loop (n : nat) (id : Z) (live : gset (Z * nat)) : gset (Z * nat) :=
  match n with
  | O => live
  | S n => alloc_loop n (id + 1) ({[ (id, 0%nat); (id, 1%nat); (id, 2%nat); (id, 3%nat) ]} ∪ live)
  end.
Fixpoint free_loop (n : nat) (id : Z) (live : gset (Z * nat)) : gset (Z * nat) :=
  match n with
  | O => live
  | S n => free_loop n (id + 1) (live ∖ {[ (id, 0%nat); (id, 1%nat); (id, 2%nat) ]})
  end.

Definition KvProxy_alloc {W F E} (px : KvProxy W F E) : gset (Z * nat) :=
  alloc_loop (Z.to_nat (thread_count (opts px) + 1)) 0 ∅.
Definition KvProxy_delete {W F E} (px : KvProxy W F E) (live : gset (Z * nat)) : gset (Z * nat) :=
  free_loop (Z.to_nat (thread_count (opts px) + 1)) 0 live.

(** * Getters the threads use *)

Section getters.
Context {W F E : Type}.
Implicit Types (px : KvProxy W F E).
Definition getHostAlias px : gmap Z (bytes * Z) := host_alias (hosts px).
Definition getHostOffline px : gmap Z bool := host_offline (hosts px).
Definition getConnPool px : ConnPool := pool px.
Definition getFailOverInterval px : Z := failover_interval (opts px).
Definition getFailOverThreshold px : Z := failover_threshold (opts px).
Definition getStContFail px : gmap Z Z := st_cont_fail (stats px).
Definition getThreadCount px : Z := thread_count (opts px).
End getters.

(** * The extension and the hosts *)

Section setup.
Context {W : Type} `{!Net W} {H F E : Type} `{!Dl H F, !Ext F E} `{!Threads}.
Implicit Types (px : KvProxy W F E).

(** [find...] and [exit(EXIT_FAILURE)] when the function is missing. *)
Definition need {A} (f : option A) : outcome A := match f with Some f => Ret f | None => Exit EXIT_FAILURE end.

(** The result of [load] is not used; a version that does not match is only reported. *)
Definition loadExt px (ext_path ext_name ext_filename : bytes) : outcome (KvProxy W F E) :=
  let x := (load (setExtPath (ext_ px) ext_path) ext_name ext_filename).2 in
  let '(s, conf) := getConfStr (px_conf px) ext_name (bs "sync_str") in
  ver ← need (findExtVersion x ext_name);
  preq ← need (findParseReq x ext_name);
  creq ← need (findCreateReq x ext_name);
  crea ← need (findCreateReqAsync x ext_name);
  prsp ← need (findParseResp x ext_name);
  crsp ← need (findCreateResp x ext_name);
  Ret (put_ext px x (Some {| ptr_parse_req := preq; ptr_create_req := creq; ptr_create_req_async := crea;
                             ptr_parse_resp := prsp; ptr_create_resp := crsp |}) s conf).

Definition createAsyncReqThread px : outcome (KvProxy W F E) :=
  if decide (mutex_init ≠ 0) then Exit EXIT_FAILURE
  else if decide (pthread_create ≠ 0) then Exit EXIT_FAILURE
  else Ret (put_async px (async_req px) true).

Definition createCheckHealthThread : outcome unit :=
  if decide (pthread_create ≠ 0) then Exit EXIT_FAILURE else Ret ().

(** "a:b" split in two, or [exit(EXIT_FAILURE)]. *)
Definition split_pair (v : bytes) : outcome (bytes * bytes) :=
  let m := split v ":"%byte in
  if decide (size m = 2%nat) then Ret (default [] (m !! 0), default [] (m !! 1)) else Exit EXIT_FAILURE.

Definition add_host (type : bytes) (h : Hosts) (a : Z) (info : Z * Z) : Hosts := {|
  host_alias := host_alias h; host_infos := <[a := info]> (host_infos h); host_offline := host_offline h;
  hosts_default := if decide (type = bs "hosts") then {[ a ]} ∪ hosts_default h else hosts_default h;
  hosts_read := if decide (type = bs "hosts_read") then {[ a ]} ∪ hosts_read h else hosts_read h;
  hosts_backup := if decide (type = bs "hosts_backup") then {[ a ]} ∪ hosts_backup h else hosts_backup h;
  hash := hash h; hash_backup := hash_backup h; hash_read := hash_read h;
  alias_index_count := alias_index_count h |}.

(** One host of the group: "host:port" = "index:weight". *)
Definition host_step (type : bytes) (threads : Z) (e : bytes * bytes)
    (st : Hosts * gmap (bytes * Z) (Z * Z) * ConnPool * W) : outcome (Hosts * gmap (bytes * Z) (Z * Z) * ConnPool * W) :=
  let '(h, tmp, p, w) := st in
  hp ← split_pair e.1;
  n ← str2int hp.2;
  let port := u32 n in
  iw ← split_pair e.2;
  index ← str2int iw.1;
  weight ← str2int iw.2;
  let info := (u32 index, u32 weight) in
  let '(a, h) := setHostAlias h hp.1 port in
  let host_port := host_port_str (hp.1, port) in
  let '(p, w) := initConnection p hp.1 port threads w in
  Ret (add_host type h a info, <[(host_port, a) := info]> tmp, p, w).

Fixpoint host_group_loop (type : bytes) (threads : Z) (l : list (bytes * bytes))
    (st : Hosts * gmap (bytes * Z) (Z * Z) * ConnPool * W) : outcome (Hosts * gmap (bytes * Z) (Z * Z) * ConnPool * W) :=
  match l with
  | [] => Ret st
  | e :: l => st ← host_step type threads e st; host_group_loop type threads l st
  end.

(** The ring of the group's type is built from its hosts. *)
Definition set_ring (type : bytes) (tmp : gmap (bytes * Z) (Z * Z)) (h : Hosts) : outcome Hosts :=
  if decide (type = bs "hosts") then
    r ← setHosts (hash h) tmp false; Ret (with_rings h r (hash_backup h) (hash_read h))
  else if decide (type = bs "hosts_backup" ∧ tmp ≠ ∅) then
    r ← setHosts (hash_backup h) tmp false; Ret (with_rings h (hash h) r (hash_read h))
  else if decide (type = bs "hosts_read" ∧ tmp ≠ ∅) then
    r ← setHosts (hash_read h) tmp false; Ret (with_rings h (hash h) (hash_backup h) r)
  else Ret h.

Definition setHosts px (type ext_name : bytes) (threads : Z) : outcome (KvProxy W F E) :=
  let '(group_name, conf) := getConfStr (px_conf px) ext_name type in
  let '(host_group, conf) := if decide (group_name = []) then (∅, conf) else getConfStrSection conf group_name in
  r ← host_group_loop type threads (elems host_group) (hosts px, ∅, pool px, net px);
  let '(h, tmp, p, w) := r : Hosts * gmap (bytes * Z) (Z * Z) * ConnPool * W in
  if decide (type = bs "hosts" ∧ tmp = ∅) then Exit EXIT_FAILURE
  else
    h ← set_ring type tmp h;
    let px := put_hosts px h p w conf in
    if decide (type = bs "hosts_backup" ∧ tmp ≠ ∅) then createAsyncReqThread px else Ret px.
End setup.

(** * Status *)

Definition NL : bytes := [x0a].

(** "  - host:port [value]\n"; reading the address creates the entry of an unknown alias. *)
Definition status_line (m : gmap Z (bytes * Z)) (a : Z) (value : bytes) : bytes * gmap Z (bytes * Z) :=
  let '(e, m) := at_ ([], 0) m a in
  (bs "  - " ++ e.1 ++ bs ":" ++ int2str (i32 e.2) ++ bs " [" ++ value ++ bs "]" ++ NL, m).

(** The lines of a map of counters, and their sum. *)
Fixpoint counters_loop (l : list (Z * Z)) (m : gmap Z (bytes * Z)) (acc : bytes) (sum : Z)
    : bytes * Z * gmap Z (bytes * Z) :=
  match l with
  | [] => (acc, sum, m)
  | (a, n) :: l =>
      let '(line, m) := status_line m a (int2str (i32 n)) in
      counters_loop l m (acc ++ line) (i32 (u32 (sum + n)))
  end.

Fixpoint offline_lines (l : list (Z * bool)) (m : gmap Z (bytes * Z)) (acc : bytes) (n : Z)
    : bytes * Z * gmap Z (bytes * Z) :=
  match l with
  | [] => (acc, n, m)
  | (a, off) :: l =>
      if negb off then offline_lines l m acc n
      else let '(line, m) := status_line m a (bs "offline") in offline_lines l m (acc ++ line) (n + 1)
  end.

Section serving.
Context {W : Type} `{!Net W} {F E : Type} `{!Ext F E}.
Implicit Types (px : KvProxy W F E).

Definition put_alias px (m : gmap Z (bytes * Z)) : KvProxy W F E :=
  put_hosts px (k_hosts (with_alias (worker px 0) m)) (pool px) (net px) (px_conf px).

Definition getStatus px : bytes * KvProxy W F E :=
  let s := stats px in
  let str_st_req := int2str (i32 (st_req s)) ++ (if decide (ST_LIMIT <= st_req s) then bs "+" else []) in
  let '(failed, n_failed, m) := counters_loop (elems (st_fail s)) (host_alias (hosts px)) [] 0 in
  let '(cont, n_cont, m) := counters_loop (elems (st_cont_fail s)) m [] 0 in
  let '(offline, n_offline, m) := offline_lines (elems (host_offline (hosts px))) m [] 0 in
  let st_conn_ := if decide (st_conn s < 0) then 0 else st_conn s in
  let content :=
    NL ++ bs "Number of processed requests [" ++ str_st_req ++ bs "]" ++ NL ++
    bs "Number of requests failed [" ++ int2str n_failed ++ bs "]" ++ NL ++ failed ++
    bs "Number of continuous requests failed [" ++ int2str n_cont ++ bs "]" ++ NL ++ cont ++
    bs "All of offline hosts [" ++ int2str n_offline ++ bs "] " ++ NL ++ offline ++
    bs "Number of client connection [" ++ int2str st_conn_ ++ bs "]" ++ NL ++
    bs "Number of backend connection [" ++ int2str (getConnectionSize (pool px)) ++ bs "]" ++ NL ++
    bs "Read timeout of backend connection [" ++ int2str (Z.quot (recv_timeout (opts px)) 1000) ++ bs "ms]" ++ NL ++
    bs "Size of async queue [" ++ int2str (i32 (Z.of_nat (length (async_req px)))) ++ bs "]" ++ NL ++ NL in
  (content, put_stats (put_alias px m) (with_conn s st_conn_)).

(** * Asynchronous copies *)

(** The copy of one request: its bytes, so that the buffer can be reused. *)
Definition copy_req (mem : bytes) (r : req_t) : outcome comm_t :=
  d ← mem_read mem (content r) (content_len r); Ret {| comm_content := d; comm_ext := ext r |}.

Fixpoint copy_list (mem : bytes) (l : list req_t) : outcome comm_list_t :=
  match l with
  | [] => Ret []
  | r :: l => c ← copy_req mem r; cs ← copy_list mem l; Ret (c :: cs)
  end.

Fixpoint copy_groups (mem : bytes) (l : list (Z * list req_t)) (m : req_group_async_t) : outcome req_group_async_t :=
  match l with
  | [] => Ret m
  | (a, reqs) :: l =>
      cs ← copy_list mem reqs;
      copy_groups mem l (if decide (cs = []) then m else <[a := default [] (m !! a) ++ cs]> m)
  end.

(** The queue is full at [async_size]: the copies are dropped.  [pthread_mutex_lock] gives 0: the mutex is
    of the default kind, initialised, without a priority ceiling, and no thread locks it twice, so that POSIX
    leaves it no error to report. *)
Definition push_async px (mem : bytes) (backup : req_group_t) : outcome (KvProxy W F E) :=
  if decide (backup ≠ ∅ ∧ i32 (Z.of_nat (length (async_req px))) < async_size (opts px)) then
    g ← copy_groups mem (elems backup) ∅;
    Ret (put_async px (async_req px ++ [g]) (is_async px))
  else Ret px.

(** A turn of [asyncReqThread]: it takes the whole queue and sends it, with the buffers and
    connections of the number after the workers'. *)
Fixpoint async_loop (fuel : nat) (p : ext_ptrs F) (q : list req_group_async_t) px : outcome (KvProxy W F E) :=
  match q with
  | [] => Ret px
  | g :: q =>
      let t := getThreadCount px in
      k ← talkToBackendAsync fuel p (recv_timeout (opts px)) g t (worker px t);
      async_loop fuel p q (put_worker px t k)
  end.

Definition asyncReqThread_turn (fuel : nat) (p : ext_ptrs F) px : outcome (KvProxy W F E) :=
  async_loop fuel p (async_req px) (put_async px [] (is_async px)).

(** * Clients *)

Definition connectionEvent px : outcome (KvProxy W F E) :=
  n ← int_add (st_conn (stats px)) 1; Ret (put_stats px (with_conn (stats px) n)).
Definition closeEvent px : outcome (KvProxy W F E) :=
  n ← int_add (st_conn (stats px)) (-1); Ret (put_stats px (with_conn (stats px) n)).

(** Nothing to do. *)
Definition writeEvent px : KvProxy W F E := px.

Context {B : Type} `{!Evbuf B}.
Implicit Types (cl : Client B).

Definition getReadBufLen cl : Z := evbuffer_get_length (m_read_buf cl).
Definition CopyReadBuf cl (len : Z) : bytes := evbuffer_copyout (m_read_buf cl) (u32 len).
Definition clearReadBuf cl (len : Z) : Client B := {|
  cl_fd := cl_fd cl; cl_thread := cl_thread cl;
  m_read_buf := (evbuffer_drain (m_read_buf cl) (u32 len)).2; m_write_buf := m_write_buf cl |}.
Definition getReadBuf cl (len : Z) : bytes * Client B :=
  let '(d, b) := evbuffer_remove (m_read_buf cl) (u32 len) in
  (d, {| cl_fd := cl_fd cl; cl_thread := cl_thread cl; m_read_buf := b; m_write_buf := m_write_buf cl |}).
Definition getWriteBufLen cl : Z := evbuffer_get_length (m_write_buf cl).
Definition addToWriteBuf cl (d : bytes) : Client B := {|
  cl_fd := cl_fd cl; cl_thread := cl_thread cl;
  m_read_buf := m_read_buf cl; m_write_buf := (evbuffer_add (m_write_buf cl) d).2 |}.
Definition moveBufData cl : Client B :=
  let '(_, wb, rb) := evbuffer_add_buffer (m_write_buf cl) (m_read_buf cl) in
  {| cl_fd := cl_fd cl; cl_thread := cl_thread cl; m_read_buf := rb; m_write_buf := wb |}.

(** The request is parsed and sent: groups, backends, copies, answer.  [mem] is the buffer the
    request was copied to. *)
Definition serve (fuel : nat) (p : ext_ptrs F) (mem : bytes) px cl : outcome (KvProxy W F E * Client B) :=
  let t := cl_thread cl in
  let b := k_buf (worker px t) in
  let px := put_stats px (if decide (st_req (stats px) < st_limit (stats px))
                          then with_req (stats px) (u32 (st_req (stats px) + 1)) else stats px) in
  g ← createReqGroup (hosts px) (sync_str px) mem (req_list_data b);
  let '(group, backup, sync) := g : req_group_t * req_group_t * req_group_t in
  k ← talkToBackend fuel p (recv_timeout (opts px)) group mem t (worker px t);
  px ← push_async (put_worker px t k) mem backup;
  px ← (if decide (sync ≠ ∅) then
          k ← talkToBackend fuel p (recv_timeout (opts px)) sync mem t (worker px t); Ret (put_worker px t k)
        else Ret px);
  let b := k_buf (worker px t) in
  if decide (0 < client_buf_len b) then
    d ← mem_read (client_buf b) 0 (client_buf_len b); Ret (px, addToWriteBuf cl d)
  else Ret (px, cl).

(** The buffer the request goes to: [buf], whose content [fast] is what the stack holds, or the
    thread's own; [None] when the request is too large for both. *)
Definition request_buf (fast : bytes) (data : bytes) (buf_len : Z) (b : Buffers) : outcome (option (bytes * Buffers)) :=
  if decide (buf_len <= FAST_BUFF_SIZE) then
    m ← mem_write fast 0 data; Ret (Some (m, b))
  else if decide (buf_len <= req_buf_size b) then
    m ← mem_write (req_buf b) 0 data; Ret (Some (m, with_req_buf b m))
  else Ret None.

Definition readEvent (fuel : nat) (fast : bytes) px cl : outcome (KvProxy W F E * Client B) :=
  let t := cl_thread cl in
  let buf_len := i32 (getReadBufLen cl) in
  let data := CopyReadBuf cl buf_len in
  r ← request_buf fast data buf_len (k_buf (worker px t));
  match r with
  | None => Ret (px, clearReadBuf cl buf_len)
  | Some (mem, b) =>
      let px := put_buf px t b in
      let buf_len := i32 (Z.of_nat (length data)) in
      head ← mem_read mem 0 6;
      if decide (head = bs "status" ∧ buf_len <= 8) then
        let '(s, px) := getStatus px in
        Ret (px, clearReadBuf (addToWriteBuf cl s) buf_len)
      else
        p ← need (ptrs px);
        r ← parse_req (ptr_parse_req p) (statics_ px) (px_conf px) mem buf_len (position b) (req_list_data b);
        let '(ext_ret, pos, l, e, conf) := r : ext_ret_t * Z * req_list_t * E * Config in
        let px := put_statics (put_buf px t (with_parsed b pos l)) e conf in
        r ← match ext_ret with
            | SUCCESS => serve fuel p mem px (clearReadBuf cl buf_len)
            | ERROR | IGNORE => Ret (px, clearReadBuf cl buf_len)
            | AGAIN => Ret (px, cl)
            end;
        let '(px, cl) := r : KvProxy W F E * Client B in
        Ret (put_buf px t (with_parsed (k_buf (worker px t)) 0 []), cl)
  end.
End serving.

(** * Lemmas *)

Section workers.
Context {W F E : Type}.
Implicit Types (px : KvProxy W F E).

Lemma worker_put_buf px t b : worker (put_buf px t b) t = with_buf (worker px t) b.
Proof. unfold worker at 1. cbn. by rewrite lookup_insert_eq. Qed.

Lemma worker_put_statics px t e c : worker (put_statics px e c) t = worker px t.
Proof. done. Qed.
End workers.

(** * The destructor *)

Lemma elem_of_alloc_loop n : ∀ id live x,
  x ∈ alloc_loop n id live ↔ x ∈ live ∨ (id <= x.1 < id + Z.of_nat n ∧ (x.2 < 4)%nat).
Proof.
  induction n as [|n IH]; intros id live [t k]; cbn [alloc_loop fst snd]; [naive_solver lia|].
  rewrite IH. cbn [fst snd]. rewrite elem_of_union, !elem_of_union, !elem_of_singleton.
  destruct (decide (t = id)) as [->|Ht].
  - destruct k as [|[|[|[|k]]]]; naive_solver lia.
  - split; [intros [[?|?]|?]; naive_solver lia|]. intros [?|[? ?]]; [naive_solver|]. right. lia.
Qed.

Lemma elem_of_free_loop n : ∀ id live x,
  x ∈ free_loop n id live ↔ x ∈ live ∧ ¬ (id <= x.1 < id + Z.of_nat n ∧ (x.2 < 3)%nat).
Proof.
  induction n as [|n IH]; intros id live [t k]; cbn [free_loop fst snd]; [naive_solver lia|].
  rewrite IH. cbn [fst snd]. rewrite elem_of_difference, !elem_of_union, !elem_of_singleton.
  destruct (decide (t = id)) as [->|Ht].
  - destruct k as [|[|[|k]]]; naive_solver lia.
  - split; [intros [[? ?] ?]; split; [done|lia]|]. intros [? ?]. split; [split; [done|naive_solver]|lia].
Qed.

(** The clients' buffers are not freed. *)
Lemma KvProxy_delete_leaks {W F E} (px : KvProxy W F E) x :
  x ∈ KvProxy_delete px (KvProxy_alloc px) ↔ 0 <= x.1 <= thread_count (opts px) ∧ x.2 = 3%nat.
Proof.
  unfold KvProxy_delete, KvProxy_alloc. rewrite elem_of_free_loop, elem_of_alloc_loop, elem_of_empty. lia.
Qed.
