(* ===== verification/Transparency.v ===== *)
(** From a client's request to its answer: [KvProxy::readEvent] over routing, the connection pool,
    the two loops to the backend and the memcached extension.

    [accepts] and [delivers] say what the network does with the request and with the answer, in
    pieces of any size; [readEvent_forwards] is the composition of the components' lemmas. *)
From S2P Require Import Prelude StdMap Util Crc32 Hash Config Extension Net ConnPool Failover Request Backend BackendRead.
From S2P Require Import Evbuf KvProxy ProtocolBinary Memcached MemcachedBinary MemcachedForward.

(** * Sending in pieces *)

(** The network takes [d] on [fd], [ns] bytes at a time. *)
Fixpoint accepts {W} `{!Net W} (fd : Z) (w : W) (d : bytes) (ns : list Z) (w' : W) : Prop :=
  match ns with
  | [] => d = [] ∧ w' = w
  | n :: ns => ∃ w1, 0 < n <= Z.of_nat (length d) ∧ sys_send w fd d = (n, w1) ∧
      accepts fd w1 (drop (Z.to_nat n) d) ns w'
  end.

Lemma accepts_sent {W} `{!Net W, !NetLog W} fd ns : ∀ (w : W) d w',
  accepts fd w d ns w' → sent w' fd = sent w fd ++ d.
Proof.
  induction ns as [|n ns IH]; intros w d w'; cbn.
  - intros [-> ->]. by rewrite app_nil_r.
  - intros (w1 & Hn & Hs & Ha). rewrite (IH _ _ _ Ha). pose proof (send_sent w fd d fd) as He.
    rewrite Hs in He. cbn in He. rewrite decide_True in He by done. rewrite He, <- app_assoc.
    by rewrite take_drop.
Qed.

Section talk.
Context {W : Type} `{!Net W}.

(** What is left of the content, from [n] on, goes out. *)
Lemma write_accepts fd d rest a t ns : ∀ n fuel (k : Backend W) w',
  accepts fd (k_net k) (drop n d) ns w' → (n < length d)%nat → Z.of_nat (length d) <= INT_MAX → (length ns <= fuel)%nat →
  writeToBackend_loop fuel fd (d ++ rest) (Z.of_nat (length d)) (Z.of_nat n) a t k =
  Ret (Z.of_nat (length d), fd, with_net k (k_pool k) w').
Proof.
  induction ns as [|m ns IH]; intros n fuel k w' Ha Hn Hmax Hf.
  { destruct Ha as [Hd _]. apply (f_equal length) in Hd. rewrite length_drop in Hd. cbn in Hd. lia. }
  destruct fuel as [|fuel]; [cbn in Hf; lia|]. destruct Ha as (w1 & Hm & Hs & Ha).
  rewrite length_drop in Hm. cbn [writeToBackend_loop].
  rewrite mem_read_ok by (rewrite ?length_app; lia). cbn [mbind outcome_bind].
  assert (take (Z.to_nat (Z.of_nat (length d) - Z.of_nat n)) (drop (Z.to_nat (Z.of_nat n)) (d ++ rest)) = drop n d) as ->.
  { rewrite Nat2Z.id, drop_app_le by lia. replace (Z.to_nat _) with (length (drop n d)) by (rewrite length_drop; lia).
    apply take_app_length. }
  rewrite Hs, decide_True by lia. rewrite int_add_small by (unfold is_int, INT_MIN, INT_MAX in *; lia).
  cbn [mbind outcome_bind].
  destruct (decide (Z.of_nat (length d) <= Z.of_nat n + m)) as [He|Hne].
  - assert (Z.of_nat n + m = Z.of_nat (length d)) as -> by lia.
    assert (drop (Z.to_nat m) (drop n d) = []) as Hz by (apply nil_length_inv; rewrite !length_drop; lia).
    rewrite Hz in Ha. destruct ns as [|m' ns]; [by destruct Ha as [_ ->]|].
    destruct Ha as (? & Hm' & _). cbn in Hm'. lia.
  - replace (Z.of_nat n + m) with (Z.of_nat (n + Z.to_nat m)) by lia.
    rewrite drop_drop in Ha.
    rewrite (IH (n + Z.to_nat m)%nat fuel _ w'); [done|exact Ha|lia|done|cbn in Hf; lia].
Qed.

Lemma conn_put_same m id host port v : slot m id host port = Some v → conn_put m id host port v = m.
Proof.
  unfold slot, conn_put. intros Hs. destruct (m !! id) as [hosts|] eqn:E1; cbn in Hs; [|done].
  destruct (hosts !! host) as [ports|] eqn:E2; cbn in Hs; [|done]. cbn. rewrite E2. cbn.
  rewrite (insert_id ports) by done. rewrite (insert_id hosts) by done. by rewrite (insert_id m).
Qed.

(** A pooled connection of a known host is handed out, and nothing changes. *)
Lemma getConnection_pooled (k : Backend W) a t fd :
  is_Some (host_alias (k_hosts k) !! a) → conn_for k a t fd → getConnection a t k = (fd, k).
Proof.
  intros [e He] ((Hl & _) & Hpos & Hs). unfold getConnection, at_. rewrite He.
  unfold addr in Hs. rewrite He in Hs. cbn [default] in Hs.
  unfold ConnPool.getConnection, rdlock. destruct k as [h s p b w]. cbn in *. rewrite Hl.
  rewrite decide_False by naive_solver. rewrite conn_at_eq, Hs. cbn [default id option_rect].
  rewrite decide_True by done. rewrite (decide_False (P := fd <= 0)) by lia.
  rewrite conn_put_same by done. destruct h, p. done.
Qed.

Context {F E : Type} `{!Ext F E}.

(** The worker after a request [d] was answered by [r] on [fd]. *)
Definition answered (k : Backend W) (a : Z) (d r : bytes) (w : W) : Backend W := {|
  k_hosts := k_hosts k; k_stats := countFail (k_stats k) false a; k_pool := k_pool k;
  k_buf := with_backend (with_resp (k_buf k) (r ++ drop (length r) (resp_buf (k_buf k))) 0)
             (d ++ drop (length d) (backend_buf (k_buf k))) 0;
  k_net := w |}.

(** One host's turn, on a pooled connection whose backend answers. *)
Lemma host_turn_answers (f : F) fuel tmo a t fd d r items l ns cs (k : Backend W) w1 w2 :
  is_Some (host_alias (k_hosts k) !! a) → conn_for k a t fd → fd < FD_SETSIZE → resp_ok (k_buf k) →
  d ≠ [] → (length d <= length (backend_buf (k_buf k)))%nat → Z.of_nat (length d) <= INT_MAX →
  accepts fd (k_net k) d ns w1 → (length ns <= fuel)%nat →
  framed f r items cs → items ≠ [] → Z.of_nat (length r) < resp_buf_size (k_buf k) →
  delivers fd tmo w1 (resp_buf_size (k_buf k)) cs w2 → (length cs <= fuel)%nat →
  host_turn fuel f tmo a t (SUCCESS, d ++ drop (length d) (backend_buf (k_buf k)), Z.of_nat (length d)) l k =
  Ret (l ++ items, answered k a d r w2).
Proof.
  intros Ha Hc Hfd Hb Hd Hroom Hmax Hacc Hns Hfr Hi Hr Hdel Hfuel.
  assert (0 < length d)%nat by (destruct d; [done|cbn; lia]).
  unfold host_turn. rewrite decide_True by (split; [done|lia]).
  set (k1 := with_buf k _).
  rewrite (getConnection_pooled k1 a t fd Ha Hc).
  destruct Hc as (Hok & Hpos & Hslot). rewrite (decide_False (P := fd = 0)) by lia.
  unfold writeToBackend. rewrite u32_small by (unfold INT_MAX in *; lia).
  rewrite i32_small by (unfold is_int, INT_MIN, INT_MAX in *; lia).
  change 0 with (Z.of_nat 0) at 1.
  rewrite (write_accepts fd d _ a t ns 0 fuel k1 w1) by done. cbn [mbind outcome_bind].
  rewrite decide_True by lia.
  assert (readFromBackend fuel f tmo fd l (with_net k1 (k_pool k1) w1) =
          Ret (l ++ items, received (with_net k1 (k_pool k1) w1) r w2)) as ->.
  { by apply (readFromBackend_pieces f fd tmo r items l cs). }
  cbn [mbind outcome_bind]. rewrite bool_decide_eq_false_2; [done|]. by intros [_ ?]%app_nil.
Qed.
End talk.

(** * One request *)

Lemma key_of_prefix pre post (r : req_t) :
  0 <= key r → 0 <= key_len r → key r + key_len r <= Z.of_nat (length pre) → key_of (pre ++ post) r = key_of pre r.
Proof.
  intros H1 H2 H3. unfold key_of. rewrite drop_app_le by lia. rewrite take_app_le; [done|]. rewrite length_drop. lia.
Qed.

(** A request with a key, and no copy to make, is the one member of its owner's group. *)
Lemma group_single h s mem (r : req_t) :
  readable [] mem r → each r = false → key_len r ≠ 0 → owner h mem r ≠ 0 →
  (update r = false ∨ getSize (hash_backup h) <= 0) →
  createReqGroup h s mem [r] = Ret ({[ owner h mem r := [r] ]}, ∅, ∅).
Proof.
  intros Hr He Hk Ho Hu. unfold createReqGroup. cbn [group_loop]. unfold group_step.
  rewrite He, decide_False by done. fold (ring_for h r).
  destruct (find_host_alias (ring_for h r) [] mem r Hr) as [n ->]. cbn [mbind outcome_bind snd].
  assert (owner h mem r = alias_on (ring_for h r) mem r) as Eo
    by (unfold owner; by rewrite He, bool_decide_eq_false_2).
  rewrite <- Eo, decide_False by done. unfold backup_step.
  assert (update r && bool_decide (0 < getSize (hash_backup h)) = false) as ->.
  { destruct Hu as [->|Hu]; [done|]. rewrite bool_decide_eq_false_2 by lia. apply andb_false_r. }
  cbn. unfold push. by rewrite lookup_empty, insert_empty.
Qed.

Definition memcached_ptrs : ext_ptrs memcached_sym := {|
  ptr_parse_req := SYM_parse_req; ptr_create_req := SYM_create_req; ptr_create_req_async := SYM_create_req_async;
  ptr_parse_resp := SYM_parse_resp; ptr_create_resp := SYM_create_resp |}.

(** A request that is for one host: neither quiet nor a marker, with its key inside. *)
Definition single (u : bool) (h : header) : Prop :=
  verdict_of h = Item u false x00 false ∧ 0 < keylen h ∧ extlen h + keylen h <= bodylen h.

Definition single_item (u : bool) (h : header) : req_t := {|
  key := 24 + extlen h; key_len := keylen h; content := 0; content_len := hlen h;
  update := u; each := false; ext := x00 |}.

Lemma parse_single st conf u p tail :
  use_binary (init_statics st conf).1 = true → packet_ok PROTOCOL_BINARY_REQ p → single u (p_head p) → plen p <= INT_MAX →
  memcached_parse_req (parse_fuel (plen p)) st conf (packet_bytes p ++ tail) (plen p) 0 [] =
  Ret (SUCCESS, plen p, [single_item u (p_head p)], (init_statics st conf).1, (init_statics st conf).2).
Proof.
  intros Hu Hp (Hv & _) Hmax. pose proof (parse_req_run st conf [] p [] tail) as Hr. cbv zeta in Hr.
  change (stream []) with (@nil byte) in Hr. cbn [app] in Hr. rewrite !app_nil_r in Hr.
  unfold plen in *. rewrite Hr; [|done|constructor|done|by eexists _, _, _|done].
  assert (stream [p] = packet_bytes p) as -> by (unfold stream; cbn [fmap list_fmap concat]; by rewrite app_nil_r).
  assert (req_items 0 (heads [p]) = [single_item u (p_head p)]) as ->; [|done].
  cbn [heads fmap list_fmap req_items]. unfold req_item. by rewrite Hv.
Qed.

Lemma single_readable u p tail :
  packet_ok PROTOCOL_BINARY_REQ p → single u (p_head p) →
  readable [] (packet_bytes p ++ tail) (single_item u (p_head p)).
Proof.
  intros [(Hh & _ & _) Hlen] (_ & Hk & Hb). unfold readable, single_item. cbn [key key_len].
  destruct Hh as (H1 & H2 & H3 & H4 & _). rewrite length_app. fold (plen p) in *. unfold plen, hlen in *.
  split; [lia|]. split; [lia|]. split; [lia|]. by exists true.
Qed.

(** Building the request for the backend, and the answer for the client. *)
Lemma create_single u p tail out :
  packet_ok PROTOCOL_BINARY_REQ p → single u (p_head p) → fits (packet_bytes p ++ tail) → fits out →
  (length (packet_bytes p) <= length out)%nat →
  memcached_create_req (packet_bytes p ++ tail) [single_item u (p_head p)] out 0 =
  Ret (SUCCESS, packet_bytes p ++ drop (length (packet_bytes p)) out, plen p).
Proof.
  intros [_ Hlen] (Hv & _) Hm Hf Hl.
  pose proof (create_req_run (packet_bytes p ++ tail) [single_item u (p_head p)] [(x00, packet_bytes p)] [] out Hm Hf) as Hc.
  assert (gather [(x00, packet_bytes p)] = packet_bytes p) as Hg
    by (unfold gather, gather_body; cbn; by rewrite !app_nil_r).
  rewrite Hg in Hc. cbn [app length Z.of_nat] in Hc. apply Hc; [|done].
  constructor; [|constructor]. split; [done|]. apply (read_packet [] p tail Hlen).
Qed.

Lemma create_answer q rest out :
  packet_ok PROTOCOL_BINARY_RES q →
  Z.of_nat (length (packet_bytes q ++ rest)) + Z.of_nat (length out) <= INT_MAX →
  (length (packet_bytes q) <= length out)%nat →
  memcached_create_resp (packet_bytes q ++ rest) [resp_item 0 (p_head q)] out 0 (Z.of_nat (length out)) =
  Ret (SUCCESS, packet_bytes q ++ drop (length (packet_bytes q)) out, plen q).
Proof.
  intros [_ Hlen] Hm Hl. set (x := resp_ext (resp_item 0 (p_head q))).
  assert (gather [(x, packet_bytes q)] = packet_bytes q) as Hg.
  { unfold gather, gather_body. cbn [fmap list_fmap concat fst snd gather_end].
    case_decide; by rewrite ?app_nil_r. }
  pose proof (create_resp_cases (packet_bytes q ++ rest) ltac:(unfold fits; lia) [resp_item 0 (p_head q)]
    [(x, packet_bytes q)] [] out) as Hc.
  cbv zeta in Hc. rewrite Hg in Hc. cbn [app length Z.of_nat] in Hc. rewrite decide_True in Hc by done.
  apply Hc; [done|]. constructor; [|constructor]. split; [done|]. apply (read_packet [] q rest Hlen).
Qed.

(** * From end to end *)

(** The buffers of a worker between requests, each of [n] bytes. *)
Definition bufs_idle (n : Z) (b : Buffers) : Prop :=
  backend_buf_len b = 0 ∧
  resp_buf_size b = n ∧ client_buf_size b = n ∧ 0 < n ∧ 2 * n <= INT_MAX ∧
  Z.of_nat (length (resp_buf b)) = n ∧ Z.of_nat (length (backend_buf b)) = n ∧ Z.of_nat (length (client_buf b)) = n.

(** The worker's data for the request [p], its backend and the answer [q]. *)
Record exchange {W} `{!Net W} (k : Backend W) (t tmo : Z) (u : bool) (p q : packet) (a fd n : Z)
    (ns : list Z) (cs : list bytes) (w1 w2 : W) (fuel : nat) : Prop := {
  ex_req : packet_ok PROTOCOL_BINARY_REQ p;
  ex_single : single u (p_head p);
  ex_small : plen p <= FAST_BUFF_SIZE;
  ex_bufs : bufs_idle n (k_buf k);
  ex_room : plen p <= n;
  ex_owner : owner (k_hosts k) (packet_bytes p) (single_item u (p_head p)) = a;
  ex_alias : a ≠ 0;
  ex_known : is_Some (host_alias (k_hosts k) !! a);
  ex_copy : u = false ∨ getSize (hash_backup (k_hosts k)) <= 0;
  ex_conn : conn_for k a t fd;
  ex_fd : fd < FD_SETSIZE;
  ex_sends : accepts fd (k_net k) (packet_bytes p) ns w1;
  ex_answer : packet_ok PROTOCOL_BINARY_RES q;
  ex_loud : resp_quiet (p_head q) = false;
  ex_fits : plen q < n;
  ex_pieces : concat cs = packet_bytes q;
  ex_recvs : delivers fd tmo w1 n cs w2;
  ex_fuel : (length ns <= fuel)%nat ∧ (length cs <= fuel)%nat
}.

Section exchange.
Context {W : Type} `{!Net W}.
Context (t tmo : Z) (u : bool) (p q : packet) (a fd n : Z) (ns : list Z) (cs : list bytes) (w1 w2 : W) (fuel : nat).

Lemma packet_nonempty (x : packet) : packet_bytes x ≠ [].
Proof. intros E. pose proof (plen_ge x). unfold plen in *. rewrite E in *. cbn in *. lia. Qed.

(** [talkToBackend] for the one group leaves the answer in the client buffer. *)
Lemma talk_single tail (k : Backend W) :
  exchange k t tmo u p q a fd n ns cs w1 w2 fuel → fits (packet_bytes p ++ tail) →
  ∃ k', talkToBackend fuel memcached_ptrs tmo {[ a := [single_item u (p_head p)] ]} (packet_bytes p ++ tail) t k = Ret k' ∧
    k_net k' = w2 ∧ client_buf_len (k_buf k') = plen q ∧ mem_read (client_buf (k_buf k')) 0 (plen q) = Ret (packet_bytes q) ∧
    k_hosts k' = k_hosts k.
Proof.
  intros [] Hm. destruct ex_bufs0 as (H3 & H4 & H5 & H6 & H7 & H8 & H9 & H10). destruct ex_fuel0 as [Hns Hcs].
  unfold talkToBackend. rewrite elems_singleton. cbn [talk_loop create_req memcached_ext memcached_ptrs ptr_create_req].
  unfold plen, INT_MAX in *. rewrite H3. rewrite create_single; [|done|done|done|unfold fits, INT_MAX; lia|lia]. cbn [mbind outcome_bind].
  unfold plen.
  rewrite (host_turn_answers SYM_parse_resp fuel tmo a t fd (packet_bytes p) (packet_bytes q) [resp_item 0 (p_head q)] []
             ns cs k w1 w2).
  2-4: done.
  2: { split; [lia|]. unfold INT_MAX. lia. }
  2: apply packet_nonempty.
  2-3: unfold INT_MAX; lia.
  2-3: done.
  2: { apply memcached_framed; [done|done| |done]. unfold plen, INT_MAX. lia. }
  2: done.
  2: lia.
  2: by rewrite H4.
  2: done.
  cbn [mbind outcome_bind fst snd app]. unfold answered. cbn [k_buf with_backend with_resp resp_buf client_buf client_buf_size].
  cbn [ptr_create_resp memcached_ptrs create_resp memcached_ext].
  replace (client_buf_size (k_buf k)) with (Z.of_nat (length (client_buf (k_buf k)))) by lia.
  rewrite create_answer.
  2: done.
  2: { rewrite length_app, length_drop. unfold INT_MAX. lia. }
  2: lia.
  cbn [mbind outcome_bind]. eexists. split; [done|]. split; [done|]. split; [done|]. split; [|done].
  cbn [k_buf with_buf with_client client_buf]. apply mem_read_prefix.
Qed.
End exchange.

Section serving.
Context {W : Type} `{!Net W, !NetLog W} {B : Type} `{!Evbuf B, !EvbufOk B}.
Implicit Types (px : KvProxy W memcached_sym statics) (cl : Client B) (k : Backend W).

(** The worker while its request is served. *)
Definition serving k (s : Stats) (pos : Z) (l : req_list_t) : Backend W :=
  with_stats (with_buf k (with_parsed (k_buf k) pos l)) s.

Lemma exchange_serving k s pos l t tmo u p q a fd n ns cs w1 w2 fuel :
  exchange k t tmo u p q a fd n ns cs w1 w2 fuel → exchange (serving k s pos l) t tmo u p q a fd n ns cs w1 w2 fuel.
Proof. intros []. by constructor. Qed.

Lemma single_owner h u p tail :
  packet_ok PROTOCOL_BINARY_REQ p → single u (p_head p) →
  owner h (packet_bytes p ++ tail) (single_item u (p_head p)) = owner h (packet_bytes p) (single_item u (p_head p)).
Proof.
  intros [(Hh & _) Hlen] (_ & Hk & Hb). destruct Hh as (H1 & H2 & H3 & H4 & _). unfold owner, alias_on.
  rewrite key_of_prefix; [done|..]; cbn [key key_len single_item]; fold (plen p); unfold hlen in *; lia.
Qed.

(** A worker that has served its requests, with the memcached extension for the binary protocol. *)
Definition at_rest px (t : Z) : Prop :=
  position (k_buf (worker px t)) = 0 ∧ req_list_data (k_buf (worker px t)) = [] ∧
  ptrs px = Some memcached_ptrs ∧ use_binary (init_statics (statics_ px) (px_conf px)).1 = true.

(** What worker [t] leaves to the others. *)
Definition others_same px px' (t : Z) : Prop :=
  opts px' = opts px ∧ ptrs px' = ptrs px ∧ ∀ t', t' ≠ t → bufs px' !! t' = bufs px !! t'.

(** The groups, the talk and the answer. *)
Lemma serve_single u p q a fd n ns cs w1 w2 fuel tail px cl :
  let t := cl_thread cl in
  exchange (worker px t) t (recv_timeout (opts px)) u p q a fd n ns cs w1 w2 fuel →
  req_list_data (k_buf (worker px t)) = [single_item u (p_head p)] → fits (packet_bytes p ++ tail) →
  ∃ px' cl', serve fuel memcached_ptrs (packet_bytes p ++ tail) px cl = Ret (px', cl') ∧
    net px' = w2 ∧ cl' = addToWriteBuf cl (packet_bytes q) ∧ others_same px px' t ∧
    statics_ px' = statics_ px ∧ px_conf px' = px_conf px.
Proof.
  intros t He Hl Hm. unfold serve. fold t.
  set (px1 := put_stats px _). set (s := stats px1).
  assert (exchange (worker px1 t) t (recv_timeout (opts px)) u p q a fd n ns cs w1 w2 fuel) as He1 by (by destruct He).
  rewrite Hl. rewrite (group_single _ _ _ (single_item u (p_head p))).
  2: by eapply single_readable; apply He.
  2: done.
  2: { destruct (ex_single _ _ _ _ _ _ _ _ _ _ _ _ _ _ He) as (_ & ? & _). cbn. lia. }
  2: { rewrite single_owner by apply He. change (hosts px1) with (k_hosts (worker px t)).
       rewrite (ex_owner _ _ _ _ _ _ _ _ _ _ _ _ _ _ He). apply He. }
  2: apply (ex_copy _ _ _ _ _ _ _ _ _ _ _ _ _ _ He).
  cbn [mbind outcome_bind]. rewrite single_owner by apply He. change (hosts px1) with (k_hosts (worker px t)).
  rewrite (ex_owner _ _ _ _ _ _ _ _ _ _ _ _ _ _ He).
  destruct (talk_single t (recv_timeout (opts px)) u p q a fd n ns cs w1 w2 fuel tail (worker px1 t) He1 Hm)
    as (k' & E & Hn & Hlen & Hread & _).
  change (opts px1) with (opts px). rewrite E. cbn [mbind outcome_bind].
  unfold push_async. rewrite decide_False by naive_solver. cbn [mbind outcome_bind].
  rewrite decide_False by naive_solver. cbn [mbind outcome_bind].
  assert (k_buf (worker (put_worker px1 t k') t) = k_buf k') as Hb
    by (unfold worker, put_worker; cbn; by rewrite lookup_insert_eq).
  rewrite Hb, Hlen. pose proof (plen_ge q). rewrite decide_True by lia. rewrite Hread. cbn [mbind outcome_bind].
  eexists _, _. split; [done|]. split; [done|]. split; [done|]. split; [|done]. split; [done|]. split; [done|].
  intros t' Ht'. cbn [bufs put_worker]. by rewrite lookup_insert_ne.
Qed.
End serving.

Lemma init_statics_again st conf :
  let r := init_statics st conf in init_statics r.1 r.2 = r.
Proof.
  unfold init_statics. destruct (init_use_binary st) eqn:E; cbn [fst snd]; [by rewrite E|].
  destruct (getConfStr conf _ _) as [v c]. done.
Qed.

(** A binary request does not start with "status". *)
Lemma head_not_status p tail :
  packet_ok PROTOCOL_BINARY_REQ p → ∃ h, mem_read (packet_bytes p ++ tail) 0 6 = Ret h ∧ h ≠ bs "status".
Proof.
  intros [(_ & Hm & _) _]. pose proof (plen_ge p) as Hl. unfold plen in Hl.
  rewrite mem_read_ok by (rewrite ?length_app; lia). eexists. split; [done|].
  assert (∃ r, packet_bytes p ++ tail = to_char (magic (p_head p)) :: r) as [r ->] by (by eexists).
  intros E. apply (f_equal head) in E. cbn in E. injection E as E. apply (f_equal uchar) in E.
  rewrite uchar_to_char, Hm in E. vm_compute in E. done.
Qed.

(** The whole request, as [readEvent] finds it in the client's input. *)
Lemma readEvent_single {W} `{!Net W, !NetLog W} {B} `{!Evbuf B, !EvbufOk B}
    (px : KvProxy W memcached_sym statics) (cl : Client B) u p q a fd n ns cs w1 w2 fuel fast :
  let t := cl_thread cl in
  exchange (worker px t) t (recv_timeout (opts px)) u p q a fd n ns cs w1 w2 fuel →
  position (k_buf (worker px t)) = 0 → req_list_data (k_buf (worker px t)) = [] →
  ptrs px = Some memcached_ptrs → use_binary (init_statics (statics_ px) (px_conf px)).1 = true →
  Z.of_nat (length fast) = FAST_BUFF_SIZE →
  in_ok (m_read_buf cl) → content_of (m_read_buf cl) = packet_bytes p →
  ∃ px', readEvent fuel fast px cl = Ret (px', addToWriteBuf (clearReadBuf cl (plen p)) (packet_bytes q)) ∧
    net px' = w2 ∧ sent w1 fd = sent (net px) fd ++ packet_bytes p ∧ at_rest px' t ∧ others_same px px' t.
Proof.
  intros t He Hpos Hlist Hptrs Hbin Hfast Hrok Hr. unfold readEvent. fold t.
  pose proof (ex_req _ _ _ _ _ _ _ _ _ _ _ _ _ _ He) as Hp.
  pose proof (ex_small _ _ _ _ _ _ _ _ _ _ _ _ _ _ He) as Hsmall. pose proof (plen_ge p) as Hge.
  pose proof (accepts_sent fd ns _ _ _ (ex_sends _ _ _ _ _ _ _ _ _ _ _ _ _ _ He)) as Hsent.
  unfold FAST_BUFF_SIZE in *. unfold getReadBufLen, CopyReadBuf.
  rewrite get_length_content, Hr by done. fold (plen p).
  assert (i32 (plen p) = plen p) as Hi by (apply i32_small; unfold is_int, INT_MIN, INT_MAX; lia).
  rewrite Hi, u32_small by lia. rewrite copyout_content by (done || lia). rewrite Hr.
  assert (take (Z.to_nat (plen p)) (packet_bytes p) = packet_bytes p) as Htake
    by (unfold plen; rewrite Nat2Z.id; apply firstn_all).
  rewrite Htake. unfold request_buf, FAST_BUFF_SIZE. rewrite decide_True by lia.
  pose proof (mem_write_append [] fast (packet_bytes p) ltac:(unfold plen in *; lia)) as Hmw.
  change (Z.of_nat (length [])) with 0 in Hmw. cbn [app] in Hmw. rewrite Hmw. cbn [mbind outcome_bind].
  destruct (head_not_status p (drop (length (packet_bytes p)) fast) Hp) as (h & -> & Hne). cbn [mbind outcome_bind].
  rewrite decide_False by naive_solver.
  change (ptrs (put_buf px t (k_buf (worker px t)))) with (ptrs px). rewrite Hptrs. cbn [need mbind outcome_bind].
  change (statics_ (put_buf px t (k_buf (worker px t)))) with (statics_ px).
  change (px_conf (put_buf px t (k_buf (worker px t)))) with (px_conf px).
  rewrite Hpos, Hlist. cbn [ptr_parse_req memcached_ptrs parse_req memcached_ext].
  fold (plen p). rewrite Hi.
  rewrite (parse_single _ _ u) by (done || apply He || (unfold INT_MAX; lia)). cbn [mbind outcome_bind].
  set (px1 := put_statics _ _ _).
  assert (worker px1 t = serving (worker px t) (stats px) (plen p) [single_item u (p_head p)]) as Hwk.
  { unfold px1, worker, put_statics, put_buf, put_worker, serving. cbn. by rewrite !lookup_insert_eq. }
  destruct (serve_single u p q a fd n ns cs w1 w2 fuel (drop (length (packet_bytes p)) fast) px1
              (clearReadBuf cl (plen p))) as (px' & cl' & E & Hn & -> & (Ho & Hp' & Hb) & Hst & Hcf).
  - change (cl_thread (clearReadBuf cl (plen p))) with t. rewrite Hwk. by apply exchange_serving.
  - change (cl_thread (clearReadBuf cl (plen p))) with t. by rewrite Hwk.
  - unfold fits. rewrite length_app, length_drop. unfold plen, INT_MAX in *. lia.
  - change (cl_thread (clearReadBuf cl (plen p))) with t in Hb. rewrite E. cbn [mbind outcome_bind].
    pose proof (init_statics_again (statics_ px) (px_conf px)) as Hagain.
    eexists. split; [done|]. split; [done|]. split; [done|]. split.
    + unfold at_rest. rewrite worker_put_buf. split; [done|]. split; [done|]. split; [by rewrite <- Hptrs|].
      change (use_binary (init_statics (statics_ px') (px_conf px')).1 = true). rewrite Hst, Hcf.
      change (statics_ px1) with (init_statics (statics_ px) (px_conf px)).1.
      change (px_conf px1) with (init_statics (statics_ px) (px_conf px)).2. by rewrite Hagain.
    + split; [done|]. split; [done|]. intros t' Ht'. cbn [put_buf put_worker bufs]. rewrite lookup_insert_ne by done.
      rewrite Hb by done. cbn [px1 put_statics put_buf put_worker bufs]. by rewrite !lookup_insert_ne.
Qed.

(** C3: a request for one host is forwarded and answered: when its worker has a connection to the
    host the ring gives its key, the network takes what is sent and hands over a response, each in
    pieces of any size, then the backend is sent exactly the request's bytes and the client
    exactly the response's bytes, and the request is gone from the client's buffer. *)
Theorem readEvent_forwards {W} `{!Net W, !NetLog W} {B} `{!Evbuf B, !EvbufOk B}
    (px : KvProxy W memcached_sym statics) (cl : Client B) u p q a fd n ns cs w1 w2 fuel fast :
  let t := cl_thread cl in
  exchange (worker px t) t (recv_timeout (opts px)) u p q a fd n ns cs w1 w2 fuel →
  position (k_buf (worker px t)) = 0 → req_list_data (k_buf (worker px t)) = [] →
  ptrs px = Some memcached_ptrs → use_binary (init_statics (statics_ px) (px_conf px)).1 = true →
  Z.of_nat (length fast) = FAST_BUFF_SIZE →
  in_ok (m_read_buf cl) → content_of (m_read_buf cl) = packet_bytes p →
  out_ok (m_write_buf cl) → Z.of_nat (length (content_of (m_write_buf cl))) + plen q <= INT_MAX →
  ∃ px' cl', readEvent fuel fast px cl = Ret (px', cl') ∧
    net px' = w2 ∧ sent w1 fd = sent (net px) fd ++ packet_bytes p ∧
    content_of (m_read_buf cl') = [] ∧
    content_of (m_write_buf cl') = content_of (m_write_buf cl) ++ packet_bytes q.
Proof.
  intros t He Hpos Hlist Hptrs Hbin Hfast Hrok Hr Hwok Hw.
  destruct (readEvent_single px cl u p q a fd n ns cs w1 w2 fuel fast He Hpos Hlist Hptrs Hbin Hfast Hrok Hr)
    as (px' & E & Hn & Hs & _).
  pose proof (ex_small _ _ _ _ _ _ _ _ _ _ _ _ _ _ He) as Hsmall. pose proof (plen_ge p). unfold FAST_BUFF_SIZE in *.
  eexists px', _. split; [exact E|]. split; [done|]. split; [done|]. cbn [addToWriteBuf clearReadBuf m_read_buf m_write_buf].
  rewrite u32_small by lia. destruct (drain_content (m_read_buf cl) (plen p) Hrok ltac:(lia)) as (_ & Hd & _).
  split; [rewrite Hd, Hr; unfold plen; by rewrite Nat2Z.id, drop_all|].
  by apply (add_content (m_write_buf cl) (packet_bytes q)).
Qed.

(** * A run on the scripted network *)

Definition demo_options : Options := {|
  connect_timeout := None; send_timeout := None; recv_timeout := 0; thread_count := 1; max_packet := 1;
  failover_threshold := 10; failover_interval := 10; async_size := 50000 |}.

(** A proxy whose worker 0 is connected to the host with alias 1. *)
Definition demo_proxy (sends : list Z) (recvs : list reply) : KvProxy sim memcached_sym statics :=
  let k := demo_connected sends recvs in {|
  opts := demo_options; hosts := k_hosts k; stats := k_stats k; pool := k_pool k; bufs := {[ 0 := demo_bufs 200 ]};
  ext_ := extension_new; ptrs := Some memcached_ptrs; sync_str := bs "+"; async_req := []; is_async := false;
  px_conf := demo_conf0; statics_ := statics_init; net := k_net k |}.

Definition demo_client (d : bytes) : Client plain :=
  {| cl_fd := 9; cl_thread := 0; m_read_buf := {| plain_bytes := d |}; m_write_buf := {| plain_bytes := [] |} |}.

Definition demo_set_a : packet := demo_set (bs "a") (bs "v").
Definition demo_stored : packet := demo_packet PROTOCOL_BINARY_RES PROTOCOL_BINARY_CMD_SET [] [] [].
Definition demo_pieces : list bytes := [take 5 (packet_bytes demo_stored); drop 5 (packet_bytes demo_stored)].

Lemma demo_exchange : ∃ w1 w2,
  exchange (worker (demo_proxy [10] (Data <$> demo_pieces)) 0) 0 0 true demo_set_a demo_stored 1 3 200
    [10; 24] demo_pieces w1 w2 5 ∧ sim_sends w2 = [] ∧ sim_sent w2 !! 9 = None.
Proof.
  set (px := demo_proxy [10] (Data <$> demo_pieces)).
  set (w1 := (sys_send (sys_send (net px) 3 (packet_bytes demo_set_a)).2 3 (drop 10 (packet_bytes demo_set_a))).2).
  exists w1, (sim_fail w1 (sim_errno w1) (sim_sends w1) []). split; [constructor|split; [reflexivity|vm_compute; reflexivity]].
  - split; [vm_compute; intuition congruence|vm_compute; reflexivity].
  - vm_compute. intuition congruence.
  - vm_compute. congruence.
  - vm_compute. intuition congruence.
  - vm_compute. congruence.
  - vm_compute. reflexivity.
  - lia.
  - eexists. vm_compute. reflexivity.
  - right. vm_compute. congruence.
  - apply demo_conn.
  - reflexivity.
  - eexists. split; [vm_compute; split; congruence|]. split; [vm_compute; reflexivity|].
    eexists. split; [vm_compute; split; congruence|]. split; [vm_compute; reflexivity|].
    split; vm_compute; reflexivity.
  - split; [vm_compute; intuition congruence|vm_compute; reflexivity].
  - reflexivity.
  - reflexivity.
  - vm_compute. reflexivity.
  - apply (sim_delivers 3 0 demo_pieces w1 200 []).
    + destruct (demo_conn [10] (Data <$> demo_pieces)) as ((_ & Ho & _) & Hpos & Hs).
      specialize (Ho _ _ _ _ Hs Hpos). exact Ho.
    + vm_compute. reflexivity.
    + repeat constructor; discriminate.
    + vm_compute. congruence.
  - vm_compute. lia.
Qed.

Lemma readEvent_forwards_witness :
  ∃ px' cl', readEvent 5 (replicate 10240 x00) (demo_proxy [10] (Data <$> demo_pieces))
               (demo_client (packet_bytes demo_set_a)) = Ret (px', cl') ∧
    plain_bytes (m_write_buf cl') = packet_bytes demo_stored ∧ plain_bytes (m_read_buf cl') = [].
Proof.
  destruct demo_exchange as (w1 & w2 & He & _).
  destruct (readEvent_forwards (demo_proxy [10] (Data <$> demo_pieces)) (demo_client (packet_bytes demo_set_a)) true
              demo_set_a demo_stored 1 3 200 [10; 24] demo_pieces w1 w2 5 (replicate 10240 x00))
    as (px' & cl' & E & _ & _ & Hr & Hw).
  - exact He.
  - reflexivity.
  - reflexivity.
  - reflexivity.
  - reflexivity.
  - rewrite length_replicate. reflexivity.
  - exact I.
  - reflexivity.
  - exact I.
  - vm_compute. congruence.
  - exists px', cl'. split; [exact E|]. split; [exact Hw|exact Hr].
Defined.
