(* ===== verification/MultiHost.v ===== *)
(** [KvProxy::talkToBackend] of [src/kvproxy.cpp] when a client's requests go to two hosts: what
    one host's turn leaves behind for the next one, in the buffer for the backends and in the
    buffer for the responses. *)
From S2P Require Import Prelude StdMap Util Crc32 Hash Config Extension Net ConnPool Failover Request Backend BackendRead.
From S2P Require Import Evbuf KvProxy ProtocolBinary Memcached MemcachedBinary MemcachedForward Transparency.

(** * Lemmas *)

Lemma elems_pair {V} (a b : Z) (x y : V) : a < b → elems ({[ a := x; b := y ]} : gmap Z V) = [(a, x); (b, y)].
Proof.
  intros Hab. apply elems_unique.
  - constructor; [by repeat constructor|]. constructor; [|constructor]. unfold entry_le, kle. cbn.
    rewrite (proj2 (Z.compare_lt_iff a b) Hab). done.
  - cbn. apply NoDup_cons. split; [|apply NoDup_singleton]. rewrite list_elem_of_singleton. lia.
  - intros k v. rewrite elem_of_cons, list_elem_of_singleton, lookup_insert_Some, lookup_singleton_Some.
    naive_solver lia.
Qed.

Section two_hosts.
Context {W : Type} `{!Net W}.
Implicit Types (k : Backend W).

(** [getConnection] does not look at the buffers. *)
Lemma getConnection_buf k a t b :
  getConnection a t (with_buf k b) = ((getConnection a t k).1, with_buf (getConnection a t k).2 b).
Proof.
  unfold getConnection. cbn [with_buf k_hosts]. destruct (at_ _ _ a) as [e m]. cbn [with_alias k_pool k_net].
  by destruct (ConnPool.getConnection _ _ _ _ _) as [[conn p] w].
Qed.

(** A request that is a piece of the buffer [mem]. *)
Definition part_of (mem : bytes) (r : req_t) (d : bytes) : Prop :=
  ext r = x00 ∧ mem_read mem (content r) (content_len r) = Ret d.

(** The request for a backend goes behind what is in the buffer. *)
Lemma create_part mem r d pre rest :
  part_of mem r d → fits mem → fits (pre ++ rest) → (length d <= length rest)%nat →
  memcached_create_req mem [r] (pre ++ rest) (Z.of_nat (length pre)) =
  Ret (SUCCESS, (pre ++ d) ++ drop (length d) rest, Z.of_nat (length (pre ++ d))).
Proof.
  intros [He Hr] Hm Hf Hl. pose proof (create_req_run mem [r] [(x00, d)] pre rest Hm Hf) as Hc.
  assert (gather [(x00, d)] = d) as Hg by (unfold gather, gather_body; cbn; by rewrite !app_nil_r).
  rewrite Hg in Hc. apply Hc; [|done]. constructor; [done|constructor].
Qed.

Lemma create_part_first mem r d out :
  part_of mem r d → fits mem → fits out → (length d <= length out)%nat →
  memcached_create_req mem [r] out 0 = Ret (SUCCESS, d ++ drop (length d) out, Z.of_nat (length d)).
Proof. intros. by apply (create_part mem r d [] out). Qed.

(** The turn of a host without a connection: the request stays in the buffer. *)
Lemma host_turn_unreachable {F E} `{!Ext F E} (f : F) fuel tmo a t (d m : bytes) l k k1 :
  d ≠ [] → getConnection a t k = (0, k1) →
  host_turn fuel f tmo a t (SUCCESS, m, Z.of_nat (length d)) l k =
  Ret (l, with_stats (with_buf k1 (with_backend (k_buf k) m (Z.of_nat (length d)))) (countFail (k_stats k1) true a)).
Proof.
  intros Hd Hg. unfold host_turn.
  rewrite decide_True by (split; [done|]; destruct d; [done|cbn; lia]).
  rewrite getConnection_buf, Hg. cbn [fst snd]. by rewrite decide_True.
Qed.
End two_hosts.

(** * Lemmas: answers of several packets *)

(** The parts of the responses [qs], each with the mark the parser gives it. *)
Definition answer_parts (qs : list packet) : list (byte * bytes) :=
  (λ q, (resp_ext (resp_item 0 (p_head q)), packet_bytes q)) <$> qs.

Lemma resp_items_parts qs : ∀ pre post,
  Forall (packet_ok PROTOCOL_BINARY_RES) qs →
  resp_parts (pre ++ stream qs ++ post) (resp_items (Z.of_nat (length pre)) (heads qs)) (answer_parts qs).
Proof.
  induction qs as [|q qs IH]; intros pre post Hqs; [constructor|].
  apply Forall_cons in Hqs as [[_ Hlen] Hqs]. rewrite stream_cons. constructor.
  - split; [done|]. cbn. by apply read_packet.
  - specialize (IH (pre ++ packet_bytes q) post Hqs). rewrite length_app, Nat2Z.inj_add in IH.
    unfold plen in Hlen. rewrite <- Hlen, <- app_assoc in IH. exact IH.
Qed.

(** Responses that come in one piece. *)
Definition answer_ok (qs : list packet) (n : Z) : Prop :=
  Forall (packet_ok PROTOCOL_BINARY_RES) qs ∧ qs ≠ [] ∧ last_quiet None (heads qs) = Some false ∧
  Z.of_nat (length (stream qs)) < n.

Lemma answer_framed qs n :
  answer_ok qs n → n <= INT_MAX → framed SYM_parse_resp (stream qs) (resp_items 0 (heads qs)) [stream qs].
Proof.
  intros (Hqs & Hne & Hq & Hn) Hmax. split; [apply memcached_whole; (done || lia)|].
  split; [by right|]. split; [|done]. cbn. by rewrite app_nil_r.
Qed.

Lemma answer_items qs n : answer_ok qs n → resp_items 0 (heads qs) ≠ [].
Proof. intros (_ & Hne & _). by destruct qs. Qed.

Section open.
Context {W : Type} `{!Net W, !NetOk W}.

Lemma accepts_open fd ns : ∀ (w : W) d w', accepts fd w d ns w' → open_fds w' = open_fds w.
Proof.
  induction ns as [|n ns IH]; intros w d w'; cbn; [by intros [_ ->]|].
  intros (w1 & _ & Hs & Ha). rewrite (IH _ _ _ Ha). pose proof (send_open w fd d) as Ho. by rewrite Hs in Ho.
Qed.

Lemma delivers_open fd tmo cs : ∀ (w : W) room w', delivers fd tmo w room cs w' → open_fds w' = open_fds w.
Proof.
  induction cs as [|c cs IH]; intros w room w'; cbn; [by intros ->|].
  intros (r & w1 & w2 & _ & _ & E1 & E2 & Hd). rewrite (IH _ _ _ Hd).
  pose proof (recv_open w1 fd room) as H2. rewrite E2 in H2. cbn in H2. rewrite H2.
  pose proof (select_open w fd tmo) as H1. by rewrite E1 in H1.
Qed.
End open.

(** Two answers of the same layout, of which the buffer holds the second one. *)
Lemma create_twice ps qs rest out :
  let twice := gather (answer_parts qs ++ answer_parts qs) in
  Forall (packet_ok PROTOCOL_BINARY_RES) qs → resp_items 0 (heads ps) = resp_items 0 (heads qs) →
  Z.of_nat (length (stream qs ++ rest)) + Z.of_nat (length out) <= INT_MAX → (length twice <= length out)%nat →
  memcached_create_resp (stream qs ++ rest) (resp_items 0 (heads ps) ++ resp_items 0 (heads qs)) out 0 (Z.of_nat (length out)) =
  Ret (SUCCESS, twice ++ drop (length twice) out, Z.of_nat (length twice)).
Proof.
  intros twice Hqs Hsame Hmem Hout.
  pose proof (create_resp_cases (stream qs ++ rest) ltac:(unfold fits; lia)
    (resp_items 0 (heads ps) ++ resp_items 0 (heads qs)) (answer_parts qs ++ answer_parts qs) [] out) as Hc.
  cbv zeta in Hc. fold twice in Hc. change (Z.of_nat (length [])) with 0 in Hc. cbn [app] in Hc.
  rewrite decide_True in Hc by done. apply Hc; [done|].
  rewrite Hsame. apply Forall2_app; by apply (resp_items_parts qs [] rest).
Qed.

(** * Properties *)

(** When the first of two hosts has no connection, the request made for it stays in the buffer,
    and the second host is sent both requests: its own behind the other host's. *)
Theorem talk_stale_request {W} `{!Net W, !NetLog W} (k k1 : Backend W) mem a b t tmo fd n ra rb da db q
    ns cs w1 w2 fuel :
  a < b → part_of mem ra da → part_of mem rb db → da ≠ [] → fits mem →
  bufs_idle n (k_buf k) → k_buf k1 = k_buf k → Z.of_nat (length (da ++ db)) <= n →
  getConnection a t k = (0, k1) →
  is_Some (host_alias (k_hosts k1) !! b) → conn_for k1 b t fd → fd < FD_SETSIZE →
  accepts fd (k_net k1) (da ++ db) ns w1 → (length ns <= fuel)%nat →
  packet_ok PROTOCOL_BINARY_RES q → resp_quiet (p_head q) = false → plen q < n →
  concat cs = packet_bytes q → delivers fd tmo w1 n cs w2 → (length cs <= fuel)%nat →
  ∃ k', talkToBackend fuel memcached_ptrs tmo {[ a := [ra]; b := [rb] ]} mem t k = Ret k' ∧
    k_net k' = w2 ∧ sent w1 fd = sent (k_net k1) fd ++ da ++ db.
Proof.
  intros Hab Ha Hb Hda Hm (H3 & H4 & H5 & H6 & H7 & H8 & H9 & H10) Hk1 Hroom Hg Hknown Hc Hfd Hacc Hns Hq Hquiet Hfits
    Hcs Hdel Hfuel.
  pose proof (accepts_sent fd ns _ _ _ Hacc) as Hsent. unfold plen, INT_MAX in *.
  unfold talkToBackend. rewrite (elems_pair a b) by done.
  cbn [talk_loop create_req memcached_ext memcached_ptrs ptr_create_req]. rewrite H3.
  rewrite length_app in Hroom.
  rewrite (create_part_first mem ra da) by (done || unfold fits, INT_MAX; lia). cbn [mbind outcome_bind].
  rewrite (host_turn_unreachable _ _ _ _ _ da _ _ k k1) by done. cbn [mbind outcome_bind fst snd].
  set (k2 := with_stats _ _).
  change (backend_buf (k_buf k2)) with (da ++ drop (length da) (backend_buf (k_buf k))).
  change (backend_buf_len (k_buf k2)) with (Z.of_nat (length da)).
  rewrite (create_part mem rb db da) by
    (done || unfold fits, INT_MAX; rewrite ?length_app, ?length_drop; lia).
  cbn [mbind outcome_bind].
  assert (drop (length db) (drop (length da) (backend_buf (k_buf k))) =
          drop (length (da ++ db)) (backend_buf (k_buf k2))) as ->.
  { unfold k2. cbn. rewrite length_app, drop_app_add. done. }
  rewrite (host_turn_answers SYM_parse_resp fuel tmo b t fd (da ++ db) (packet_bytes q) [resp_item 0 (p_head q)] []
             ns cs k2 w1 w2).
  2-4: done.
  2: { unfold k2. split; cbn; [lia|]. unfold INT_MAX. lia. }
  2: by intros [? _]%app_nil.
  2: { unfold k2. cbn. rewrite !length_app, length_drop. lia. }
  2: { rewrite length_app. unfold INT_MAX. lia. }
  2-3: done.
  2: { apply memcached_framed; [done|done| |done]. unfold plen, INT_MAX. lia. }
  2: done.
  2: { change (resp_buf_size (k_buf k2)) with (resp_buf_size (k_buf k)). by rewrite H4. }
  2: { change (resp_buf_size (k_buf k2)) with (resp_buf_size (k_buf k)). by rewrite H4. }
  2: done.
  cbn [mbind outcome_bind fst snd app]. unfold answered. cbn [k_buf with_backend with_resp resp_buf client_buf client_buf_size].
  cbn [ptr_create_resp memcached_ptrs create_resp memcached_ext].
  change (client_buf (k_buf k2)) with (client_buf (k_buf k)).
  change (client_buf_size (k_buf k2)) with (client_buf_size (k_buf k)).
  change (resp_buf (k_buf k2)) with (resp_buf (k_buf k)).
  replace (client_buf_size (k_buf k)) with (Z.of_nat (length (client_buf (k_buf k)))) by lia.
  rewrite create_answer; [|done|rewrite length_app, length_drop; unfold INT_MAX; lia|lia].
  cbn [mbind outcome_bind]. eexists. split; [done|]. split; [done|exact Hsent].
Qed.

(** C40: the responses point into a buffer that every host's turn starts to fill anew: when two
    hosts answer with responses of the same layout, the client gets the second host's answer twice
    and nothing of the first one's. *)
Theorem talk_overwrites {W} `{!Net W, !NetOk W} (k : Backend W) mem a b t tmo fa fb n ra rb da db ps qs
    nsa nsb w1 w2 w3 w4 fuel :
  a < b → part_of mem ra da → part_of mem rb db → da ≠ [] → db ≠ [] → fits mem →
  bufs_idle n (k_buf k) → Z.of_nat (length da) <= n → Z.of_nat (length db) <= n →
  is_Some (host_alias (k_hosts k) !! a) → is_Some (host_alias (k_hosts k) !! b) →
  conn_for k a t fa → conn_for k b t fb → fa < FD_SETSIZE → fb < FD_SETSIZE →
  accepts fa (k_net k) da nsa w1 → delivers fa tmo w1 n [stream ps] w2 →
  accepts fb w2 db nsb w3 → delivers fb tmo w3 n [stream qs] w4 →
  (length nsa <= fuel)%nat → (length nsb <= fuel)%nat → (0 < fuel)%nat →
  answer_ok ps n → answer_ok qs n → resp_items 0 (heads ps) = resp_items 0 (heads qs) →
  let twice := gather (answer_parts qs ++ answer_parts qs) in
  Z.of_nat (length twice) <= n →
  ∃ k', talkToBackend fuel memcached_ptrs tmo {[ a := [ra]; b := [rb] ]} mem t k = Ret k' ∧
    mem_read (client_buf (k_buf k')) 0 (client_buf_len (k_buf k')) = Ret twice.
Proof.
  intros Hab Ha Hb Hda Hdb Hm (H3 & H4 & H5 & H6 & H7 & H8 & H9 & H10) Hla Hlb Hka Hkb Hca Hcb Hfa Hfb
    Hacca Hdela Haccb Hdelb Hnsa Hnsb Hfuel Hps Hqs Hsame twice Htwice.
  unfold INT_MAX in *. pose proof Hps as (_ & _ & _ & Hlp). pose proof Hqs as (Hqok & _ & _ & Hlq).
  unfold talkToBackend. rewrite (elems_pair a b) by done.
  cbn [talk_loop create_req memcached_ext memcached_ptrs ptr_create_req]. rewrite H3.
  rewrite (create_part_first mem ra da) by (done || unfold fits, INT_MAX; lia). cbn [mbind outcome_bind].
  rewrite (host_turn_answers SYM_parse_resp fuel tmo a t fa da (stream ps) (resp_items 0 (heads ps)) []
             nsa [stream ps] k w1 w2);
    try done; try lia; try (unfold INT_MAX; lia).
  2: { split; [lia|unfold INT_MAX; lia]. }
  2: { eapply answer_framed; [done|unfold INT_MAX; lia]. }
  2: by eapply answer_items.
  2: by rewrite H4.
  cbn [mbind outcome_bind fst snd app]. set (k2 := answered _ _ _ _ _).
  change (backend_buf_len (k_buf k2)) with 0.
  rewrite (create_part_first mem rb db);
    [|done|done|unfold fits, INT_MAX; cbn; rewrite length_app, length_drop; lia
     |cbn; rewrite length_app, length_drop; lia].
  cbn [mbind outcome_bind].
  assert (open_fds w2 = open_fds (k_net k)) as Ho.
  { rewrite (delivers_open _ _ _ _ _ _ Hdela). by apply (accepts_open fa nsa _ da). }
  rewrite (host_turn_answers SYM_parse_resp fuel tmo b t fb db (stream qs) (resp_items 0 (heads qs))
             (resp_items 0 (heads ps)) nsb [stream qs] k2 w3 w4); try done; try (unfold INT_MAX; lia).
  2: { destruct Hcb as (Hpo & Hpos & Hsl). split; [|done]. by apply (pool_ok_same (k_net k)). }
  2: { split; cbn; [rewrite length_app, length_drop; lia|unfold INT_MAX; lia]. }
  2: { cbn. rewrite length_app, length_drop. lia. }
  2: { eapply answer_framed; [done|unfold INT_MAX; lia]. }
  2: by eapply answer_items.
  2: { cbn. by rewrite H4. }
  2: { change (resp_buf_size (k_buf k2)) with (resp_buf_size (k_buf k)). by rewrite H4. }
  cbn [mbind outcome_bind fst snd]. unfold answered.
  cbn [k_buf with_backend with_resp resp_buf client_buf client_buf_size ptr_create_resp memcached_ptrs create_resp memcached_ext].
  change (client_buf (k_buf k2)) with (client_buf (k_buf k)).
  change (client_buf_size (k_buf k2)) with (client_buf_size (k_buf k)).
  replace (client_buf_size (k_buf k)) with (Z.of_nat (length (client_buf (k_buf k)))) by lia.
  rewrite (create_twice ps qs); [|done|done| |unfold twice in Htwice; lia].
  2: { unfold INT_MAX. cbn. rewrite !length_app, !length_drop, !length_app, !length_drop. lia. }
  cbn [mbind outcome_bind]. eexists. split; [done|].
  cbn [k_buf with_buf with_client client_buf client_buf_len]. apply mem_read_prefix.
Qed.

(** * Runs on the scripted network *)

(** Two hosts known to worker 0; connections are opened to the aliases [l], in this order. *)
Definition demo_two (up : list (bytes * Z)) (l : list Z) (recvs : list reply) : Backend sim :=
  foldl (λ k a, (getConnection a 0 k).2)
    {| k_hosts := {| host_alias := {[ 1 := (bs "10.0.0.1", 11211); 2 := (bs "10.0.0.2", 11211) ]}; host_infos := ∅;
                     host_offline := ∅; hosts_default := {[ 1; 2 ]}; hosts_read := ∅; hosts_backup := ∅;
                     hash := hash_new; hash_backup := hash_new; hash_read := hash_new; alias_index_count := 2 |};
       k_stats := demo_stats; k_pool := pool_new; k_buf := demo_bufs 200; k_net := sim_init up [] recvs |} l.

Lemma demo_two_ok up l recvs : pool_ok (k_net (demo_two up l recvs)) (k_pool (demo_two up l recvs)).
Proof.
  unfold demo_two. generalize (pool_new_ok (sim_init up [] recvs)).
  set (k := {| k_hosts := _ |}). change pool_new with (k_pool k). change (sim_init up [] recvs) with (k_net k).
  generalize k. clear k. induction l as [|a l IH]; intros k Hok; [done|]. cbn [foldl]. apply IH.
  destruct (getConnection a 0 k) as [fd k'] eqn:Eg. by apply getConnection_spec in Eg as (_ & _ & ? & _).
Qed.

Definition demo_req_at (off len : Z) : req_t :=
  {| key := off; key_len := 0; content := off; content_len := len; update := false; each := false; ext := x00 |}.

Lemma demo_idle up l recvs : length l = 1%nat ∨ length l = 2%nat → bufs_idle 200 (k_buf (demo_two up l recvs)).
Proof.
  assert (∀ a k, k_buf (getConnection a 0 k).2 = k_buf (k : Backend sim)) as Hb.
  { intros a k. pose proof (getConnection_buf k a 0 (k_buf k)) as E. unfold with_buf in E at 1. destruct k. cbn in E.
    rewrite E. done. }
  intros Hl. assert (k_buf (demo_two up l recvs) = demo_bufs 200) as ->.
  { destruct l as [|a [|b [|]]]; cbn in Hl; try lia; unfold demo_two; cbn [foldl]; by rewrite !Hb. }
  repeat split; vm_compute; congruence.
Qed.

Lemma talk_stale_request_witness :
  let k := demo_two [(bs "10.0.0.2", 11211)] [2] [Data (packet_bytes demo_answer)] in
  ∃ k', talkToBackend 5 memcached_ptrs 0 {[ 1 := [demo_req_at 0 3]; 2 := [demo_req_at 3 3] ]} (bs "oneTWO") 0 k = Ret k' ∧
    sent (k_net k') 3 = bs "oneTWO".
Proof.
  set (up := [(bs "10.0.0.2", 11211)]). set (recvs := [Data (packet_bytes demo_answer)]). cbv zeta.
  set (w1 := (sys_send (k_net (demo_two up [2; 1] recvs)) 3 (bs "oneTWO")).2).
  destruct (talk_stale_request (demo_two up [2] recvs) (demo_two up [2; 1] recvs) (bs "oneTWO") 1 2 0 0 3 200
              (demo_req_at 0 3) (demo_req_at 3 3) (bs "one") (bs "TWO") demo_answer [6] [packet_bytes demo_answer]
              w1 (sim_fail w1 (sim_errno w1) (sim_sends w1) []) 5) as (k' & E & Hn & _).
  - lia.
  - split; reflexivity.
  - split; reflexivity.
  - discriminate.
  - vm_compute. congruence.
  - apply demo_idle. by left.
  - vm_compute. reflexivity.
  - vm_compute. congruence.
  - vm_compute. reflexivity.
  - eexists. vm_compute. reflexivity.
  - split; [apply demo_two_ok|]. split; [lia|vm_compute; reflexivity].
  - reflexivity.
  - eexists. split; [vm_compute; split; congruence|]. split; [vm_compute; reflexivity|]. split; vm_compute; reflexivity.
  - cbn. lia.
  - split; [vm_compute; intuition congruence|vm_compute; reflexivity].
  - reflexivity.
  - vm_compute. reflexivity.
  - cbn [concat]. apply app_nil_r.
  - apply (sim_delivers 3 0 [packet_bytes demo_answer] w1 200 []).
    + vm_compute. reflexivity.
    + vm_compute. reflexivity.
    + repeat constructor; discriminate.
    + vm_compute. congruence.
  - cbn. lia.
  - exists k'. split; [exact E|]. rewrite Hn. vm_compute. reflexivity.
Defined.

(** A hit for the key [k] and the end marker. *)
Definition demo_hit (k v : bytes) : list packet :=
  [demo_resp PROTOCOL_BINARY_CMD_GETKQ k v; demo_packet PROTOCOL_BINARY_RES PROTOCOL_BINARY_CMD_NOOP [] [] []].

Lemma demo_answer_ok k v : (length k <= 1)%nat → (length v <= 10)%nat → answer_ok (demo_hit k v) 200.
Proof.
  intros Hk Hv. destruct k as [|k0 [|]]; cbn in Hk; try lia;
    do 11 (destruct v as [|? v]; [split; [repeat constructor; vm_compute; intuition congruence|repeat split; vm_compute; congruence]|]);
    cbn in Hv; lia.
Qed.

Lemma talk_overwrites_witness :
  let ps := demo_hit (bs "a") (bs "one") in
  let qs := demo_hit (bs "b") (bs "TWO") in
  let k := demo_two [(bs "10.0.0.1", 11211); (bs "10.0.0.2", 11211)] [1; 2] [Data (stream ps); Data (stream qs)] in
  ∃ k', talkToBackend 5 memcached_ptrs 0 {[ 1 := [demo_req_at 0 3]; 2 := [demo_req_at 3 3] ]} (bs "getGET") 0 k = Ret k' ∧
    mem_read (client_buf (k_buf k')) 0 (client_buf_len (k_buf k')) =
      Ret (packet_bytes (demo_resp PROTOCOL_BINARY_CMD_GETKQ (bs "b") (bs "TWO")) ++
           packet_bytes (demo_resp PROTOCOL_BINARY_CMD_GETKQ (bs "b") (bs "TWO")) ++
           packet_bytes (demo_packet PROTOCOL_BINARY_RES PROTOCOL_BINARY_CMD_NOOP [] [] [])).
Proof.
  set (up := [(bs "10.0.0.1", 11211); (bs "10.0.0.2", 11211)]).
  set (ps := demo_hit (bs "a") (bs "one")). set (qs := demo_hit (bs "b") (bs "TWO")).
  cbv zeta. set (recvs := [Data (stream ps); Data (stream qs)]). set (k := demo_two up [1; 2] recvs).
  set (w1 := (sys_send (k_net k) 3 (bs "get")).2).
  set (w2 := sim_fail w1 (sim_errno w1) (sim_sends w1) [Data (stream qs)]).
  set (w3 := (sys_send w2 4 (bs "GET")).2).
  destruct (talk_overwrites k (bs "getGET") 1 2 0 0 3 4 200 (demo_req_at 0 3) (demo_req_at 3 3) (bs "get") (bs "GET")
              ps qs [3] [3] w1 w2 w3 (sim_fail w3 (sim_errno w3) (sim_sends w3) []) 5) as (k' & E & Hr).
  - lia.
  - split; reflexivity.
  - split; reflexivity.
  - discriminate.
  - discriminate.
  - vm_compute. congruence.
  - apply demo_idle. by right.
  - vm_compute. congruence.
  - vm_compute. congruence.
  - eexists. vm_compute. reflexivity.
  - eexists. vm_compute. reflexivity.
  - split; [apply demo_two_ok|]. split; [lia|vm_compute; reflexivity].
  - split; [apply demo_two_ok|]. split; [lia|vm_compute; reflexivity].
  - reflexivity.
  - reflexivity.
  - eexists. split; [vm_compute; split; congruence|]. split; [vm_compute; reflexivity|]. split; vm_compute; reflexivity.
  - apply (sim_delivers 3 0 [stream ps] w1 200 [Data (stream qs)]).
    + vm_compute. reflexivity.
    + vm_compute. reflexivity.
    + repeat constructor; discriminate.
    + vm_compute. congruence.
  - eexists. split; [vm_compute; split; congruence|]. split; [vm_compute; reflexivity|]. split; vm_compute; reflexivity.
  - apply (sim_delivers 4 0 [stream qs] w3 200 []).
    + vm_compute. reflexivity.
    + vm_compute. reflexivity.
    + repeat constructor; discriminate.
    + vm_compute. congruence.
  - cbn. lia.
  - cbn. lia.
  - lia.
  - apply demo_answer_ok; cbn; lia.
  - apply demo_answer_ok; cbn; lia.
  - vm_compute. reflexivity.
  - vm_compute. congruence.
  - exists k'. split; [exact E|]. rewrite Hr. vm_compute. reflexivity.
Defined.
