(* ===== verification/Main.v ===== *)
(** The program: [main] of [src/kvproxy.cpp] with the functions it is made of, and the callbacks
    through which libevent's loops reach the proxy.

    [main] puts the components together: configuration, log, [Server], [KvProxy], extension and
    hosts, up to the dispatch of the main loop.  [main_ready] says what is in place then. *)
From S2P Require Import Prelude StdMap Util Config Log ConnQueue Server.
From S2P Require Import Hash Extension Net ConnPool Failover Request Backend Evbuf KvProxy.

(** * State *)

(** The proxy with its base class, and the logger. *)
Record program (W F E : Type) := { pr_px : KvProxy W F E; pr_server : Server; pr_log : Logger }.
Arguments pr_px {W F E} _.
Arguments pr_server {W F E} _.
Arguments pr_log {W F E} _.

Definition config_new : Config := {| conf_path := []; conf := ∅; ext_name := [] |}.

(** What the command line sets. *)
Record cmdline := { is_daemon : bool; opt_conf_path : bytes }.

(** * The command line *)

(** The letters of an argument "-xyz": each with its value.  An option that takes one takes the
    rest of the argument or, when there is none, the next argument; one that has none, and an
    unknown letter, is '?'. *)
Fixpoint getopt_letters (l : bytes) (next : list bytes) : list (byte * bytes) * bool :=
  match l with
  | [] => ([], false)
  | c :: l =>
      if decide (c = "c"%byte) then
        match l, next with
        | [], [] => ([("?"%byte, [])], false)
        | [], v :: _ => ([("c"%byte, v)], true)
        | _, _ => ([("c"%byte, l)], false)
        end
      else
        let '(r, used) := getopt_letters l next in
        ((if decide (c = "d"%byte ∨ c = "h"%byte ∨ c = "v"%byte) then c else "?"%byte, []) :: r, used)
  end.

(** [getopt(argc, args, "c:dhv")] until it gives -1: what is not an option is passed over, "--"
    ends the options. *)
Fixpoint getopt (fuel : nat) (args : list bytes) : list (byte * bytes) :=
  match fuel, args with
  | S fuel, a :: args =>
      match a with
      | c :: l =>
          if decide (c = "-"%byte) then
            if decide (l = [c]) then []
            else
              let '(r, used) := getopt_letters l args in
              r ++ getopt fuel (if used then tail args else args)
          else getopt fuel args
      | [] => getopt fuel args
      end
  | _, _ => []
  end.

(** Both print and exit. *)
Definition help {A} : outcome A := Exit EXIT_SUCCESS.
Definition show_version {A} : outcome A := Exit EXIT_SUCCESS.

Fixpoint options_loop (l : list (byte * bytes)) (o : cmdline) : outcome cmdline :=
  match l with
  | [] => Ret o
  | (ch, optarg) :: l =>
      if decide (ch = "h"%byte) then help
      else if decide (ch = "d"%byte) then options_loop l {| is_daemon := true; opt_conf_path := opt_conf_path o |}
      else if decide (ch = "c"%byte) then options_loop l {| is_daemon := is_daemon o; opt_conf_path := optarg |}
      else if decide (ch = "v"%byte) then show_version
      else help
  end.

(** The parent exits, the child goes on; [fork] gives [pid]. *)
Definition daemon (pid : Z) : outcome unit :=
  if decide (0 < pid) then Exit EXIT_SUCCESS else if decide (pid < 0) then Exit EXIT_FAILURE else Ret ().

Definition initLog (logfs : bytes → option bytes) (cwd : bytes) (lg : Logger) (conf : Config) : outcome (Logger * Config) :=
  let '(log_path, conf) := getConfStr conf (bs "kvproxy") (bs "log_path") in
  let log_path := if decide (log_path = []) then cwd ++ bs "../log/kvproxy.log" else log_path in
  lg ← Log.open logfs lg log_path;
  let '(level, conf) := getConfStr conf (bs "kvproxy") (bs "log_level") in
  Ret (if decide (level = []) then lg else setLevel lg (getLevel level), conf).

Definition get_conf (conf : Config) (section key : bytes) : bytes * Config := getConfStr conf section key.

(** The number of workers: without the macro [linux] the option is taken as it is. *)
Definition worker_count (linux : bool) (cpu_num : Z) (cpu_affinity : bool) (thread_count : Z) : Z :=
  if negb linux then thread_count
  else if cpu_affinity then u32 cpu_num
  else if decide (thread_count <= 0) then 1 else thread_count.

Definition SIGINT : Z := 2.

(** * The program *)

Section main.
Context {W : Type} `{!Net W} {H F E : Type} `{!Dl H F, !Ext F E} `{!Threads, !Libevent}.

(** The extension and the hosts the configuration names. *)
Definition main_setup (px : KvProxy W F E) (cwd : bytes) (thread_count : Z) : outcome (KvProxy W F E) :=
  let '(ext_path, conf) := getConfStr (px_conf px) (bs "kvproxy") (bs "ext_path") in
  let ext_path := if decide (ext_path = []) then cwd ++ bs "../ext" else ext_path in
  let ext_name := getExtName conf in
  let '(ext_filename, conf) := getConfStr conf ext_name (bs "extension") in
  px ← loadExt (put_statics px (statics_ px) conf) ext_path ext_name ext_filename;
  px ← setHosts px (bs "hosts") ext_name thread_count;
  px ← setHosts px (bs "hosts_backup") ext_name thread_count;
  setHosts px (bs "hosts_read") ext_name thread_count.

(** Events, counters, the health thread, the port.  The timer registered with the signal changes
    nothing of the program: its result is dropped, its callback empty. *)
Definition main_start (linux : bool) (pr : program W F E) : outcome (program W F E) :=
  sg ← addSignalEvent (pr_server pr) SIGINT;
  let '(h, s) := initVar (hosts (pr_px pr)) (stats (pr_px pr)) in
  let px := put_stats (put_hosts (pr_px pr) h (pool (pr_px pr)) (net (pr_px pr)) (px_conf (pr_px pr))) s in
  _ ← createCheckHealthThread;
  p ← getConfInt (px_conf px) (bs "kvproxy") (bs "port");
  let port := if decide (u32 p.1 = 0) then 55669 else u32 p.1 in
  b ← getConfInt p.2 (bs "kvproxy") (bs "backlog");
  let srv := setPort sg.2 port in
  _ ← startRun linux srv;
  Ret {| pr_px := put_statics px (statics_ px) b.2; pr_server := srv; pr_log := pr_log pr |}.

(** [pid] is [fork]'s result, [fs] and [logfs] the files that can be read and appended to, [e] the
    initial static variables of the extension. *)
Definition main (linux : bool) (pid : Z) (fs logfs : bytes → option bytes) (malloc : Z → nat → Z → bytes)
    (args : list bytes) (e : E) (w : W) : outcome (program W F E) :=
  match args with
  | [] => Undef NullPointer
  | bin_path :: args =>
      o ← options_loop (getopt (length args) args) {| is_daemon := false; opt_conf_path := [] |};
      cwd ← get_cwd bin_path;
      let path := if decide (opt_conf_path o = []) then cwd ++ bs "../etc/kvproxy.ini" else opt_conf_path o in
      conf ← loadConf fs (setConfFile config_new path);
      _ ← (if is_daemon o then daemon pid else Ret ());
      lg ← initLog logfs cwd Logger_new conf;
      let '(cpu_affinity, conf) := getConfBool lg.2 (bs "kvproxy") (bs "cpu_affinity") in
      n ← getConfInt conf (bs "kvproxy") (bs "thread_count");
      let thread_count := worker_count linux get_nprocs cpu_affinity (u32 n.1) in
      srv ← Server_new (i32 thread_count) cpu_affinity;
      px ← KvProxy_new malloc (i32 thread_count) n.2 None e w;
      px ← main_setup px cwd thread_count;
      main_start linux {| pr_px := px; pr_server := srv; pr_log := lg.1 |}
  end.

(** * Callbacks *)

(** The threads that are signalled, the server after [stopRun], and the code the process exits with. *)
Inductive helper_thread := th_async | th_check_health.

Definition quitCb (pr : program W F E) : list helper_thread * Server * Z :=
  ((if is_async (pr_px pr) then [th_async] else []) ++ [th_check_health], stopRun (pr_server pr), EXIT_SUCCESS).

Definition timeOutCb (pr : program W F E) : program W F E := pr.

Definition with_server (pr : program W F E) (s : Server) : program W F E :=
  {| pr_px := pr_px pr; pr_server := s; pr_log := pr_log pr |}.
Definition with_px (pr : program W F E) (px : KvProxy W F E) : program W F E :=
  {| pr_px := px; pr_server := pr_server pr; pr_log := pr_log pr |}.

(** [threadProcess] with its call of [connectionEvent], and what [closeEventCb] does
    before it frees the bufferevent ([Service.serve_close] is all of it). *)
Definition on_notify (pr : program W F E) (i : nat) : outcome (program W F E) :=
  r ← threadProcess (pr_server pr) i;
  match r.1 with
  | None => Ret (with_server pr r.2)
  | Some _ => px ← connectionEvent (pr_px pr); Ret (with_px (with_server pr r.2) px)
  end.

Definition on_close (pr : program W F E) (c : Z) : outcome (program W F E) :=
  px ← closeEvent (pr_px pr);
  s ← dequeue_conn (pr_server pr) c;
  Ret (with_server (with_px pr px) s).

Context {B : Type} `{!Evbuf B}.

(** The connection is given the buffers of its [bufferevent]. *)
Definition readEventCb (fuel : nat) (fast : bytes) (input output : B) (conn : Client B) (px : KvProxy W F E)
    : outcome (KvProxy W F E * Client B) :=
  readEvent fuel fast px
    {| cl_fd := cl_fd conn; cl_thread := cl_thread conn; m_read_buf := input; m_write_buf := output |}.

Definition writeEventCb (input output : B) (conn : Client B) (px : KvProxy W F E) : KvProxy W F E * Client B :=
  (writeEvent px,
   {| cl_fd := cl_fd conn; cl_thread := cl_thread conn; m_read_buf := input; m_write_buf := output |}).
End main.
