(* ===== verification/Setup.v ===== *)
(** What is in place once [main] of [src/kvproxy.cpp] reaches its loops: the table of hosts that
    [setHosts] builds, the connections, the buffers, the counters, the workers.

    [table_ok] is the invariant of the host table that the other components' theorems start from:
    a ring names only hosts of its own group, each under the one alias of its address. *)
From S2P Require Import Prelude StdMap Util Config Log ConnQueue Server.
From S2P Require Import Hash Extension Net ConnPool Failover Request Backend Evbuf KvProxy Main Memcached.

(** * The host table *)

(** The name on the ring is the address behind the alias, and the alias is of the group [set]. *)
Definition ring_known (h : Hosts) (set : gset Z) (ring : ConsistentHash) : Prop :=
  ∀ p hp a, _hash ring !! p = Some (hp, a) →
    a ∈ set ∧ ∃ e, host_alias h !! a = Some e ∧ hp = host_port_str e.

(** The aliases are numbered from 1, one for each address. *)
Definition aliases_ok (h : Hosts) : Prop :=
  alias_index_count h = Z.of_nat (size (host_alias h)) ∧
  (∀ a, is_Some (host_alias h !! a) ↔ 1 <= a <= alias_index_count h) ∧
  (∀ a b e, host_alias h !! a = Some e → host_alias h !! b = Some e → a = b).

Definition table_ok (h : Hosts) : Prop :=
  unlocked h ∧ aliases_ok h ∧ (∀ a, is_Some (host_alias h !! a) → is_Some (host_infos h !! a)) ∧
  ring_known h (hosts_default h) (hash h) ∧ ring_known h (hosts_backup h) (hash_backup h) ∧
  ring_known h (hosts_read h) (hash_read h).

(** * Lemmas: aliases *)

(** A number is left for another alias. *)
Definition has_room (h : Hosts) : Prop := Z.of_nat (size (host_alias h)) < 2 ^ 32 - 1.

Lemma setHostAlias_cases h host port :
  (∃ a, setHostAlias h host port = (a, h) ∧ host_alias h !! a = Some (host, port)) ∨
  (∀ a, host_alias h !! a ≠ Some (host, port)) ∧
  setHostAlias h host port =
    (u32 (alias_index_count h + 1),
     {| host_alias := <[u32 (alias_index_count h + 1) := (host, port)]> (host_alias h); host_infos := host_infos h;
        host_offline := host_offline h; hosts_default := hosts_default h; hosts_read := hosts_read h;
        hosts_backup := hosts_backup h; hash := hash h; hash_backup := hash_backup h; hash_read := hash_read h;
        alias_index_count := u32 (alias_index_count h + 1) |}).
Proof.
  unfold setHostAlias. destruct (list_find _ _) as [[i [a e]]|] eqn:El.
  - left. apply list_find_Some in El as (Hl & He & _). cbn in He. subst e. exists a. split; [done|].
    apply list_elem_of_lookup_2 in Hl. by apply elem_of_elems in Hl.
  - right. split; [|done]. intros a Ha. apply list_find_None in El. rewrite Forall_forall in El.
    apply elem_of_elems in Ha. by apply (El _ Ha).
Qed.

Lemma setHostAlias_size h host port :
  (size (host_alias h) <= size (host_alias (setHostAlias h host port).2))%nat.
Proof.
  destruct (setHostAlias_cases h host port) as [(a & -> & _)|[_ ->]]; cbn; [done|].
  rewrite map_size_insert. destruct (_ !! _); cbn; lia.
Qed.

(** The alias [setHostAlias] gives stands for the address, and what was known stays. *)
Lemma setHostAlias_ok h host port a h' :
  aliases_ok h → setHostAlias h host port = (a, h') → has_room h' →
  aliases_ok h' ∧ host_alias h' !! a = Some (host, port) ∧ host_alias h ⊆ host_alias h' ∧
  (∀ b, is_Some (host_alias h' !! b) → b = a ∨ is_Some (host_alias h !! b)).
Proof.
  intros Hok. pose proof Hok as (Hc & Hd & Hi). unfold has_room.
  destruct (setHostAlias_cases h host port) as [(b & -> & Hb)|[Hno ->]]; intros [= <- <-]; cbn.
  - intros _. split_and!; [done|done|done|]. by right.
  - rewrite map_size_insert. intros Hroom. set (n := alias_index_count h) in *.
    assert (n + 1 < 2 ^ 32) as Hn by (destruct (_ !! _); cbn in Hroom; lia).
    rewrite u32_small in * by lia.
    assert (host_alias h !! (n + 1) = None) as Hfresh by (apply eq_None_not_Some; rewrite Hd; lia).
    split; [split_and!|split_and!].
    + cbn. rewrite map_size_insert_None by done. lia.
    + intros a. cbn. rewrite lookup_insert_is_Some, Hd. lia.
    + intros a b e. cbn. rewrite !lookup_insert_Some. naive_solver.
    + by rewrite lookup_insert_eq.
    + by apply insert_subseteq.
    + intros b. rewrite lookup_insert_is_Some. naive_solver.
Qed.

Lemma ring_known_mono h h' set set' ring :
  host_alias h ⊆ host_alias h' → set ⊆ set' → ring_known h set ring → ring_known h' set' ring.
Proof.
  intros Ha Hs Hr p hp a Hp. destruct (Hr p hp a Hp) as [Hin (e & He & ->)].
  split; [set_solver|]. exists e. split; [|done]. by eapply lookup_weaken.
Qed.

(** * Lemmas: rings *)

Lemma vnodes_loop_from n : ∀ i index v h h' p x,
  vnodes_loop n i index v h = Ret h' → h' !! p = Some x → h !! p = Some x ∨ x = v.
Proof.
  induction n as [|n IH]; intros i index v h h' p x; cbn; [intros [= ->]; by left|].
  intros (k & _ & Hl)%bind_Ret_inv Hp. destruct (IH _ _ _ _ _ _ _ Hl Hp) as [Hx|?]; [|by right].
  apply lookup_insert_Some in Hx as [[_ <-]|[_ Hx]]; [by right|by left].
Qed.

Lemma hosts_loop_from l : ∀ h h' p x,
  hosts_loop l h = Ret h' → h' !! p = Some x → h !! p = Some x ∨ x ∈ l.*1.
Proof.
  induction l as [|[v [i w]] l IH]; intros h h' p x; cbn; [intros [= ->]; by left|].
  intros (h1 & H1 & Hl)%bind_Ret_inv Hp. rewrite elem_of_cons.
  destruct (IH _ _ _ _ Hl Hp) as [Hx|?]; [|by right; right].
  destruct (vnodes_loop_from _ _ _ _ _ _ _ _ H1 Hx) as [?| ->]; [by left|by right; left].
Qed.

(** What a group puts on its ring. *)
Definition tmp_known (h : Hosts) (set : gset Z) (tmp : gmap (bytes * Z) (Z * Z)) : Prop :=
  ∀ hp a, is_Some (tmp !! (hp, a)) → a ∈ set ∧ ∃ e, host_alias h !! a = Some e ∧ hp = host_port_str e.

Lemma setHosts_known h set ring tmp r :
  ring_known h set ring → tmp_known h set tmp → _lock ring = false → Hash.setHosts ring tmp false = Ret r →
  ring_known h set r ∧ _lock r = false.
Proof.
  intros Hr Ht Hl. unfold Hash.setHosts, createVNodes. rewrite Hl. case_decide; [|by intros [= <-]].
  intros (br & Hbr & Heq)%bind_Ret_inv. apply bind_Ret_inv in Hbr as (m & Hm & Hbr).
  injection Hbr as <-. injection Heq as <-. split; [|done].
  intros p hp a Hp. cbn in Hp. destruct (hosts_loop_from _ _ _ _ _ Hm Hp) as [Hx|Hx]; [by apply Hr in Hx|].
  apply list_elem_of_fmap in Hx as ([[k1 k2] info] & [= -> ->] & Hk). apply elem_of_elems in Hk. apply Ht. by exists info.
Qed.

(** * Lemmas: groups *)

Definition group_of (type : bytes) (h : Hosts) : gset Z :=
  if decide (type = bs "hosts") then hosts_default h
  else if decide (type = bs "hosts_backup") then hosts_backup h else hosts_read h.

(** The three options that name a group. *)
Definition is_type (type : bytes) : Prop := type = bs "hosts" ∨ type = bs "hosts_backup" ∨ type = bs "hosts_read".

Lemma add_host_facts type h a info :
  is_type type →
  host_alias (add_host type h a info) = host_alias h ∧
  alias_index_count (add_host type h a info) = alias_index_count h ∧
  host_infos (add_host type h a info) = <[a := info]> (host_infos h) ∧
  hash (add_host type h a info) = hash h ∧ hash_backup (add_host type h a info) = hash_backup h ∧
  hash_read (add_host type h a info) = hash_read h ∧
  hosts_default h ⊆ hosts_default (add_host type h a info) ∧
  hosts_backup h ⊆ hosts_backup (add_host type h a info) ∧ hosts_read h ⊆ hosts_read (add_host type h a info) ∧
  group_of type (add_host type h a info) = {[ a ]} ∪ group_of type h.
Proof. intros [->|[->| ->]]; cbn; split_and!; done || set_solver. Qed.

Section groups.
Context {W : Type} `{!Net W, !NetOk W}.
Implicit Types (st : Hosts * gmap (bytes * Z) (Z * Z) * ConnPool * W).

Definition group_ok (type : bytes) st : Prop :=
  table_ok st.1.1.1 ∧ tmp_known st.1.1.1 (group_of type st.1.1.1) st.1.1.2 ∧ pool_ok st.2 st.1.2.

Lemma host_step_size type threads e st st' :
  host_step type threads e st = Ret st' →
  (size (host_alias st.1.1.1) <= size (host_alias st'.1.1.1))%nat ∧ hosts_default st.1.1.1 ⊆ hosts_default st'.1.1.1.
Proof.
  destruct st as [[[h tmp] p] w]. unfold host_step.
  intros (hp & _ & (n & _ & (iw & _ & (i & _ & (wt & _ & Hr)%bind_Ret_inv)%bind_Ret_inv)%bind_Ret_inv)%bind_Ret_inv)%bind_Ret_inv.
  pose proof (setHostAlias_size h hp.1 (u32 n)) as Hs.
  assert (hosts_default (setHostAlias h hp.1 (u32 n)).2 = hosts_default h) as Hd
    by (destruct (setHostAlias_cases h hp.1 (u32 n)) as [(b & -> & _)|[_ ->]]; done).
  destruct (setHostAlias h hp.1 (u32 n)) as [a h'].
  destruct (initConnection _ _ _ _ _) as [p' w']. injection Hr as <-. split; [exact Hs|].
  cbn [fst snd add_host hosts_default] in *. case_decide; set_solver.
Qed.

Lemma host_step_ok type threads e st st' :
  is_type type → host_step type threads e st = Ret st' → has_room st'.1.1.1 → group_ok type st → group_ok type st'.
Proof.
  destruct st as [[[h tmp] p] w]. unfold host_step. intros Hty
    (hp & _ & (n & _ & (iw & _ & (i & _ & (wt & _ & Hr)%bind_Ret_inv)%bind_Ret_inv)%bind_Ret_inv)%bind_Ret_inv)%bind_Ret_inv.
  destruct (setHostAlias h hp.1 (u32 n)) as [a h'] eqn:Ea.
  destruct (initConnection _ _ _ _ _) as [p' w'] eqn:Ep. injection Hr as <-. cbn [fst snd].
  intros Hroom ((Hu & Hal & Hin & Hd & Hb & Hrd) & Ht & Hp). cbn [fst snd] in *.
  set (info := (u32 i, u32 wt)) in *. destruct (add_host_facts type h' a info Hty) as (E1 & E2 & E3 & E4 & E5 & E6 & S1 & S2 & S3 & Eg).
  unfold has_room in Hroom. rewrite E1 in Hroom.
  destruct (setHostAlias_ok h hp.1 (u32 n) a h' Hal Ea Hroom) as (Hal' & Ha & Hsub & Hdom).
  assert (host_infos h' = host_infos h ∧ hash h' = hash h ∧ hash_backup h' = hash_backup h ∧ hash_read h' = hash_read h ∧
          hosts_default h' = hosts_default h ∧ hosts_backup h' = hosts_backup h ∧ hosts_read h' = hosts_read h)
    as (F1 & F2 & F3 & F4 & F5 & F6 & F7).
  { destruct (setHostAlias_cases h hp.1 (u32 n)) as [(b & Eb & _)|[_ Eb]]; rewrite Eb in Ea; injection Ea as <- <-; done. }
  rewrite F5 in S1. rewrite F6 in S2. rewrite F7 in S3.
  unfold group_ok, table_ok. cbn [fst snd]. split; [split_and!|split].
  - unfold unlocked in *. by rewrite E4, E5, E6, F2, F3, F4.
  - unfold aliases_ok in *. by rewrite E1, E2.
  - intros b. rewrite E1, E3, lookup_insert_is_Some, F1. intros Hsb. destruct (Hdom b Hsb) as [->|Hold]; [by left|].
    destruct (decide (a = b)); [by left|right]. split; [done|by apply Hin].
  - rewrite E4, F2. eapply ring_known_mono, Hd; [by rewrite E1|done].
  - rewrite E5, F3. eapply ring_known_mono, Hb; [by rewrite E1|done].
  - rewrite E6, F4. eapply ring_known_mono, Hrd; [by rewrite E1|done].
  - intros s b Hsb. cbn [fst snd] in *. rewrite Eg, E1. rewrite lookup_insert_is_Some in Hsb.
    destruct Hsb as [[= <- <-]|[_ Hsb]]; [split; [set_solver|by eexists]|].
    destruct (Ht s b Hsb) as [Hm (e' & He & ->)]. split; [|by exists e'; split; [eapply lookup_weaken|]].
    apply elem_of_union_r. revert Hm. unfold group_of. by rewrite F5, F6, F7.
  - cbn. by eapply initConnection_ok.
Qed.

Lemma host_group_loop_ok type threads l : ∀ st st',
  is_type type → host_group_loop type threads l st = Ret st' →
  (size (host_alias st.1.1.1) <= size (host_alias st'.1.1.1))%nat ∧ hosts_default st.1.1.1 ⊆ hosts_default st'.1.1.1 ∧
  (has_room st'.1.1.1 → group_ok type st → group_ok type st').
Proof.
  induction l as [|e l IH]; intros st st' Hty; cbn; [by intros [= ->]|].
  intros (st1 & H1 & Hl)%bind_Ret_inv. destruct (IH _ _ Hty Hl) as (Hs & Hd & Hok).
  destruct (host_step_size _ _ _ _ _ H1) as [Hs1 Hd1]. split; [lia|]. split; [set_solver|]. intros Hroom Hg. apply Hok; [done|].
  eapply host_step_ok; [done|done| |done]. unfold has_room in *. lia.
Qed.

Lemma set_ring_same type tmp h h' :
  set_ring type tmp h = Ret h' → host_alias h' = host_alias h ∧ hosts_default h' = hosts_default h.
Proof. unfold set_ring. repeat case_decide; try (by intros [= <-]); by intros (r & _ & [= <-])%bind_Ret_inv. Qed.

(** A ring changes with its own group only. *)
Lemma set_ring_ok type tmp h h' :
  is_type type → table_ok h → tmp_known h (group_of type h) tmp → set_ring type tmp h = Ret h' → table_ok h'.
Proof.
  intros Hty (Hu & Hal & Hin & Hd & Hb & Hr) Ht. pose proof Hu as (U1 & U2 & U3). unfold set_ring.
  destruct Hty as [-> | [-> | ->]]; cbn [decide decide_rel bool_decide] in *.
  - rewrite decide_True by done. intros (r & Hs & [= <-])%bind_Ret_inv.
    destruct (setHosts_known _ _ _ _ _ Hd Ht U1 Hs) as [Hk Hl]. by split_and!.
  - rewrite decide_False by done. case_decide; [|rewrite decide_False by naive_solver; intros [= <-]; by split_and!].
    intros (r & Hs & [= <-])%bind_Ret_inv. destruct (setHosts_known _ _ _ _ _ Hb Ht U3 Hs) as [Hk Hl]. by split_and!.
  - rewrite decide_False by done. rewrite decide_False by naive_solver.
    case_decide; [|intros [= <-]; by split_and!].
    intros (r & Hs & [= <-])%bind_Ret_inv. destruct (setHosts_known _ _ _ _ _ Hr Ht U2 Hs) as [Hk Hl]. by split_and!.
Qed.

Context {H F E : Type} `{!Dl H F, !Ext F E} `{!Threads}.
Implicit Types (px : KvProxy W F E).

(** The set-up of the hosts leaves the rest of the proxy alone. *)
Definition same_core px px' : Prop :=
  opts px' = opts px ∧ bufs px' = bufs px ∧ stats px' = stats px ∧ ptrs px' = ptrs px.

Lemma createAsyncReqThread_same px px' :
  createAsyncReqThread px = Ret px' → hosts px' = hosts px ∧ pool px' = pool px ∧ net px' = net px ∧ same_core px px'.
Proof. unfold createAsyncReqThread. repeat case_decide; try discriminate. by intros [= <-]. Qed.

Lemma setHosts_ok px type ext_name threads px' :
  is_type type → setHosts px type ext_name threads = Ret px' →
  (size (host_alias (hosts px)) <= size (host_alias (hosts px')))%nat ∧
  hosts_default (hosts px) ⊆ hosts_default (hosts px') ∧ same_core px px' ∧
  (has_room (hosts px') → table_ok (hosts px) → pool_ok (net px) (pool px) →
   table_ok (hosts px') ∧ pool_ok (net px') (pool px') ∧ (type = bs "hosts" → hosts_default (hosts px') ≠ ∅)).
Proof.
  intros Hty. unfold setHosts. destruct (getConfStr _ _ _) as [g conf].
  destruct (if decide (g = []) then _ else _) as [group conf'].
  intros ([[[h tmp] p] w] & Hl & Hrest)%bind_Ret_inv.
  case_decide as Hempty; [done|]. apply bind_Ret_inv in Hrest as (h' & Hs & Hrest).
  destruct (set_ring_same _ _ _ _ Hs) as [Ea Ed].
  assert (hosts px' = h' ∧ pool px' = p ∧ net px' = w ∧ same_core px px') as (Eh & Ep & Ew & Hsame).
  { case_decide; [|by injection Hrest as <-]. apply createAsyncReqThread_same in Hrest as (-> & -> & -> & Hc). done. }
  rewrite Eh. destruct (host_group_loop_ok _ _ _ _ _ Hty Hl) as (Hsize & Hdef & Hok). cbn [fst snd] in Hsize, Hdef.
  rewrite Ea. split; [done|]. split; [by rewrite Ed|]. split; [done|]. unfold has_room. rewrite Ea. intros Hroom Ht Hp. rewrite Ep, Ew.
  destruct Hok as (Ht' & Htmp & Hp'); [done|split; [done|]; split; [by intros hp a [? [=]]|done]|]. cbn [fst snd] in *.
  split; [by eapply set_ring_ok|]. split; [done|]. intros ->. rewrite Ed.
  destruct (map_choose tmp) as ([hp a] & v & Hv); [naive_solver|].
  destruct (Htmp hp a) as [Hin _]; [by eexists|]. intros Hno. unfold group_of in Hin. rewrite decide_True in Hin by done. set_solver.
Qed.
End groups.

(** * Lemmas: the parts of [main] *)

Section parts.
Context {W : Type} `{!Net W, !NetOk W} {H F E : Type} `{!Dl H F, !Ext F E} `{!Threads, !Libevent}.
Implicit Types (px : KvProxy W F E) (pr : program W F E).

Lemma loadExt_same px path name file px' :
  loadExt px path name file = Ret px' →
  hosts px' = hosts px ∧ pool px' = pool px ∧ net px' = net px ∧ opts px' = opts px ∧ bufs px' = bufs px ∧
  stats px' = stats px ∧ is_Some (ptrs px').
Proof.
  unfold loadExt. destruct (getConfStr _ _ _) as [s conf].
  intros (v & _ & (v1 & _ & (v2 & _ & (v3 & _ & (v4 & _ & (v5 & _ & [= <-])%bind_Ret_inv)%bind_Ret_inv)%bind_Ret_inv)%bind_Ret_inv)%bind_Ret_inv)%bind_Ret_inv.
  by split_and!.
Qed.

Lemma bufs_loop_lookup malloc size n : ∀ id m t,
  bufs_loop n malloc id size m !! t =
  if decide (id <= t < id + Z.of_nat n) then Some (new_bufs malloc t size) else m !! t.
Proof.
  induction n as [|n IH]; intros id m t; cbn [bufs_loop]; [by rewrite decide_False by lia|].
  rewrite IH. destruct (decide (id = t)) as [->|].
  - rewrite decide_False, lookup_insert_eq, decide_True by lia. done.
  - rewrite lookup_insert_ne by done. by apply decide_ext; lia.
Qed.

(** Every known host is online and without failures. *)
Definition fresh_counters (h : Hosts) (s : Stats) : Prop :=
  ∀ a, is_Some (host_alias h !! a) →
    host_offline h !! a = Some false ∧ st_fail s !! a = Some 0 ∧ st_cont_fail s !! a = Some 0.

Lemma initVar_loop_spec l : ∀ h s,
  let r := initVar_loop l h s in
  same_config h r.1 ∧ hash r.1 = hash h ∧ hash_backup r.1 = hash_backup h ∧ hash_read r.1 = hash_read h ∧
  alias_index_count r.1 = alias_index_count h ∧ st_req r.2 = st_req s ∧ st_conn r.2 = st_conn s ∧
  (∀ a, a ∈ l.*1 ∨ (host_offline h !! a = Some false ∧ st_fail s !! a = Some 0 ∧ st_cont_fail s !! a = Some 0) →
     host_offline r.1 !! a = Some false ∧ st_fail r.2 !! a = Some 0 ∧ st_cont_fail r.2 !! a = Some 0).
Proof.
  induction l as [|[a e] l IH]; intros h s; cbn [initVar_loop].
  - split_and!; try done. intros a [?%elem_of_nil|?]; done.
  - destruct (IH (with_offline h (<[a := false]> (host_offline h)))
                 (with_fails s (<[a := 0]> (st_cont_fail s)) (<[a := 0]> (st_fail s))))
      as (G1 & G2 & G3 & G4 & G5 & G6 & G7 & G8).
    cbv zeta. split_and!; try done. intros b Hb. apply G8. cbn [fmap list_fmap fst] in Hb.
    rewrite elem_of_cons in Hb. cbn [with_offline host_offline with_fails st_fail st_cont_fail].
    rewrite !lookup_insert. destruct (decide (a = b)) as [->|]; naive_solver.
Qed.

Lemma initVar_spec h s :
  fresh_counters (initVar h s).1 (initVar h s).2 ∧ (table_ok h → table_ok (initVar h s).1) ∧
  host_alias (initVar h s).1 = host_alias h ∧ hosts_default (initVar h s).1 = hosts_default h ∧
  st_req (initVar h s).2 = st_req s ∧ st_conn (initVar h s).2 = st_conn s.
Proof.
  destruct (initVar_loop_spec (elems (host_alias h)) h s) as ((A1 & A2 & A3 & A4 & A5) & G2 & G3 & G4 & G5 & G6 & G7 & G8).
  fold (initVar h s) in *. split_and!; try done.
  - intros a. rewrite A1. intros [e He]. apply G8. left. apply list_elem_of_fmap. exists (a, e).
    split; [done|]. by apply elem_of_elems.
  - intros (Hu & Hal & Hin & Hd & Hb & Hr). unfold table_ok, unlocked, aliases_ok, ring_known in *.
    by rewrite G2, G3, G4, G5, A1, A2, A3, A4, A5.
Qed.

(** What the constructor gives, and what the set-up keeps of it. *)
Definition core_new (malloc : Z → nat → Z → bytes) (count : Z) px : Prop :=
  thread_count (opts px) = count ∧
  (0 <= count → ∃ size, packet_size (opts px) = Ret size ∧
     ∀ t, 0 <= t <= count → bufs px !! t = Some (new_bufs malloc t size)) ∧
  (∀ t b, bufs px !! t = Some b → position b = 0 ∧ req_list_data b = []) ∧
  st_req (stats px) = 0 ∧ st_conn (stats px) = 0.

Lemma conf_options_count count conf r : conf_options count conf = Ret r → thread_count r.1 = count.
Proof.
  unfold conf_options.
  intros (c & _ & (s & _ & (rt & _ & (m & _ & (ft & _ & (fi & _ & (a & _ & [= <-])%bind_Ret_inv)%bind_Ret_inv)%bind_Ret_inv)%bind_Ret_inv)%bind_Ret_inv)%bind_Ret_inv)%bind_Ret_inv.
  done.
Qed.

Lemma KvProxy_new_core malloc count conf e w px :
  KvProxy_new malloc count conf None e w = Ret px →
  core_new malloc count px ∧ hosts px = hosts_new ∧ pool px = pool_new ∧ net px = w.
Proof.
  unfold KvProxy_new. intros (o & Ho & (size & Hs & [= <-])%bind_Ret_inv)%bind_Ret_inv.
  apply conf_options_count in Ho. split; [|done]. split; [done|]. split; [|split; [|done]].
  - intros Hc. rewrite decide_False in Hs by lia.
    exists size. split; [done|]. intros t Ht. cbn. rewrite bufs_loop_lookup, decide_True by lia. done.
  - intros t b. cbn [bufs]. rewrite bufs_loop_lookup. destruct (decide (0 <= t < _)); [|by rewrite lookup_empty].
    intros Hb. injection Hb as Hb. by rewrite <- Hb.
Qed.

Lemma table_new : table_ok hosts_new.
Proof.
  split; [done|]. split; [|split; [by intros a [? [=]]|]; by split_and!].
  split; [done|]. split; [|done]. intros a. split; [by intros [? [=]]|]. cbn. lia.
Qed.

(** The extension, and the three groups. *)
Lemma main_setup_ok px cwd threads px' :
  main_setup px cwd threads = Ret px' →
  opts px' = opts px ∧ bufs px' = bufs px ∧ stats px' = stats px ∧ is_Some (ptrs px') ∧
  (has_room (hosts px') → table_ok (hosts px) → pool_ok (net px) (pool px) →
   table_ok (hosts px') ∧ pool_ok (net px') (pool px') ∧ hosts_default (hosts px') ≠ ∅).
Proof.
  unfold main_setup. destruct (getConfStr (px_conf px) _ _) as [path conf].
  destruct (getConfStr conf _ _) as [file conf'].
  intros (p1 & G1 & (p2 & G2 & (p3 & G3 & G4)%bind_Ret_inv)%bind_Ret_inv)%bind_Ret_inv.
  apply loadExt_same in G1 as (E1 & E2 & E3 & E4 & E5 & E6 & E7).
  destruct (setHosts_ok _ _ _ _ _ (or_introl eq_refl) G2) as (S2 & D2 & (O2 & B2 & T2 & P2) & K2).
  destruct (setHosts_ok _ _ _ _ _ (or_intror (or_introl eq_refl)) G3) as (S3 & D3 & (O3 & B3 & T3 & P3) & K3).
  destruct (setHosts_ok _ _ _ _ _ (or_intror (or_intror eq_refl)) G4) as (S4 & D4 & (O4 & B4 & T4 & P4) & K4).
  split_and!; [by rewrite O4, O3, O2, E4|by rewrite B4, B3, B2, E5|by rewrite T4, T3, T2, E6|by rewrite P4, P3, P2|].
  intros Hroom Ht Hp. rewrite E1, E2, E3 in K2. unfold has_room in *.
  destruct (K2 ltac:(lia) Ht Hp) as (K2a & K2b & Hne). destruct (K3 ltac:(lia) K2a K2b) as (K3a & K3b & _).
  destruct (K4 Hroom K3a K3b) as (K4a & K4b & _).
  split; [done|]. split; [done|]. specialize (Hne eq_refl). set_solver.
Qed.
End parts.

Lemma addSignalEvent_same `{!Libevent} s sig b s' :
  addSignalEvent s sig = Ret (b, s') →
  m_threads s' = m_threads s ∧ m_thread_count s' = m_thread_count s ∧ conns s' = conns s ∧ last_thread s' = last_thread s.
Proof.
  unfold addSignalEvent, deleteSignalEvent. destruct (evsignal_new sig) as [ev|]; [|done].
  destruct (negb (event_add ev)); [by intros [= _ <-]|]. by destruct (_ !! _); intros [= _ <-].
Qed.

(** * Properties *)

(** What the loops of the program find: workers without connections; a parser; buffers for every
    worker and for the copies; a table of hosts with their connections, all online. *)
Definition ready {W} `{!Net W} {F E} (malloc : Z → nat → Z → bytes) (pr : program W F E) : Prop :=
  let px := pr_px pr in
  let n := thread_count (opts px) in
  server_ok (pr_server pr, {| accepted := []; closed := [] |}) ∧
  Z.of_nat (length (m_threads (pr_server pr))) = m_thread_count (pr_server pr) ∧
  core_new malloc n px ∧ m_thread_count (pr_server pr) = u32 n ∧ is_Some (ptrs px) ∧
  fresh_counters (hosts px) (stats px) ∧
  (has_room (hosts px) → table_ok (hosts px) ∧ pool_ok (net px) (pool px) ∧ hosts_default (hosts px) ≠ ∅) ∧
  last_thread (pr_server pr) = -1.

Lemma main_makes_ready {W} `{!Net W, !NetOk W} {H F E} `{!Dl H F, !Ext F E, !Threads, !Libevent}
    linux pid fs logfs malloc args (e : E) (w : W) (pr : program W F E) :
  main linux pid fs logfs malloc args e w = Ret pr → ready malloc pr.
Proof.
  unfold main. destruct args as [|bin args]; [done|].
  intros (o & _ & (cwd & _ & (c & _ & ([] & _ & (lg & _ & Hmain)%bind_Ret_inv)%bind_Ret_inv)%bind_Ret_inv)%bind_Ret_inv)%bind_Ret_inv.
  destruct (getConfBool _ _ _) as [aff conf].
  apply bind_Ret_inv in Hmain as (n & _ & Hmain). apply bind_Ret_inv in Hmain as (srv & Hsrv & Hmain).
  apply bind_Ret_inv in Hmain as (px & Hpx & Hmain). apply bind_Ret_inv in Hmain as (px1 & Hset & Hmain).
  destruct (KvProxy_new_core _ _ _ _ _ _ Hpx) as (Hcore & Hh & Hp & Hw).
  destruct (Server_new_ok _ _ _ Hsrv) as (Hs1 & Hs2 & Hs3 & Hs4 & _).
  set (count := i32 _) in *.
  unfold main_start in Hmain. cbn [pr_px pr_server pr_log] in Hmain.
  apply bind_Ret_inv in Hmain as ([b srv'] & Hsig & Hmain).
  destruct (initVar_spec (hosts px1) (stats px1)) as (Hf & Ht & Ha & Hd & Hr & Hc).
  destruct (initVar (hosts px1) (stats px1)) as [h s]. cbn [fst snd] in *.
  destruct (main_setup_ok _ _ _ _ Hset) as (O1 & B1 & T1 & P1 & K1).
  apply bind_Ret_inv in Hmain as ([] & _ & Hmain). apply bind_Ret_inv in Hmain as (port & _ & Hmain).
  apply bind_Ret_inv in Hmain as (bl & _ & Hmain). apply bind_Ret_inv in Hmain as (pin & _ & [= <-]).
  apply addSignalEvent_same in Hsig as (Et & En & Ec & El).
  assert (thread_count (opts px1) = count) as Hn by (rewrite O1; apply Hcore).
  unfold ready. cbn [pr_px pr_server]. cbn [put_statics put_stats put_hosts opts hosts stats pool net ptrs].
  rewrite Hn. split_and!.
  - destruct Hs1 as (ls & (Q1 & Q2 & Q3) & R1 & R2). exists ls. unfold queues_ok. cbn. rewrite Et, Ec. by split_and!.
  - cbn. rewrite Et, En. lia.
  - destruct Hcore as (_ & Hb & Hz & Hrq & Hcn). split; [exact Hn|]. cbn. rewrite O1, B1, Hr, Hc, T1. by split_and!.
  - cbn. by rewrite En.
  - done.
  - done.
  - unfold has_room. rewrite Ha. intros Hroom. destruct K1 as (K1a & K1b & K1c); [done|by rewrite Hh; apply table_new| |].
    { rewrite Hp. apply pool_new_ok. }
    rewrite Hd. split; [by apply Ht|by split].
  - cbn. by rewrite El.
Qed.

(** C12: when the program starts at all, its parts fit: there is a worker, a queue and a set of
    buffers for each thread, the extension's functions are found, every host is online with no
    failures counted, and each ring names only hosts of its group, by the one alias of an address. *)
Theorem main_ready {W} `{!Net W, !NetOk W} {H F E} `{!Dl H F, !Ext F E, !Threads, !Libevent}
    linux pid fs logfs malloc args (e : E) (w : W) (pr : program W F E) :
  main linux pid fs logfs malloc args e w = Ret pr → ready malloc pr.
Proof. apply main_makes_ready. Qed.

(** Without the macro [linux] - which a compiler told [-std=c++0x], as [build.sh] does, does not
    define - a configuration without [thread_count] starts a server with no workers, for which the
    first connection divides by zero. *)
Theorem main_no_workers {W} `{!Net W} {H F E} `{!Dl H F, !Ext F E, !Threads, !Libevent}
    pid fs logfs malloc bin args (e : E) (w : W) (pr : program W F E) o cwd c fd :
  options_loop (getopt (length args) args) {| is_daemon := false; opt_conf_path := [] |} = Ret o →
  get_cwd bin = Ret cwd →
  loadConf fs (setConfFile config_new
    (if decide (opt_conf_path o = []) then cwd ++ bs "../etc/kvproxy.ini" else opt_conf_path o)) = Ret c →
  (getConfStr c (bs "kvproxy") (bs "thread_count")).1 = [] →
  main false pid fs logfs malloc (bin :: args) e w = Ret pr →
  listenerEventCb (pr_server pr) fd = Undef DivByZero.
Proof.
  intros Ho Hc Hl Hno. unfold main. rewrite Ho. cbn [mbind outcome_bind]. rewrite Hc. cbn [mbind outcome_bind].
  rewrite Hl. cbn [mbind outcome_bind]. intros ([] & _ & ([lg c1] & Hlg & Hmain)%bind_Ret_inv)%bind_Ret_inv.
  assert (c1 ≡ c) as E1.
  { revert Hlg. unfold initLog.
    pose proof (getConfStr_equiv c (bs "kvproxy") (bs "log_path")) as G1. destruct (getConfStr c (bs "kvproxy") (bs "log_path")) as [v c2].
    intros (lg1 & _ & Hr)%bind_Ret_inv.
    pose proof (getConfStr_equiv c2 (bs "kvproxy") (bs "log_level")) as G2. destruct (getConfStr c2 (bs "kvproxy") (bs "log_level")) as [v2 c3].
    injection Hr as _ <-. cbn in *. by rewrite G2. }
  pose proof (getConfStr_equiv c1 (bs "kvproxy") (bs "cpu_affinity")) as E2. cbn [snd] in Hmain.
  unfold getConfBool in Hmain. destruct (getConfStr c1 (bs "kvproxy") (bs "cpu_affinity")) as [v c2] eqn:Ea. cbn [fst snd] in E2.
  assert ((getConfStr c2 (bs "kvproxy") (bs "thread_count")).1 = []) as Hno2.
  { rewrite <- Hno. apply getConfStr_proper; [by rewrite E2|done|done]. }
  unfold getConfInt at 1 in Hmain. destruct (getConfStr c2 (bs "kvproxy") (bs "thread_count")) as [v3 c3] eqn:Et. cbn [fst] in Hno2. subst v3.
  rewrite decide_True in Hmain by done. cbn [mbind outcome_bind fst snd worker_count negb] in Hmain.
  apply bind_Ret_inv in Hmain as (srv & Hsrv & Hmain). apply Server_new_ok in Hsrv as (_ & Hn & _).
  apply bind_Ret_inv in Hmain as (px & _ & Hmain). apply bind_Ret_inv in Hmain as (px1 & _ & Hmain).
  unfold main_start in Hmain. cbn [pr_px pr_server] in Hmain. apply bind_Ret_inv in Hmain as ([b srv'] & Hsig & Hmain).
  destruct (initVar _ _) as [h s]. repeat (apply bind_Ret_inv in Hmain as (? & _ & Hmain)). injection Hmain as <-.
  apply addSignalEvent_same in Hsig as (_ & En & _ & _). unfold listenerEventCb. cbn.
  rewrite decide_True; [done|]. by rewrite En, Hn.
Qed.

(** * A run of [main] *)

#[local] Instance demo_threads : Threads := {| mutex_init := 0; pthread_create := 0 |}.
#[local] Existing Instance Server.demo_libevent.

(** A configuration file, and the program started with "-c" and its name. *)
Definition demo_main_ini (threads : list bytes) : bytes :=
  concat ((λ l, l ++ [x0a]) <$> [bs "[kvproxy]"] ++ threads ++
    [bs "[memcached]"; bs "extension=memcached.so"; bs "hosts=master"; bs "[master]"; bs "127.0.0.1:11211=1:3"]).

Abbreviation demo_args := [bs "/opt/bin/kvproxy"; bs "-c"; bs "k.ini"].

Definition demo_fs (threads : list bytes) (f : bytes) : option bytes :=
  if decide (f = bs "k.ini") then Some (demo_main_ini threads) else None.
Abbreviation demo_main linux threads :=
  (main (H := unit) linux 0 (demo_fs threads) (λ _, Some []) (λ _ _ _, []) demo_args statics_init
    (sim_init [(bs "127.0.0.1", 11211)] [] []) : outcome (program sim memcached_sym statics)).

(** The run with two workers. *)
Lemma demo_run :
  ∃ pr, demo_main true [bs "thread_count=2"] = Ret pr ∧
    host_alias (hosts (pr_px pr)) = {[ 1 := (bs "127.0.0.1", 11211) ]} ∧ m_thread_count (pr_server pr) = 2.
Proof.
  assert ((pr ← demo_main true [bs "thread_count=2"]; Ret (host_alias (hosts (pr_px pr)), m_thread_count (pr_server pr)))
          = Ret ({[ 1 := (bs "127.0.0.1", 11211) ]}, 2)) as Hr by (vm_compute; reflexivity).
  destruct (demo_main true [bs "thread_count=2"]) as [pr| | |]; [|discriminate Hr..].
  exists pr. split; [reflexivity|]. injection Hr as E1 E2. split; [exact E1|exact E2].
Qed.

Lemma main_ready_witness :
  ∃ pr, demo_main true [bs "thread_count=2"] = Ret pr ∧ ready (λ _ _ _, []) pr ∧
    host_alias (hosts (pr_px pr)) = {[ 1 := (bs "127.0.0.1", 11211) ]} ∧ m_thread_count (pr_server pr) = 2.
Proof.
  destruct demo_run as (pr & E & E1 & E2). exists pr. split; [exact E|]. split; [|split; [exact E1|exact E2]].
  exact (main_ready _ _ _ _ _ _ _ _ _ E).
Defined.

Lemma main_no_workers_witness :
  ∃ pr, demo_main false [] = Ret pr ∧ ∀ fd, listenerEventCb (pr_server pr) fd = Undef DivByZero.
Proof.
  assert (is_ret (demo_main false []) = true) as Hr by (vm_compute; reflexivity).
  destruct (is_ret_inv _ Hr) as [pr E]. clear Hr. exists pr. split; [exact E|]. intros fd.
  assert ((c ← loadConf (demo_fs []) (setConfFile config_new (bs "k.ini"));
           Ret (getConfStr c (bs "kvproxy") (bs "thread_count")).1) = Ret []) as Hc by (vm_compute; reflexivity).
  destruct (loadConf (demo_fs []) (setConfFile config_new (bs "k.ini"))) as [c| | |] eqn:Ec; [|discriminate Hc..].
  refine (main_no_workers (H := unit) 0 (demo_fs []) (λ _, Some []) (λ _ _ _, []) (bs "/opt/bin/kvproxy")
            [bs "-c"; bs "k.ini"] statics_init (sim_init [(bs "127.0.0.1", 11211)] [] []) pr
            {| is_daemon := false; opt_conf_path := bs "k.ini" |} (bs "/opt/bin/") c fd _ _ _ _ E).
  - reflexivity.
  - vm_compute. reflexivity.
  - exact Ec.
  - by injection Hc.
Defined.
