(* ===== verification/Clients.v ===== *)
(** More of [KvProxy::readEvent] of [src/kvproxy.cpp]: the requests it does not forward, the copies
    it queues for the backup hosts, and the count of clients over the life of the program. *)
From S2P Require Import Prelude StdMap Util Config Log ConnQueue Server.
From S2P Require Import Hash Extension Net ConnPool Failover Request Backend Evbuf KvProxy Main Setup.
From S2P Require Import Memcached MemcachedBinary Transparency.

(** * Requests that are not forwarded *)

Section refused.
Context {W : Type} `{!Net W} {F E : Type} `{!Ext F E} {B : Type} `{!Evbuf B, !EvbufOk B}.
Implicit Types (px : KvProxy W F E) (cl : Client B).

(** Nothing but the parser's own state changed. *)
Definition undisturbed px px' : Prop :=
  net px' = net px ∧ hosts px' = hosts px ∧ pool px' = pool px ∧ stats px' = stats px ∧ async_req px' = async_req px.

Lemma put_buf_undisturbed px px' t b : undisturbed px px' → undisturbed px (put_buf px' t b).
Proof. done. Qed.

Lemma put_statics_undisturbed px px' e c : undisturbed px px' → undisturbed px (put_statics px' e c).
Proof. done. Qed.

Lemma clear_all cl d n :
  in_ok (m_read_buf cl) → content_of (m_read_buf cl) = d → n = Z.of_nat (length d) → n < 2 ^ 32 →
  content_of (m_read_buf (clearReadBuf cl n)) = [].
Proof.
  intros Hok Hd -> Hn. cbn. rewrite u32_small by lia.
  destruct (drain_content (m_read_buf cl) (Z.of_nat (length d)) Hok ltac:(lia)) as (_ & -> & _).
  by rewrite Hd, Nat2Z.id, drop_all.
Qed.
End refused.

(** C35: a request that cannot be served disturbs nothing: one that is larger than the buffers is
    dropped; one the parser does not accept leaves the hosts, the connections and the answer alone,
    is kept when the parser asks for more and dropped otherwise, and the next request is parsed
    from the start. *)
Theorem readEvent_refuses {W} `{!Net W} {F E} `{!Ext F E} {B} `{!Evbuf B, !EvbufOk B}
    (px : KvProxy W F E) (cl : Client B) fuel fast d :
  let t := cl_thread cl in
  let b := k_buf (worker px t) in
  let n := Z.of_nat (length d) in
  in_ok (m_read_buf cl) → content_of (m_read_buf cl) = d → n <= INT_MAX → Z.of_nat (length fast) = FAST_BUFF_SIZE →
  (FAST_BUFF_SIZE < n → req_buf_size b < n →
   ∃ cl', readEvent fuel fast px cl = Ret (px, cl') ∧ content_of (m_read_buf cl') = [] ∧ m_write_buf cl' = m_write_buf cl) ∧
  (∀ p h ret pos l e conf, n <= FAST_BUFF_SIZE → ptrs px = Some p →
   let mem := d ++ drop (length d) fast in
   mem_read mem 0 6 = Ret h → h ≠ bs "status" ∨ 8 < n →
   parse_req (ptr_parse_req p) (statics_ px) (px_conf px) mem n (position b) (req_list_data b) = Ret (ret, pos, l, e, conf) →
   ret ≠ SUCCESS →
   ∃ px' cl', readEvent fuel fast px cl = Ret (px', cl') ∧ undisturbed px px' ∧ m_write_buf cl' = m_write_buf cl ∧
     content_of (m_read_buf cl') = (if decide (ret = AGAIN) then d else []) ∧
     position (k_buf (worker px' t)) = 0 ∧ req_list_data (k_buf (worker px' t)) = []).
Proof.
  intros t b n Hok Hd Hmax Hfast. assert (0 <= n) as Hn0 by (unfold n; lia). unfold readEvent. fold t. unfold getReadBufLen, CopyReadBuf, FAST_BUFF_SIZE, INT_MAX in *.
  rewrite get_length_content, Hd by done. fold n.
  assert (i32 n = n) as Hi by (apply i32_small; unfold is_int, INT_MIN, INT_MAX; lia). rewrite Hi.
  rewrite u32_small by lia. rewrite copyout_content, Hd by (done || lia). unfold n. rewrite Nat2Z.id, firstn_all. fold n. fold b.
  unfold request_buf, FAST_BUFF_SIZE. split.
  - intros Hbig Hbuf. rewrite !decide_False by lia. cbn [mbind outcome_bind]. eexists. split; [done|].
    split; [|done]. by apply (clear_all cl d); (done || lia).
  - intros p h ret pos l e conf Hn Hp Hh Hst Hparse Hret. rewrite decide_True by lia.
    pose proof (mem_write_append [] fast d ltac:(lia)) as Hmw. change (Z.of_nat (length [])) with 0 in Hmw. cbn [app] in Hmw.
    rewrite Hmw. cbn [mbind outcome_bind]. rewrite Hh. cbn [mbind outcome_bind].
    fold n. rewrite Hi. rewrite decide_False by (intros [? ?]; naive_solver lia).
    change (ptrs (put_buf px t b)) with (ptrs px). rewrite Hp. cbn [need mbind outcome_bind].
    change (statics_ (put_buf px t b)) with (statics_ px). change (px_conf (put_buf px t b)) with (px_conf px).
    rewrite Hparse. cbn [mbind outcome_bind].
    destruct ret; [|done|..]; cbn [mbind outcome_bind]; eexists _, _; (split; [reflexivity|]);
      (split; [by apply put_buf_undisturbed, put_statics_undisturbed, put_buf_undisturbed, put_buf_undisturbed|]);
      (split; [done|]); rewrite worker_put_buf; cbn [k_buf with_buf]; (split; [|done]).
    all: first [rewrite decide_True by done; exact Hd | rewrite decide_False by done; by apply (clear_all cl d); (done || lia)].
Qed.

(** Ten bytes of a request are kept. *)
Lemma readEvent_refuses_witness :
  let d := take 10 (packet_bytes demo_set_a) in
  ∃ px' cl', readEvent 5 (replicate (Z.to_nat FAST_BUFF_SIZE) x00) (demo_proxy [] []) (demo_client d) = Ret (px', cl') ∧
    plain_bytes (m_read_buf cl') = d ∧ plain_bytes (m_write_buf cl') = [].
Proof.
  intros d. set (fast := replicate (Z.to_nat FAST_BUFF_SIZE) x00).
  destruct (readEvent_refuses (demo_proxy [] []) (demo_client d) 5 fast d) as [_ Hr].
  - exact I.
  - reflexivity.
  - vm_compute. congruence.
  - vm_compute. reflexivity.
  - destruct (Hr memcached_ptrs (take 6 d) AGAIN 0 [] (init_statics statics_init demo_conf0).1
                (init_statics statics_init demo_conf0).2) as (px' & cl' & E & _ & Hw & Hc & _).
    + vm_compute. congruence.
    + reflexivity.
    + vm_compute. reflexivity.
    + left. vm_compute. congruence.
    + vm_compute. reflexivity.
    + congruence.
    + exists px', cl'. split; [exact E|]. split; [exact Hc|]. rewrite Hw. reflexivity.
Defined.

(** * Copies for the backup hosts *)

(** The copies [cs] of the requests [reqs], which point into [mem]. *)
Definition copies (mem : bytes) (reqs : list req_t) (cs : comm_list_t) : Prop :=
  Forall2 (λ r c, comm_ext c = ext r ∧ mem_read mem (content r) (content_len r) = Ret (comm_content c)) reqs cs.

Definition copyable (mem : bytes) (r : req_t) : Prop := is_ret (mem_read mem (content r) (content_len r)) = true.

Lemma copy_list_ok mem reqs : Forall (copyable mem) reqs → ∃ cs, copy_list mem reqs = Ret cs ∧ copies mem reqs cs.
Proof.
  induction 1 as [|r reqs Hr _ (cs & E & Hc)]; [by exists []; split; [|constructor]|].
  apply is_ret_inv in Hr as [d Hd]. eexists. cbn. unfold copy_req. rewrite Hd. cbn [mbind outcome_bind]. rewrite E.
  split; [done|]. by constructor.
Qed.

Lemma copy_groups_ok mem l : ∀ m,
  NoDup l.*1 → (∀ a reqs, (a, reqs) ∈ l → m !! a = None ∧ reqs ≠ [] ∧ Forall (copyable mem) reqs) →
  ∃ g, copy_groups mem l m = Ret g ∧
    (∀ a reqs, (a, reqs) ∈ l → ∃ cs, g !! a = Some cs ∧ copies mem reqs cs) ∧
    (∀ a, a ∉ l.*1 → g !! a = m !! a).
Proof.
  induction l as [|[a reqs] l IH]; intros m Hnd Hall.
  { exists m. split; [done|]. split; [by intros a reqs ?%elem_of_nil|done]. }
  apply NoDup_cons in Hnd as [Hni Hnd]. destruct (Hall a reqs) as (Hm & Hne & Hcp); [by left|].
  destruct (copy_list_ok mem reqs Hcp) as (cs & E & Hcs). cbn [copy_groups]. rewrite E. cbn [mbind outcome_bind].
  assert (cs ≠ []) as Hcne by (intros ->; inversion Hcs; by subst). rewrite decide_False by done. rewrite Hm. cbn [default app].
  destruct (IH (<[a := cs]> m) Hnd) as (g & Eg & Hg & Ho).
  { intros b rs Hb. destruct (Hall b rs) as (? & ? & ?); [by right|]. split; [|done]. rewrite lookup_insert_ne; [done|].
    intros ->. apply Hni. apply list_elem_of_fmap. by exists (b, rs). }
  exists g. split; [exact Eg|]. split.
  - intros b rs [[= -> ->]|Hb]%elem_of_cons; [|by apply Hg].
    exists cs. split; [|done]. rewrite Ho by done. apply lookup_insert_eq.
  - intros b Hb. cbn in Hb. rewrite not_elem_of_cons in Hb. destruct Hb as [Hb1 Hb2]. rewrite Ho by done.
    by rewrite lookup_insert_ne.
Qed.

(** C30: the copies of a client's updates are queued as one entry behind the earlier ones, for every
    backup host the bytes of its requests in their order, so that the client's buffer can be
    reused; a full queue is left as it is, and never grows beyond [async_size]. *)
Theorem push_async_copies {W} `{!Net W} {F E} `{!Ext F E} (px : KvProxy W F E) (mem : bytes) (backup : req_group_t) :
  (∀ a reqs, backup !! a = Some reqs → reqs ≠ [] ∧ Forall (copyable mem) reqs) →
  Z.of_nat (length (async_req px)) <= async_size (opts px) <= INT_MAX →
  ∃ px', push_async px mem backup = Ret px' ∧
    Z.of_nat (length (async_req px')) <= async_size (opts px) ∧
    if decide (backup = ∅ ∨ async_size (opts px) <= Z.of_nat (length (async_req px))) then px' = px
    else ∃ g, async_req px' = async_req px ++ [g] ∧
      (∀ a reqs, backup !! a = Some reqs → ∃ cs, g !! a = Some cs ∧ copies mem reqs cs) ∧
      (∀ a, backup !! a = None → g !! a = None).
Proof.
  intros Hall Hlen. unfold push_async. rewrite i32_small by (unfold is_int, INT_MIN, INT_MAX in *; lia).
  case_decide as Hpush.
  - destruct (copy_groups_ok mem (elems backup) ∅) as (g & -> & Hg & Ho).
    { apply elems_NoDup_keys. }
    { intros a reqs Ha. apply elem_of_elems in Ha. by split; [|apply (Hall a)]. }
    cbn [mbind outcome_bind]. eexists. split; [done|]. cbn [put_async async_req]. rewrite length_app. cbn [length].
    split; [lia|]. rewrite decide_False by naive_solver lia. exists g. split; [done|]. split.
    + intros a reqs Ha. apply Hg. by apply elem_of_elems.
    + intros a Ha. rewrite Ho; [done|]. intros ([? reqs] & -> & Hin)%list_elem_of_fmap. apply elem_of_elems in Hin.
      cbn in Ha. congruence.
  - exists px. split; [done|]. split; [lia|]. rewrite decide_True; [done|].
    destruct (decide (backup = ∅)); [by left|right]. apply Z.nlt_ge. naive_solver.
Qed.

Lemma push_async_copies_witness :
  let r := single_item true (p_head demo_set_a) in
  ∃ px' g cs, push_async (demo_proxy [] []) (packet_bytes demo_set_a) {[ 2 := [r] ]} = Ret px' ∧
    async_req px' = [g] ∧ g !! 2 = Some cs ∧ copies (packet_bytes demo_set_a) [r] cs.
Proof.
  intros r. destruct (push_async_copies (demo_proxy [] []) (packet_bytes demo_set_a) {[ 2 := [r] ]}) as (px' & E & _ & H).
  - intros a reqs [<- <-]%lookup_singleton_Some. split; [discriminate|]. constructor; [|constructor]. vm_compute. reflexivity.
  - vm_compute. split; congruence.
  - rewrite decide_False in H by (intros [Hx|Hx]; [apply (f_equal (λ m : req_group_t, m !! 2)) in Hx; vm_compute in Hx; discriminate Hx|revert Hx; vm_compute; congruence]).
    destruct H as (g & Hg & Hc & _). destruct (Hc 2 [r]) as (cs & Hcs & Hcp); [reflexivity|].
    exists px', g, cs. split; [exact E|]. split; [exact Hg|]. split; [exact Hcs|exact Hcp].
Defined.

(** * The count of clients *)

Section counting.
Context {W : Type} `{!Net W} {F E : Type} `{!Ext F E}.
Implicit Types (k : Backend W) (px : KvProxy W F E).

Lemma countFail_conn s is_fail a : st_conn (countFail s is_fail a) = st_conn s.
Proof.
  unfold countFail. destruct is_fail; [|by destruct (at_ _ _ _)].
  destruct (at_ _ _ _) as [f m]. case_decide; [|done]. by destruct (at_ _ _ _).
Qed.

Lemma getConnection_stats a t k : k_stats (getConnection a t k).2 = k_stats k.
Proof.
  unfold getConnection. destruct (at_ _ _ _) as [e m]. by destruct (ConnPool.getConnection _ _ _ _ _) as [[c p] w].
Qed.

Lemma write_stats fuel : ∀ fd d len n a t k r,
  writeToBackend_loop fuel fd d len n a t k = Ret r → k_stats r.2 = k_stats k.
Proof.
  induction fuel as [|fuel IH]; intros fd d len n a t k r; cbn [writeToBackend_loop]; [done|].
  intros (m & _ & Hr)%bind_Ret_inv. destruct (sys_send _ _ _) as [x w]. case_decide.
  - apply bind_Ret_inv in Hr as (n' & _ & Hr). case_decide; [by injection Hr as <-|]. by apply IH in Hr.
  - case_decide; [by apply IH in Hr|]. destruct (destoryConnection _ _ _) as [p w'].
    pose proof (getConnection_stats a t (with_net k p w')) as Hs. destruct (getConnection _ _ _) as [fd' k'].
    cbn [snd] in Hs. change (k_stats (with_net k p w')) with (k_stats k) in Hs.
    case_decide; [by injection Hr as <-|]. apply IH in Hr. congruence.
Qed.

Lemma read_stats fuel : ∀ f tmo fd pos l k r,
  readFromBackend_loop fuel f tmo fd pos l k = Ret r → k_stats r.2 = k_stats k.
Proof.
  induction fuel as [|fuel IH]; intros f tmo fd pos l k r; cbn [readFromBackend_loop]; [done|].
  case_decide; [done|]. destruct (sys_select _ _ _) as [[x isset] w].
  case_decide; [case_decide; [by intros ?%IH|by intros [= <-]]|]. case_decide; [by intros [= <-]|].
  destruct (negb isset); [by intros ?%IH|]. destruct (sys_recv _ _ _) as [[len d] w'].
  case_decide.
  - intros (m & _ & (n & _ & Hr)%bind_Ret_inv)%bind_Ret_inv. case_decide; [by injection Hr as <-|].
    apply bind_Ret_inv in Hr as ([[e pos'] l'] & _ & Hr). destruct e; [by apply IH in Hr|by injection Hr as <-..|by apply IH in Hr].
  - case_decide; [destruct (destoryConnection _ _ _) as [p w'']; by intros ?%IH|].
    repeat case_decide; try (by intros [= <-]); by intros ?%IH.
Qed.

#[local] Opaque countFail.

Lemma host_turn_conn fuel f tmo a t created l k r :
  host_turn fuel f tmo a t created l k = Ret r → st_conn (k_stats r.2) = st_conn (k_stats k).
Proof.
  destruct created as [[e m] len]. unfold host_turn. case_decide; [|by intros [= <-]].
  pose proof (getConnection_stats a t (with_buf k (with_backend (k_buf k) m len))) as Hg.
  destruct (getConnection _ _ _) as [fd k1]. cbn [snd] in Hg. change (k_stats (with_buf k _)) with (k_stats k) in Hg.
  case_decide; [intros [= <-]; cbn [snd with_stats k_stats]; by rewrite countFail_conn, Hg|].
  intros ([[n fd'] k2] & Hw & Hr)%bind_Ret_inv. apply write_stats in Hw. cbn [snd] in Hw.
  apply bind_Ret_inv in Hr as ([l' k3] & Hr & [= <-]).
  change (st_conn (k_stats k3) = st_conn (k_stats k)). case_decide.
  - apply bind_Ret_inv in Hr as ([l4 k4] & Hrd & [= _ <-]). apply read_stats in Hrd. cbn [snd with_stats k_stats] in *.
    change (k_stats (resp_done k2)) with (k_stats k2) in Hrd. rewrite countFail_conn. congruence.
  - case_decide; injection Hr as _ <-; cbn [with_stats k_stats]; rewrite ?countFail_conn; congruence.
Qed.

Lemma talk_conn fuel p tmo g mem t k k' :
  talkToBackend fuel p tmo g mem t k = Ret k' → st_conn (k_stats k') = st_conn (k_stats k).
Proof.
  unfold talkToBackend. intros ([l k1] & Hl & ([[e m] n] & _ & [= <-])%bind_Ret_inv)%bind_Ret_inv. cbn.
  revert Hl. generalize (@nil resp_t). generalize k as k0. induction (elems g) as [|[a reqs] gs IH]; intros k0 l0; cbn [talk_loop].
  - by intros [= _ <-].
  - intros (c & _ & ([l2 k2] & Ht & Hl)%bind_Ret_inv)%bind_Ret_inv. apply host_turn_conn in Ht. apply IH in Hl. cbn in *. congruence.
Qed.

Lemma push_async_stats px mem b px' : push_async px mem b = Ret px' → stats px' = stats px.
Proof. unfold push_async. case_decide; [|by intros [= <-]]. by intros (g & _ & [= <-])%bind_Ret_inv. Qed.

Context {B : Type} `{!Evbuf B}.

Lemma serve_conn fuel p mem px (cl : Client B) r :
  serve fuel p mem px cl = Ret r → st_conn (stats r.1) = st_conn (stats px).
Proof.
  unfold serve. set (px1 := put_stats px _).
  assert (st_conn (stats px1) = st_conn (stats px)) as E0 by (unfold px1; cbn; by case_decide).
  intros ([[g b] s] & _ & (k & Hk & (px2 & H2 & (px3 & H3 & Hr)%bind_Ret_inv)%bind_Ret_inv)%bind_Ret_inv)%bind_Ret_inv.
  apply talk_conn in Hk. apply push_async_stats in H2. cbn in H2, Hk.
  assert (st_conn (stats px3) = st_conn (stats px2)) as E3.
  { clear Hr. case_decide; [|by injection H3 as <-]. apply bind_Ret_inv in H3 as (k' & Hk' & [= <-]). by apply talk_conn in Hk'. }
  assert (stats r.1 = stats px3) as ->.
  { clear H3. case_decide; [|by injection Hr as <-]. by apply bind_Ret_inv in Hr as (d & _ & [= <-]). }
  rewrite E3, H2, Hk. exact E0.
Qed.

Lemma getStatus_conn px : st_conn (stats (getStatus px).2) = Z.max 0 (st_conn (stats px)).
Proof.
  unfold getStatus. destruct (counters_loop _ _ _ _) as [[f n] m]. destruct (counters_loop _ _ _ _) as [[f2 n2] m2].
  destruct (offline_lines _ _ _ _) as [[f3 n3] m3]. cbn. case_decide; lia.
Qed.

(** A request does not change the count - but for "status", which takes a negative one for 0. *)
Lemma readEvent_conn fuel fast px (cl : Client B) r :
  readEvent fuel fast px cl = Ret r → 0 <= st_conn (stats px) → st_conn (stats r.1) = st_conn (stats px).
Proof.
  unfold readEvent. intros ([[mem b]|] & _ & Hr)%bind_Ret_inv Hpos; [|by injection Hr as <-].
  apply bind_Ret_inv in Hr as (h & _ & Hr). case_decide.
  - pose proof (getStatus_conn (put_buf px (cl_thread cl) b)) as Hs. destruct (getStatus _) as [s px'].
    injection Hr as <-. cbn in *. lia.
  - apply bind_Ret_inv in Hr as (p & _ & ([[[[e pos] l] st] conf] & _ & Hr)%bind_Ret_inv).
    apply bind_Ret_inv in Hr as ([px' cl'] & Hr & [= <-]). cbn.
    destruct e; [by injection Hr as <- <-|apply serve_conn in Hr; exact Hr|by injection Hr as <- <-..].
Qed.
End counting.

(** * Runs of the program *)

Section runs.
Context {W : Type} `{!Net W} {F E : Type} `{!Ext F E} {B : Type} `{!Evbuf B, !Libevent}.
Implicit Types (pr : program W F E) (g : history).

(** The events of a run, in any order: a connection is accepted, a worker reads its pipe, a client
    sends or is sent something, a connection closes, the program is told to quit. *)
Inductive prog_step : program W F E * history → program W F E * history → Prop :=
  | prog_accept pr g fd s' :
      good_fd fd → listenerEventCb (pr_server pr) fd = Ret s' →
      prog_step (pr, g) (with_server pr s', {| accepted := fd :: accepted g; closed := closed g |})
  | prog_notify pr g i t pr' :
      m_threads (pr_server pr) !! i = Some t → looping t = true → notify t ≠ [] → on_notify pr i = Ret pr' →
      prog_step (pr, g) (pr', g)
  | prog_read pr g fuel fast (input output : B) conn r :
      readEventCb fuel fast input output conn (pr_px pr) = Ret r → prog_step (pr, g) (with_px pr r.1, g)
  | prog_write pr g (input output : B) conn :
      prog_step (pr, g) (with_px pr (writeEventCb input output conn (pr_px pr)).1, g)
  | prog_close pr g t c l fd w pr' :
      t ∈ m_threads (pr_server pr) → repr (conns (pr_server pr)) (connect_queue t) l → c ∈ l →
      tag (conns (pr_server pr)) c = Some (fd, w) → on_close pr c = Ret pr' →
      prog_step (pr, g) (pr', {| accepted := accepted g; closed := fd :: closed g |})
  | prog_quit pr g : prog_step (pr, g) (with_server pr (quitCb pr).1.2, g).

(** The counter, by the descriptors that are neither on their way to a worker nor closed. *)
Definition counted (x : program W F E * history) : Prop :=
  server_ok (pr_server x.1, x.2) ∧
  st_conn (stats (pr_px x.1)) + Z.of_nat (length (pending (m_threads (pr_server x.1)))) + Z.of_nat (length (closed x.2))
  = Z.of_nat (length (accepted x.2)).

Lemma counted_live pr g :
  server_ok (pr_server pr, g) →
  ∃ ls, queues_ok (pr_server pr) ls ∧
    (counted (pr, g) ↔ st_conn (stats (pr_px pr)) = Z.of_nat (length (concat ls))).
Proof.
  intros Hok. pose proof Hok as (ls & Hq & Hv & Hp). exists ls. split; [done|]. unfold counted. cbn [fst snd] in *.
  apply Permutation_length in Hp. rewrite !length_app in Hp. unfold live in Hp. rewrite length_fmap in Hp.
  split; [intros [_ ?]; lia|]. intros ?. split; [done|lia].
Qed.

Lemma pending_replace ts i t t' v :
  ts !! i = Some t → notify t = v :: notify t' →
  Z.of_nat (length (pending ts)) =
  Z.of_nat (length (pending (<[i := t']> ts))) + (if decide (v = EXIT_CODE) then 0 else 1).
Proof.
  intros Ht Hn. rewrite (insert_split _ _ _ t' Ht), <- (take_drop_middle _ _ _ Ht) at 1.
  rewrite !pending_app, Hn, filter_cons. destruct (decide (v ≠ EXIT_CODE)), (decide (v = EXIT_CODE)); try done;
    rewrite !length_app; cbn [length]; lia.
Qed.

Lemma int_add_Ret x y z : int_add x y = Ret z → z = x + y.
Proof. unfold int_add. case_decide; [by intros [= <-]|done]. Qed.

Lemma notify_counted pr g i t pr' :
  (∀ v, v ∈ notify t → v ≠ EXIT_CODE → bufferevent_socket_new v = true) →
  m_threads (pr_server pr) !! i = Some t → on_notify pr i = Ret pr' → counted (pr, g) → counted (pr', g).
Proof.
  intros Hb Ht Hr [Hok Hc]. unfold on_notify in Hr. apply bind_Ret_inv in Hr as ([r s'] & Hp & Hr).
  pose proof (process_ok _ _ _ _ _ _ Hb Ht Hp Hok) as Hok'. cbn [fst snd] in *.
  unfold threadProcess in Hp. rewrite Ht in Hp. destruct (notify t) as [|v rest] eqn:En; [done|].
  destruct (decide (v = EXIT_CODE)) as [->|Hv].
  - injection Hp as <- <-. injection Hr as <-. split; [done|]. cbn [fst snd with_server pr_px pr_server with_threads m_threads] in *.
    rewrite (pending_replace _ _ _ {| index := index t; notify := rest; connect_queue := connect_queue t; looping := false |} _ Ht En) in Hc.
    rewrite decide_True in Hc by done. lia.
  - rewrite Hb in Hp by set_solver. cbn [negb] in Hp. apply bind_Ret_inv in Hp as ([c h'] & _ & [= <- <-]).
    apply bind_Ret_inv in Hr as (px & (n & ->%int_add_Ret & [= <-])%bind_Ret_inv & [= <-]). split; [done|].
    cbn [fst snd with_px with_server pr_px pr_server with_threads m_threads stats put_stats st_conn with_conn] in *.
    rewrite (pending_replace _ _ _ {| index := index t; notify := rest; connect_queue := connect_queue t; looping := looping t |} _ Ht En) in Hc.
    rewrite decide_False in Hc by done. lia.
Qed.

Lemma prog_counted x y :
  (∀ fd, 0 <= fd → bufferevent_socket_new fd = true) → prog_step x y → counted x → counted y.
Proof.
  intros Hb [pr g fd s' Hfd Hl|pr g i t pr' Ht Hlp Hne Hn|pr g fuel fast input output conn r Hr
            |pr g input output conn|pr g t c l fd w pr' Ht Hl Hc Htag Hcl|pr g] Hx.
  - destruct Hx as [Hok Hx]. pose proof (accept_ok _ _ _ _ Hfd Hl Hok) as Hok'. split; [done|].
    cbn [fst snd with_server pr_px pr_server accepted closed length] in *. unfold listenerEventCb in Hl. case_decide; [done|].
    destruct (m_threads _ !! _) as [t|] eqn:Ht; [|done]. injection Hl as <-. cbn [m_threads].
    rewrite (insert_split _ _ _ _ Ht). rewrite <- (take_drop_middle _ _ _ Ht) in Hx. rewrite pending_app in *.
    cbn [notify send_notify]. rewrite filter_app, (filter_cons_True _ fd []) by (unfold EXIT_CODE; destruct Hfd; lia).
    rewrite !length_app in *. cbn. lia.
  - eapply notify_counted; [|done..]. intros v Hv Hne'. apply Hb. destruct Hx as [(ls & _ & Hv' & _) _]. cbn in Hv'.
    rewrite Forall_forall in Hv'. destruct (Hv' v) as [?|?]; [|done|lia].
    apply list_elem_of_In, in_concat. exists (notify t). split; [|by apply list_elem_of_In].
    apply list_elem_of_In, list_elem_of_fmap. exists t. split; [done|]. by eapply list_elem_of_lookup_2.
  - destruct (counted_live pr g (proj1 Hx)) as (ls & _ & Hls). split; [apply Hx|]. cbn [fst snd with_px pr_px pr_server].
    apply readEvent_conn in Hr; [rewrite Hr; apply Hx|]. apply Hls in Hx. cbn in Hx. lia.
  - exact Hx.
  - destruct Hx as [Hok Hx]. unfold on_close in Hcl.
    apply bind_Ret_inv in Hcl as (px & (n & ->%int_add_Ret & [= <-])%bind_Ret_inv & (s' & Hs & [= <-])%bind_Ret_inv).
    split; [by eapply close_ok|]. cbn in *. unfold dequeue_conn in Hs. apply bind_Ret_inv in Hs as (h & _ & [= <-]).
    cbn [m_threads with_threads length] in *. lia.
  - destruct Hx as [Hok Hx]. split; [by apply stop_ok|]. cbn [fst snd with_server pr_px pr_server] in *. rewrite <- Hx. do 2 f_equal.
    cbn [quitCb snd fst stopRun with_threads m_threads]. do 2 f_equal. unfold pending. clear.
    induction (m_threads (pr_server pr)) as [|t ts IH]; [done|]. cbn [fmap list_fmap concat notify send_notify] in *.
    by rewrite !filter_app, IH, filter_cons_False, app_nil_r by (intros H; by apply H).
Qed.
End runs.

Arguments prog_step {W _ F E _} B {_ _} _ _.

(** C13: from [main] on, at every moment of every run - clients connecting, workers taking them over,
    requests of any kind, connections closing, the signal to quit, in any order - the count of
    clients that "status" reports is the number of connections in the queues of the workers, as long as
    [bufferevent_socket_new] does not run out of memory. *)
Theorem client_count {W} `{!Net W, !NetOk W} {H F E} `{!Dl H F, !Ext F E, !Threads, !Libevent} {B} `{!Evbuf B}
    linux pid fs logfs malloc args (e : E) (w : W) (pr pr' : program W F E) g :
  (∀ fd, 0 <= fd → bufferevent_socket_new fd = true) →
  main linux pid fs logfs malloc args e w = Ret pr →
  rtc (prog_step B) (pr, {| accepted := []; closed := [] |}) (pr', g) →
  ∃ ls, queues_ok (pr_server pr') ls ∧ st_conn (stats (pr_px pr')) = Z.of_nat (length (concat ls)).
Proof.
  intros Hb Hm Hr. destruct (main_makes_ready _ _ _ _ _ _ _ _ _ Hm) as (Hok & _ & (_ & _ & _ & _ & Hconn) & _).
  assert (counted (pr', g)) as Hc.
  { revert Hr. apply (rtc_ind_r counted).
    - destruct (counted_live _ _ Hok) as (ls & _ & _). split; [done|]. cbn [fst snd closed accepted length]. rewrite Hconn.
      destruct Hok as (? & _ & _ & Hp). cbn in Hp. apply Permutation_length in Hp. rewrite length_app in Hp. cbn in *. lia.
    - intros y z _ Hs. by eapply prog_counted. }
  destruct (counted_live pr' g (proj1 Hc)) as (ls & Hq & Hls). exists ls. split; [done|]. by apply Hls.
Qed.

#[local] Existing Instance Setup.demo_threads.
#[local] Existing Instance Server.demo_libevent.

(** A client connects, and worker 0 takes it over. *)
Lemma client_count_witness :
  ∃ pr s1 pr' ls, demo_main true [bs "thread_count=2"] = Ret pr ∧ listenerEventCb (pr_server pr) 7 = Ret s1 ∧
    on_notify (with_server pr s1) 0 = Ret pr' ∧ queues_ok (pr_server pr') ls ∧
    st_conn (stats (pr_px pr')) = Z.of_nat (length (concat ls)) ∧ st_conn (stats (pr_px pr')) = 1.
Proof.
  assert ((pr ← demo_main true [bs "thread_count=2"];
           s1 ← listenerEventCb (pr_server pr) 7; pr' ← on_notify (with_server pr s1) 0;
           Ret (notify <$> m_threads s1 !! 0%nat, looping <$> m_threads s1 !! 0%nat, st_conn (stats (pr_px pr'))))
          = Ret (Some [7], Some true, 1)) as Hr by (vm_compute; reflexivity).
  apply bind_Ret_inv in Hr as (pr & E & (s1 & E1 & (pr' & E2 & Hr)%bind_Ret_inv)%bind_Ret_inv).
  injection Hr as Hn Hl H1. destruct (m_threads s1 !! 0%nat) as [t|] eqn:Ht; [|discriminate Hn].
  injection Hn as Hn. injection Hl as Hl.
  destruct (client_count (B := plain) true 0 (demo_fs [bs "thread_count=2"]) (λ _, Some []) (λ _ _ _, []) demo_args
    statics_init (sim_init [(bs "127.0.0.1", 11211)] [] []) pr pr' {| accepted := [7]; closed := [] |}) as (ls & Hq & Hc).
  - intros fd _. reflexivity.
  - exact E.
  - eapply rtc_l; [apply (prog_accept _ _ 7 s1)|].
    + split; [vm_compute; split; congruence|reflexivity].
    + exact E1.
    + apply rtc_once. eapply (prog_notify _ _ 0 t); [exact Ht|exact Hl|rewrite Hn; discriminate|exact E2].
  - exists pr, s1, pr', ls. split; [exact E|]. split; [exact E1|]. split; [exact E2|]. split; [exact Hq|]. split; [exact Hc|exact H1].
Defined.
