(* ===== verification/Service.v ===== *)
(** A client's connection from socket to socket: the callbacks of [src/serv.cpp] on libevent's
    bufferevents, [KvProxy::readEvent] on libevent's buffers.

    [serve_read], [serve_write] and [serve_close] are what [bufferevent_setcb] registers;
    [client_served] composes the reading of a request in pieces, its service, and the writing of the
    answer. *)
From S2P Require Import Prelude StdMap Util Config Log ConnQueue Server.
From S2P Require Import Hash Extension Net ConnPool ProtocolBinary Memcached MemcachedBinary.
From S2P Require Import Failover Request Backend Evbuf Evbuffer EvbufferIO Bufferevent KvProxy Transparency Main Clients.

(** * The registered callbacks *)

(** The program, the connection, and its place in the worker's queue. *)
Record session (W F E : Type) := { ses_pr : program W F E; ses_conn : Client evbuffer; ses_addr : Z }.
Arguments ses_pr {W F E} _.
Arguments ses_conn {W F E} _.
Arguments ses_addr {W F E} _.

(** [bufferevent_socket_new], [bufferevent_setcb] and the two [bufferevent_enable]s of [threadProcess]. *)
Definition client_bufferevent (fd : Z) : bufferevent :=
  bufferevent_enable (bufferevent_enable (bufferevent_setcb (bufferevent_socket_new fd) true) false true) true false.

Section callbacks.
Context `{!Malloc, !Libevent} {W : Type} `{!Net W, !EvIO W} {F E : Type} `{!Ext F E}.
Implicit Types (s : session W F E).

Definition ses_world s : W := net (pr_px (ses_pr s)).
Definition put_net (px : KvProxy W F E) (w : W) : KvProxy W F E := put_hosts px (hosts px) (pool px) w (px_conf px).
Definition put_ses s (px : KvProxy W F E) (conn : Client evbuffer) : session W F E :=
  {| ses_pr := with_px (ses_pr s) px; ses_conn := conn; ses_addr := ses_addr s |}.
Definition put_world s (w : W) : session W F E := put_ses s (put_net (pr_px (ses_pr s)) w) (ses_conn s).

(** [readEventCb]: the connection's buffers are the bufferevent's. *)
Definition serve_read (fuel : nat) (fast : bytes) (be : bufferevent) s : outcome (bufferevent * session W F E) :=
  r ← readEventCb fuel fast (input be) (output be) (ses_conn s) (pr_px (ses_pr s));
  Ret (with_buffers be (m_read_buf r.2) (m_write_buf r.2), put_ses s r.1 r.2).

Definition serve_write (be : bufferevent) s : outcome (bufferevent * session W F E) :=
  let '(px, conn) := writeEventCb (input be) (output be) (ses_conn s) (pr_px (ses_pr s)) in
  Ret (be, put_ses s px conn).

(** [closeEventCb], with [bufferevent_free]: the caller holds another reference. *)
Definition serve_close (what : Z) (be : bufferevent) s : outcome (bufferevent * session W F E) :=
  pr ← on_close (ses_pr s) (ses_addr s);
  let '(o, s) := bufferevent_free ses_world put_world be
                   {| ses_pr := pr; ses_conn := ses_conn s; ses_addr := ses_addr s |} in
  be ← need o;
  Ret (be, s).

(** What libevent's loop calls when the descriptor can be read, and when it can be written. *)
Definition on_readable (fuel : nat) (fast : bytes) (timeout : bool) (be : bufferevent) s :=
  bufferevent_readcb ses_world put_world (serve_read fuel fast) serve_close timeout be s.
Definition on_writable (finished_connecting : W → Z → Z) (timeout : bool) (be : bufferevent) s :=
  bufferevent_writecb ses_world put_world serve_write serve_close finished_connecting timeout be s.

(** The descriptor can be read [n] times. *)
Fixpoint read_events (fuel : nat) (fast : bytes) (n : nat) (be : bufferevent) s : outcome (option bufferevent * session W F E) :=
  match n with
  | O => Ret (Some be, s)
  | S n =>
      r ← on_readable fuel fast false be s;
      match r.1 with
      | Some be => read_events fuel fast n be r.2
      | None => Ret (None, r.2)
      end
  end.

(** A descriptor that can be written to. *)
Inductive write_step (finished_connecting : W → Z → Z) : bufferevent * session W F E → bufferevent * session W F E → Prop :=
  | write_step_intro be s be' s' :
      ev_write be = true → writable (ses_world s) (be_fd be) →
      on_writable finished_connecting false be s = Ret (Some be', s') →
      write_step finished_connecting (be, s) (be', s').
End callbacks.

(** The next receptions on a descriptor are [ds]. *)
Fixpoint arrives {W} `{!EvIO W} (w : W) (fd : Z) (ds : list bytes) (w' : W) : Prop :=
  match ds with
  | [] => w' = w
  | d :: ds => ∃ w1, d ≠ [] ∧
      sys_readv w fd (read_len w fd MAX_TO_READ_EVER) = (Z.of_nat (length d), d, w1) ∧ arrives w1 fd ds w'
  end.

(** * Lemmas *)

Lemma client_bufferevent_ok fd : be_ok 1 (client_bufferevent fd).
Proof.
  split; [|split; [done|done]]. constructor; try done.
  - split; [constructor|]. split; [apply shape_nil|]. by split_and!.
  - split; [constructor|]. split; [apply shape_nil|]. by split_and!.
Qed.

Section waiting.
Context {W : Type} `{!Net W} {B : Type} `{!Evbuf B, !EvbufOk B}.
Implicit Types (px : KvProxy W memcached_sym statics).

(** Nothing but the extension's own state changed. *)
Definition same_proxy px px' (t : Z) : Prop :=
  worker px' t = worker px t ∧ others_same px px' t ∧ at_rest px' t.

Lemma same_proxy_net px px' t w :
  same_proxy px px' t → worker (put_net px' w) t = worker (put_net px w) t.
Proof.
  intros (Hw & _ & _). injection Hw as H1 H2 H3 H4 H5. unfold worker, put_net, put_hosts. cbn. by rewrite H1, H2, H3, H4.
Qed.

Lemma parsed_same (b : Buffers) : position b = 0 → req_list_data b = [] → with_parsed b 0 [] = b.
Proof. destruct b. cbn. by intros -> ->. Qed.

(** With no request in it, the queue is as before. *)
Lemma requeue_same px t (e : statics) (c : Config) :
  position (k_buf (worker px t)) = 0 → req_list_data (k_buf (worker px t)) = [] →
  let b := with_parsed (k_buf (worker px t)) 0 [] in
  let px1 := put_statics (put_buf (put_buf px t (k_buf (worker px t))) t b) e c in
  let px2 := put_buf px1 t (with_parsed (k_buf (worker px1 t)) 0 []) in
  worker px2 t = worker px t ∧ others_same px px2 t ∧ statics_ px2 = e ∧ px_conf px2 = c.
Proof.
  intros Hpos Hlist. cbn zeta. split; [|split; [|done]].
  2: { split; [done|]. split; [done|]. intros t' Ht'. cbn [put_buf put_worker put_statics bufs]. by rewrite !lookup_insert_ne. }
  rewrite worker_put_buf, worker_put_statics, !worker_put_buf.
  change (k_buf (with_buf ?x ?y)) with y. rewrite (parsed_same _ Hpos Hlist). cbn [with_buf k_buf]. rewrite (parsed_same _ Hpos Hlist). by destruct (worker px t).
Qed.

(** A part of the request: it is kept, and the rest is waited for. *)
Lemma readEvent_part px (cl : Client B) p m fuel fast :
  let t := cl_thread cl in
  at_rest px t → packet_ok PROTOCOL_BINARY_REQ p → quiet (p_head p) ∨ final (p_head p) → plen p <= FAST_BUFF_SIZE →
  Z.of_nat (length fast) = FAST_BUFF_SIZE →
  in_ok (m_read_buf cl) → content_of (m_read_buf cl) = take m (packet_bytes p) → (0 < m < length (packet_bytes p))%nat →
  ∃ px', readEvent fuel fast px cl = Ret (px', cl) ∧ same_proxy px px' t ∧ net px' = net px.
Proof.
  intros t (Hpos & Hlist & Hptrs & Hbin) Hp Hv Hsmall Hfast Hrok Hr Hm. unfold readEvent. fold t.
  unfold FAST_BUFF_SIZE, plen in *. unfold getReadBufLen, CopyReadBuf.
  set (d := take m (packet_bytes p)) in *. assert (length d = m) as Hd by (unfold d; rewrite length_take; lia).
  rewrite get_length_content, Hr, Hd by done.
  assert (i32 (Z.of_nat m) = Z.of_nat m) as Hi by (apply i32_small; unfold is_int, INT_MIN, INT_MAX; lia).
  rewrite Hi, u32_small by lia. rewrite copyout_content by (done || lia). rewrite Hr, Nat2Z.id.
  rewrite (take_ge d) by lia. unfold request_buf, FAST_BUFF_SIZE. rewrite decide_True by lia.
  pose proof (mem_write_append [] fast d ltac:(lia)) as Hmw. change (Z.of_nat (length [])) with 0 in Hmw. cbn [app] in Hmw.
  rewrite Hmw. cbn [mbind outcome_bind].
  assert (∃ h, mem_read (d ++ drop (length d) fast) 0 6 = Ret h ∧ h ≠ bs "status") as (h & -> & Hne).
  { rewrite mem_read_ok by (rewrite ?length_app, ?length_drop; lia). eexists. split; [done|]. intros Hx.
    pose proof Hp as [(_ & Hmg & _) _].
    assert (∃ r, packet_bytes p = to_char (magic (p_head p)) :: r) as [r Er] by (by eexists).
    unfold d in Hx. rewrite Er in Hx. destruct m as [|m]; [lia|]. apply (f_equal head) in Hx. cbn in Hx.
    injection Hx as Hx. apply (f_equal uchar) in Hx. rewrite uchar_to_char, Hmg in Hx. vm_compute in Hx. done. }
  cbn [mbind outcome_bind]. rewrite decide_False by naive_solver.
  change (ptrs (put_buf px t (k_buf (worker px t)))) with (ptrs px). rewrite Hptrs. cbn [need mbind outcome_bind].
  change (statics_ (put_buf px t (k_buf (worker px t)))) with (statics_ px).
  change (px_conf (put_buf px t (k_buf (worker px t)))) with (px_conf px).
  rewrite Hpos, Hlist, Hd, Hi. cbn [ptr_parse_req memcached_ptrs parse_req memcached_ext].
  unfold d at 1. rewrite (parse_req_cut _ _ p m _ Hbin Hp Hv Hm). cbn [mbind outcome_bind].
  pose proof (init_statics_again (statics_ px) (px_conf px)) as Hagain.
  eexists. split; [done|]. split; [|done].
  destruct (requeue_same px t (init_statics (statics_ px) (px_conf px)).1 (init_statics (statics_ px) (px_conf px)).2 Hpos Hlist)
    as (Hw & Ho & Hs & Hc).
  split; [exact Hw|]. split; [exact Ho|]. destruct Ho as (_ & Hp1 & _). unfold at_rest.
  rewrite Hw, Hp1, Hs, Hc, Hagain. by split_and!.
Qed.
End waiting.

(** * One client *)

Section service.
Context `{!Malloc, !MallocOk, !Libevent} {W : Type} `{!Net W, !NetLog W, !EvIO W, !EvIOOk W, !EvIOLog W}.
Implicit Types (s : session W memcached_sym statics) (be : bufferevent).

Lemma ses_world_put s w : ses_world (put_world s w) = w.
Proof. done. Qed.

(** Nothing but the network and the connection's buffers changed. *)
Definition net_only s s' : Prop :=
  (∃ w, pr_px (ses_pr s') = put_net (pr_px (ses_pr s)) w) ∧ pr_server (ses_pr s') = pr_server (ses_pr s) ∧
  ses_addr s' = ses_addr s ∧ cl_thread (ses_conn s') = cl_thread (ses_conn s).

#[export] Instance net_only_preorder : PreOrder net_only.
Proof.
  split.
  - intros s. split; [|done]. exists (ses_world s). unfold ses_world. by destruct (pr_px (ses_pr s)).
  - intros s1 s2 s3 ((w1 & E1) & G1 & G2 & G3) ((w2 & E2) & G4 & G5 & G6).
    split; [exists w2; by rewrite E2, E1|]. split_and!; congruence.
Qed.

Lemma put_world_only s w : net_only s (put_world s w).
Proof. split; [by exists w|done]. Qed.

Lemma serve_write_idle be s :
  ∃ s', serve_write be s = Ret (be, s') ∧ ses_world s' = ses_world s ∧ net_only s s'.
Proof.
  eexists. split; [done|]. split; [done|]. split; [|done]. exists (ses_world s). unfold ses_world. cbn.
  by destruct (pr_px (ses_pr s)).
Qed.

(** A write event of an open connection. *)
Lemma on_writable_ok fin be s :
  be_ok 1 be → writable (ses_world s) (be_fd be) →
  ∃ be' s', on_writable fin false be s = Ret (Some be', s') ∧ be_ok 1 be' ∧ written ses_world net_only be be' s s'.
Proof.
  intros Hok Hw. exact (writecb_ok ses_world put_world serve_write serve_close fin ses_world_put net_only put_world_only serve_write_idle be s Hok Hw).
Qed.

(** The connection, as [readEventCb] hands it to [readEvent]. *)
Definition conn_of s be : Client evbuffer :=
  {| cl_fd := cl_fd (ses_conn s); cl_thread := cl_thread (ses_conn s); m_read_buf := input be; m_write_buf := output be |}.

Lemma be_in_ok n be : be_core n be → in_ok (input be).
Proof. intros Hc. apply (evb_in_intro true), Hc. Qed.

(** The rest of the event that delivers [d]. *)
Lemma on_readable_reads fuel fast be s d w' :
  be_ok 1 be → Z.of_nat (length (in_data be)) + EVBUFFER_MAX_READ <= INT_MAX → d ≠ [] →
  sys_readv (ses_world s) (be_fd be) (read_len (ses_world s) (be_fd be) MAX_TO_READ_EVER) = (Z.of_nat (length d), d, w') →
  ∃ be1, be_ok 2 be1 ∧ in_data be1 = in_data be ++ d ∧ out_data be1 = out_data be ∧ be_fd be1 = be_fd be ∧
    output be1 = output be ∧
    on_readable fuel fast false be s =
    (r ← readEvent fuel fast (put_net (pr_px (ses_pr s)) w') (conn_of s be1);
     finish ses_world put_world
       (run_outbuf_cbs (with_buffers be1 (m_read_buf r.2) (m_write_buf r.2)), put_ses s r.1 r.2)).
Proof.
  intros Hok Hmax Hd Hr. unfold on_readable.
  destruct (readcb_ok ses_world put_world (serve_read fuel fast) serve_close be s d w' Hok Hmax Hr Hd)
    as (be1 & Hok1 & Hin & Hout & Hfd & Ho & ->).
  exists be1. do 5 (split; [done|]). unfold run_cb. destruct Hok1 as [Hc _]. destruct (core_held _ _ Hc) as [_ ->]. cbn [negb].
  unfold serve_read, readEventCb. cbn [ses_conn ses_pr put_world put_ses pr_px with_px]. fold (conn_of s be1).
  destruct (readEvent _ _ _ _); done.
Qed.

(** A part of the request. *)
Lemma on_readable_part fuel fast be s d w' p m :
  let t := cl_thread (ses_conn s) in let px := pr_px (ses_pr s) in
  be_ok 1 be → d ≠ [] →
  sys_readv (ses_world s) (be_fd be) (read_len (ses_world s) (be_fd be) MAX_TO_READ_EVER) = (Z.of_nat (length d), d, w') →
  at_rest px t → packet_ok PROTOCOL_BINARY_REQ p → quiet (p_head p) ∨ final (p_head p) → plen p <= FAST_BUFF_SIZE →
  Z.of_nat (length fast) = FAST_BUFF_SIZE →
  in_data be ++ d = take m (packet_bytes p) → (0 < m < length (packet_bytes p))%nat →
  ∃ be' s', on_readable fuel fast false be s = Ret (Some be', s') ∧ be_ok 1 be' ∧ in_data be' = in_data be ++ d ∧
    out_data be' = out_data be ∧ be_fd be' = be_fd be ∧ ses_world s' = w' ∧ cl_thread (ses_conn s') = t ∧
    same_proxy (put_net px w') (pr_px (ses_pr s')) t ∧ pr_server (ses_pr s') = pr_server (ses_pr s).
Proof.
  intros t px Hok Hd Hr Hrest Hp Hv Hsmall Hfast Hdata Hm.
  assert (Z.of_nat (length (in_data be)) <= plen p) as Hlen.
  { apply (f_equal length) in Hdata. rewrite length_app, length_take in Hdata. unfold plen. lia. }
  destruct (on_readable_reads fuel fast be s d w' Hok) as (be1 & (Hc & Hq & Ho) & Hin & Hout & Hfd & _ & ->);
    [unfold FAST_BUFF_SIZE, EVBUFFER_MAX_READ, INT_MAX in *; lia|done|done|].
  fold px. destruct (readEvent_part (put_net px w') (conn_of s be1) p m fuel fast) as (px' & -> & Hsame & Hnet); try done.
  { by eapply be_in_ok. }
  { cbn. change (chains_data (chains (input be1))) with (in_data be1). by rewrite Hin. }
  cbn [mbind outcome_bind fst snd conn_of m_read_buf m_write_buf].
  assert (with_buffers be1 (input be1) (output be1) = be1) as -> by (by destruct be1).
  destruct (run_quiet 2 be1 Hc (or_introl Hq)) as (Hc2 & Hq2 & Ha2).
  destruct (finish_open ses_world put_world (run_outbuf_cbs be1) (put_ses s px' (conn_of s be1)) Hc2 Hq2) as (be' & -> & Hok' & Ha);
    [by eapply alike_owes|].
  destruct (transitivity Ha2 Ha) as (E1 & E2 & E3 & _ & _). eexists be', _. split; [done|]. split; [done|].
  split; [unfold in_data in *; by rewrite E1|]. split; [by rewrite E2|]. split; [by rewrite E3|]. by split_and!.
Qed.

(** The end of the request. *)
Lemma on_readable_last fuel fast be s d w' u p q a fd ns cs w1 w2 n :
  let t := cl_thread (ses_conn s) in let px := pr_px (ses_pr s) in
  be_ok 1 be → d ≠ [] →
  sys_readv (ses_world s) (be_fd be) (read_len (ses_world s) (be_fd be) MAX_TO_READ_EVER) = (Z.of_nat (length d), d, w') →
  at_rest px t → exchange (worker (put_net px w') t) t (recv_timeout (opts px)) u p q a fd n ns cs w1 w2 fuel →
  Z.of_nat (length fast) = FAST_BUFF_SIZE →
  in_data be ++ d = packet_bytes p → Z.of_nat (length (out_data be)) + plen q <= INT_MAX →
  ∃ be' s', on_readable fuel fast false be s = Ret (Some be', s') ∧ be_ok 1 be' ∧ in_data be' = [] ∧
    out_data be' = out_data be ++ packet_bytes q ∧ be_fd be' = be_fd be ∧ ev_write be' = true ∧ ses_world s' = w2 ∧
    sent w1 fd = sent w' fd ++ packet_bytes p ∧
    cl_thread (ses_conn s') = t ∧ at_rest (pr_px (ses_pr s')) t ∧ others_same (put_net px w') (pr_px (ses_pr s')) t ∧
    pr_server (ses_pr s') = pr_server (ses_pr s) ∧
    (0 <= st_conn (stats px) → st_conn (stats (pr_px (ses_pr s'))) = st_conn (stats px)).
Proof.
  intros t px Hok Hd Hr (Hpos & Hlist & Hptrs & Hbin) Hex Hfast Hdata Hroom.
  pose proof (ex_small _ _ _ _ _ _ _ _ _ _ _ _ _ _ Hex) as Hsmall. unfold FAST_BUFF_SIZE in Hsmall.
  assert (Z.of_nat (length (in_data be)) <= plen p) as Hlen.
  { apply (f_equal length) in Hdata. rewrite length_app in Hdata. unfold plen. lia. }
  destruct (on_readable_reads fuel fast be s d w' Hok) as (be1 & (Hc & Hq & Ho) & Hin & Hout & Hfd & Hob & ->);
    [unfold EVBUFFER_MAX_READ, INT_MAX in *; lia|done|done|].
  fold px. destruct (readEvent_single (put_net px w') (conn_of s be1) u p q a fd n ns cs w1 w2 fuel fast) as (px' & Er & Hnet & Hsent & Hrest' & Hoth); try done.
  { by eapply be_in_ok. }
  { cbn. change (chains_data (chains (input be1))) with (in_data be1). by rewrite Hin. }
  pose proof (readEvent_conn _ _ _ _ _ Er) as Hconn. rewrite Er.
  cbn [mbind outcome_bind fst snd conn_of m_read_buf m_write_buf addToWriteBuf clearReadBuf cl_fd cl_thread].
  pose proof (plen_ge p). pose proof (plen_ge q) as Hge. unfold INT_MAX in *.
  rewrite u32_small by lia. destruct Hc as [Cin Cout Cen Cgo Cm Ch].
  destruct (drain_ok false true (input be1) (plen p) Cin) as (i' & Ei & Hi' & Hid); [lia|].
  destruct (add_ok true (output be1) (packet_bytes q) Cout) as (o' & Eo & Ho' & Hod).
  { destruct Cout as (_ & _ & -> & _). unfold INT_MAX. change (chains_data (chains (output be1))) with (out_data be1).
    rewrite Hout. unfold plen in *. lia. }
  destruct (add_told (output be1) (packet_bytes q) o' Hq) as (size & Ht); [by intros E; unfold plen in Hge; rewrite E in Hge|unfold plen in *; lia|done|].
  unfold Evbuf.evbuffer_drain, Evbuf.evbuffer_add, evbuffer_evbuf. rewrite Ei, Eo. cbn [returns snd].
  set (be2 := with_buffers be1 i' o').
  assert (be_core 2 be2) as Hc2 by (by constructor).
  destruct (run_added 2 be2 size _ Hc2 Ht) as (Hc3 & Hq3 & Hw3 & I3 & O3 & F3 & _); [unfold plen in Hge; lia|].
  set (s' := put_ses s px' _).
  destruct (finish_open ses_world put_world (run_outbuf_cbs be2) s' Hc3 Hq3) as (be' & -> & Hok' & (E1 & E2 & E3 & _ & E5)); [by intros _|].
  exists be', s'. split; [done|]. split; [done|]. split.
  { unfold in_data. rewrite E1, I3. cbn [be2 with_buffers input]. rewrite Hid. change (chains_data (chains (input be1))) with (in_data be1).
    rewrite Hin, Hdata. unfold plen. by rewrite Nat2Z.id, drop_all. }
  split; [rewrite E2, O3; unfold out_data in *; cbn [be2 with_buffers output]; by rewrite Hod, Hout|].
  split; [by rewrite E3, F3|]. split; [by rewrite E5|]. split; [exact Hnet|]. split; [exact Hsent|]. by split_and!.
Qed.

(** All of the request, in pieces. *)
Lemma read_events_serve fuel fast u p q a fd n ns cs w0 w1 w2 : ∀ ds be s,
  let t := cl_thread (ses_conn s) in let px := pr_px (ses_pr s) in
  be_ok 1 be → ds ≠ [] → arrives (ses_world s) (be_fd be) ds w0 → at_rest px t →
  exchange (worker (put_net px w0) t) t (recv_timeout (opts px)) u p q a fd n ns cs w1 w2 fuel →
  Z.of_nat (length fast) = FAST_BUFF_SIZE →
  in_data be ++ concat ds = packet_bytes p → Z.of_nat (length (out_data be)) + plen q <= INT_MAX →
  ∃ be' s', read_events fuel fast (length ds) be s = Ret (Some be', s') ∧ be_ok 1 be' ∧ in_data be' = [] ∧
    out_data be' = out_data be ++ packet_bytes q ∧ be_fd be' = be_fd be ∧ ev_write be' = true ∧ ses_world s' = w2 ∧
    sent w1 fd = sent w0 fd ++ packet_bytes p.
Proof.
  induction ds as [|d ds IH]; intros be s t px Hok Hne Harr Hrest Hex Hfast Hdata Hroom; [done|].
  destruct Harr as (w' & Hd & Hr & Harr). cbn [concat length read_events] in *. destruct (decide (ds = [])) as [->|Hds].
  - cbn in Harr, Hdata. subst w0. rewrite app_nil_r in Hdata.
    destruct (on_readable_last fuel fast be s d w' u p q a fd ns cs w1 w2 n Hok Hd Hr Hrest Hex Hfast Hdata Hroom)
      as (be' & s' & -> & G1 & G2 & G3 & G4 & G5 & G6 & G7 & _). cbn [mbind outcome_bind fst snd length read_events].
    exists be', s'. by split_and!.
  - set (m := length (in_data be ++ d)).
    assert (in_data be ++ d = take m (packet_bytes p)) as Hpart by (rewrite <- Hdata, app_assoc; unfold m; by rewrite take_app_length).
    assert (0 < m < length (packet_bytes p))%nat as Hm.
    { rewrite <- Hdata, app_assoc, length_app. unfold m. rewrite length_app. destruct ds as [|d2 ds]; [done|].
      destruct Harr as (? & Hd2 & _). cbn. rewrite length_app. destruct d, d2; try done. cbn. lia. }
    destruct (on_readable_part fuel fast be s d w' p m Hok Hd Hr Hrest) as (be' & s' & -> & Hok' & Hin & Hout & Hfd & Hw & Ht & Hsame & _);
      [apply Hex|right; destruct (ex_single _ _ _ _ _ _ _ _ _ _ _ _ _ _ Hex) as [Hv _]; by eexists _, _, _|apply Hex|done..|].
    cbn [mbind outcome_bind fst snd].
    pose proof Hsame as (_ & (Hopts & _) & Hrest').
    destruct (IH be' s') as (be2 & s2 & E & G1 & G2 & G3 & G4 & G5 & G6 & G7).
    { done. }
    { done. }
    { by rewrite Hw, Hfd. }
    { rewrite Ht. done. }
    { rewrite Ht, Hopts. rewrite (same_proxy_net _ _ (cl_thread (ses_conn s)) w0 Hsame). exact Hex. }
    { done. }
    { by rewrite Hin, <- app_assoc. }
    { by rewrite Hout. }
    exists be2, s2. split; [done|]. split; [done|]. split; [done|]. split; [by rewrite G3, Hout|]. split; [by rewrite G4, Hfd|]. by split_and!.
Qed.

(** One write event. *)
Lemma write_step_ok fin (x y : bufferevent * session W memcached_sym statics) :
  write_step fin x y → be_ok 1 x.1 → be_ok 1 y.1 ∧ written ses_world net_only x.1 y.1 x.2 y.2.
Proof.
  intros [be s be' s' Hev Hw Hon] Hok.
  destruct (on_writable_ok fin be s Hok Hw)
    as (be2 & s2 & E & Hok2 & Hc). rewrite E in Hon. by injection Hon as <- <-.
Qed.

Lemma write_step_exists fin be s :
  be_ok 1 be → ev_write be = true → writable (ses_world s) (be_fd be) → ∃ y, write_step fin (be, s) y.
Proof.
  intros Hok Hev Hw.
  destruct (on_writable_ok fin be s Hok Hw)
    as (be2 & s2 & E & _). by exists (be2, s2).
Qed.

Lemma write_steps_ok fin (x y : bufferevent * session W memcached_sym statics) :
  rtc (write_step fin) x y → be_ok 1 x.1 →
  be_ok 1 y.1 ∧ be_fd y.1 = be_fd x.1 ∧
  peer_got (ses_world y.2) (be_fd x.1) ++ out_data y.1 = peer_got (ses_world x.2) (be_fd x.1) ++ out_data x.1.
Proof.
  induction 1 as [x|x y z Hs _ IH]; intros Hok; [done|].
  destruct (write_step_ok _ _ _ Hs Hok) as (Hok' & (_ & Hfd & _ & Hc) & _).
  destruct (IH Hok') as (G1 & G2 & G3). split; [done|]. split; [by rewrite G2|]. rewrite <- Hc. by rewrite Hfd in G3.
Qed.

(** A descriptor that takes some of every writing, from the state [w] on. *)
Definition takes (ready : W → Prop) (fd : Z) : Prop :=
  ∀ w d, ready w → d ≠ [] → 0 < (sys_writev w fd d).1 ∧ ready (sys_writev w fd d).2.

Lemma takes_writable ready fd w : takes ready fd → ready w → writable w fd.
Proof. intros Ht Hr d Hd. left. by apply Ht. Qed.

(** With such a descriptor each write event shortens the output. *)
Lemma write_step_shortens fin ready (x y : bufferevent * session W memcached_sym statics) :
  takes ready (be_fd x.1) → ready (ses_world x.2) → write_step fin x y → be_ok 1 x.1 →
  ready (ses_world y.2) ∧ (out_data x.1 ≠ [] → length (out_data y.1) < length (out_data x.1))%nat.
Proof.
  intros Ht Hr Hs Hok. destruct (write_step_ok _ _ _ Hs Hok) as (_ & _ & _ & _ & [[Hn ->]|(Hne & iov & Hi & -> & ->)]); [done|].
  destruct (Ht (ses_world x.2) iov Hr Hi) as [Hpos Hr']. split; [done|]. intros _. rewrite length_drop.
  destruct (out_data x.1); [done|]. cbn [length]. lia.
Qed.

Lemma write_steps_drain fin ready : ∀ k be s,
  (length (out_data be) <= k)%nat → be_ok 1 be → takes ready (be_fd be) → ready (ses_world s) →
  ∃ n be' s', (n <= S k)%nat ∧ nsteps (write_step fin) n (be, s) (be', s') ∧
    out_data be' = [] ∧ ev_write be' = false.
Proof.
  induction k as [|k IH]; intros be s Hk Hok Ht Hr; destruct (ev_write be) eqn:Hev.
  2, 4: exists 0%nat, be, s; split; [lia|]; split; [constructor|]; split; [|done];
    destruct Hok as (_ & _ & Ho); destruct (out_data be) eqn:E; [done|];
    exfalso; assert (ev_write be = true) by (apply Ho; by rewrite E); congruence.
  all: destruct (write_step_exists fin be s Hok Hev (takes_writable _ _ _ Ht Hr)) as [[be1 s1] Hs];
    destruct (write_step_ok _ _ _ Hs Hok) as (Hok1 & (_ & Hfd & _) & Hrest & _ & Hcase);
    destruct (write_step_shortens fin ready (be, s) (be1, s1) Ht Hr Hs Hok) as [Hr1 Hlen]; cbn [fst snd] in *.
  - assert (out_data be = []) as E by (apply nil_length_inv; lia). destruct Hcase as [[_ _]|[Hne _]]; [|done].
    destruct (write_step_ok _ _ _ Hs Hok) as (_ & (_ & _ & _ & Hc) & _ & _ & [[_ Hw]|[Hne _]]); [|done].
    cbn [fst snd] in *. rewrite Hw, E in Hc. apply app_inv_head in Hc.
    exists 1%nat, be1, s1. split; [lia|]. split; [by apply nsteps_once|]. split; [done|by apply Hrest].
  - destruct (decide (out_data be = [])) as [E|E].
    + destruct (IH be1 s1) as (n & be' & s' & Hn & Hst & Hres); [|done|by rewrite Hfd|done|].
      { destruct Hcase as [[_ Hw]|[Hne _]]; [|done].
        destruct (write_step_ok _ _ _ Hs Hok) as (_ & (_ & _ & _ & Hc) & _). cbn [fst snd] in *.
        rewrite Hw, E in Hc. apply app_inv_head in Hc. rewrite Hc. cbn. lia. }
      exists (S n), be', s'. split; [lia|]. split; [by econstructor|done].
    + destruct (IH be1 s1) as (n & be' & s' & Hn & Hst & Hres); [specialize (Hlen E); lia|done|by rewrite Hfd|done|].
      exists (S n), be', s'. split; [lia|]. split; [by econstructor|done].
Qed.

(** [closeEventCb] takes the connection out of its queue; the end of libevent's callback closes the descriptor. *)
Lemma close_ends be1 what s w' q l1 l2 :
  let srv := pr_server (ses_pr s) in let px := pr_px (ses_pr s) in
  refcnt be1 = 2 → quiet_buf (output be1) → 0 <= be_fd be1 →
  heap_ok (conns srv) → repr (conns srv) q (l1 ++ ses_addr s :: l2) → 1 <= st_conn (stats px) <= INT_MAX →
  ∃ s' h',
    (r ← serve_close what be1 (put_world s w'); finish ses_world put_world (run_outbuf_cbs r.1, r.2)) = Ret (None, s') ∧
    deleteConn (conns srv) (ses_addr s) = Ret h' ∧
    pr_server (ses_pr s') = with_threads srv (m_threads srv) h' ∧
    pr_px (ses_pr s') =
      put_net (put_stats (put_net px w') (with_conn (stats px) (st_conn (stats px) - 1))) (sys_close w' (be_fd be1)).
Proof.
  intros srv px Hr Hq Hfd Hheap Hrepr Hconn.
  destruct (deleteConn_repr (conns srv) q l1 (ses_addr s) l2 Hheap Hrepr) as (h' & Hd & _).
  unfold serve_close, on_close, closeEvent, dequeue_conn.
  change (ses_pr (put_world s w')) with (with_px (ses_pr s) (put_net px w')).
  change (ses_addr (put_world s w')) with (ses_addr s).
  change (pr_px (with_px (ses_pr s) (put_net px w'))) with (put_net px w').
  change (pr_server (with_px (ses_pr s) (put_net px w'))) with srv.
  change (stats (put_net px w')) with (stats px). rewrite Hd. unfold int_add. rewrite decide_True by (unfold is_int, INT_MIN, INT_MAX in *; lia).
  cbn [mbind outcome_bind]. unfold bufferevent_free, decref at 1. cbn [bufferevent_setcb with_refs refcnt].
  rewrite Hr. rewrite decide_False by done. cbn [mbind outcome_bind need fst snd].
  set (be2 := with_refs _ _ _ _ _).
  assert (refcnt (run_outbuf_cbs be2) = 1 ∧ be_fd (run_outbuf_cbs be2) = be_fd be1) as [Hr2 Hf2].
  { destruct (run_hold be2) as (-> & _ & _ & ->). done. }
  unfold finish, decref. cbn [fst snd]. rewrite Hr2, Hf2. rewrite (decide_True (P := 1 - 1 = 0)), (decide_True (P := 0 <= be_fd be1)) by done.
  eexists _, h'. split; [done|]. split; [done|]. by split.
Qed.

(** The end of a connection, noticed by reading. *)
Lemma on_readable_gone fuel fast be s n d w' q l1 l2 :
  let srv := pr_server (ses_pr s) in let px := pr_px (ses_pr s) in
  be_ok 1 be → 0 <= be_fd be → Z.of_nat (length (in_data be)) + EVBUFFER_MAX_READ <= INT_MAX →
  sys_readv (ses_world s) (be_fd be) (read_len (ses_world s) (be_fd be) MAX_TO_READ_EVER) = (n, d, w') → gone n w' →
  heap_ok (conns srv) → repr (conns srv) q (l1 ++ ses_addr s :: l2) → 1 <= st_conn (stats px) <= INT_MAX →
  ∃ s' h', on_readable fuel fast false be s = Ret (None, s') ∧ deleteConn (conns srv) (ses_addr s) = Ret h' ∧
    pr_server (ses_pr s') = with_threads srv (m_threads srv) h' ∧
    pr_px (ses_pr s') =
      put_net (put_stats (put_net px w') (with_conn (stats px) (st_conn (stats px) - 1))) (sys_close w' (be_fd be)).
Proof.
  intros srv px Hok Hfd Hmax Hrd Hg Hheap Hrepr Hconn. unfold on_readable.
  destruct (readcb_gone ses_world put_world (serve_read fuel fast) serve_close be s n d w' Hok Hmax Hrd Hg)
    as (be1 & what & Hr & Hq & Hf & _ & ->). rewrite <- Hf in Hfd |- *. by apply (close_ends be1 what s w' q l1 l2).
Qed.

(** Noticed by writing. *)
Lemma on_writable_gone fin be s q l1 l2 :
  let srv := pr_server (ses_pr s) in let px := pr_px (ses_pr s) in
  be_ok 1 be → 0 <= be_fd be → out_data be ≠ [] → unwritable (ses_world s) (be_fd be) →
  heap_ok (conns srv) → repr (conns srv) q (l1 ++ ses_addr s :: l2) → 1 <= st_conn (stats px) <= INT_MAX →
  ∃ s' h' w', on_writable fin false be s = Ret (None, s') ∧ deleteConn (conns srv) (ses_addr s) = Ret h' ∧
    pr_server (ses_pr s') = with_threads srv (m_threads srv) h' ∧
    pr_px (ses_pr s') =
      put_net (put_stats (put_net px w') (with_conn (stats px) (st_conn (stats px) - 1))) (sys_close w' (be_fd be)).
Proof.
  intros srv px Hok Hfd Hne Hun Hheap Hrepr Hconn. unfold on_writable.
  destruct (writecb_gone ses_world put_world serve_write serve_close fin be s Hok Hne Hun)
    as (be1 & what & iov & Hr & Hq & Hf & _ & ->). rewrite <- Hf in Hfd |- *.
  destruct (close_ends be1 what s (sys_writev (ses_world s) (be_fd be1) iov).2 q l1 l2 Hr Hq Hfd Hheap Hrepr Hconn)
    as (s' & h' & E & Hrest). exists s', h', (sys_writev (ses_world s) (be_fd be1) iov).2. rewrite <- E. done.
Qed.
End service.

(** C1: a client is served from socket to socket.  Its request arrives in pieces of any size, one for
    each time libevent finds the socket readable; then the host has been sent exactly the request's
    bytes, the input is empty, and the write event is pending.  Whenever libevent finds the socket
    writable after that, in whatever portions it takes the bytes, what the client has got and what
    is still in the output are together what there was before, and the response's bytes behind it,
    and until all is written the write event stays pending. *)
Theorem client_served `{!Malloc, !MallocOk, !Libevent} {W} `{!Net W, !NetLog W, !EvIO W, !EvIOOk W, !EvIOLog W}
    (be : bufferevent) (s : session W memcached_sym statics) fin fuel fast u p q a fd n ns cs ds w0 w1 w2 :
  let t := cl_thread (ses_conn s) in let px := pr_px (ses_pr s) in
  be_ok 1 be → at_rest px t → Z.of_nat (length fast) = FAST_BUFF_SIZE →
  ds ≠ [] → in_data be ++ concat ds = packet_bytes p → arrives (ses_world s) (be_fd be) ds w0 →
  exchange (worker (put_net px w0) t) t (recv_timeout (opts px)) u p q a fd n ns cs w1 w2 fuel →
  Z.of_nat (length (out_data be)) + plen q <= INT_MAX →
  ∃ be1 s1, read_events fuel fast (length ds) be s = Ret (Some be1, s1) ∧
    sent w1 fd = sent w0 fd ++ packet_bytes p ∧ in_data be1 = [] ∧ ev_write be1 = true ∧
    be_ok 1 be1 ∧ ses_world s1 = w2 ∧
    ∀ be2 s2, rtc (write_step fin) (be1, s1) (be2, s2) →
      peer_got (ses_world s2) (be_fd be) ++ out_data be2 = peer_got w2 (be_fd be) ++ out_data be ++ packet_bytes q ∧
      (out_data be2 ≠ [] → ev_write be2 = true).
Proof.
  intros t px Hok Hrest Hfast Hne Hdata Harr Hex Hroom.
  destruct (read_events_serve fuel fast u p q a fd n ns cs w0 w1 w2 ds be s Hok Hne Harr Hrest Hex Hfast Hdata Hroom)
    as (be1 & s1 & E & Hok1 & Hin & Hout & Hfd & Hev & Hw & Hs).
  exists be1, s1. do 6 (split; [done|]). intros be2 s2 Hsteps. destruct (write_steps_ok _ _ _ Hsteps Hok1) as (Hok2 & _ & Hc).
  cbn [fst snd] in Hc. rewrite Hfd, Hw, Hout in Hc. split; [done|]. apply Hok2.
Qed.

(** C4: what is owed to a client is written.  From any state of an open connection, on a descriptor that
    takes at least a byte of every writing, libevent's write events come to an end: after at most one
    more than there are bytes in the output (each event happens only while the write event is pending)
    the client has got all of the output in order, the output is empty, and no write event is pending. *)
Theorem client_answered `{!Malloc, !MallocOk, !Libevent} {W} `{!Net W, !EvIO W, !EvIOOk W, !EvIOLog W}
    (be : bufferevent) (s : session W memcached_sym statics) fin ready :
  be_ok 1 be → takes ready (be_fd be) → ready (ses_world s) →
  ∃ n be' s', (n <= S (length (out_data be)))%nat ∧ nsteps (write_step fin) n (be, s) (be', s') ∧
    out_data be' = [] ∧ ev_write be' = false ∧
    peer_got (ses_world s') (be_fd be) = peer_got (ses_world s) (be_fd be) ++ out_data be.
Proof.
  intros Hok Ht Hr. destruct (write_steps_drain fin ready (length (out_data be)) be s) as (n & be' & s' & Hn & Hst & Hout & Hev);
    [done..|].
  exists n, be', s'. do 4 (split; [done|]). assert (rtc (write_step fin) (be, s) (be', s')) as Hrtc by (by apply rtc_nsteps; exists n).
  destruct (write_steps_ok _ _ _ Hrtc Hok) as (_ & _ & Hc). cbn [fst snd] in Hc. by rewrite Hout, app_nil_r in Hc.
Qed.

(** C5: a client that goes leaves nothing behind.  When [readv] reports the end of the stream, or an error
    other than a call to be repeated, the connection is taken out of its worker's queue, the others in
    it staying in order, it is counted down, and the bufferevent is freed with its descriptor closed;
    nothing else of the world changes, and the routing and the pools of the proxy stay as they are. *)
Theorem client_leaves `{!Malloc, !MallocOk, !Libevent} {W} `{!Net W, !EvIO W, !EvIOOk W, !EvIOLog W}
    (be : bufferevent) (s : session W memcached_sym statics) fuel fast n d w' q l1 l2 :
  let srv := pr_server (ses_pr s) in let px := pr_px (ses_pr s) in
  be_ok 1 be → 0 <= be_fd be → Z.of_nat (length (in_data be)) + EVBUFFER_MAX_READ <= INT_MAX →
  sys_readv (ses_world s) (be_fd be) (read_len (ses_world s) (be_fd be) MAX_TO_READ_EVER) = (n, d, w') → gone n w' →
  heap_ok (conns srv) → repr (conns srv) q (l1 ++ ses_addr s :: l2) → 1 <= st_conn (stats px) <= INT_MAX →
  ∃ s', on_readable fuel fast false be s = Ret (None, s') ∧ ses_world s' = sys_close w' (be_fd be) ∧
    let srv' := pr_server (ses_pr s') in let px' := pr_px (ses_pr s') in
    heap_ok (conns srv') ∧ repr (conns srv') q (l1 ++ l2) ∧ tag (conns srv') (ses_addr s) = None ∧
    (∀ a, a ≠ ses_addr s → tag (conns srv') a = tag (conns srv) a) ∧
    m_threads srv' = m_threads srv ∧ st_conn (stats px') = st_conn (stats px) - 1 ∧
    hosts px' = hosts px ∧ pool px' = pool px ∧ bufs px' = bufs px.
Proof.
  intros srv px Hok Hfd Hmax Hrd Hg Hheap Hrepr Hconn.
  destruct (on_readable_gone fuel fast be s n d w' q l1 l2 Hok Hfd Hmax Hrd Hg Hheap Hrepr Hconn) as (s' & h' & E & Hd & Hsrv & Hpx).
  destruct (deleteConn_repr (conns srv) q l1 (ses_addr s) l2 Hheap Hrepr) as (h & Hd' & Hrepr' & Hheap' & _ & _ & Htag).
  fold srv in Hd. rewrite Hd in Hd'. injection Hd' as <-.
  exists s'. split; [done|]. unfold ses_world. cbn zeta. rewrite Hsrv, Hpx.
  split; [done|]. split; [exact Hheap'|]. split; [exact Hrepr'|]. cbn [conns with_threads].
  split; [rewrite Htag; by rewrite decide_True|].
  split; [intros a Ha; rewrite Htag; by rewrite decide_False|]. by split_and!.
Qed.

(** * A client on the scripted network *)

#[local] Instance demo_malloc : Malloc := {| mm_malloc n := Some (replicate (Z.to_nat n) x00) |}.
#[local] Instance demo_malloc_ok : MallocOk.
Proof. split. intros n Hn. eexists. split; [done|]. rewrite length_replicate. lia. Qed.
#[local] Existing Instance Server.demo_libevent.
#[local] Existing Instance socket_io.
#[local] Existing Instance socket_io_ok.
#[local] Program Instance demo_log : EvIOLog sim := {| peer_got := sent |}.
Next Obligation. intros w fd d. change (sys_writev w fd d) with (sys_send w fd d). by rewrite send_sent, decide_True. Qed.

(** The request in two pieces, then the host's answer in two. *)
Definition demo_parts : list bytes := [take 10 (packet_bytes demo_set_a); drop 10 (packet_bytes demo_set_a)].
Definition demo_session : session sim memcached_sym statics := {|
  ses_pr := {| pr_px := demo_proxy [10] (Data <$> demo_parts ++ demo_pieces);
               pr_server := {| m_thread_count := 1; m_port := 0; m_threads := []; m_signal_events := ∅;
                               m_cpu_affinity := false; last_thread := -1; conns := heap_new |};
               pr_log := Logger_new |};
  ses_conn := {| cl_fd := 9; cl_thread := 0; m_read_buf := evbuffer_new; m_write_buf := evbuffer_new |};
  ses_addr := 0 |}.

Lemma demo_parts_arrive : arrives (ses_world demo_session) 9 demo_parts (net (demo_proxy [10] (Data <$> demo_pieces))).
Proof.
  eexists. split; [vm_compute; discriminate|]. split; [vm_compute; reflexivity|].
  eexists. split; [vm_compute; discriminate|]. split; [vm_compute; reflexivity|]. vm_compute. reflexivity.
Qed.

Lemma demo_at_rest : at_rest (pr_px (ses_pr demo_session)) 0.
Proof. split; [reflexivity|]. split; [reflexivity|]. split; reflexivity. Qed.

Lemma demo_worker :
  worker (put_net (pr_px (ses_pr demo_session)) (net (demo_proxy [10] (Data <$> demo_pieces)))) 0 =
  worker (demo_proxy [10] (Data <$> demo_pieces)) 0.
Proof. reflexivity. Qed.

Lemma demo_fast : Z.of_nat (length (replicate (Z.to_nat FAST_BUFF_SIZE) x00)) = FAST_BUFF_SIZE.
Proof. rewrite length_replicate. reflexivity. Qed.

Lemma demo_room : Z.of_nat (length (out_data (client_bufferevent 9))) + plen demo_stored <= INT_MAX.
Proof. vm_compute. congruence. Qed.

Lemma demo_data : in_data (client_bufferevent 9) ++ concat demo_parts = packet_bytes demo_set_a.
Proof. vm_compute. reflexivity. Qed.


Lemma client_served_witness :
  ∃ be1 s1, read_events 5 (replicate (Z.to_nat FAST_BUFF_SIZE) x00) 2 (client_bufferevent 9) demo_session = Ret (Some be1, s1) ∧
    in_data be1 = [] ∧ ev_write be1 = true ∧
    sent (ses_world s1) 9 ++ out_data be1 = packet_bytes demo_stored.
Proof.
  destruct demo_exchange as (w1 & w2 & He & _ & Hw2).
  destruct (client_served (client_bufferevent 9) demo_session (λ _ _, 1) 5 (replicate (Z.to_nat FAST_BUFF_SIZE) x00) true
              demo_set_a demo_stored 1 3 200 [10; 24] demo_pieces demo_parts (net (demo_proxy [10] (Data <$> demo_pieces))) w1 w2)
    as (be1 & s1 & E & _ & Hin & Hev & _ & Hs & Hafter).
  - apply client_bufferevent_ok.
  - exact demo_at_rest.
  - exact demo_fast.
  - discriminate.
  - exact demo_data.
  - exact demo_parts_arrive.
  - change (cl_thread (ses_conn demo_session)) with 0. rewrite demo_worker. exact He.
  - exact demo_room.
  - exists be1, s1. split; [exact E|]. split; [exact Hin|]. split; [exact Hev|].
    destruct (Hafter be1 s1 (rtc_refl _ _)) as [Hgot _]. refine (eq_trans Hgot _).
    change (peer_got w2 (be_fd (client_bufferevent 9))) with (default [] (sim_sent w2 !! 9)). rewrite Hw2. reflexivity.
Defined.

(** The answer of [client_served_witness], written. *)
Lemma demo_takes : takes (λ w : sim, sim_sends w = []) 9.
Proof.
  intros w d Hw Hd. change (sys_writev w 9 d) with (sim_send w 9 d). unfold sim_send. rewrite Hw. cbn.
  destruct d; [done|]. cbn. split; [lia|done].
Qed.

Lemma client_answered_witness :
  ∃ be1 s1 n be2 s2, read_events 5 (replicate (Z.to_nat FAST_BUFF_SIZE) x00) 2 (client_bufferevent 9) demo_session = Ret (Some be1, s1) ∧
    nsteps (write_step (λ _ _, 1)) n (be1, s1) (be2, s2) ∧ out_data be2 = [] ∧ ev_write be2 = false ∧
    sent (ses_world s2) 9 = packet_bytes demo_stored.
Proof.
  destruct demo_exchange as (w1 & w2 & He & Hw1 & Hw2).
  destruct (read_events_serve 5 (replicate (Z.to_nat FAST_BUFF_SIZE) x00) true demo_set_a demo_stored 1 3 200 [10; 24]
              demo_pieces (net (demo_proxy [10] (Data <$> demo_pieces))) w1 w2 demo_parts (client_bufferevent 9) demo_session)
    as (be1 & s1 & E & Hok & _ & Hout & Hfd & _ & Hw & _).
  - apply client_bufferevent_ok.
  - discriminate.
  - exact demo_parts_arrive.
  - exact demo_at_rest.
  - change (cl_thread (ses_conn demo_session)) with 0. rewrite demo_worker. exact He.
  - exact demo_fast.
  - exact demo_data.
  - exact demo_room.
  - change (be_fd (client_bufferevent 9)) with 9 in Hfd.
    destruct (client_answered be1 s1 (λ _ _, 1) (λ w : sim, sim_sends w = [])) as (n & be2 & s2 & _ & Hst & Ho2 & Hev & Hgot).
    + exact Hok.
    + rewrite Hfd. exact demo_takes.
    + rewrite Hw. exact Hw1.
    + exists be1, s1, n, be2, s2. split; [exact E|]. split; [exact Hst|]. split; [exact Ho2|]. split; [exact Hev|].
      rewrite Hfd, Hw, Hout in Hgot. refine (eq_trans Hgot _).
      change (peer_got w2 9) with (default [] (sim_sent w2 !! 9)). rewrite Hw2. reflexivity.
Defined.

(** A client that hangs up: the only connection of worker 0. *)
Definition demo_leaving : session sim memcached_sym statics :=
  let px := demo_proxy [] [Closed] in {|
  ses_pr := {| pr_px := put_stats px (with_conn (stats px) 1);
               pr_server := {| m_thread_count := 1; m_port := 0;
                               m_threads := [{| index := 0; notify := []; connect_queue := demo_queue; looping := true |}];
                               m_signal_events := ∅; m_cpu_affinity := false; last_thread := 0; conns := demo_heap |};
               pr_log := Logger_new |};
  ses_conn := {| cl_fd := 9; cl_thread := 0; m_read_buf := evbuffer_new; m_write_buf := evbuffer_new |};
  ses_addr := 3 |}.

Lemma client_leaves_witness :
  ∃ s', on_readable 5 (replicate (Z.to_nat FAST_BUFF_SIZE) x00) false (client_bufferevent 9) demo_leaving = Ret (None, s') ∧
    repr (conns (pr_server (ses_pr s'))) demo_queue [] ∧ st_conn (stats (pr_px (ses_pr s'))) = 0.
Proof.
  destruct demo_heap_ok as [Hok Hr].
  edestruct (client_leaves (client_bufferevent 9) demo_leaving 5 (replicate (Z.to_nat FAST_BUFF_SIZE) x00) 0 [])
    as (s' & E & _ & Hres).
  - apply client_bufferevent_ok.
  - vm_compute. congruence.
  - vm_compute. congruence.
  - vm_compute. reflexivity.
  - left. reflexivity.
  - exact Hok.
  - exact (Hr : repr demo_heap demo_queue ([] ++ [3])).
  - vm_compute. split; congruence.
  - exists s'. destruct Hres as (_ & Hq & _ & _ & _ & Hc & _). split; [exact E|]. split; [exact Hq|exact Hc].
Defined.
