(* ===== verification/Sharing.v ===== *)
(** The clients of all workers together: [src/serv.cpp] and [src/kvproxy.cpp] on libevent.

    [site] is the program with the bufferevents of its clients, [on_event] what libevent's loops call
    in it: a connection arrives, a worker takes one over, a client's socket can be read or written, the
    signal to quit.  [clients_apart]: in the runs that [may] describes - requests of one packet for a
    host that answers, in any number of pieces, of any number of clients - no event fails and each client's
    bytes are its own.  [Descriptors] has what holds of the descriptors in all runs. *)
From S2P Require Import Prelude StdMap Util Config Log ConnQueue Server.
From S2P Require Import Hash Extension Net ConnPool ProtocolBinary Memcached MemcachedBinary.
From S2P Require Import Failover Request Backend Evbuf Evbuffer EvbufferIO Bufferevent KvProxy Transparency Main Setup Clients Service.

(** * State and events *)

(** The clients by the address of their connection. *)
Record site (W F E : Type) := { site_pr : program W F E; clients : gmap Z (bufferevent * Client evbuffer) }.
Arguments site_pr {W F E} _.
Arguments clients {W F E} _.

Inductive event :=
  | E_accept (fd : Z)   (** the listener has a connection *)
  | E_notify (i : nat)  (** there is something in the pipe of worker [i] *)
  | E_read (a : Z)      (** the client's socket can be read *)
  | E_write (a : Z)     (** it can be written *)
  | E_quit.             (** SIGINT *)

Section events.
Context `{!Malloc, !Libevent} {W : Type} `{!Net W, !EvIO W} {F E : Type} `{!Ext F E}.
Implicit Types (st : site W F E).

Definition with_program st (pr : program W F E) : site W F E := {| site_pr := pr; clients := clients st |}.

(** [threadProcess], with the connection's bufferevent and buffers. *)
Definition client_joins (i : nat) st : outcome (site W F E) :=
  let srv := pr_server (site_pr st) in
  r ← threadProcess srv i;
  let pr := with_server (site_pr st) r.2 in
  match r.1, m_threads srv !! i with
  | Some c, Some t =>
      px ← connectionEvent (pr_px pr);
      let fd := default 0 (head (notify t)) in
      let conn := {| cl_fd := u32 fd; cl_thread := index t; m_read_buf := evbuffer_new; m_write_buf := evbuffer_new |} in
      Ret {| site_pr := with_px pr px; clients := <[c := (client_bufferevent fd, conn)]> (clients st) |}
  | _, _ => Ret (with_program st pr)
  end.

(** What a callback of client [a]'s bufferevent leaves. *)
Definition put_client (a : Z) (r : option bufferevent * session W F E) st : site W F E := {|
  site_pr := ses_pr r.2;
  clients := match r.1 with
             | Some be => <[a := (be, ses_conn r.2)]> (clients st)
             | None => delete a (clients st)
             end |}.

Definition on_event (fuel : nat) (fast : bytes) (fin : W → Z → Z) (e : event) st : outcome (site W F E) :=
  match e with
  | E_accept fd => s ← listenerEventCb (pr_server (site_pr st)) fd; Ret (with_program st (with_server (site_pr st) s))
  | E_notify i => client_joins i st
  | E_read a =>
      match clients st !! a with
      | None => Ret st
      | Some (be, conn) =>
          r ← on_readable fuel fast false be {| ses_pr := site_pr st; ses_conn := conn; ses_addr := a |};
          Ret (put_client a r st)
      end
  | E_write a =>
      match clients st !! a with
      | None => Ret st
      | Some (be, conn) =>
          r ← on_writable fin false be {| ses_pr := site_pr st; ses_conn := conn; ses_addr := a |};
          Ret (put_client a r st)
      end
  | E_quit => Ret (with_program st (with_server (site_pr st) (quitCb (site_pr st)).1.2))
  end.
End events.

(** * What the clients see *)

(** Each client's bytes that are not served yet, and those that are not written yet. *)
Definition view {W F E} (st : site W F E) : gmap Z (bytes * bytes) := (λ c, (in_data c.1, out_data c.1)) <$> clients st.

Inductive happening :=
  | Unseen                         (** nothing a client could notice *)
  | Joined (a : Z)
  | Piece (a : Z) (d : bytes)      (** a part of a request *)
  | Served (a : Z) (q : packet)    (** the rest of it, and the answer [q] *)
  | Wrote (a : Z)
  | Left (a : Z).

Inductive effect : happening → gmap Z (bytes * bytes) → gmap Z (bytes * bytes) → Prop :=
  | effect_unseen V : effect Unseen V V
  | effect_joined V a : V !! a = None → effect (Joined a) V (<[a := ([], [])]> V)
  | effect_piece V a d i o : V !! a = Some (i, o) → effect (Piece a d) V (<[a := (i ++ d, o)]> V)
  | effect_served V a q i o : V !! a = Some (i, o) → effect (Served a q) V (<[a := ([], o ++ packet_bytes q)]> V)
  | effect_wrote V a n i o : V !! a = Some (i, o) → effect (Wrote a) V (<[a := (i, drop n o)]> V)
  | effect_left V a : effect (Left a) V (delete a V).

Section sharing.
Context `{!Malloc, !MallocOk, !Libevent} {W : Type} `{!Net W, !NetLog W, !EvIO W, !EvIOOk W, !EvIOLog W}.
Context (fuel : nat) (fast : bytes) (fin : W → Z → Z).
Implicit Types (st : site W memcached_sym statics).

Definition site_px st := pr_px (site_pr st).
Definition site_srv st : Server := pr_server (site_pr st).

(** The bytes [readv] hands over for a client. *)
Definition receives st (be : bufferevent) (n : Z) (d : bytes) (w' : W) : Prop :=
  sys_readv (net (site_px st)) (be_fd be) (read_len (net (site_px st)) (be_fd be) MAX_TO_READ_EVER) = (n, d, w').

(** What the kernel, the clients and the hosts may do.  A client sends a request of one packet, for one host,
    that fits [FAST_BUFF_SIZE], in pieces; when the last one arrives, the host is connected and answers.  A client
    takes some of what is written to it, or will take some later; or it is gone, which [readv] or [writev] tells. *)
Inductive may st : event → happening → Prop :=
  | may_accept fd : may st (E_accept fd) Unseen
  | may_quit : may st E_quit Unseen
  | may_stop i t rest :
      m_threads (site_srv st) !! i = Some t → notify t = EXIT_CODE :: rest → may st (E_notify i) Unseen
  | may_join i t fd rest :
      m_threads (site_srv st) !! i = Some t → notify t = fd :: rest → fd ≠ EXIT_CODE → 0 <= fd →
      Server.bufferevent_socket_new fd = true → st_conn (stats (site_px st)) < INT_MAX →
      may st (E_notify i) (Joined (brk (conns (site_srv st))))
  | may_piece a be conn d w' p m :
      clients st !! a = Some (be, conn) → d ≠ [] → receives st be (Z.of_nat (length d)) d w' →
      packet_ok PROTOCOL_BINARY_REQ p → quiet (p_head p) ∨ final (p_head p) → plen p <= FAST_BUFF_SIZE →
      in_data be ++ d = take m (packet_bytes p) → (0 < m < length (packet_bytes p))%nat →
      may st (E_read a) (Piece a d)
  | may_serve a be conn d w' u p q h fd n ns cs w1 w2 :
      clients st !! a = Some (be, conn) → d ≠ [] → receives st be (Z.of_nat (length d)) d w' →
      let t := cl_thread conn in
      exchange (worker (put_net (site_px st) w') t) t (recv_timeout (opts (site_px st))) u p q h fd n ns cs w1 w2 fuel →
      in_data be ++ d = packet_bytes p → Z.of_nat (length (out_data be)) + plen q <= INT_MAX →
      may st (E_read a) (Served a q)
  | may_write a be conn :
      clients st !! a = Some (be, conn) → writable (net (site_px st)) (be_fd be) → may st (E_write a) (Wrote a)
  | may_leave a be conn n d w' :
      clients st !! a = Some (be, conn) → Z.of_nat (length (in_data be)) + EVBUFFER_MAX_READ <= INT_MAX →
      receives st be n d w' → gone n w' → st_conn (stats (site_px st)) <= INT_MAX →
      may st (E_read a) (Left a)
  | may_break a be conn :
      clients st !! a = Some (be, conn) → out_data be ≠ [] → unwritable (net (site_px st)) (be_fd be) →
      st_conn (stats (site_px st)) <= INT_MAX → may st (E_write a) (Left a).

(** There are workers, and they are between requests; the clients are the connections in their queues, and
    each client's bufferevent is open. *)
Definition clients_ok st (ls : list (list Z)) : Prop :=
  queues_ok (site_srv st) ls ∧ st_conn (stats (site_px st)) = Z.of_nat (length (concat ls)) ∧
  ∀ a, is_Some (clients st !! a) ↔ a ∈ concat ls.
Definition all_open st : Prop :=
  ∀ a be conn, clients st !! a = Some (be, conn) → be_ok 1 be ∧ 0 <= be_fd be.
Definition site_ok st : Prop :=
  server_ready (site_srv st) ∧ (∀ t, at_rest (site_px st) t) ∧ (∃ ls, clients_ok st ls) ∧ all_open st.

(** * Lemmas *)

Lemma rest_all (px px' : KvProxy W memcached_sym statics) t :
  (∀ t', at_rest px t') → at_rest px' t → others_same px px' t → ∀ t', at_rest px' t'.
Proof.
  intros Hall Hr (_ & _ & Hb) t'. destruct (decide (t' = t)) as [->|Ht]; [done|].
  destruct Hr as (_ & _ & Hp & Hu). destruct (Hall t') as (Hpos & Hlist & _ & _).
  assert (k_buf (worker px' t') = k_buf (worker px t')) as Hk by (unfold worker; cbn [k_buf]; by rewrite Hb).
  unfold at_rest. rewrite Hk. by split_and!.
Qed.

Lemma view_put st a be' s' :
  view (put_client a (Some be', s') st) = <[a := (in_data be', out_data be')]> (view st).
Proof. unfold view, put_client. cbn. by rewrite fmap_insert. Qed.

Lemma view_at st a be conn : clients st !! a = Some (be, conn) → view st !! a = Some (in_data be, out_data be).
Proof. intros Ha. unfold view. by rewrite lookup_fmap, Ha. Qed.

Lemma put_client_ok st a be conn be' (s' : session W memcached_sym statics) :
  site_ok st → clients st !! a = Some (be, conn) → (∀ t, at_rest (pr_px (ses_pr s')) t) →
  pr_server (ses_pr s') = site_srv st → st_conn (stats (pr_px (ses_pr s'))) = st_conn (stats (site_px st)) →
  be_ok 1 be' → be_fd be' = be_fd be → site_ok (put_client a (Some be', s') st).
Proof.
  intros (Hready & _ & (ls & Hq & Hn & Hd) & Hopen) Ha Hrest Hsrv Hconn Hok Hfd.
  split; [unfold site_srv, put_client; cbn; by rewrite Hsrv|]. split; [done|]. split.
  - exists ls. unfold clients_ok, site_srv, site_px, put_client. cbn. rewrite Hsrv, Hconn. split; [done|]. split; [done|].
    intros a'. rewrite <- Hd, lookup_insert_is_Some. destruct (decide (a' = a)) as [->|]; [rewrite Ha|]; naive_solver.
  - intros a' be2 conn2. cbn. rewrite lookup_insert_Some. intros [[<- [= <- <-]]|[_ Hx]]; [|by eapply Hopen].
    split; [done|]. rewrite Hfd. by eapply Hopen.
Qed.

(** The program's part of a change that leaves the clients alone. *)
Lemma with_server_ok st (s' : Server) :
  site_ok st → server_ready s' → connect_queue <$> m_threads s' = connect_queue <$> m_threads (site_srv st) →
  conns s' = conns (site_srv st) → site_ok (with_program st (with_server (site_pr st) s')).
Proof.
  intros (_ & Hrest & (ls & Hq & Hn & Hd) & Hopen) Hready Ht Hc. split; [done|]. split; [done|]. split; [|done]. exists ls.
  split; [by eapply queues_ok_pipes|done].
Qed.

(** * The events *)

Lemma accept_event_ok st fd :
  site_ok st → ∃ st', on_event fuel fast fin (E_accept fd) st = Ret st' ∧ site_ok st' ∧ clients st' = clients st.
Proof.
  intros Hok. destruct (listener_ready (site_srv st) fd (proj1 Hok)) as (num & t & s' & Ht & E & Hready & Hth & Hc).
  cbn [on_event]. fold (site_srv st). rewrite E. cbn [mbind outcome_bind]. eexists. split; [done|]. split; [|done].
  apply with_server_ok; [done|done| |done]. rewrite Hth, list_fmap_insert. cbn [connect_queue send_notify].
  by rewrite list_insert_id; [|rewrite list_lookup_fmap, Ht].
Qed.

Lemma quit_event_ok st :
  site_ok st → ∃ st', on_event fuel fast fin E_quit st = Ret st' ∧ site_ok st' ∧ clients st' = clients st.
Proof.
  intros Hok. eexists. split; [done|]. split; [|done]. apply with_server_ok; [done| | |done].
  - destruct (proj1 Hok) as (? & ? & ?). split; [done|]. cbn. by rewrite length_fmap.
  - cbn. rewrite <- list_fmap_compose. by apply list_fmap_ext.
Qed.

Lemma stop_event_ok st i t rest :
  site_ok st → m_threads (site_srv st) !! i = Some t → notify t = EXIT_CODE :: rest →
  ∃ st', client_joins i st = Ret st' ∧ site_ok st' ∧ clients st' = clients st.
Proof.
  intros Hok Ht Hn. unfold client_joins, threadProcess. fold (site_srv st). rewrite Ht, Hn. rewrite decide_True by done.
  cbn [mbind outcome_bind fst snd]. eexists. split; [done|]. split; [|done].
  apply with_server_ok; [done| | |done].
  { destruct (proj1 Hok) as (? & ? & ?). split; [done|]. cbn. by rewrite length_insert. }
  cbn. rewrite list_fmap_insert. cbn [connect_queue].
  by rewrite list_insert_id; [|rewrite list_lookup_fmap, Ht].
Qed.

Lemma join_event_ok st i t fd rest :
  site_ok st → m_threads (site_srv st) !! i = Some t → notify t = fd :: rest → fd ≠ EXIT_CODE → 0 <= fd →
  Server.bufferevent_socket_new fd = true → st_conn (stats (site_px st)) < INT_MAX →
  ∃ st', client_joins i st = Ret st' ∧ site_ok st' ∧
    effect (Joined (brk (conns (site_srv st)))) (view st) (view st').
Proof.
  intros (Hready & Hrest & (ls & Hq & Hn & Hd) & Hopen) Ht Hnot Hne Hpos Hnew Hmax.
  set (me := {| index := index t; notify := rest; connect_queue := connect_queue t; looping := looping t |}).
  destruct (queues_insert (site_srv st) ls i t me fd Hq Ht eq_refl) as (h' & ls' & E & Hq' & Hfresh & Hlen & Hin).
  set (c := brk (conns (site_srv st))) in *.
  assert (clients st !! c = None) as Hnone by (apply eq_None_not_Some; by rewrite Hd).
  unfold client_joins, threadProcess. fold (site_srv st). rewrite Ht, Hnot, decide_False by done. rewrite Hnew.
  cbn [negb connect_queue index]. rewrite E. cbn [mbind outcome_bind fst snd].
  unfold connectionEvent. change (pr_px (with_server (site_pr st) _)) with (site_px st).
  unfold int_add. rewrite decide_True by (unfold is_int, INT_MIN, INT_MAX in *; lia). cbn [mbind outcome_bind head default].
  eexists. split; [done|]. split; [|].
  2: { unfold view. cbn [clients]. rewrite fmap_insert. apply effect_joined. by rewrite lookup_fmap, Hnone. }
  split; [destruct Hready as (? & ? & ?); split; [done|]; cbn; by rewrite length_insert|]. split; [exact Hrest|]. split.
  - exists ls'. split; [exact Hq'|]. split; [unfold site_px at 1; cbn; lia|].
    intros a. cbn [clients]. rewrite lookup_insert_is_Some, Hd, Hin. destruct (decide (a = c)); naive_solver.
  - intros a be conn. cbn [clients]. rewrite lookup_insert_Some. intros [[<- [= <- <-]]|[_ Hx]]; [|by eapply Hopen].
    split; [apply client_bufferevent_ok|done].
Qed.

(** Both ways for a client to leave. *)
Lemma left_ok st ls a be conn h' w (s' : session W memcached_sym statics) :
  site_ok st → clients_ok st ls → clients st !! a = Some (be, conn) → deleteConn (conns (site_srv st)) a = Ret h' →
  pr_server (ses_pr s') = with_threads (site_srv st) (m_threads (site_srv st)) h' →
  pr_px (ses_pr s') = put_net (put_stats (site_px st) (with_conn (stats (site_px st)) (st_conn (stats (site_px st)) - 1))) w →
  site_ok (put_client a (None, s') st) ∧ effect (Left a) (view st) (view (put_client a (None, s') st)).
Proof.
  intros (Hready & Hrest & _ & Hopen) Hc Ha Hdel Hsrv Hpx. pose proof (mk_is_Some _ _ Ha) as Hsome.
  pose proof Hc as (Hq & Hn & Hd).
  destruct (queues_delete (site_srv st) ls a h' Hq (proj1 (Hd a) Hsome) Hdel) as (ls' & Hq' & Hlen & Hin). split.
  - split; [|split; [|split]].
    + unfold site_srv, put_client. cbn. by rewrite Hsrv.
    + intros t'. unfold site_px, put_client. cbn. rewrite Hpx. apply Hrest.
    + exists ls'. split; [|split]; unfold site_srv, site_px, put_client; cbn; rewrite ?Hsrv, ?Hpx; [done|cbn; lia|].
      intros a'. rewrite Hin, <- Hd. destruct (decide (a' = a)) as [->|]; [rewrite lookup_delete_eq|rewrite lookup_delete_ne by done];
        naive_solver.
    + intros a' be' conn'. cbn. rewrite lookup_delete_Some. intros [_ Hx]. by eapply Hopen.
  - unfold view, put_client. cbn. rewrite fmap_delete. constructor.
Qed.

(** A client is counted. *)
Lemma client_counted st ls a : clients_ok st ls → is_Some (clients st !! a) → 1 <= st_conn (stats (site_px st)).
Proof.
  intros (_ & Hn & Hd) Ha%Hd. rewrite Hn. destruct (concat ls); [by apply not_elem_of_nil in Ha|]. cbn. lia.
Qed.

Lemma leave_event_ok st a be conn n d w' :
  site_ok st → clients st !! a = Some (be, conn) → Z.of_nat (length (in_data be)) + EVBUFFER_MAX_READ <= INT_MAX →
  receives st be n d w' → gone n w' → st_conn (stats (site_px st)) <= INT_MAX →
  ∃ st', on_event fuel fast fin (E_read a) st = Ret st' ∧ site_ok st' ∧ effect (Left a) (view st) (view st').
Proof.
  intros Hok Ha Hmax Hrd Hg Hconn. pose proof Hok as (_ & _ & (ls & Hc) & Hopen). destruct (Hopen _ _ _ Ha) as [Hbe Hfd].
  pose proof (mk_is_Some _ _ Ha) as Hsome. pose proof (client_counted st ls a Hc Hsome) as Hone.
  destruct (queues_member (site_srv st) ls a (proj1 Hc)) as (ts1 & t & ts2 & ls1 & la & lb & ls2 & _ & _ & _ & _ & Hr & _);
    [by apply Hc|]. destruct (proj1 Hc) as (Hheap & _).
  destruct (on_readable_gone fuel fast be {| ses_pr := site_pr st; ses_conn := conn; ses_addr := a |} n d w'
              (connect_queue t) la lb Hbe Hfd Hmax Hrd Hg Hheap Hr (conj Hone Hconn)) as (s' & h' & E & Hdel & Hsrv & Hpx).
  cbn [on_event]. rewrite Ha, E. cbn [mbind outcome_bind]. eexists. split; [done|].
  by apply (left_ok st ls a be conn h' (sys_close w' (be_fd be)) s').
Qed.

Lemma break_event_ok st a be conn :
  site_ok st → clients st !! a = Some (be, conn) → out_data be ≠ [] → unwritable (net (site_px st)) (be_fd be) →
  st_conn (stats (site_px st)) <= INT_MAX →
  ∃ st', on_event fuel fast fin (E_write a) st = Ret st' ∧ site_ok st' ∧ effect (Left a) (view st) (view st').
Proof.
  intros Hok Ha Hne Hun Hconn. pose proof Hok as (_ & _ & (ls & Hc) & Hopen). destruct (Hopen _ _ _ Ha) as [Hbe Hfd].
  pose proof (mk_is_Some _ _ Ha) as Hsome. pose proof (client_counted st ls a Hc Hsome) as Hone.
  destruct (queues_member (site_srv st) ls a (proj1 Hc)) as (ts1 & t & ts2 & ls1 & la & lb & ls2 & _ & _ & _ & _ & Hr & _);
    [by apply Hc|]. destruct (proj1 Hc) as (Hheap & _).
  destruct (on_writable_gone fin be {| ses_pr := site_pr st; ses_conn := conn; ses_addr := a |}
              (connect_queue t) la lb Hbe Hfd Hne Hun Hheap Hr (conj Hone Hconn)) as (s' & h' & w' & E & Hdel & Hsrv & Hpx).
  cbn [on_event]. rewrite Ha, E. cbn [mbind outcome_bind]. eexists. split; [done|].
  by apply (left_ok st ls a be conn h' (sys_close w' (be_fd be)) s').
Qed.

Lemma write_event_ok st a be conn :
  site_ok st → clients st !! a = Some (be, conn) → writable (net (site_px st)) (be_fd be) →
  ∃ st', on_event fuel fast fin (E_write a) st = Ret st' ∧ site_ok st' ∧ effect (Wrote a) (view st) (view st').
Proof.
  intros Hok Ha Hw. pose proof Hok as (_ & Hrest & _ & Hopen). destruct (Hopen _ _ _ Ha) as [Hbe _].
  destruct (on_writable_ok fin be {| ses_pr := site_pr st; ses_conn := conn; ses_addr := a |} Hbe Hw)
    as (be' & s' & E & Hbe' & (Hin & Hfd & _ & _) & _ & ((w & Hpx) & Hsrv & _ & _) & Hcase).
  cbn [on_event]. rewrite Ha, E. cbn [mbind outcome_bind ses_pr] in *. fold (site_px st) in Hpx. eexists. split; [done|]. split.
  - eapply put_client_ok; try done.
    + intros t. rewrite Hpx. apply Hrest.
    + by rewrite Hpx.
  - rewrite view_put. unfold in_data at 1. rewrite Hin.
    assert (∃ n, out_data be' = drop n (out_data be)) as [n ->].
    { destruct Hcase as [[He _]|(_ & iov & _ & _ & ->)]; [|by eexists]. exists 0%nat.
      destruct (on_writable_ok fin be {| ses_pr := site_pr st; ses_conn := conn; ses_addr := a |} Hbe Hw)
        as (be2 & s2 & E2 & _ & (_ & _ & _ & Hc) & _ & _ & [[_ Hs]|[Hne _]]); [|done].
      rewrite E in E2. injection E2 as <- <-. rewrite Hs in Hc. apply app_inv_head in Hc. by rewrite Hc, drop_0. }
    apply effect_wrote. by eapply view_at.
Qed.

Lemma piece_event_ok st a be conn d w' p m :
  site_ok st → Z.of_nat (length fast) = FAST_BUFF_SIZE → clients st !! a = Some (be, conn) → d ≠ [] →
  receives st be (Z.of_nat (length d)) d w' →
  packet_ok PROTOCOL_BINARY_REQ p → quiet (p_head p) ∨ final (p_head p) → plen p <= FAST_BUFF_SIZE →
  in_data be ++ d = take m (packet_bytes p) → (0 < m < length (packet_bytes p))%nat →
  ∃ st', on_event fuel fast fin (E_read a) st = Ret st' ∧ site_ok st' ∧ effect (Piece a d) (view st) (view st').
Proof.
  intros Hok Hfast Ha Hd Hrd Hp Hv Hsmall Hdata Hm. pose proof Hok as (_ & Hrest & _ & Hopen).
  destruct (Hopen _ _ _ Ha) as [Hbe _].
  destruct (on_readable_part fuel fast be {| ses_pr := site_pr st; ses_conn := conn; ses_addr := a |} d w' p m
              Hbe Hd Hrd (Hrest _) Hp Hv Hsmall Hfast Hdata Hm)
    as (be' & s' & E & Hbe' & Hin & Hout & Hfd & _ & _ & (Hw & Hoth & Hr') & Hsrv).
  cbn [on_event]. rewrite Ha, E. cbn [mbind outcome_bind ses_pr ses_conn] in *. eexists. split; [done|]. split.
  - eapply put_client_ok; try done.
    + by apply (rest_all _ _ (cl_thread conn) Hrest).
    + exact (f_equal (λ k, st_conn (k_stats k)) Hw).
  - rewrite view_put, Hin, Hout. apply effect_piece. by eapply view_at.
Qed.

Lemma serve_event_ok st a be conn d w' u p q h fd n ns cs w1 w2 :
  site_ok st → Z.of_nat (length fast) = FAST_BUFF_SIZE → clients st !! a = Some (be, conn) → d ≠ [] →
  receives st be (Z.of_nat (length d)) d w' →
  let t := cl_thread conn in
  exchange (worker (put_net (site_px st) w') t) t (recv_timeout (opts (site_px st))) u p q h fd n ns cs w1 w2 fuel →
  in_data be ++ d = packet_bytes p → Z.of_nat (length (out_data be)) + plen q <= INT_MAX →
  ∃ st', on_event fuel fast fin (E_read a) st = Ret st' ∧ site_ok st' ∧ effect (Served a q) (view st) (view st').
Proof.
  intros Hok Hfast Ha Hd Hrd t He Hdata Hroom. pose proof Hok as (_ & Hrest & (ls & _ & Hn & _) & Hopen).
  destruct (Hopen _ _ _ Ha) as [Hbe _].
  destruct (on_readable_last fuel fast be {| ses_pr := site_pr st; ses_conn := conn; ses_addr := a |} d w' u p q h fd ns cs w1 w2 n
              Hbe Hd Hrd (Hrest _) He Hfast Hdata Hroom)
    as (be' & s' & E & Hbe' & Hin & Hout & Hfd & _ & _ & _ & _ & Hr' & Hoth & Hsrv & Hconn).
  cbn [on_event]. rewrite Ha, E. cbn [mbind outcome_bind ses_pr ses_conn] in *. eexists. split; [done|]. split.
  - eapply put_client_ok; try done.
    + by apply (rest_all _ _ (cl_thread conn) Hrest).
    + apply Hconn. fold (site_px st). lia.
  - rewrite view_put, Hin, Hout. eapply effect_served. by eapply view_at.
Qed.

(** One event. *)
Lemma event_ok st e h :
  site_ok st → Z.of_nat (length fast) = FAST_BUFF_SIZE → may st e h →
  ∃ st', on_event fuel fast fin e st = Ret st' ∧ site_ok st' ∧ effect h (view st) (view st').
Proof.
  intros Hok Hfast [fd| |i t rest Ht Hn|i t fd rest Ht Hn Hne Hpos Hnew Hmax|a be conn d w' p m|
    a be conn d w' u p q x fd n ns cs w1 w2 Ha Hd Hrd t He Hdata Hroom|a be conn Ha Hw|a be conn n d w' Ha Hmax Hrd Hg Hc|
    a be conn Ha Hne Hun Hc].
  - destruct (accept_event_ok st fd Hok) as (st' & E & Hok' & Hcl). exists st'. split; [done|]. split; [done|].
    unfold view. rewrite Hcl. constructor.
  - destruct (quit_event_ok st Hok) as (st' & E & Hok' & Hcl). exists st'. split; [done|]. split; [done|].
    unfold view. rewrite Hcl. constructor.
  - destruct (stop_event_ok st i t rest Hok Ht Hn) as (st' & E & Hok' & Hcl). exists st'. split; [done|]. split; [done|].
    unfold view. rewrite Hcl. constructor.
  - by eapply join_event_ok.
  - by intros; eapply piece_event_ok.
  - exact (serve_event_ok st a be conn d w' u p q x fd n ns cs w1 w2 Hok Hfast Ha Hd Hrd He Hdata Hroom).
  - by eapply write_event_ok.
  - by eapply leave_event_ok.
  - by eapply break_event_ok.
Qed.

(** Runs, with what happens in them. *)
Inductive runs : site W memcached_sym statics → list happening → site W memcached_sym statics → Prop :=
  | runs_nil st : runs st [] st
  | runs_cons st e h st1 hs st2 :
      may st e h → on_event fuel fast fin e st = Ret st1 → runs st1 hs st2 → runs st (h :: hs) st2.

Fixpoint effects (hs : list happening) (V V' : gmap Z (bytes * bytes)) : Prop :=
  match hs with
  | [] => V' = V
  | h :: hs => ∃ V1, effect h V V1 ∧ effects hs V1 V'
  end.

Lemma runs_ok st hs st' :
  runs st hs st' → Z.of_nat (length fast) = FAST_BUFF_SIZE → site_ok st → site_ok st' ∧ effects hs (view st) (view st').
Proof.
  induction 1 as [st|st e h st1 hs st2 Hm He _ IH]; intros Hfast Hok; [done|].
  destruct (event_ok st e h Hok Hfast Hm) as (st' & E & Hok' & Heff). rewrite He in E. injection E as <-.
  destruct (IH Hfast Hok') as [? ?]. split; [done|]. by exists (view st1).
Qed.
End sharing.

(** The client a happening is about. *)
Definition about (h : happening) : option Z :=
  match h with
  | Unseen => None
  | Joined a | Piece a _ | Served a _ | Wrote a | Left a => Some a
  end.

Lemma effect_others h V V' a : effect h V V' → about h ≠ Some a → V' !! a = V !! a.
Proof. intros []; cbn; intros Hn; rewrite ?lookup_insert_ne, ?lookup_delete_ne by congruence; done. Qed.

Lemma effects_others hs : ∀ V V' a,
  effects hs V V' → Forall (λ h, about h ≠ Some a) hs → V' !! a = V !! a.
Proof.
  induction hs as [|h hs IH]; intros V V' a Heff Hall; [by rewrite Heff|].
  destruct Heff as (V1 & H1 & H2). apply Forall_cons in Hall as [Hh Hall]. rewrite (IH _ _ _ H2 Hall). by eapply effect_others.
Qed.

(** C2: clients do not get into each other's way.  In every run in which clients of any number of workers
    connect, send requests of one packet each, in pieces, for hosts that answer, take their answers as
    they like, and leave - which reading or writing tells - and in which the signal to quit may come, all
    interleaved in any way: no event fails; each one changes only the bytes of the
    client it is about, and as it should - a piece is kept behind the earlier ones, the last piece
    clears them and puts the host's answer to this very request behind the answers before it, what is
    written goes from the front - so that a client nothing happens to finds its bytes as they were; and
    afterwards there are workers between requests, the queues hold exactly the clients that are there,
    and "status" counts them. *)
Theorem clients_apart `{!Malloc, !MallocOk, !Libevent} {W} `{!Net W, !NetLog W, !EvIO W, !EvIOOk W, !EvIOLog W}
    fuel fast fin (st st' : site W memcached_sym statics) hs :
  Z.of_nat (length fast) = FAST_BUFF_SIZE → site_ok st → runs fuel fast fin st hs st' →
  site_ok st' ∧ effects hs (view st) (view st') ∧
  (∀ a, Forall (λ h, about h ≠ Some a) hs → view st' !! a = view st !! a) ∧
  ∀ e h, may fuel st' e h → ∃ st2, on_event fuel fast fin e st' = Ret st2.
Proof.
  intros Hfast Hok Hr. destruct (runs_ok fuel fast fin st hs st' Hr Hfast Hok) as [Hok' Heff].
  split; [done|]. split; [done|]. split; [intros a; by apply effects_others|].
  intros e h Hm. destruct (event_ok fuel fast fin st' e h Hok' Hfast Hm) as (st2 & E & _). by exists st2.
Qed.


(** * A start *)

(** What [main] builds, with memcached's extension for the binary protocol, before the first client. *)
Lemma main_site_ok `{!Malloc, !MallocOk, !Libevent} {W} `{!Net W, !NetOk W, !NetLog W, !EvIO W, !EvIOOk W, !EvIOLog W}
    {handle : Type} `{!Dl handle memcached_sym, !Threads} linux pid fs logfs malloc args e (w : W) (pr : program W memcached_sym statics) :
  main linux pid fs logfs malloc args e w = Ret pr →
  0 < m_thread_count (pr_server pr) <= INT_MAX →
  ptrs (pr_px pr) = Some memcached_ptrs →
  use_binary (init_statics (statics_ (pr_px pr)) (px_conf (pr_px pr))).1 = true →
  site_ok {| site_pr := pr; clients := ∅ |}.
Proof.
  intros Hm Hpos Hp Hu.
  destruct (main_makes_ready _ _ _ _ _ _ _ _ _ Hm) as ((ls & Hq & _ & Hh) & Hlen & (_ & _ & Hz & _ & Hconn) & _ & _ & _ & _ & Hlast).
  cbn [accepted closed snd] in Hh. apply Permutation_length in Hh. unfold live in Hh. rewrite !length_app, length_fmap in Hh.
  cbn [length] in Hh. assert (concat ls = []) as Els by (apply nil_length_inv; cbn [fst] in *; lia).
  split; [|split; [|split]].
  - unfold server_ready, site_srv. cbn [site_pr]. rewrite Hlast. split; [done|]. split; [done|lia].
  - intros t. unfold at_rest, site_px. cbn [site_pr].
    assert (position (k_buf (worker (pr_px pr) t)) = 0 ∧ req_list_data (k_buf (worker (pr_px pr) t)) = []) as [-> ->]; [|by split_and!].
    unfold worker. cbn [k_buf]. destruct (bufs (pr_px pr) !! t) as [b|] eqn:E; [by apply (Hz t b)|done].
  - exists ls. split; [exact Hq|]. unfold site_px. cbn [site_pr clients]. rewrite Hconn, Els. split; [done|].
    intros a. rewrite lookup_empty, elem_of_nil. split; [by intros []|done].
  - intros a be conn. cbn [clients]. by rewrite lookup_empty.
Qed.

(** * Two clients of a worker on the scripted network *)

#[local] Existing Instance demo_malloc.
#[local] Existing Instance demo_malloc_ok.
#[local] Existing Instance Server.demo_libevent.
#[local] Existing Instance socket_io.
#[local] Existing Instance socket_io_ok.
#[local] Existing Instance demo_log.

Definition demo_client_of (fd : Z) : bufferevent * Client evbuffer :=
  (client_bufferevent fd, {| cl_fd := fd; cl_thread := 0; m_read_buf := evbuffer_new; m_write_buf := evbuffer_new |}).

(** The client 4 joined client 3 in the queue; a request of the latter is on its way. *)
Definition demo_site (h : heap) : site sim memcached_sym statics :=
  let px := demo_proxy [10] (Data <$> packet_bytes demo_set_a :: demo_pieces) in {|
  site_pr := {| pr_px := put_stats px (with_conn (stats px) 2);
                pr_server := {| m_thread_count := 1; m_port := 0;
                                m_threads := [{| index := 0; notify := []; connect_queue := demo_queue; looping := true |}];
                                m_signal_events := ∅; m_cpu_affinity := false; last_thread := 0; conns := h |};
                pr_log := Logger_new |};
  clients := {[ 3 := demo_client_of 9; 4 := demo_client_of 10 ]} |}.

Lemma demo_site_ok h : heap_ok h → repr h demo_queue [4; 3] → site_ok (demo_site h).
Proof.
  intros Hok Hr. split; [|split; [|split]].
  - split; [vm_compute; split; congruence|]. split; [reflexivity|]. vm_compute. split; congruence.
  - intros t. destruct (decide (t = 0)) as [->|Ht]; [exact demo_at_rest|].
    destruct demo_at_rest as (_ & _ & Hp & Hu). unfold at_rest, worker. cbn [k_buf].
    change (bufs _) with ({[ 0 := demo_bufs 200 ]} : gmap Z Buffers).
    rewrite lookup_singleton_ne by congruence. split; [done|]. split; [done|]. split; [exact Hp|exact Hu].
  - exists [[4; 3]]. split; [|split; [reflexivity|]].
    + split; [exact Hok|]. split; [by constructor|]. destruct Hr as [_ Hn]. exact Hn.
    + intros a. cbn [clients demo_site concat app]. rewrite lookup_insert_is_Some, lookup_singleton_is_Some.
      rewrite !elem_of_cons, elem_of_nil. destruct (decide (a = 3)); naive_solver.
  - intros a be conn. cbn [clients demo_site]. rewrite lookup_insert_Some, lookup_singleton_Some.
    intros [[_ [= <- _]]|[_ [_ [= <- _]]]]; (split; [apply client_bufferevent_ok|done]).
Qed.

Lemma clients_apart_witness :
  ∃ st st', site_ok st ∧
    runs 5 (replicate (Z.to_nat FAST_BUFF_SIZE) x00) (λ _ _, 1) st [Served 3 demo_stored] st' ∧ site_ok st' ∧
    view st' !! 3 = Some ([], packet_bytes demo_stored) ∧ view st' !! 4 = Some ([], []).
Proof.
  destruct demo_heap_ok as [Hh Hr]. destruct (insertConn_repr demo_heap demo_queue [3] 10 0 Hh Hr) as (h & _ & Hr2 & Hh2 & _).
  pose proof (demo_site_ok h Hh2 Hr2) as Hok. destruct demo_exchange as (w1 & w2 & He & _).
  assert (may 5 (demo_site h) (E_read 3) (Served 3 demo_stored)) as Hmay.
  { eapply (may_serve 5 (demo_site h) 3 (client_bufferevent 9) (demo_client_of 9).2 (packet_bytes demo_set_a)
              (net (demo_proxy [10] (Data <$> demo_pieces))) true demo_set_a demo_stored 1 3 200 [10; 24] demo_pieces w1 w2).
    - reflexivity.
    - vm_compute. discriminate.
    - unfold receives. vm_compute. reflexivity.
    - exact (exchange_serving _ (with_conn (stats (demo_proxy [] [])) 2) 0 [] _ _ _ _ _ _ _ _ _ _ _ _ _ He).
    - vm_compute. reflexivity.
    - exact demo_room. }
  destruct (event_ok 5 (replicate (Z.to_nat FAST_BUFF_SIZE) x00) (λ _ _, 1) _ _ _ Hok demo_fast Hmay) as (st' & E & _ & _).
  assert (runs 5 (replicate (Z.to_nat FAST_BUFF_SIZE) x00) (λ _ _, 1) (demo_site h) [Served 3 demo_stored] st') as Hruns
    by (econstructor; [exact Hmay|exact E|constructor]).
  destruct (clients_apart 5 (replicate (Z.to_nat FAST_BUFF_SIZE) x00) (λ _ _, 1) (demo_site h) st' [Served 3 demo_stored]
              demo_fast Hok Hruns) as (Hok' & (V & Heff & Heq) & Hothers & _).
  exists (demo_site h), st'. split; [exact Hok|]. split; [exact Hruns|]. split; [exact Hok'|]. split.
  - cbn in Heq. rewrite Heq. inversion Heff as [| | |V0 a q i o Hv| |]; subst. rewrite lookup_insert_eq.
    change (view (demo_site h) !! 3) with (Some ([] : bytes, [] : bytes)) in Hv. injection Hv as <- <-. reflexivity.
  - rewrite Hothers by (repeat constructor; discriminate). reflexivity.
Defined.
