(* ===== verification/Descriptors.v ===== *)
(** The descriptors of the clients, in every run: [src/serv.cpp] with [src/kvproxy.cpp] on libevent.

    Every descriptor the listener accepts is, at any moment, in exactly one place: on its way in a worker's
    pipe, held by the bufferevent of a connection in a worker's queue, closed when that connection
    ended, or lost, which is what becomes of it when [bufferevent_socket_new] fails.  Unlike
    [Sharing], nothing is asked of the clients, the hosts or the kernel but that the calls return. *)
From S2P Require Import Prelude StdMap Util Config Log ConnQueue Server.
From S2P Require Import Hash Extension Net ConnPool ProtocolBinary Memcached MemcachedBinary.
From S2P Require Import Failover Request Backend Evbuf Evbuffer EvbufferIO Bufferevent KvProxy Transparency Main Setup Clients Service Sharing.

(** * What has become of the descriptors *)

Record ledger := { taken : list Z; lost : list Z; shut : list Z }.
Definition ledger_new : ledger := {| taken := []; lost := []; shut := [] |}.

Section descriptors.
Context `{!Malloc, !Libevent} {W : Type} `{!Net W, !EvIO W} {F E : Type} `{!Ext F E}.
Context (fuel : nat) (fast : bytes) (fin : W → Z → Z).
Implicit Types (st : site W F E) (s : session W F E) (g : ledger).

(** The descriptor worker [i] takes out of its pipe and makes no connection for. *)
Definition lost_by (i : nat) st : list Z :=
  match m_threads (pr_server (site_pr st)) !! i with
  | Some t =>
      match notify t with
      | fd :: _ => if decide (fd = EXIT_CODE) then [] else if Server.bufferevent_socket_new fd then [] else [fd]
      | [] => []
      end
  | None => []
  end.

(** The descriptor of a client that is no longer there. *)
Definition left_by (a : Z) st st' : list Z :=
  match clients st !! a, clients st' !! a with
  | Some (be, _), None => [be_fd be]
  | _, _ => []
  end.

(** The account after an event that led from [st] to [st']. *)
Definition ledger_after (e : event) st st' g : ledger :=
  match e with
  | E_accept fd => {| taken := fd :: taken g; lost := lost g; shut := shut g |}
  | E_notify i => {| taken := taken g; lost := lost_by i st ++ lost g; shut := shut g |}
  | E_read a | E_write a => {| taken := taken g; lost := lost g; shut := left_by a st st' ++ shut g |}
  | E_quit => g
  end.

(** [accept] gives descriptors. *)
Definition event_ok_fd (e : event) : Prop := match e with E_accept fd => 0 <= fd <= INT_MAX | _ => True end.

(** Any events at all, as long as each returns. *)
Inductive any_run : site W F E → ledger → site W F E → ledger → Prop :=
  | any_nil st g : any_run st g st g
  | any_cons e st g st1 st2 g2 :
      event_ok_fd e → on_event fuel fast fin e st = Ret st1 → any_run st1 (ledger_after e st st1 g) st2 g2 →
      any_run st g st2 g2.

Definition client_fds st : list Z := (λ c, be_fd c.2.1) <$> map_to_list (clients st).

(** Each accepted descriptor is in one place; the clients are the connections in the queues. *)
Definition placed st g : Prop :=
  (∃ ls, queues_ok (pr_server (site_pr st)) ls ∧ ∀ a, is_Some (clients st !! a) ↔ a ∈ concat ls) ∧
  (∀ a be conn, clients st !! a = Some (be, conn) → held be) ∧
  Forall (λ v, v = EXIT_CODE ∨ 0 <= v <= INT_MAX) (concat (notify <$> m_threads (pr_server (site_pr st)))) ∧
  taken g ≡ₚ pending (m_threads (pr_server (site_pr st))) ++ client_fds st ++ lost g ++ shut g.

(** What any event does to a client: it keeps its descriptor, or closing that is the last thing done. *)
Definition kept_or_closed st st' : Prop :=
  ∀ a be conn, clients st !! a = Some (be, conn) →
    match clients st' !! a with
    | Some (be', _) => be_fd be' = be_fd be
    | None => ∃ w, net (pr_px (site_pr st')) = sys_close w (be_fd be)
    end.

(** * The callbacks *)

Definition ses_stays s s' : Prop := pr_server (ses_pr s') = pr_server (ses_pr s) ∧ ses_addr s' = ses_addr s.
Definition ses_leaves s s' : Prop :=
  ∃ h', deleteConn (conns (pr_server (ses_pr s))) (ses_addr s) = Ret h' ∧
    pr_server (ses_pr s') = with_threads (pr_server (ses_pr s)) (m_threads (pr_server (ses_pr s))) h'.

#[export] Instance ses_stays_preorder : PreOrder ses_stays.
Proof. split; [done|]. intros x y z [? ?] [? ?]. split; congruence. Qed.

Lemma ses_leaves_after s1 s2 s3 : ses_stays s1 s2 → ses_leaves s2 s3 → ses_leaves s1 s3.
Proof. intros [E1 E2] (h' & Hd & Hs). rewrite E1, E2 in *. by exists h'. Qed.

Lemma serve_read_stays be s be' s' : serve_read fuel fast be s = Ret (be', s') → same_hold be be' ∧ ses_stays s s'.
Proof. unfold serve_read. by intros (r & _ & [= <- <-])%bind_Ret_inv. Qed.

Lemma serve_write_stays be s be' s' : serve_write be s = Ret (be', s') → same_hold be be' ∧ ses_stays s s'.
Proof. unfold serve_write. cbn. by intros [= <- <-]. Qed.

Lemma serve_close_leaves what be s be' s' :
  serve_close what be s = Ret (be', s') → refcnt be' = refcnt be - 1 ∧ be_fd be' = be_fd be ∧ ses_leaves s s'.
Proof.
  unfold serve_close. intros (pr & Hc & Hr)%bind_Ret_inv. unfold on_close in Hc.
  apply bind_Ret_inv in Hc as (px & _ & (srv & Hd & [= <-])%bind_Ret_inv).
  unfold dequeue_conn in Hd. apply bind_Ret_inv in Hd as (h' & Hd & [= <-]).
  unfold bufferevent_free, decref in Hr. cbn [bufferevent_setcb with_refs refcnt] in Hr. case_decide; [done|].
  apply bind_Ret_inv in Hr as (be2 & [= <-] & [= <- <-]). split; [done|]. split; [done|]. by exists h'.
Qed.

(** * One event *)

(** The clients' descriptors but for [a]'s. *)
Definition other_fds (a : Z) st : list Z := (λ c, be_fd c.2.1) <$> map_to_list (delete a (clients st)).

Lemma client_fds_put pr st a be conn :
  client_fds {| site_pr := pr; clients := <[a := (be, conn)]> (clients st) |} ≡ₚ be_fd be :: other_fds a st.
Proof.
  unfold client_fds, other_fds. cbn [clients]. rewrite <- (insert_delete_eq (clients st)).
  by rewrite (map_to_list_insert (delete a (clients st)) a (be, conn)) by apply lookup_delete_eq.
Qed.

Lemma client_fds_at st a be conn : clients st !! a = Some (be, conn) → client_fds st ≡ₚ be_fd be :: other_fds a st.
Proof.
  intros Ha. rewrite <- (client_fds_put (site_pr st) st a be conn). by rewrite insert_id; [destruct st|].
Qed.

Lemma client_fds_new pr st a be conn :
  clients st !! a = None →
  client_fds {| site_pr := pr; clients := <[a := (be, conn)]> (clients st) |} ≡ₚ be_fd be :: client_fds st.
Proof. intros Ha. rewrite client_fds_put. unfold other_fds. by rewrite delete_id. Qed.

(** A callback of client [a]'s bufferevent. *)
Lemma client_event_placed st g a be conn o s' e :
  let s := {| ses_pr := site_pr st; ses_conn := conn; ses_addr := a |} in
  placed st g → clients st !! a = Some (be, conn) → fate ses_world put_world ses_stays ses_leaves be s o s' →
  e = E_read a ∨ e = E_write a →
  placed (put_client a (o, s') st) (ledger_after e st (put_client a (o, s') st) g) ∧
  kept_or_closed st (put_client a (o, s') st).
Proof.
  intros s ((ls & Hq & Hd) & Hheld & Hv & Hp) Ha Hfate He. pose proof (Hheld _ _ _ Ha) as Hb.
  assert (ledger_after e st (put_client a (o, s') st) g =
    {| taken := taken g; lost := lost g; shut := left_by a st (put_client a (o, s') st) ++ shut g |}) as -> by (by destruct He as [-> | ->]).
  unfold left_by. rewrite Ha. pose proof (client_fds_at st a be conn Ha) as Hf.
  unfold placed, kept_or_closed. cbn [taken lost shut].
  change (site_pr (put_client a (o, s') st)) with (ses_pr s').
  destruct o as [be'|]; cbn [fate] in Hfate.
  - destruct Hfate as [Hh [Hsrv _]]. pose proof Hh as (H1 & H2 & H3 & H4).
    change (clients (put_client a (Some be', s') st)) with (<[a := (be', ses_conn s')]> (clients st)) in *.
    change (pr_server (ses_pr s') = pr_server (site_pr st)) in Hsrv. rewrite Hsrv, lookup_insert_eq.
    split; [split; [|split; [|split; [exact Hv|]]]|].
    + exists ls. split; [done|]. intros b. rewrite lookup_insert_is_Some, <- Hd. destruct (decide (b = a)) as [->|]; [rewrite Ha|]; naive_solver.
    + intros b be2 conn2. rewrite lookup_insert_Some. intros [[<- [= <- <-]]|[_ Hx]]; [|by eapply Hheld].
      destruct Hb as (? & ? & ? & ?). unfold held. rewrite H1, H2, H3, H4. by split_and!.
    + rewrite Hp, Hf. unfold put_client. cbn [fst snd]. by rewrite client_fds_put, H4.
    + intros b be2 conn2 Hb2. destruct (decide (b = a)) as [->|]; [rewrite lookup_insert_eq; congruence|].
      by rewrite lookup_insert_ne, Hb2.
  - destruct Hfate as (s2 & (h' & Hdel & Hsrv) & ->).
    change (clients (put_client a (None, ?x) st)) with (delete a (clients st)).
    rewrite lookup_delete_eq. change (deleteConn (conns (pr_server (site_pr st))) a = Ret h') in Hdel.
    change (pr_server (ses_pr (put_world s2 (sys_close (ses_world s2) (be_fd be))))) with (pr_server (ses_pr s2)).
    rewrite Hsrv. destruct (queues_delete _ ls a h' Hq) as (ls' & Hq' & _ & Hin); [apply Hd; by eexists|done|].
    split; [split; [|split; [|split; [exact Hv|]]]|].
    + exists ls'. split; [done|]. intros b. rewrite Hin, <- Hd.
      destruct (decide (b = a)) as [->|]; [rewrite lookup_delete_eq|rewrite lookup_delete_ne by done]; naive_solver.
    + intros b be2 conn2. rewrite lookup_delete_Some. intros [_ Hx]. by eapply Hheld.
    + rewrite Hp, Hf. cbn [with_threads m_threads s ses_pr]. f_equiv.
      change (client_fds (put_client a (None, _) st)) with (other_fds a st). cbn [app]. by rewrite !Permutation_middle.
    + intros b be2 conn2 Hb2. destruct (decide (b = a)) as [->|].
      * rewrite lookup_delete_eq. assert (be2 = be) as -> by congruence. by exists (ses_world s2).
      * by rewrite lookup_delete_ne, Hb2.
Qed.
(** An event that leaves the clients, the queues and the network alone. *)
Lemma pipes_event_placed st g g' srv :
  placed st g → connect_queue <$> m_threads srv = connect_queue <$> m_threads (pr_server (site_pr st)) →
  conns srv = conns (pr_server (site_pr st)) →
  Forall (λ v, v = EXIT_CODE ∨ 0 <= v <= INT_MAX) (concat (notify <$> m_threads srv)) →
  taken g' ≡ₚ pending (m_threads srv) ++ client_fds st ++ lost g' ++ shut g' →
  placed (with_program st (with_server (site_pr st) srv)) g' ∧ kept_or_closed st (with_program st (with_server (site_pr st) srv)).
Proof.
  intros ((ls & Hq & Hd) & Hheld & _ & _) Ht Hc Hv Hp. split.
  - split; [|split; [exact Hheld|by split]]. exists ls. split; [by eapply queues_ok_pipes|exact Hd].
  - intros a be conn Ha. cbn [clients with_program]. by rewrite Ha.
Qed.

Lemma accept_placed st g fd st' :
  placed st g → 0 <= fd <= INT_MAX → on_event fuel fast fin (E_accept fd) st = Ret st' →
  placed st' (ledger_after (E_accept fd) st st' g) ∧ kept_or_closed st st'.
Proof.
  intros Hok Hfd Hev. pose proof Hok as (_ & _ & Hv & Hp). cbn [on_event] in Hev.
  apply bind_Ret_inv in Hev as (srv & Hl & [= <-]). unfold listenerEventCb in Hl. case_decide; [done|].
  destruct (m_threads _ !! _) as [t|] eqn:Ht; [|done]. injection Hl as <-.
  pose proof (insert_split _ _ _ (send_notify t fd) Ht) as Eins. rewrite <- (take_drop_middle _ _ _ Ht) in Hv, Hp.
  apply (pipes_event_placed st g); cbn [ledger_after m_threads conns taken lost shut]; try done.
  - rewrite list_fmap_insert. cbn [connect_queue send_notify]. by rewrite list_insert_id; [|rewrite list_lookup_fmap, Ht].
  - rewrite Eins. rewrite !fmap_app, !concat_app in *. cbn in *.
    apply Forall_app in Hv as [Hv1 [Hv2 Hv3]%Forall_app]. apply Forall_app; split; [done|].
    apply Forall_app; split; [|done]. apply Forall_app; split; [done|]. constructor; [by right|done].
  - rewrite Eins, Hp, !pending_app. cbn [notify send_notify].
    rewrite filter_app, filter_cons_True by (unfold EXIT_CODE; lia). cbn [filter list_filter].
    rewrite <- !app_assoc. cbn [app]. by rewrite !Permutation_middle.
Qed.

Lemma quit_placed st g : placed st g →
  let st' := with_program st (with_server (site_pr st) (quitCb (site_pr st)).1.2) in
  placed st' g ∧ kept_or_closed st st'.
Proof.
  intros Hok. pose proof Hok as (_ & _ & Hv & Hp). apply (pipes_event_placed st g); try done;
    cbn [quitCb fst snd stopRun with_threads m_threads].
  - rewrite <- list_fmap_compose. by apply list_fmap_ext.
  - clear - Hv. induction (m_threads (pr_server (site_pr st))) as [|t ts IH]; [done|].
    cbn in *. apply Forall_app in Hv as [H1 H2]. apply Forall_app. split; [|by apply IH].
    apply Forall_app. split; [done|]. constructor; [by left|done].
  - rewrite Hp. f_equiv. clear. unfold pending.
    induction (m_threads (pr_server (site_pr st))) as [|t ts IH]; [done|]. cbn [fmap list_fmap concat notify send_notify] in *.
    rewrite !filter_app, IH, filter_cons_False by (intros Hx; by apply Hx). by rewrite app_nil_r.
Qed.

(** Worker [i] took the first of its pipe. *)
Lemma pipe_taken st i t fd rest t' :
  m_threads (pr_server (site_pr st)) !! i = Some t → notify t = fd :: rest → notify t' = rest →
  let ts := m_threads (pr_server (site_pr st)) in
  pending ts ≡ₚ (if decide (fd = EXIT_CODE) then [] else [fd]) ++ pending (<[i := t']> ts) ∧
  (Forall (λ v, v = EXIT_CODE ∨ 0 <= v <= INT_MAX) (concat (notify <$> ts)) →
   (fd = EXIT_CODE ∨ 0 <= fd <= INT_MAX) ∧ Forall (λ v, v = EXIT_CODE ∨ 0 <= v <= INT_MAX) (concat (notify <$> <[i := t']> ts))).
Proof.
  intros Ht Hn Hn' ts. rewrite (insert_split ts i t t' Ht). pose proof (take_drop_middle ts i t Ht) as Ets.
  revert Ets. generalize (take i ts), (drop (S i) ts). intros ts1 ts2 <-. split.
  - rewrite !pending_app, Hn, Hn', filter_cons. destruct (decide (fd = EXIT_CODE)) as [->|Hne].
    + rewrite decide_False by (intros Hx; by apply Hx). done.
    + rewrite decide_True by done. cbn [app]. symmetry. apply Permutation_middle.
  - rewrite !fmap_app, !concat_app. cbn. rewrite Hn, Hn'. intros [Hv1 [Hv2 Hv3]%Forall_app]%Forall_app.
    apply Forall_cons in Hv2 as [Hv0 Hv2]. split; [done|]. apply Forall_app; split; [done|]. by apply Forall_app.
Qed.

Lemma notify_placed st g i st' :
  placed st g → on_event fuel fast fin (E_notify i) st = Ret st' →
  placed st' (ledger_after (E_notify i) st st' g) ∧ kept_or_closed st st'.
Proof.
  intros Hok Hev. pose proof Hok as ((ls & Hq & Hd) & Hheld & Hv & Hp). cbn [on_event] in Hev. unfold client_joins in Hev.
  apply bind_Ret_inv in Hev as ([r srv] & Ht & Hev). unfold threadProcess in Ht.
  destruct (m_threads (pr_server (site_pr st)) !! i) as [t|] eqn:Et; [|done].
  destruct (notify t) as [|fd rest] eqn:En; [done|]. cbn [ledger_after]. unfold lost_by. rewrite Et, En. cbn [fst snd] in Hev.
  set (me := {| index := index t; notify := rest; connect_queue := connect_queue t; looping := looping t |}) in Ht.
  set (stopped := {| index := index t; notify := rest; connect_queue := connect_queue t; looping := false |}) in Ht.
  assert (∀ t', connect_queue t' = connect_queue t → connect_queue <$> <[i := t']> (m_threads (pr_server (site_pr st)))
    = connect_queue <$> m_threads (pr_server (site_pr st))) as Hct.
  { intros t' Hc. by rewrite list_fmap_insert, Hc, list_insert_id; [|rewrite list_lookup_fmap, Et]. }
  destruct (pipe_taken st i t fd rest stopped Et En eq_refl) as [Hps Hvs]. specialize (Hvs Hv) as [_ Hvs].
  destruct (decide (fd = EXIT_CODE)) as [->|Hne]; [|destruct (Server.bufferevent_socket_new fd) eqn:Enew; cbn [negb] in Ht].
  - injection Ht as <- <-. injection Hev as <-.
    apply (pipes_event_placed st g); [done|by apply Hct|done|exact Hvs|]. cbn [taken lost shut app] in *. by rewrite Hp, Hps.
  - destruct (pipe_taken st i t fd rest me Et En eq_refl) as [Hpm Hvm]. specialize (Hvm Hv) as [Hfd Hvm].
    rewrite decide_False in Hpm by done.
    destruct (queues_insert _ ls i t me fd Hq Et eq_refl) as (h' & ls' & Ei & Hq' & Hfresh & _ & Hin).
    cbn [connect_queue index me] in Ht. rewrite Ei in Ht. cbn [mbind outcome_bind fst snd] in Ht. injection Ht as <- <-.
    apply bind_Ret_inv in Hev as (px & _ & [= <-]). set (c := brk _) in *.
    assert (clients st !! c = None) as Hnone by (apply eq_None_not_Some; by rewrite Hd). split.
    + split; [|split; [|split; [exact Hvm|]]].
      * exists ls'. split; [exact Hq'|]. intros a. cbn [clients]. rewrite lookup_insert_is_Some, Hd, Hin.
        destruct (decide (a = c)); naive_solver.
      * intros a be conn. cbn [clients]. rewrite lookup_insert_Some. intros [[<- [= <- <-]]|[_ Hx]]; [|by eapply Hheld].
        split_and!; try done. cbn. lia.
      * cbn [taken lost shut]. rewrite client_fds_new by done. rewrite Hp, Hpm. cbn [app]. by rewrite Permutation_middle.
    + intros a be conn Ha. cbn [clients]. rewrite lookup_insert_ne, Ha; [done|]. intros ->. congruence.
  - injection Ht as <- <-. injection Hev as <-.
    apply (pipes_event_placed st g); [done|by apply Hct|done|exact Hvs|]. cbn [taken lost shut app] in *.
    rewrite Hp, Hps. cbn [with_threads m_threads app]. by rewrite !Permutation_middle.
Qed.

Lemma event_placed st g e st' :
  placed st g → event_ok_fd e → on_event fuel fast fin e st = Ret st' →
  placed st' (ledger_after e st st' g) ∧ kept_or_closed st st'.
Proof.
  intros Hok Hfd Hev. destruct e as [fd|i|a|a|].
  - by apply accept_placed.
  - by apply notify_placed.
  - cbn [on_event] in Hev. destruct (clients st !! a) as [[be conn]|] eqn:Ha.
    + apply bind_Ret_inv in Hev as ([o s'] & Hr & [= <-]). pose proof (proj1 (proj2 Hok) _ _ _ Ha) as Hb.
      eapply client_event_placed; [done|done| |by left].
      eapply readcb_fate in Hr; [exact Hr|apply _|by split|apply ses_leaves_after|apply serve_read_stays|apply serve_close_leaves|done].
    + injection Hev as <-. cbn [ledger_after]. unfold left_by. rewrite Ha. split; [by destruct g|].
      intros b be conn Hb. by rewrite Hb.
  - cbn [on_event] in Hev. destruct (clients st !! a) as [[be conn]|] eqn:Ha.
    + apply bind_Ret_inv in Hev as ([o s'] & Hr & [= <-]). pose proof (proj1 (proj2 Hok) _ _ _ Ha) as Hb.
      eapply client_event_placed; [done|done| |by right].
      eapply writecb_fate in Hr; [exact Hr|apply _|by split|apply ses_leaves_after|apply serve_write_stays|apply serve_close_leaves|done].
    + injection Hev as <-. cbn [ledger_after]. unfold left_by. rewrite Ha. split; [by destruct g|].
      intros b be conn Hb. by rewrite Hb.
  - injection Hev as <-. by apply quit_placed.
Qed.

Lemma run_placed st g st' g' : any_run st g st' g' → placed st g → placed st' g'.
Proof. induction 1 as [|e st g st1 st2 g2 Hfd He _ IH]; intros Hok; [done|]. apply IH. by eapply event_placed. Qed.

(** A worker that cannot make a bufferevent. *)
Lemma worker_stops st i t fd rest :
  m_threads (pr_server (site_pr st)) !! i = Some t → notify t = fd :: rest → fd ≠ EXIT_CODE →
  Server.bufferevent_socket_new fd = false →
  ∃ st2 t2, on_event fuel fast fin (E_notify i) st = Ret st2 ∧ clients st2 = clients st ∧
    net (pr_px (site_pr st2)) = net (pr_px (site_pr st)) ∧
    m_threads (pr_server (site_pr st2)) !! i = Some t2 ∧ notify t2 = rest ∧ looping t2 = false.
Proof.
  intros Ht Hn Hne Hnew. cbn [on_event]. unfold client_joins, threadProcess. rewrite Ht, Hn, decide_False, Hnew by done.
  cbn [negb mbind outcome_bind fst snd]. eexists _, _. split; [done|]. split; [done|]. split; [done|].
  split; [cbn; apply list_lookup_insert_eq; by eapply lookup_lt_Some|done].
Qed.
End descriptors.

Arguments any_run {_ _ W _ _ F E _} fuel fast fin st g st' g'.

(** * From the start *)

(** What [main] leaves: no clients, nothing accepted. *)
Lemma main_placed `{!Malloc, !Libevent} {W} `{!Net W, !NetOk W, !EvIO W} {handle F E} `{!Dl handle F, !Ext F E, !Threads}
    linux pid fs logfs malloc args (e : E) (w : W) (pr : program W F E) :
  main linux pid fs logfs malloc args e w = Ret pr → placed {| site_pr := pr; clients := ∅ |} ledger_new.
Proof.
  intros Hm. destruct (main_makes_ready _ _ _ _ _ _ _ _ _ Hm) as ((ls & Hq & Hv & Hh) & _).
  cbn [fst snd accepted closed] in *. apply Permutation_nil_l in Hh. symmetry in Hh.
  apply app_nil in Hh as [Hp Hl]. rewrite app_nil_r in Hl. unfold live in Hl. apply fmap_nil_inv in Hl.
  split; [|split; [|split; [exact Hv|]]].
  - exists ls. split; [exact Hq|]. intros a. cbn [clients]. rewrite lookup_empty, Hl, elem_of_nil. split; [by intros []|done].
  - intros a be conn. cbn [clients]. by rewrite lookup_empty.
  - cbn [taken lost shut ledger_new site_pr]. rewrite Hp. unfold client_fds. cbn [clients]. by rewrite map_to_list_empty.
Qed.

(** C28: from [main] on, at every moment of every run - connections arriving, workers reading their pipes with or
    without the memory for a bufferevent, sockets that can be read and written with whatever comes of it, the signal to quit, in
    any order - every accepted descriptor is in exactly one place: in a worker's pipe, held by the bufferevent
    of a connection that is in exactly one worker's queue, closed, or lost.  A client keeps its descriptor from event
    to event, and the event in which it goes ends with closing it.  A descriptor is lost when its worker cannot
    make a bufferevent; that worker's loop is broken, too, though the listener goes on dealing to it. *)
Theorem descriptors_kept `{!Malloc, !Libevent} {W} `{!Net W, !NetOk W, !EvIO W} {handle F E} `{!Dl handle F, !Ext F E, !Threads}
    linux pid fs logfs malloc args (e : E) (w : W) (pr : program W F E) fuel fast fin (st : site W F E) (g : ledger) :
  main linux pid fs logfs malloc args e w = Ret pr →
  any_run fuel fast fin {| site_pr := pr; clients := ∅ |} ledger_new st g →
  (∃ ls, queues_ok (pr_server (site_pr st)) ls ∧ ∀ a, is_Some (clients st !! a) ↔ a ∈ concat ls) ∧
  taken g ≡ₚ pending (m_threads (pr_server (site_pr st))) ++ client_fds st ++ lost g ++ shut g ∧
  (∀ e st2, event_ok_fd e → on_event fuel fast fin e st = Ret st2 → kept_or_closed st st2) ∧
  (∀ i t fd rest, m_threads (pr_server (site_pr st)) !! i = Some t → notify t = fd :: rest → fd ≠ EXIT_CODE →
     Server.bufferevent_socket_new fd = false →
     ∃ st2 t2, on_event fuel fast fin (E_notify i) st = Ret st2 ∧ clients st2 = clients st ∧
       net (pr_px (site_pr st2)) = net (pr_px (site_pr st)) ∧
       m_threads (pr_server (site_pr st2)) !! i = Some t2 ∧ notify t2 = rest ∧ looping t2 = false).
Proof.
  intros Hm Hr. pose proof (run_placed _ _ _ _ _ _ _ Hr (main_placed _ _ _ _ _ _ _ _ _ Hm)) as Hok.
  pose proof Hok as (Hq & _ & _ & Hp). split; [exact Hq|]. split; [exact Hp|]. split.
  - intros ev st2 Hfd Hev. by apply (event_placed fuel fast fin st g ev st2).
  - intros i t fd rest. apply worker_stops.
Qed.

(** * A run on the scripted network *)

#[local] Existing Instance demo_malloc.
#[local] Existing Instance socket_io.
#[local] Existing Instance Setup.demo_threads.

(** There is no memory for a bufferevent on the descriptor 9. *)
#[local] Instance short_libevent : Libevent := {|
  Server.event_base_new _ := true; Server.pipe _ := true; Server.event_add_notify _ := true; Server.listener_bind _ := true;
  Server.get_nprocs := 4; Server.setaffinity _ := true; Server.bufferevent_socket_new fd := bool_decide (fd ≠ 9);
  Server.evsignal_new s := Some s; Server.event_add _ := true |}.

Abbreviation demo_program :=
  (main (H := unit) true 0 (Setup.demo_fs [bs "thread_count=2"]) (λ _, Some []) (λ _ _ _, [])
    [bs "/opt/bin/kvproxy"; bs "-c"; bs "k.ini"] statics_init (sim_init [(bs "127.0.0.1", 11211)] [] [Closed])
    : outcome (program sim memcached_sym statics)).

Definition demo_events (a : Z) : list event := [E_accept 7; E_accept 9; E_notify 0; E_notify 1; E_read a].

(** The sites a list of events leads through, with the account. *)
Fixpoint follow (es : list event) (st : site sim memcached_sym statics) (g : ledger) : outcome (site sim memcached_sym statics * ledger) :=
  match es with
  | [] => Ret (st, g)
  | e :: es => st1 ← on_event 5 [] (λ _ _, 1) e st; follow es st1 (ledger_after e st st1 g)
  end.

Lemma follow_run es : ∀ st g st' g',
  Forall event_ok_fd es → follow es st g = Ret (st', g') → any_run 5 [] (λ _ _, 1) st g st' g'.
Proof.
  induction es as [|e es IH]; intros st g st' g' Hes Hf; cbn [follow] in Hf; [injection Hf as <- <-; constructor|].
  apply Forall_cons in Hes as [He Hes]. apply bind_Ret_inv in Hf as (st1 & Ev & Hf). econstructor; [exact He|exact Ev|by apply IH].
Qed.

(** Client 7 is taken over and hangs up; the descriptor 9 is lost. *)
Definition demo_ledger : ledger := {| taken := [9; 7]; lost := [9]; shut := [7] |}.

Lemma demo_descriptors :
  ∃ pr st, demo_program = Ret pr ∧ any_run 5 [] (λ _ _, 1) {| site_pr := pr; clients := ∅ |} ledger_new st demo_ledger.
Proof.
  assert ((pr ← demo_program; r ← follow (demo_events 7) {| site_pr := pr; clients := ∅ |} ledger_new; Ret r.2) =
          Ret demo_ledger) as Hr by (vm_compute; reflexivity).
  apply bind_Ret_inv in Hr as (pr & Em & ([st g] & Ef & Eg)%bind_Ret_inv). injection Eg as Eg. cbn [snd] in Eg. subst g.
  exists pr, st. split; [exact Em|]. apply (follow_run (demo_events 7)); [|exact Ef]. repeat constructor; vm_compute; congruence.
Qed.

Lemma descriptors_kept_witness :
  ∃ pr st, demo_program = Ret pr ∧ any_run 5 [] (λ _ _, 1) {| site_pr := pr; clients := ∅ |} ledger_new st demo_ledger ∧
    [9; 7] ≡ₚ pending (m_threads (pr_server (site_pr st))) ++ client_fds st ++ [9] ++ [7].
Proof.
  destruct demo_descriptors as (pr & st & Em & Hrun). exists pr, st. split; [exact Em|]. split; [exact Hrun|].
  destruct (descriptors_kept true 0 (Setup.demo_fs [bs "thread_count=2"]) (λ _, Some []) (λ _ _ _, [])
    [bs "/opt/bin/kvproxy"; bs "-c"; bs "k.ini"] statics_init (sim_init [(bs "127.0.0.1", 11211)] [] [Closed])
    pr 5 [] (λ _ _, 1) st demo_ledger Em Hrun) as (_ & Hp & _). exact Hp.
Defined.
