(* ===== verification/EventData.v ===== *)
(** The data of libevent's core: [src/deps/libevent2/event-internal.h],
    [include/event2/event_struct.h] and the operations on times of [include/event2/util.h] and
    [event.c].

    Pointers to [struct event] are addresses in a store ([evs]).  The program installs no thread
    functions ([evthread_use_pthreads] is never called), so [EVBASE_NEED_NOTIFY] is 0,
    [EVBASE_IN_THREAD] is 1 and the locking macros do nothing; debug mode and the changelist are off,
    as they are unless a program or its environment asks for them.  What is counted in an [int] is one
    per live object and does not overflow. *)
From S2P Require Import Prelude.

(** * Times *)

Record timeval := { tv_sec : Z; tv_usec : Z }.

#[export] Instance timeval_eq_dec : EqDecision timeval.
Proof. solve_decision. Defined.

Definition evutil_timercmp (cmp : Z → Z → bool) (t u : timeval) : bool :=
  if tv_sec t =? tv_sec u then cmp (tv_usec t) (tv_usec u) else cmp (tv_sec t) (tv_sec u).

Definition evutil_timeradd (t u : timeval) : timeval :=
  let s := tv_sec t + tv_sec u in
  let us := tv_usec t + tv_usec u in
  if decide (1000000 <= us) then {| tv_sec := s + 1; tv_usec := us - 1000000 |}
  else {| tv_sec := s; tv_usec := us |}.

Definition evutil_timersub (t u : timeval) : timeval :=
  let s := tv_sec t - tv_sec u in
  let us := tv_usec t - tv_usec u in
  if decide (us < 0) then {| tv_sec := s - 1; tv_usec := us + 1000000 |}
  else {| tv_sec := s; tv_usec := us |}.

Definition evutil_timerclear : timeval := {| tv_sec := 0; tv_usec := 0 |}.

Definition MAX_SECONDS_IN_MSEC_LONG : Z := (2 ^ 63 - 1 - 999) / 1000.

Definition evutil_tv_to_msec (tv : timeval) : Z :=
  if (1000000 <? tv_usec tv) || (MAX_SECONDS_IN_MSEC_LONG <? tv_sec tv) then -1
  else tv_sec tv * 1000 + (tv_usec tv + 999) / 1000.

(** * Bit sets *)

(** [f & q]. *)
Definition has (f q : Z) : bool := negb (Z.land f q =? 0).

Definition EV_TIMEOUT : Z := 1.
Definition EV_READ : Z := 2.
Definition EV_WRITE : Z := 4.
Definition EV_SIGNAL : Z := 8.
Definition EV_PERSIST : Z := 16.
Definition EV_ET : Z := 32.

Definition EVLIST_TIMEOUT : Z := 1.
Definition EVLIST_INSERTED : Z := 2.
Definition EVLIST_SIGNAL : Z := 4.
Definition EVLIST_ACTIVE : Z := 8.
Definition EVLIST_INTERNAL : Z := 16.
Definition EVLIST_INIT : Z := 128.
Definition EVLIST_ALL : Z := Z.lor 61440 159.

Inductive closure := EV_CLOSURE_NONE | EV_CLOSURE_SIGNAL | EV_CLOSURE_PERSIST.
#[export] Instance closure_eq_dec : EqDecision closure.
Proof. solve_decision. Defined.

(** * Events *)

(** Callbacks: the user's, by number, and libevent's own. *)
Inductive event_callback_fn := UserCb (k : Z) | Event_once_cb | Event_loopexit_cb | Common_timeout_callback.
#[export] Instance event_callback_fn_eq_dec : EqDecision event_callback_fn.
Proof. solve_decision. Defined.

(** [ev_base] says that the pointer to the base is set; [ev_pncalls] that it points to the counter of
    the signal closure that runs.  The members of unions are fields of their own, since an event uses
    one: [ev_ncalls] and [ev_pncalls] are for signals, which are never persistent in the sense of
    [ev_io_timeout]; [min_heap_idx] is for events outside of common timeouts. *)
Record event := {
  ev_base : bool; ev_fd : Z; ev_events : Z; ev_flags : Z; ev_res : Z; ev_ncalls : Z; ev_pncalls : bool;
  ev_pri : Z; ev_closure : closure; ev_callback : event_callback_fn; ev_arg : Z;
  ev_timeout : timeval; ev_io_timeout : timeval; min_heap_idx : Z
}.

Definition ev_with_flags (e : event) (f : Z) : event := {|
  ev_base := ev_base e; ev_fd := ev_fd e; ev_events := ev_events e; ev_flags := f; ev_res := ev_res e;
  ev_ncalls := ev_ncalls e; ev_pncalls := ev_pncalls e; ev_pri := ev_pri e; ev_closure := ev_closure e;
  ev_callback := ev_callback e; ev_arg := ev_arg e; ev_timeout := ev_timeout e;
  ev_io_timeout := ev_io_timeout e; min_heap_idx := min_heap_idx e |}.
Definition ev_with_res (e : event) (r : Z) : event := {|
  ev_base := ev_base e; ev_fd := ev_fd e; ev_events := ev_events e; ev_flags := ev_flags e; ev_res := r;
  ev_ncalls := ev_ncalls e; ev_pncalls := ev_pncalls e; ev_pri := ev_pri e; ev_closure := ev_closure e;
  ev_callback := ev_callback e; ev_arg := ev_arg e; ev_timeout := ev_timeout e;
  ev_io_timeout := ev_io_timeout e; min_heap_idx := min_heap_idx e |}.
Definition ev_with_ncalls (e : event) (n : Z) (p : bool) : event := {|
  ev_base := ev_base e; ev_fd := ev_fd e; ev_events := ev_events e; ev_flags := ev_flags e;
  ev_res := ev_res e; ev_ncalls := n; ev_pncalls := p; ev_pri := ev_pri e; ev_closure := ev_closure e;
  ev_callback := ev_callback e; ev_arg := ev_arg e; ev_timeout := ev_timeout e;
  ev_io_timeout := ev_io_timeout e; min_heap_idx := min_heap_idx e |}.
Definition ev_with_pri (e : event) (n : Z) : event := {|
  ev_base := ev_base e; ev_fd := ev_fd e; ev_events := ev_events e; ev_flags := ev_flags e;
  ev_res := ev_res e; ev_ncalls := ev_ncalls e; ev_pncalls := ev_pncalls e; ev_pri := n;
  ev_closure := ev_closure e; ev_callback := ev_callback e; ev_arg := ev_arg e;
  ev_timeout := ev_timeout e; ev_io_timeout := ev_io_timeout e; min_heap_idx := min_heap_idx e |}.
Definition ev_with_timeout (e : event) (t : timeval) : event := {|
  ev_base := ev_base e; ev_fd := ev_fd e; ev_events := ev_events e; ev_flags := ev_flags e;
  ev_res := ev_res e; ev_ncalls := ev_ncalls e; ev_pncalls := ev_pncalls e; ev_pri := ev_pri e;
  ev_closure := ev_closure e; ev_callback := ev_callback e; ev_arg := ev_arg e; ev_timeout := t;
  ev_io_timeout := ev_io_timeout e; min_heap_idx := min_heap_idx e |}.
Definition ev_with_io_timeout (e : event) (t : timeval) : event := {|
  ev_base := ev_base e; ev_fd := ev_fd e; ev_events := ev_events e; ev_flags := ev_flags e;
  ev_res := ev_res e; ev_ncalls := ev_ncalls e; ev_pncalls := ev_pncalls e; ev_pri := ev_pri e;
  ev_closure := ev_closure e; ev_callback := ev_callback e; ev_arg := ev_arg e;
  ev_timeout := ev_timeout e; ev_io_timeout := t; min_heap_idx := min_heap_idx e |}.
Definition ev_with_idx (e : event) (i : Z) : event := {|
  ev_base := ev_base e; ev_fd := ev_fd e; ev_events := ev_events e; ev_flags := ev_flags e;
  ev_res := ev_res e; ev_ncalls := ev_ncalls e; ev_pncalls := ev_pncalls e; ev_pri := ev_pri e;
  ev_closure := ev_closure e; ev_callback := ev_callback e; ev_arg := ev_arg e;
  ev_timeout := ev_timeout e; ev_io_timeout := ev_io_timeout e; min_heap_idx := i |}.

(** The events there are, by address: an access through another address is out of bounds. *)
Abbreviation store := (gmap Z event).

Definition ev_get (evs : store) (a : Z) : outcome event :=
  match evs !! a with Some e => Ret e | None => Undef OutOfBounds end.

(** * The system *)

(** What the loop asks of the C library and the kernel: [realloc] (whether it succeeds),
    [clock_gettime] (seconds and nanoseconds) and [gettimeofday], either of which may fail,
    [epoll_ctl(op, fd, events)] (0 or [errno]), [epoll_wait(maxevents, timeout)] ([errno], or the
    descriptors with their events). *)
Class EvOs (W : Type) := {
  use_monotonic : bool;
  os_realloc : W → Z → bool * W;
  clock_gettime : W → option (Z * Z) * W;
  gettimeofday : W → option timeval * W;
  epoll_ctl : W → Z → Z → Z → Z * W;
  epoll_wait : W → Z → Z → (Z + list (Z * Z)) * W
}.

(** * Lemmas *)

Lemma has_lor f q q' : has (Z.lor f q) q' = has f q' || has q q'.
Proof.
  unfold has. rewrite Z.land_lor_distr_l.
  destruct (Z.eqb_spec (Z.lor (Z.land f q') (Z.land q q')) 0) as [E|E];
    rewrite ?Z.lor_eq_0_iff in E;
    destruct (Z.eqb_spec (Z.land f q') 0), (Z.eqb_spec (Z.land q q') 0); naive_solver.
Qed.

Lemma has_clear f q : has (Z.land f (Z.lnot q)) q = false.
Proof.
  unfold has. rewrite <- Z.land_assoc, (Z.land_comm (Z.lnot q)), Z.land_lnot_diag, Z.land_0_r. done.
Qed.

Lemma has_clear_other f q q' : Z.land q q' = 0 → has (Z.land f (Z.lnot q)) q' = has f q'.
Proof.
  intros Hq. unfold has. rewrite <- Z.land_assoc. do 2 f_equal. f_equal.
  apply Z.bits_inj'. intros k Hk.
  rewrite Z.land_spec, Z.lnot_spec by done.
  assert (Z.testbit (Z.land q q') k = false) as E by (rewrite Hq; apply Z.bits_0).
  rewrite Z.land_spec in E. by destruct (Z.testbit q k), (Z.testbit q' k).
Qed.

Lemma ev_get_Some evs a e : ev_get evs a = Ret e ↔ evs !! a = Some e.
Proof. unfold ev_get. destruct (evs !! a); naive_solver. Qed.

(** The order of times. *)
Definition tv_le (t u : timeval) : Prop := evutil_timercmp Z.leb t u = true.

#[export] Instance tv_le_dec t u : Decision (tv_le t u).
Proof. unfold tv_le. apply _. Defined.

Lemma tv_le_spec t u :
  tv_le t u ↔ tv_sec t < tv_sec u ∨ tv_sec t = tv_sec u ∧ tv_usec t <= tv_usec u.
Proof.
  unfold tv_le, evutil_timercmp. destruct (Z.eqb_spec (tv_sec t) (tv_sec u)); lia.
Qed.

#[export] Instance tv_le_preorder : PreOrder tv_le.
Proof. split; [intros t|intros t u v]; rewrite ?tv_le_spec; lia. Qed.

#[export] Instance tv_le_total : Total tv_le.
Proof. intros t u. rewrite !tv_le_spec. lia. Qed.

Lemma timercmp_gt t u : evutil_timercmp Z.gtb t u = bool_decide (¬ tv_le t u).
Proof.
  unfold evutil_timercmp. case_bool_decide as H; rewrite tv_le_spec in H;
    destruct (Z.eqb_spec (tv_sec t) (tv_sec u)); lia.
Qed.

Lemma timercmp_le t u : evutil_timercmp Z.leb t u = bool_decide (tv_le t u).
Proof. case_bool_decide as H; unfold tv_le in H; [done|]. by destruct (evutil_timercmp Z.leb t u). Qed.

Lemma tv_gt_le t u : ¬ tv_le t u → tv_le u t.
Proof. rewrite !tv_le_spec. lia. Qed.

#[export] Hint Resolve tv_gt_le : kv.
