(* ===== verification/MinHeap.v ===== *)
(** libevent's heap of timers: [src/deps/libevent2/minheap-internal.h].

    [p] is the array, whose cells beyond the ones written are uninitialised ([None]); every function
    takes the store too, since an event knows its place in the heap ([min_heap_idx]).  [heap_ok] is the
    invariant, [heap_elems] the list that the array holds. *)
From S2P Require Import Prelude EventData.

Record min_heap := { p : list (option Z); n : Z; a : Z }.

Definition with_p (s : min_heap) (c : list (option Z)) : min_heap := {| p := c; n := n s; a := a s |}.
Definition with_n (s : min_heap) (k : Z) : min_heap := {| p := p s; n := k; a := a s |}.

(** [s->p[i]], read and written. *)
Definition heap_get (s : min_heap) (i : Z) : outcome Z :=
  if decide (0 <= i)
  then match p s !! Z.to_nat i with
       | Some (Some e) => Ret e | Some None => Undef Indeterminate | None => Undef OutOfBounds end
  else Undef OutOfBounds.

Definition heap_set (s : min_heap) (i e : Z) : outcome min_heap :=
  if decide (0 <= i < Z.of_nat (length (p s))) then Ret (with_p s (<[Z.to_nat i := Some e]> (p s)))
  else Undef OutOfBounds.

Definition ev_set_idx (evs : store) (e i : Z) : outcome store :=
  v ← ev_get evs e; Ret (<[e := ev_with_idx v i]> evs).

(** [(s->p[i] = e)->ev_timeout_pos.min_heap_idx = i]. *)
Definition heap_place (evs : store) (s : min_heap) (i e : Z) : outcome (store * min_heap) :=
  s ← heap_set s i e;
  evs ← ev_set_idx evs e (i32 i);
  Ret (evs, s).

Definition min_heap_elem_greater (evs : store) (x y : Z) : outcome bool :=
  v ← ev_get evs x; w ← ev_get evs y;
  Ret (evutil_timercmp Z.gtb (ev_timeout v) (ev_timeout w)).

Definition min_heap_ctor : min_heap := {| p := []; n := 0; a := 0 |}.
Definition min_heap_elem_init (v : event) : event := ev_with_idx v (-1).
Definition min_heap_empty (s : min_heap) : bool := bool_decide (n s = 0).
Definition min_heap_size (s : min_heap) : Z := n s.
Definition min_heap_top (s : min_heap) : outcome (option Z) :=
  if decide (n s = 0) then Ret None else e ← heap_get s 0; Ret (Some e).
Definition min_heap_elt_is_top (v : event) : bool := bool_decide (min_heap_idx v = 0).

Fixpoint min_heap_shift_up_ (fuel : nat) (evs : store) (s : min_heap) (hole_index e : Z) : outcome (store * min_heap) :=
  match fuel with
  | O => NoFuel
  | S fuel =>
      let parent := u32 (hole_index - 1) / 2 in
      up ← (if decide (hole_index = 0) then Ret false
            else q ← heap_get s parent; min_heap_elem_greater evs q e);
      if (up : bool) then
        q ← heap_get s parent;
        r ← heap_place evs s hole_index q;
        min_heap_shift_up_ fuel r.1 r.2 parent e
      else heap_place evs s hole_index e
  end.

Fixpoint min_heap_shift_down_ (fuel : nat) (evs : store) (s : min_heap) (hole_index e : Z) : outcome (store * min_heap) :=
  match fuel with
  | O => NoFuel
  | S fuel =>
      let min_child := u32 (2 * u32 (hole_index + 1)) in
      if decide (min_child <= n s) then
        left ← (if decide (min_child = n s) then Ret true
                else c ← heap_get s min_child; d ← heap_get s (u32 (min_child - 1)); min_heap_elem_greater evs c d);
        let min_child := if (left : bool) then u32 (min_child - 1) else min_child in
        q ← heap_get s min_child;
        down ← min_heap_elem_greater evs e q;
        if (down : bool) then
          r ← heap_place evs s hole_index q;
          min_heap_shift_down_ fuel r.1 r.2 min_child e
        else heap_place evs s hole_index e
      else heap_place evs s hole_index e
  end.

(** A hole moves at most once per element. *)
Definition heap_fuel (s : min_heap) : nat := S (Z.to_nat (n s)).

Section reserving.
Context {W : Type} `{!EvOs W}.

(** What [realloc] adds is not initialised. *)
Definition min_heap_reserve (w : W) (s : min_heap) (k : Z) : Z * min_heap * W :=
  if decide (a s < k) then
    let c := if decide (a s ≠ 0) then u32 (a s * 2) else 8 in
    let c := if decide (c < k) then k else c in
    let r := os_realloc w (c * 8) in
    if r.1 then (0, {| p := p s ++ replicate (Z.to_nat c - length (p s)) None; n := n s; a := c |}, r.2)
    else (-1, s, r.2)
  else (0, s, w).

Definition min_heap_push (w : W) (evs : store) (s : min_heap) (e : Z) : outcome (Z * store * min_heap * W) :=
  let r := min_heap_reserve w s (u32 (n s + 1)) in
  if decide (r.1.1 ≠ 0) then Ret (-1, evs, r.1.2, r.2)
  else
    let s := r.1.2 in
    x ← min_heap_shift_up_ (heap_fuel s) evs (with_n s (u32 (n s + 1))) (n s) e;
    Ret (0, x.1, x.2, r.2).
End reserving.

Definition min_heap_pop (evs : store) (s : min_heap) : outcome (option Z * store * min_heap) :=
  if decide (n s ≠ 0) then
    e ← heap_get s 0;
    let s := with_n s (u32 (n s - 1)) in
    last ← heap_get s (n s);
    r ← min_heap_shift_down_ (heap_fuel s) evs s 0 last;
    evs ← ev_set_idx r.1 e (-1);
    Ret (Some e, evs, r.2)
  else Ret (None, evs, s).

Definition min_heap_erase (evs : store) (s : min_heap) (e : Z) : outcome (Z * store * min_heap) :=
  v ← ev_get evs e;
  let i := min_heap_idx v in
  if decide (i ≠ -1) then
    let s := with_n s (u32 (n s - 1)) in
    last ← heap_get s (n s);
    let parent := u32 ((i - 1) `quot` 2) in
    up ← (if decide (0 < i) then q ← heap_get s parent; min_heap_elem_greater evs q last else Ret false);
    r ← (if (up : bool) then min_heap_shift_up_ (heap_fuel s) evs s (u32 i) last
         else min_heap_shift_down_ (heap_fuel s) evs s (u32 i) last);
    evs ← ev_set_idx r.1 e (-1);
    Ret (0, evs, r.2)
  else Ret (-1, evs, s).

(** * Heap order *)

Definition parent_of (i : nat) : nat := ((i - 1) / 2)%nat.
Arguments parent_of : simpl never.

Lemma parent_cases i :
  (i = 0 ∧ parent_of i = 0 ∨ (0 < i) ∧ (i = 2 * parent_of i + 1 ∨ i = 2 * parent_of i + 2))%nat.
Proof.
  unfold parent_of. destruct i as [|i]; [left; done|right].
  replace (S i - 1)%nat with i by lia.
  pose proof (Nat.div_mod_eq i 2). pose proof (Nat.mod_upper_bound i 2 ltac:(lia)). lia.
Qed.

(** Arithmetic with parents. *)
Ltac div_lia :=
  repeat match goal with
  | |- context [parent_of ?i] => learn_parent i
  | H : context [parent_of ?i] |- _ => learn_parent i
  end; lia
with learn_parent i :=
  lazymatch goal with
  | H : (i = 0 ∧ parent_of i = 0 ∨ _)%nat |- _ => fail
  | _ => pose proof (parent_cases i)
  end.

Definition swap (l : list Z) (i j : nat) (e q : Z) : list Z := <[j := e]> (<[i := q]> l).

Lemma swap_lookup l i j e q m z :
  (i < length l)%nat → (j < length l)%nat → swap l i j e q !! m = Some z →
  m = j ∧ z = e ∨ m ≠ j ∧ m = i ∧ z = q ∨ m ≠ j ∧ m ≠ i ∧ l !! m = Some z.
Proof.
  intros Hi Hj. unfold swap. destruct (decide (m = j)) as [->|Hmj].
  - rewrite list_lookup_insert_eq by (rewrite length_insert; done). naive_solver.
  - rewrite list_lookup_insert_ne by done. destruct (decide (m = i)) as [->|Hmi].
    + rewrite list_lookup_insert_eq by done. naive_solver.
    + rewrite list_lookup_insert_ne by done. naive_solver.
Qed.

Lemma swap_perm l i j e q : l !! i = Some e → l !! j = Some q → swap l i j e q ≡ₚ l.
Proof.
  intros Hi Hj. unfold swap. destruct (decide (i = j)) as [->|Hij].
  - rewrite list_insert_insert_eq. simplify_eq. by rewrite list_insert_id.
  - apply Permutation_inj. split; [by rewrite !length_insert|].
    exists (λ m, if decide (m = i) then j else if decide (m = j) then i else m).
    split.
    + intros x y. repeat case_decide; naive_solver.
    + intros m. pose proof (lookup_lt_Some _ _ _ Hi). pose proof (lookup_lt_Some _ _ _ Hj).
      repeat case_decide; subst.
      * rewrite list_lookup_insert_ne, list_lookup_insert_eq by done. done.
      * rewrite list_lookup_insert_eq by (by rewrite length_insert). done.
      * by rewrite !list_lookup_insert_ne by done.
Qed.

Section order.
Context (k : Z → timeval).

(** Each element is at most as early as its parent ... *)
Definition ordered (l : list Z) : Prop :=
  ∀ i x y, (0 < i)%nat → l !! i = Some y → l !! parent_of i = Some x → tv_le (k x) (k y).

(** ... but for the one at [h] and its parent, ... *)
Definition up_ok (l : list Z) (h : nat) : Prop :=
  (∀ i x y, (0 < i)%nat → i ≠ h → l !! i = Some y → l !! parent_of i = Some x → tv_le (k x) (k y)) ∧
  (∀ i x y, (0 < h)%nat → (0 < i)%nat → parent_of i = h → l !! i = Some y → l !! parent_of h = Some x →
     tv_le (k x) (k y)).

(** ... or but for the one at [h] and its children. *)
Definition down_ok (l : list Z) (h : nat) : Prop :=
  (∀ i x y, (0 < i)%nat → parent_of i ≠ h → l !! i = Some y → l !! parent_of i = Some x → tv_le (k x) (k y)) ∧
  (∀ i x y, (0 < h)%nat → (0 < i)%nat → parent_of i = h → l !! i = Some y → l !! parent_of h = Some x →
     tv_le (k x) (k y)).

Lemma up_stop l h e q :
  up_ok l h → l !! h = Some e → ((h ≠ 0)%nat → l !! parent_of h = Some q ∧ tv_le (k q) (k e)) → ordered l.
Proof.
  intros [Hu _] He Hq i x y Hi Hy Hx. destruct (decide (i = h)) as [->|Hne]; [|eauto].
  destruct Hq as [Hq Hle]; [lia|]. by simplify_eq.
Qed.

Lemma up_move l h e q :
  (0 < h)%nat → l !! h = Some e → l !! parent_of h = Some q → tv_le (k e) (k q) →
  up_ok l h → up_ok (swap l h (parent_of h) e q) (parent_of h).
Proof.
  intros Hh He Hq Hle [Hu Hc].
  pose proof (lookup_lt_Some _ _ _ He) as Lh. pose proof (lookup_lt_Some _ _ _ Hq) as Lq.
  assert (parent_of h < h)%nat by div_lia.
  split.
  - intros i x y Hi Hne Hy Hx.
    apply swap_lookup in Hy as [[-> ->]|[(_ & -> & ->)|(_ & Hih & Hy)]]; [done| | |done|done].
    + apply swap_lookup in Hx as [[_ ->]|[(? & ? & ->)|(? & ? & Hx)]]; [done|lia|done|done|done].
    + apply swap_lookup in Hx as [[Hp ->]|[(_ & Hp & ->)|(_ & _ & Hx)]]; [| |eauto|done|done].
      * transitivity (k q); [done|]. apply (Hu i); [done..|]. by rewrite Hp.
      * by apply (Hc i).
  - intros i x y Hp0 Hi Hpi Hy Hx.
    assert (parent_of (parent_of h) < parent_of h)%nat by div_lia.
    apply swap_lookup in Hx as [[? ->]|[(_ & ? & ->)|(_ & _ & Hx)]]; [lia|lia| |done|done].
    assert (tv_le (k x) (k q)) by (eapply (Hu (parent_of h)); eauto; lia).
    apply swap_lookup in Hy as [[-> ->]|[(_ & -> & ->)|(_ & Hih & Hy)]]; [|done| |done|done].
    + div_lia.
    + transitivity (k q); [done|]. eapply (Hu i); eauto. by rewrite Hpi.
Qed.

Lemma down_stop l h e :
  down_ok l h → l !! h = Some e →
  (∀ i y, (0 < i)%nat → parent_of i = h → l !! i = Some y → tv_le (k e) (k y)) → ordered l.
Proof.
  intros [Hd _] He Hq i x y Hi Hy Hx. destruct (decide (parent_of i = h)) as [E|Hne]; [|eauto].
  rewrite E in Hx. simplify_eq. eauto.
Qed.

Lemma down_move l h c e q :
  (0 < c)%nat → parent_of c = h → l !! h = Some e → l !! c = Some q → tv_le (k q) (k e) →
  (∀ i y, (0 < i)%nat → parent_of i = h → l !! i = Some y → tv_le (k q) (k y)) →
  down_ok l h → down_ok (swap l h c e q) c.
Proof.
  intros Hc Hpc He Hq Hle Hmin [Hd Hg].
  pose proof (lookup_lt_Some _ _ _ He) as Lh. pose proof (lookup_lt_Some _ _ _ Hq) as Lq.
  assert (h < c)%nat by div_lia.
  split.
  - intros i x y Hi Hne Hy Hx.
    apply swap_lookup in Hx as [[? ->]|[(_ & Hp & ->)|(_ & Hih & Hx)]]; [lia| | |done|done].
    + apply swap_lookup in Hy as [[-> ->]|[(_ & -> & ->)|(_ & _ & Hy)]]; [done| |eauto|done|done].
      div_lia.
    + apply swap_lookup in Hy as [[-> ->]|[(_ & -> & ->)|(_ & _ & Hy)]]; [congruence| |eauto|done|done].
      apply (Hg c); [done..|congruence].
  - intros i x y Hc0 Hi Hpi Hy Hx. rewrite Hpc in Hx.
    assert (c < i)%nat by div_lia.
    apply swap_lookup in Hx as [[? ->]|[(_ & _ & ->)|(_ & ? & Hx)]]; [lia| |done|done|done].
    apply swap_lookup in Hy as [[? ->]|[(_ & ? & ->)|(_ & _ & Hy)]]; [lia|lia| |done|done].
    eapply (Hd i); eauto; [lia|]. by rewrite Hpi.
Qed.

(** The first element is a least one. *)
Lemma ordered_top l e i y :
  ordered l → l !! 0%nat = Some e → l !! i = Some y → tv_le (k e) (k y).
Proof.
  intros Ho He. revert y. induction (lt_wf i) as [i _ IH]. intros y Hy.
  destruct (decide (i = 0%nat)) as [->|Hi]; [by simplify_eq|].
  assert (parent_of i < i)%nat as Hp by div_lia.
  destruct (lookup_lt_is_Some_2 l (parent_of i)) as [x Hx].
  { pose proof (lookup_lt_Some _ _ _ Hy). lia. }
  transitivity (k x); [by apply (IH (parent_of i))|]. eapply (Ho i); eauto. lia.
Qed.
End order.

(** * The array and the list it holds *)

(** Only [min_heap_idx] of elements of [l] differs. *)
Definition idx_upd (l : list Z) (evs evs' : store) : Prop :=
  ∀ e, (e ∉ l → evs' !! e = evs !! e) ∧ ∃ i, evs' !! e = (λ v, ev_with_idx v i) <$> evs !! e.

(** [k] gives the events' times. *)
Definition keyed (k : Z → timeval) (evs : store) : Prop := ∀ e v, evs !! e = Some v → ev_timeout v = k e.

(** The sizes are the same. *)
Definition same_shape (s s' : min_heap) : Prop := n s' = n s ∧ a s' = a s ∧ length (p s') = length (p s).

Record heap_rep (evs : store) (s : min_heap) (l : list Z) : Prop := {
  rep_len : n s = Z.of_nat (length l);
  rep_max : n s <= INT_MAX;
  rep_cells i e : l !! i = Some e → p s !! i = Some (Some e);
  rep_idx i e : l !! i = Some e → ∃ v, evs !! e = Some v ∧ min_heap_idx v = Z.of_nat i
}.

(** The same but for the cell [h], which is about to be filled with [e]. *)
Record hole_rep (evs : store) (s : min_heap) (l : list Z) (h : nat) (e : Z) : Prop := {
  hole_len : n s = Z.of_nat (length l);
  hole_max : n s <= INT_MAX;
  hole_here : l !! h = Some e;
  hole_dom : is_Some (evs !! e);
  hole_nodup : NoDup l;
  hole_room : (length l <= length (p s))%nat;
  hole_cells i q : i ≠ h → l !! i = Some q → p s !! i = Some (Some q);
  hole_idx i q : i ≠ h → l !! i = Some q → ∃ v, evs !! q = Some v ∧ min_heap_idx v = Z.of_nat i
}.

Lemma idx_upd_refl l evs : idx_upd l evs evs.
Proof.
  intros e. split; [done|]. destruct (evs !! e) as [v|]; [|by exists 0].
  exists (min_heap_idx v). by destruct v.
Qed.

Lemma idx_upd_trans l1 l2 evs1 evs2 evs3 :
  (∀ e, e ∈ l2 → e ∈ l1) → idx_upd l1 evs1 evs2 → idx_upd l2 evs2 evs3 → idx_upd l1 evs1 evs3.
Proof.
  intros Hl H12 H23 e. destruct (H12 e) as [F1 [i E1]], (H23 e) as [F2 [j E2]].
  split; [intros He; rewrite F2, F1; auto|].
  exists j. rewrite E2, E1. by destruct (evs1 !! e).
Qed.

Lemma idx_upd_keyed k l evs evs' : idx_upd l evs evs' → keyed k evs → keyed k evs'.
Proof.
  intros H Hk e v Hv. destruct (H e) as [_ [i E]]. rewrite Hv in E.
  destruct (evs !! e) as [w|] eqn:Hw; [|done]. simplify_eq/=. by apply Hk.
Qed.

Lemma idx_upd_insert l evs e v i :
  e ∈ l → evs !! e = Some v → idx_upd l evs (<[e := ev_with_idx v i]> evs).
Proof.
  intros He Hv q. destruct (decide (q = e)) as [->|Hq].
  - rewrite lookup_insert_eq. split; [done|]. exists i. by rewrite Hv.
  - rewrite lookup_insert_ne by done. by apply idx_upd_refl.
Qed.

Lemma same_shape_trans s1 s2 s3 : same_shape s1 s2 → same_shape s2 s3 → same_shape s1 s3.
Proof. unfold same_shape. intuition congruence. Qed.

Lemma elem_greater_ret k evs x y :
  keyed k evs → is_Some (evs !! x) → is_Some (evs !! y) →
  min_heap_elem_greater evs x y = Ret (bool_decide (¬ tv_le (k x) (k y))).
Proof.
  intros Hk [v Hv] [w Hw]. unfold min_heap_elem_greater, ev_get. rewrite Hv, Hw. cbn.
  by rewrite timercmp_gt, (Hk x v), (Hk y w).
Qed.

Lemma heap_get_ret s (i : Z) (j : nat) e : i = Z.of_nat j → p s !! j = Some (Some e) → heap_get s i = Ret e.
Proof.
  intros -> Hj. unfold heap_get. rewrite decide_True by lia. by rewrite Nat2Z.id, Hj.
Qed.

(** Writing [q] into the cell [h]. *)
Lemma heap_place_ret evs s h q v :
  (h < length (p s))%nat → Z.of_nat h <= INT_MAX → evs !! q = Some v →
  heap_place evs s (Z.of_nat h) q =
    Ret (<[q := ev_with_idx v (Z.of_nat h)]> evs, with_p s (<[h := Some q]> (p s))).
Proof.
  intros Hh Hi Hv. unfold heap_place, heap_set. rewrite decide_True by lia.
  cbn [mbind outcome_bind]. unfold ev_set_idx, ev_get. rewrite Hv. cbn [mbind outcome_bind].
  rewrite Nat2Z.id, i32_small; [done|]. unfold is_int, INT_MIN. lia.
Qed.

Lemma hole_bound evs s l h e : hole_rep evs s l h e → (h < length l)%nat ∧ Z.of_nat (length l) <= INT_MAX.
Proof.
  intros H. pose proof (lookup_lt_Some _ _ _ (hole_here _ _ _ _ _ H)).
  pose proof (hole_len _ _ _ _ _ H). pose proof (hole_max _ _ _ _ _ H). lia.
Qed.

Lemma hole_is_dom evs s l h e i q : hole_rep evs s l h e → l !! i = Some q → is_Some (evs !! q).
Proof.
  intros H Hq. destruct (decide (i = h)) as [->|Hne].
  - pose proof (hole_here _ _ _ _ _ H). simplify_eq. by apply H.
  - destruct (hole_idx _ _ _ _ _ H i q Hne Hq) as (v & -> & _). done.
Qed.

(** The hole moves to [j], whose element takes its place. *)
Lemma hole_move evs s l h e j q :
  hole_rep evs s l h e → j ≠ h → l !! j = Some q →
  ∃ evs' s', heap_place evs s (Z.of_nat h) q = Ret (evs', s') ∧
    hole_rep evs' s' (swap l h j e q) j e ∧ idx_upd l evs evs' ∧ same_shape s s'.
Proof.
  intros H Hj Hq. destruct (hole_bound _ _ _ _ _ H) as [Lh Lm].
  destruct (hole_idx _ _ _ _ _ H j q Hj Hq) as (v & Hv & Iv).
  pose proof (hole_room _ _ _ _ _ H). pose proof (lookup_lt_Some _ _ _ Hq) as Lj.
  pose proof (hole_here _ _ _ _ _ H) as He.
  eexists _, _. split; [apply heap_place_ret; [lia|lia|done]|].
  split; [|split; [by apply idx_upd_insert; [eapply list_elem_of_lookup_2|]|]].
  2: { unfold same_shape. cbn. by rewrite length_insert. }
  assert (e ≠ q) as Heq. { intros ->. apply Hj. eapply NoDup_lookup; eauto. apply H. }
  split; cbn.
  - unfold swap. rewrite !length_insert. apply H.
  - apply H.
  - unfold swap. rewrite list_lookup_insert_eq; [done|]. by rewrite length_insert.
  - rewrite lookup_insert_ne by done. apply H.
  - rewrite (swap_perm l h j e q) by done. apply H.
  - unfold swap. rewrite !length_insert. lia.
  - intros i z Hij Hz. apply swap_lookup in Hz as [[? _]|[(_ & -> & ->)|(_ & Hih & Hz)]]; [done| | |done|done].
    + apply list_lookup_insert_eq. lia.
    + rewrite list_lookup_insert_ne by done. by apply (hole_cells _ _ _ _ _ H).
  - intros i z Hij Hz. apply swap_lookup in Hz as [[? _]|[(_ & -> & ->)|(_ & Hih & Hz)]]; [done| | |done|done].
    + rewrite lookup_insert_eq. eauto.
    + rewrite lookup_insert_ne; [by apply (hole_idx _ _ _ _ _ H)|].
      intros ->. apply Hij. eapply NoDup_lookup; eauto. apply H.
Qed.

(** The hole is filled. *)
Lemma hole_fill evs s l h e :
  hole_rep evs s l h e →
  ∃ evs' s', heap_place evs s (Z.of_nat h) e = Ret (evs', s') ∧
    heap_rep evs' s' l ∧ idx_upd l evs evs' ∧ same_shape s s'.
Proof.
  intros H. destruct (hole_bound _ _ _ _ _ H) as [Lh Lm].
  pose proof (hole_here _ _ _ _ _ H) as He. pose proof (hole_room _ _ _ _ _ H).
  destruct (hole_dom _ _ _ _ _ H) as [v Hv].
  eexists _, _. split; [apply heap_place_ret; [lia|lia|done]|].
  split; [|split; [by apply idx_upd_insert; [eapply list_elem_of_lookup_2|]|]].
  2: { unfold same_shape. cbn. by rewrite length_insert. }
  split; cbn; [apply H|apply H| |].
  - intros i z Hz. destruct (decide (i = h)) as [->|Hih].
    + simplify_eq. apply list_lookup_insert_eq. lia.
    + rewrite list_lookup_insert_ne by done. by apply (hole_cells _ _ _ _ _ H).
  - intros i z Hz. destruct (decide (i = h)) as [->|Hih].
    + simplify_eq. rewrite lookup_insert_eq. eauto.
    + rewrite lookup_insert_ne; [by apply (hole_idx _ _ _ _ _ H)|].
      intros ->. apply Hih. eapply NoDup_lookup; eauto. apply H.
Qed.

(** * The loops *)

(** What the loops establish from the hole's list [l]. *)
Definition settled (k : Z → timeval) (evs : store) (s : min_heap) (l : list Z) (r : outcome (store * min_heap)) : Prop :=
  ∃ evs' s' l', r = Ret (evs', s') ∧ heap_rep evs' s' l' ∧ ordered k l' ∧ l' ≡ₚ l ∧
    idx_upd l evs evs' ∧ same_shape s s'.

Lemma settled_fill k evs s l h e :
  hole_rep evs s l h e → ordered k l → settled k evs s l (heap_place evs s (Z.of_nat h) e).
Proof.
  intros H Ho. destruct (hole_fill _ _ _ _ _ H) as (evs' & s' & -> & Hr & Hu & Hs).
  exists evs', s', l. done.
Qed.

Lemma settled_step k evs s l l' evs1 s1 r :
  idx_upd l evs evs1 → same_shape s s1 → l' ≡ₚ l → settled k evs1 s1 l' r → settled k evs s l r.
Proof.
  intros Hu Hs Hp (evs2 & s2 & l2 & -> & Hr & Ho & Hp2 & Hu2 & Hs2).
  exists evs2, s2, l2. split_and!; try done.
  - by rewrite Hp2.
  - eapply idx_upd_trans; [|done|done]. intros e. by rewrite Hp.
  - by eapply same_shape_trans.
Qed.

Lemma shift_up_spec k fuel evs s l h e :
  (h < fuel)%nat → hole_rep evs s l h e → keyed k evs → up_ok k l h →
  settled k evs s l (min_heap_shift_up_ fuel evs s (Z.of_nat h) e).
Proof.
  revert evs s l h. induction fuel as [|fuel IH]; intros evs s l h Hf H Hk Hu; [lia|].
  pose proof (hole_here _ _ _ _ _ H) as He. destruct (hole_bound _ _ _ _ _ H) as [Lh Lm].
  cbn. destruct (decide (h = 0%nat)) as [->|Hh].
  { cbn. apply settled_fill; [done|]. by apply (up_stop _ _ 0%nat e e). }
  rewrite (decide_False (P := Z.of_nat h = 0)) by lia.
  assert (u32 (Z.of_nat h - 1) / 2 = Z.of_nat (parent_of h)) as ->.
  { unfold INT_MAX in Lm. rewrite u32_small by lia. unfold parent_of.
    rewrite Nat2Z.inj_div, Nat2Z.inj_sub by lia. done. }
  assert (parent_of h < h)%nat as Hp by div_lia.
  destruct (lookup_lt_is_Some_2 l (parent_of h)) as [q Hq]; [lia|].
  pose proof (hole_cells _ _ _ _ _ H (parent_of h) q ltac:(lia) Hq) as Cq.
  rewrite (heap_get_ret _ _ _ _ eq_refl Cq). cbn.
  rewrite (elem_greater_ret k) by (eauto using hole_is_dom).
  cbn. case_bool_decide as Hle.
  - destruct (hole_move _ _ _ _ _ (parent_of h) q H ltac:(lia) Hq) as (evs1 & s1 & -> & H1 & U1 & S1). cbn.
    eapply (settled_step _ _ _ _ (swap l h (parent_of h) e q)); [done|done|by apply swap_perm|].
    apply IH; [lia|done|by eapply idx_upd_keyed|]. apply up_move; eauto with kv; lia.
  - apply settled_fill; [done|]. apply (up_stop _ _ h e q); [done..|]. done.
Qed.

Lemma parent_children i h : (0 < i)%nat → parent_of i = h → (i = 2 * h + 1 ∨ i = 2 * h + 2)%nat.
Proof. intros. div_lia. Qed.

Lemma parent_left h : parent_of (2 * h + 1) = h.
Proof. div_lia. Qed.

Lemma parent_right h : parent_of (2 * h + 2) = h.
Proof. div_lia. Qed.

(** The smaller of the hole's children, as the code finds it. *)
Lemma min_child_spec k evs s l h e :
  hole_rep evs s l h e → keyed k evs → (2 * h + 2 <= length l)%nat →
  ∃ c q, (h < c)%nat ∧ parent_of c = h ∧ l !! c = Some q ∧
    (if decide (2 * (Z.of_nat h + 1) = n s) then Ret true
     else x ← heap_get s (2 * (Z.of_nat h + 1)); d ← heap_get s (u32 (2 * (Z.of_nat h + 1) - 1));
          min_heap_elem_greater evs x d) = Ret (bool_decide (c = 2 * h + 1)%nat) ∧
    (∀ i y, (0 < i)%nat → parent_of i = h → l !! i = Some y → tv_le (k q) (k y)).
Proof.
  intros H Hk Hl. destruct (hole_bound _ _ _ _ _ H) as [Lh Lm].
  pose proof (hole_len _ _ _ _ _ H) as Hn. unfold INT_MAX in Lm.
  destruct (lookup_lt_is_Some_2 l (2 * h + 1)) as [x Hx]; [lia|].
  destruct (decide (2 * (Z.of_nat h + 1) = n s)) as [E|E].
  { exists (2 * h + 1)%nat, x. split_and!; [lia|apply parent_left|done|by rewrite bool_decide_eq_true_2|].
    intros i y Hi Hp Hy. apply parent_children in Hp as [->| ->]; [by simplify_eq| |done].
    apply lookup_lt_Some in Hy. lia. }
  destruct (lookup_lt_is_Some_2 l (2 * h + 2)) as [y Hy]; [lia|].
  pose proof (hole_cells _ _ _ _ _ H (2 * h + 1)%nat x ltac:(lia) Hx) as Cx.
  pose proof (hole_cells _ _ _ _ _ H (2 * h + 2)%nat y ltac:(lia) Hy) as Cy.
  rewrite u32_small by lia.
  rewrite (heap_get_ret s (2 * (Z.of_nat h + 1)) (2 * h + 2)%nat y) by (lia || done). cbn.
  rewrite (heap_get_ret s (2 * (Z.of_nat h + 1) - 1) (2 * h + 1)%nat x) by (lia || done). cbn.
  rewrite (elem_greater_ret k) by (eauto using hole_is_dom).
  destruct (decide (tv_le (k y) (k x))) as [Hle|Hle].
  - exists (2 * h + 2)%nat, y. split_and!; [lia|apply parent_right|done|repeat case_bool_decide; try done; lia|].
    intros i z Hi Hp Hz. apply parent_children in Hp as [->| ->]; by simplify_eq.
  - exists (2 * h + 1)%nat, x. split_and!; [lia|apply parent_left|done|by rewrite !bool_decide_eq_true_2|].
    intros i z Hi Hp Hz. apply parent_children in Hp as [->| ->]; simplify_eq; eauto with kv; done.
Qed.

Lemma shift_down_spec k fuel evs s l h e :
  (length l - h < fuel)%nat → hole_rep evs s l h e → keyed k evs → down_ok k l h →
  settled k evs s l (min_heap_shift_down_ fuel evs s (Z.of_nat h) e).
Proof.
  revert evs s l h. induction fuel as [|fuel IH]; intros evs s l h Hf H Hk Hd; [lia|].
  pose proof (hole_here _ _ _ _ _ H) as He. destruct (hole_bound _ _ _ _ _ H) as [Lh Lm].
  pose proof (hole_len _ _ _ _ _ H) as Hn.
  cbn [min_heap_shift_down_].
  assert (u32 (2 * u32 (Z.of_nat h + 1)) = 2 * (Z.of_nat h + 1)) as ->.
  { unfold INT_MAX in Lm. rewrite !u32_small by (rewrite ?u32_small; lia). done. }
  case_decide as Hc.
  2: { apply settled_fill; [done|]. eapply down_stop; [done|done|]. intros i y Hi Hp Hy.
       apply lookup_lt_Some in Hy. apply parent_children in Hp; lia. }
  destruct (min_child_spec k _ _ _ _ _ H Hk ltac:(lia)) as (c & q & Hhc & Hpc & Hq & -> & Hmin).
  cbn [mbind outcome_bind].
  assert ((if bool_decide (c = (2 * h + 1)%nat) then u32 (2 * (Z.of_nat h + 1) - 1) else 2 * (Z.of_nat h + 1))
          = Z.of_nat c) as ->.
  { unfold INT_MAX in Lm. apply parent_children in Hpc; [|lia].
    case_bool_decide; [rewrite u32_small|]; lia. }
  pose proof (hole_cells _ _ _ _ _ H c q ltac:(lia) Hq) as Cq.
  rewrite (heap_get_ret _ _ _ _ eq_refl Cq). cbn [mbind outcome_bind].
  rewrite (elem_greater_ret k) by (eauto using hole_is_dom).
  cbn [mbind outcome_bind]. pose proof (lookup_lt_Some _ _ _ Hq). case_bool_decide as Hle.
  - destruct (hole_move _ _ _ _ _ c q H ltac:(lia) Hq) as (evs1 & s1 & -> & H1 & U1 & S1).
    cbn [mbind outcome_bind fst snd].
    eapply (settled_step _ _ _ _ (swap l h c e q)); [done|done|by apply swap_perm|].
    apply IH; [|done|by eapply idx_upd_keyed|apply down_move; eauto with kv; lia].
    unfold swap. rewrite !length_insert. lia.
  - apply settled_fill; [done|]. eapply down_stop; [done|done|]. intros i y Hi Hp Hy.
    transitivity (k q); eauto.
Qed.

(** * The operations *)

(** The time an event is due. *)
Definition due (evs : store) (e : Z) : timeval := from_option ev_timeout evutil_timerclear (evs !! e).

(** The heap [s] holds exactly the events of [l]: the array is ordered, an event in it knows its place
    and one outside of it has none. *)
Record heap_ok (evs : store) (s : min_heap) (l : list Z) : Prop := {
  ok_rep : heap_rep evs s l;
  ok_ord : ordered (due evs) l;
  ok_cap : a s = Z.of_nat (length (p s)) ∧ n s <= a s < 2 ^ 32;
  ok_out e v : evs !! e = Some v → e ∉ l → min_heap_idx v = -1
}.

Lemma keyed_due evs : keyed (due evs) evs.
Proof. intros e v Hv. unfold due. by rewrite Hv. Qed.

Lemma idx_upd_due l evs evs' e : idx_upd l evs evs' → due evs' e = due evs e.
Proof. intros H. destruct (H e) as [_ [i E]]. unfold due. rewrite E. by destruct (evs !! e). Qed.

Lemma ordered_ext k k' l : (∀ e, k e = k' e) → ordered k l → ordered k' l.
Proof. intros E H i x y Hi Hy Hx. rewrite <- !E. by eapply H. Qed.

Lemma rep_nodup evs s l : heap_rep evs s l → NoDup l.
Proof.
  intros H. apply NoDup_alt. intros i j e Hi Hj.
  destruct (rep_idx _ _ _ H i e Hi) as (v & Hv & E1), (rep_idx _ _ _ H j e Hj) as (w & Hw & E2).
  simplify_eq. lia.
Qed.

Lemma ordered_app_inv k l0 z : ordered k (l0 ++ [z]) → ordered k l0.
Proof. intros H i x y Hi Hy Hx. eapply H; eauto using lookup_app_l_Some. Qed.

Lemma ordered_snoc_up k l e : ordered k l → up_ok k (l ++ [e]) (length l).
Proof.
  intros H. split.
  - intros i x y Hi Hne Hy Hx. pose proof (lookup_lt_Some _ _ _ Hy) as Li.
    rewrite length_app in Li. cbn in Li. rewrite lookup_app_l in Hy by lia.
    rewrite lookup_app_l in Hx by div_lia. by eapply H.
  - intros i x y _ Hi Hp Hy _. apply lookup_lt_Some in Hy. rewrite length_app in Hy. cbn in Hy. div_lia.
Qed.

(** Removing the element [i] of a heap and putting [z] in its place. *)
Section replacing.
Context (k : Z → timeval) (l : list Z) (i : nat) (e z : Z).
Context (Ho : ordered k l) (He : l !! i = Some e).

Lemma replace_below j x y :
  (0 < i)%nat → (0 < j)%nat → parent_of j = i → <[i := z]> l !! j = Some y →
  <[i := z]> l !! parent_of i = Some x → tv_le (k x) (k y).
Proof using Ho He.
  intros Hi Hj Hp Hy Hx. rewrite list_lookup_insert_ne in Hx by div_lia.
  rewrite list_lookup_insert_ne in Hy by div_lia.
  transitivity (k e); [by eapply (Ho i)|]. eapply (Ho j); eauto. by rewrite Hp.
Qed.

Lemma replace_down : (∀ q, (0 < i)%nat → l !! parent_of i = Some q → tv_le (k q) (k z)) → down_ok k (<[i := z]> l) i.
Proof using Ho He.
  intros Hz. pose proof (lookup_lt_Some _ _ _ He). split; [|intros; by eapply replace_below].
  intros j x y Hj Hp Hy Hx. rewrite list_lookup_insert_ne in Hx by done.
  destruct (decide (j = i)) as [->|Hji].
  - rewrite list_lookup_insert_eq in Hy by done. simplify_eq. eauto.
  - rewrite list_lookup_insert_ne in Hy by done. eauto.
Qed.

Lemma replace_up q : (0 < i)%nat → l !! parent_of i = Some q → tv_le (k z) (k q) → up_ok k (<[i := z]> l) i.
Proof using Ho He.
  intros Hi Hq Hz. pose proof (lookup_lt_Some _ _ _ He). split; [|intros; by eapply replace_below].
  intros j x y Hj Hne Hy Hx. rewrite list_lookup_insert_ne in Hy by done.
  destruct (decide (parent_of j = i)) as [E|Hji].
  - rewrite E, list_lookup_insert_eq in Hx by done. simplify_eq.
    transitivity (k q); [done|]. transitivity (k e); [by eapply (Ho (parent_of j))|].
    by eapply (Ho j).
  - rewrite list_lookup_insert_ne in Hx by done. eauto.
Qed.
End replacing.

Lemma replace_perm (l : list Z) i e z : l !! i = Some e → l ++ [z] ≡ₚ e :: <[i := z]> l.
Proof.
  intros He. pose proof (lookup_lt_Some _ _ _ He).
  rewrite insert_take_drop by done. rewrite <- (take_drop_middle l i e) at 1 by done.
  solve_Permutation.
Qed.

Lemma snoc_hole evs s l0 z i e :
  heap_ok evs s (l0 ++ [z]) → l0 !! i = Some e →
  hole_rep evs (with_n s (Z.of_nat (length l0))) (<[i := z]> l0) i z.
Proof.
  intros [[Hn Hm Hc Hx] _ [Ha [Hna _]] _] He. pose proof (lookup_lt_Some _ _ _ He) as Li.
  assert (NoDup (l0 ++ [z])) as Hnd by (eapply rep_nodup; by split).
  rewrite length_app in Hn. cbn in Hn.
  assert ((l0 ++ [z]) !! length l0 = Some z) as Hz by (by rewrite lookup_app_r, Nat.sub_diag).
  split; cbn.
  - by rewrite length_insert.
  - lia.
  - by apply list_lookup_insert_eq.
  - destruct (Hx _ _ Hz) as (v & -> & _). done.
  - rewrite (replace_perm l0 i e z He) in Hnd. by apply NoDup_cons in Hnd as [_ ?].
  - rewrite length_insert. lia.
  - intros j q Hj Hq. rewrite list_lookup_insert_ne in Hq by done. by apply Hc, lookup_app_l_Some.
  - intros j q Hj Hq. rewrite list_lookup_insert_ne in Hq by done. by apply Hx, lookup_app_l_Some.
Qed.

(** The end of a removal: the removed event [e] loses its place. *)
Lemma removed evs s l m e r j :
  heap_ok evs s l → l ≡ₚ e :: m → 0 <= j <= n s → settled (due evs) evs (with_n s j) m r →
  ∃ evs1 s1, r = Ret (evs1, s1) ∧ ∃ evs2, ev_set_idx evs1 e (-1) = Ret evs2 ∧
    ∃ l', heap_ok evs2 s1 l' ∧ l' ≡ₚ m ∧ idx_upd l evs evs2 ∧ a s1 = a s.
Proof.
  intros H Hl Hj (evs1 & s1 & l' & -> & Hr & Ho & Hp & Hu & (Sn & Sa & Sp)).
  pose proof (rep_nodup _ _ _ (ok_rep _ _ _ H)) as Hnd. rewrite Hl in Hnd.
  apply NoDup_cons in Hnd as [Hem Hnd].
  assert (e ∈ l) as [i Hi]%list_elem_of_lookup by (rewrite Hl; left).
  destruct (rep_idx _ _ _ (ok_rep _ _ _ H) i e Hi) as (v & Hv & _).
  assert (evs1 !! e = Some v) as Hv1 by (destruct (Hu e) as [-> _]; done).
  assert (idx_upd l evs (<[e := ev_with_idx v (-1)]> evs1)) as Hul.
  { eapply idx_upd_trans; [|intros q|by apply (idx_upd_insert [e]); [left|]].
    - intros q. rewrite list_elem_of_singleton, Hl. intros ->. left.
    - destruct (Hu q) as [F ?]. split; [|done]. rewrite Hl, not_elem_of_cons. naive_solver. }
  exists evs1, s1. split; [done|]. eexists. split; [unfold ev_set_idx, ev_get; by rewrite Hv1|].
  exists l'. split_and!; [|done|done|done]. split.
  - destruct Hr as [R1 R2 R3 R4]. split; [done|done|done|]. intros x q Hq.
    rewrite lookup_insert_ne; [by apply R4|]. intros <-.
    apply Hem. rewrite <- Hp. by eapply list_elem_of_lookup_2.
  - eapply ordered_ext; [|done]. intros q. symmetry. by eapply idx_upd_due.
  - rewrite Sn, Sa, Sp. cbn. pose proof (ok_cap _ _ _ H). lia.
  - intros q w Hq Hql. destruct (decide (q = e)) as [->|Hne].
    + rewrite lookup_insert_eq in Hq. by simplify_eq.
    + rewrite lookup_insert_ne in Hq by done. rewrite Hp in Hql.
      destruct (Hu q) as [F _]. rewrite F in Hq by done.
      apply (ok_out _ _ _ H) with q; [done|]. rewrite Hl, not_elem_of_cons. done.
Qed.

(** The last element is removed: the loop only writes what is there already. *)
Lemma settled_last evs s l0 z fuel :
  heap_ok evs s (l0 ++ [z]) →
  settled (due evs) evs (with_n s (Z.of_nat (length l0))) l0
    (min_heap_shift_down_ (S fuel) evs (with_n s (Z.of_nat (length l0))) (Z.of_nat (length l0)) z).
Proof.
  intros [[Hn Hm Hc Hx] Ho [Ha [Hna Ha2]] _]. rewrite length_app in Hn. cbn in Hn.
  assert ((l0 ++ [z]) !! length l0 = Some z) as Hz by (by rewrite lookup_app_r, Nat.sub_diag).
  destruct (Hx _ _ Hz) as (v & Hv & Iv). pose proof (Hc _ _ Hz) as Cz.
  unfold INT_MAX in Hm. cbn [min_heap_shift_down_].
  rewrite (u32_small (Z.of_nat (length l0) + 1)), u32_small by lia.
  rewrite decide_False by (cbn; lia).
  rewrite (heap_place_ret _ _ _ _ v) by (cbn; unfold INT_MAX; lia || done).
  exists evs, (with_n s (Z.of_nat (length l0))), l0.
  split; [|split_and!; [|by eapply ordered_app_inv|done|apply idx_upd_refl|done]].
  - rewrite <- Iv. replace (ev_with_idx v (min_heap_idx v)) with v by (by destruct v).
    rewrite insert_id by done. unfold with_p. cbn. by rewrite list_insert_id.
  - split; cbn; [done|unfold INT_MAX; lia|eauto using lookup_app_l_Some|eauto using lookup_app_l_Some].
Qed.

(** The element at [i] gives way to the last one, which is sifted down, or up when it is due before
    its new parent. *)
Lemma settled_remove evs s l0 z i e fuel :
  heap_ok evs s (l0 ++ [z]) → (l0 ++ [z]) !! i = Some e → (length l0 < fuel)%nat →
  (∀ q, (0 < i)%nat → (l0 ++ [z]) !! parent_of i = Some q → tv_le (due evs q) (due evs z)) →
  ∃ m, l0 ++ [z] ≡ₚ e :: m ∧
    settled (due evs) evs (with_n s (Z.of_nat (length l0))) m
      (min_heap_shift_down_ fuel evs (with_n s (Z.of_nat (length l0))) (Z.of_nat i) z).
Proof.
  intros H He Hf Hq. destruct (decide (i = length l0)) as [->|Hi].
  - rewrite lookup_app_r, Nat.sub_diag in He by done. cbn in He. simplify_eq.
    exists l0. split; [solve_Permutation|]. destruct fuel; [lia|]. by apply settled_last.
  - pose proof (lookup_lt_Some _ _ _ He) as Li. rewrite length_app in Li. cbn in Li.
    rewrite lookup_app_l in He by lia. exists (<[i := z]> l0). split; [by apply replace_perm|].
    apply shift_down_spec; [rewrite length_insert; lia|by eapply snoc_hole|apply keyed_due|].
    eapply replace_down; [eapply ordered_app_inv, H|done|].
    intros q Hi0 Hp. eapply Hq; [done|]. by apply lookup_app_l_Some.
Qed.

Lemma settled_remove_up evs s l0 z i e q fuel :
  heap_ok evs s (l0 ++ [z]) → (l0 ++ [z]) !! i = Some e → (length l0 < fuel)%nat →
  (0 < i)%nat → (l0 ++ [z]) !! parent_of i = Some q → ¬ tv_le (due evs q) (due evs z) →
  ∃ m, l0 ++ [z] ≡ₚ e :: m ∧
    settled (due evs) evs (with_n s (Z.of_nat (length l0))) m
      (min_heap_shift_up_ fuel evs (with_n s (Z.of_nat (length l0))) (Z.of_nat i) z).
Proof.
  intros H He Hf Hi0 Hq Hz. pose proof (lookup_lt_Some _ _ _ He) as Li. rewrite length_app in Li. cbn in Li.
  destruct (decide (i = length l0)) as [->|Hi].
  { exfalso. apply Hz. eapply (ok_ord _ _ _ H (length l0)); [done| |done].
    by rewrite lookup_app_r, Nat.sub_diag. }
  rewrite lookup_app_l in He by lia. rewrite lookup_app_l in Hq by div_lia.
  exists (<[i := z]> l0). split; [by apply replace_perm|].
  apply shift_up_spec; [lia|by eapply snoc_hole|apply keyed_due|].
  eapply replace_up; [eapply ordered_app_inv, H|done|done|done|eauto with kv].
Qed.

(** [min_heap_erase] sifts the last element from the removed one's place up or down. *)
Lemma erase_sift evs s l0 z i e :
  heap_ok evs s (l0 ++ [z]) → (l0 ++ [z]) !! i = Some e →
  let s1 := with_n s (Z.of_nat (length l0)) in
  ∃ up m r,
    (if decide (0 < Z.of_nat i) then q ← heap_get s1 (u32 ((Z.of_nat i - 1) `quot` 2)); min_heap_elem_greater evs q z
     else Ret false) = Ret up ∧
    (if (up : bool) then min_heap_shift_up_ (heap_fuel s1) evs s1 (Z.of_nat i) z
     else min_heap_shift_down_ (heap_fuel s1) evs s1 (Z.of_nat i) z) = r ∧
    l0 ++ [z] ≡ₚ e :: m ∧ settled (due evs) evs s1 m r.
Proof.
  intros H Hi s1. pose proof (rep_len _ _ _ (ok_rep _ _ _ H)) as Hn.
  pose proof (rep_max _ _ _ (ok_rep _ _ _ H)) as Hm. unfold INT_MAX in Hm.
  rewrite length_app in Hn. cbn in Hn.
  pose proof (lookup_lt_Some _ _ _ Hi) as Li. rewrite length_app in Li. cbn in Li.
  assert ((l0 ++ [z]) !! length l0 = Some z) as Hz by (by rewrite lookup_app_r, Nat.sub_diag).
  assert (length l0 < heap_fuel s1)%nat as Hf by (unfold heap_fuel; cbn; lia).
  destruct (decide (0 < Z.of_nat i)) as [Hi0|Hi0].
  2: { destruct (settled_remove evs s l0 z i e _ H Hi Hf) as (m & Hp & Hs); [lia|]. by eexists false, m, _. }
  assert (u32 ((Z.of_nat i - 1) `quot` 2) = Z.of_nat (parent_of i)) as ->.
  { rewrite Z.quot_div_nonneg by lia. unfold parent_of. rewrite Nat2Z.inj_div, Nat2Z.inj_sub by lia.
    rewrite u32_small; [done|]. split; [apply Z.div_pos; lia|].
    apply Z.div_lt_upper_bound; lia. }
  destruct (lookup_lt_is_Some_2 (l0 ++ [z]) (parent_of i)) as [q Hq]; [rewrite length_app; div_lia|].
  destruct (rep_idx _ _ _ (ok_rep _ _ _ H) _ q Hq) as (w & Hw & _).
  destruct (rep_idx _ _ _ (ok_rep _ _ _ H) _ z Hz) as (w' & Hw' & _).
  rewrite (heap_get_ret s1 _ _ q eq_refl) by (by apply (rep_cells _ _ _ (ok_rep _ _ _ H))).
  cbn [mbind outcome_bind].
  rewrite (elem_greater_ret (due evs)) by (done || apply keyed_due). case_bool_decide as Hle.
  - destruct (settled_remove_up evs s l0 z i e q _ H Hi Hf) as (m & Hp & Hs); [lia|done..|]. by eexists true, m, _.
  - destruct (settled_remove evs s l0 z i e _ H Hi Hf) as (m & Hp & Hs); [|by eexists false, m, _].
    intros q' _ ?. by simplify_eq.
Qed.

(** [min_heap_erase] of an event in the heap. *)
Lemma erase_ok evs s l e :
  heap_ok evs s l → e ∈ l →
  ∃ evs' s' l', min_heap_erase evs s e = Ret (0, evs', s') ∧ heap_ok evs' s' l' ∧ l ≡ₚ e :: l' ∧
    idx_upd l evs evs' ∧ a s' = a s.
Proof.
  intros H [i Hi]%list_elem_of_lookup.
  destruct (rep_idx _ _ _ (ok_rep _ _ _ H) i e Hi) as (v & Hv & Iv).
  pose proof (rep_len _ _ _ (ok_rep _ _ _ H)) as Hn. pose proof (rep_max _ _ _ (ok_rep _ _ _ H)) as Hm.
  unfold INT_MAX in Hm. destruct l as [|z l0 _] using rev_ind; [done|].
  rewrite length_app in Hn. cbn in Hn.
  pose proof (lookup_lt_Some _ _ _ Hi) as Li. rewrite length_app in Li. cbn in Li.
  assert ((l0 ++ [z]) !! length l0 = Some z) as Hz by (by rewrite lookup_app_r, Nat.sub_diag).
  unfold min_heap_erase. unfold ev_get at 1. rewrite Hv. cbn [mbind outcome_bind].
  rewrite Iv, decide_True by lia. rewrite (u32_small (n s - 1)) by lia.
  replace (n s - 1) with (Z.of_nat (length l0)) by lia.
  rewrite (heap_get_ret _ (Z.of_nat (length l0)) (length l0) z)
    by (done || by apply (rep_cells _ _ _ (ok_rep _ _ _ H))). cbn [mbind outcome_bind].
  rewrite (u32_small (Z.of_nat i)) by lia.
  destruct (erase_sift _ _ _ _ _ _ H Hi) as (up & m & r & -> & Er & Hp & Hs). cbn [mbind outcome_bind].
  rewrite Er. assert (0 <= Z.of_nat (length l0) <= n s) as Hj by lia.
  destruct (removed _ _ _ _ _ _ _ H Hp Hj Hs) as (evs1 & s1 & -> & evs2 & E2 & l' & Hok & Hp' & Hu & Ha).
  cbn [mbind outcome_bind fst snd]. rewrite E2. cbn [mbind outcome_bind].
  exists evs2, s1, l'. split_and!; [done|done| |done|done]. by rewrite Hp', Hp.
Qed.

Lemma erase_absent evs s l e :
  heap_ok evs s l → is_Some (evs !! e) → e ∉ l → min_heap_erase evs s e = Ret (-1, evs, s).
Proof.
  intros H [v Hv] He. unfold min_heap_erase, ev_get. rewrite Hv. cbn [mbind outcome_bind].
  by rewrite (ok_out _ _ _ H e v Hv He), decide_False by (intros []; done).
Qed.

Lemma heap_get_top evs s l e : heap_ok evs s l → l !! 0%nat = Some e → heap_get s 0 = Ret e.
Proof. intros H He. apply (heap_get_ret s 0 0%nat); [done|]. by apply (rep_cells _ _ _ (ok_rep _ _ _ H)). Qed.

(** [min_heap_top] is a least element. *)
Lemma top_ok evs s l :
  heap_ok evs s l →
  min_heap_top s = Ret (head l) ∧ ∀ e q, head l = Some e → q ∈ l → tv_le (due evs e) (due evs q).
Proof.
  intros H. pose proof (rep_len _ _ _ (ok_rep _ _ _ H)) as Hn. unfold min_heap_top.
  destruct l as [|e l]; cbn in Hn; [by rewrite decide_True|]. rewrite decide_False by lia.
  rewrite (heap_get_top _ _ _ e H) by done. cbn. split; [done|].
  intros ? q [= <-] [i Hi]%list_elem_of_lookup. by eapply ordered_top; [apply H| |].
Qed.

Lemma min_heap_empty_ok evs s l : heap_ok evs s l → min_heap_empty s = bool_decide (l = []).
Proof.
  intros H. unfold min_heap_empty. rewrite (rep_len _ _ _ (ok_rep _ _ _ H)).
  destruct l; [done|]. rewrite !bool_decide_eq_false_2; [done|done|cbn; lia].
Qed.

(** [min_heap_pop] takes a least element out. *)
Lemma pop_ok evs s e l :
  heap_ok evs s (e :: l) →
  ∃ evs' s' l', min_heap_pop evs s = Ret (Some e, evs', s') ∧ heap_ok evs' s' l' ∧ l' ≡ₚ l ∧ idx_upd (e :: l) evs evs'.
Proof.
  intros H. pose proof (rep_len _ _ _ (ok_rep _ _ _ H)) as Hn. pose proof (rep_max _ _ _ (ok_rep _ _ _ H)) as Hm.
  unfold INT_MAX in Hm. unfold min_heap_pop. rewrite decide_True by (cbn in Hn; lia).
  rewrite (heap_get_top _ _ _ e H) by done. cbn [mbind outcome_bind].
  destruct (exists_last (l := e :: l)) as (l0 & z & El); [done|]. rewrite El in *.
  rewrite length_app in Hn. cbn in Hn. rewrite u32_small by lia.
  replace (n s - 1) with (Z.of_nat (length l0)) by lia.
  assert ((l0 ++ [z]) !! length l0 = Some z) as Hz by (by rewrite lookup_app_r, Nat.sub_diag).
  assert ((l0 ++ [z]) !! 0%nat = Some e) as He by (by rewrite <- El).
  cbn [n with_n].
  rewrite (heap_get_ret _ (Z.of_nat (length l0)) (length l0) z)
    by (done || by apply (rep_cells _ _ _ (ok_rep _ _ _ H))). cbn [mbind outcome_bind].
  assert (length l0 < heap_fuel (with_n s (Z.of_nat (length l0))))%nat as Hf by (unfold heap_fuel; cbn; lia).
  destruct (settled_remove evs s l0 z 0 e _ H He Hf) as (m & Hp & Hs); [lia|].
  assert (0 <= Z.of_nat (length l0) <= n s) as Hj by lia. change (Z.of_nat 0) with 0 in Hs.
  destruct (removed _ _ _ _ _ _ _ H Hp Hj Hs) as (evs1 & s1 & -> & evs2 & E2 & l' & Hok & Hp' & Hu & Ha).
  cbn [mbind outcome_bind fst snd]. rewrite E2. cbn [mbind outcome_bind].
  exists evs2, s1, l'. split_and!; [done|done| |done].
  rewrite Hp'. apply (Permutation_cons_inv (a := e)). by rewrite <- Hp, El.
Qed.

Lemma ctor_ok evs : (∀ e v, evs !! e = Some v → min_heap_idx v = -1) → heap_ok evs min_heap_ctor [].
Proof.
  intros H. split; [split; done|done|done|]. intros e v Hv _. by apply (H e).
Qed.

Section pushing.
Context {W : Type} `{!EvOs W}.
Implicit Types w : W.

(** [min_heap_reserve] makes room for [k] elements, or fails and changes nothing. *)
Lemma reserve_ok w evs s l k :
  heap_ok evs s l → 0 <= k <= INT_MAX →
  ∃ s' w', heap_ok evs s' l ∧ n s' = n s ∧
    (min_heap_reserve w s k = (0, s', w') ∧ k <= a s' ∨ min_heap_reserve w s k = (-1, s', w') ∧ s' = s ∧ a s < k ∧ ∃ m, (os_realloc w m).1 = false).
Proof.
  intros H Hk. pose proof (ok_cap _ _ _ H) as [Ha Hn]. unfold INT_MAX in Hk.
  unfold min_heap_reserve. destruct (decide (a s < k)) as [Hlt|Hge]; [|exists s, w; auto with lia].
  set (c := if decide (_ < k) then k else _).
  assert (k <= c < 2 ^ 32 ∧ a s <= c) as Hc.
  { subst c. case_decide as Hd; [lia|]. case_decide; [pose proof (u32_range (a s * 2))|]; lia. }
  destruct (os_realloc w (c * 8)) as [[|] w'] eqn:Eos; cbn [fst snd].
  2: { exists s, w'. split_and!; [done..|]. right. split_and!; [done..|]. exists (c * 8). by rewrite Eos. }
  eexists _, w'. split; [|split; [|left; split; [done|cbn; lia]]]; [|done].
  destruct H as [[R1 R2 R3 R4] Ho _ Hout]. split; cbn.
  - split; cbn; [done|done| |done]. intros i e He. apply lookup_app_l_Some. eauto.
  - done.
  - rewrite length_app, length_replicate. lia.
  - done.
Qed.

(** [min_heap_push], with room, and without. *)
Lemma push_ok w evs s l e :
  heap_ok evs s l → is_Some (evs !! e) → e ∉ l → n s < INT_MAX →
  ∃ evs' s' w', (min_heap_push w evs s e = Ret (-1, evs', s', w') ∧ evs' = evs ∧ s' = s ∧
       a s < n s + 1 ∧ ∃ m, (os_realloc w m).1 = false) ∨
    (min_heap_push w evs s e = Ret (0, evs', s', w') ∧
     ∃ l', heap_ok evs' s' l' ∧ l' ≡ₚ e :: l ∧ idx_upd (e :: l) evs evs').
Proof.
  intros H He Hl Hn. pose proof (rep_len _ _ _ (ok_rep _ _ _ H)) as Hlen. unfold INT_MAX in Hn.
  pose proof (ok_cap _ _ _ H) as [_ Hcap].
  unfold min_heap_push. rewrite u32_small by lia.
  destruct (reserve_ok w evs s l (n s + 1) H) as (s1 & w1 & H1 & N1 & E); [unfold INT_MAX; lia|].
  destruct E as [[-> Hc]|(E & -> & Ha & Hm)].
  2: { exists evs, s, w1. left. by rewrite E. }
  cbn [fst snd]. rewrite decide_False by (intros []; done). rewrite N1, u32_small by lia.
  replace (min_heap_shift_up_ (heap_fuel s1) evs (with_n s1 (n s + 1)) (n s) e) with
    (min_heap_shift_up_ (heap_fuel s1) evs (with_n s1 (n s + 1)) (Z.of_nat (length l)) e) by (by rewrite <- Hlen).
  destruct (shift_up_spec (due evs) (heap_fuel s1) evs (with_n s1 (n s + 1)) (l ++ [e]) (length l) e)
    as (evs2 & s2 & l2 & -> & Hr & Ho & Hp & Hu & (Sn & Sa & Sp)).
  - unfold heap_fuel. lia.
  - pose proof (ok_cap _ _ _ H1). destruct (ok_rep _ _ _ H1) as [R1 R2 R3 R4].
    assert (NoDup l) as Hnd by (by eapply rep_nodup, H).
    assert (∀ i q, i ≠ length l → (l ++ [e]) !! i = Some q → l !! i = Some q) as Hlk.
    { intros i q Hi Hq. rewrite lookup_app_l in Hq; [done|].
      apply lookup_lt_Some in Hq. rewrite length_app in Hq. cbn in Hq. lia. }
    split; cbn; [rewrite length_app; cbn; lia|unfold INT_MAX; lia|by rewrite lookup_app_r, Nat.sub_diag|done| | |eauto|eauto].
    + apply NoDup_app. split_and!; [done| |apply NoDup_singleton]. intros x Hx. by intros ->%list_elem_of_singleton.
    + rewrite length_app. cbn. lia.
  - apply keyed_due.
  - apply ordered_snoc_up, H.
  - cbn [mbind outcome_bind fst snd]. exists evs2, s2, w1. right. split; [done|]. exists l2.
    assert (l2 ≡ₚ e :: l) as Hp' by (rewrite Hp; solve_Permutation). split_and!; [|done|].
    + split; [done| | |].
      * eapply ordered_ext; [|done]. intros q. symmetry. by eapply idx_upd_due.
      * rewrite Sn, Sa, Sp. cbn. pose proof (ok_cap _ _ _ H1). lia.
      * intros q v Hq Hql. rewrite Hp in Hql. destruct (Hu q) as [F _]. rewrite F in Hq by done.
        apply (ok_out _ _ _ H) with q; [done|]. intros ?. apply Hql, elem_of_app. by left.
    + intros q. destruct (Hu q) as [F ?]. split; [|done]. intros Hq. apply F.
      rewrite elem_of_app, list_elem_of_singleton. rewrite not_elem_of_cons in Hq. naive_solver.
Qed.

(** With room there is no call of [realloc]. *)
Lemma reserve_room w s k : k <= a s → min_heap_reserve w s k = (0, s, w).
Proof. intros H. unfold min_heap_reserve. by rewrite decide_False by lia. Qed.

Lemma push_room w evs s e r evs' s' w' :
  0 <= n s < a s → a s < 2 ^ 32 → min_heap_push w evs s e = Ret (r, evs', s', w') → w' = w.
Proof.
  intros Hn Ha. unfold min_heap_push. rewrite u32_small by lia. rewrite reserve_room by lia.
  cbn [fst snd]. rewrite decide_False by (intros []; done).
  destruct (min_heap_shift_up_ _ _ _ _ _); cbn; naive_solver.
Qed.
End pushing.

(** * The heap is a priority queue *)

Inductive heap_op := Push (e : Z) | Pop | Erase (e : Z) | Top.
Inductive heap_reply := Code (r : Z) | Elem (e : option Z).

(** The queue holds the events of [l], in whatever order; [oom] says that memory may run out. *)
Inductive pq_step (k : Z → timeval) (oom : Prop) : list Z → heap_op → heap_reply → list Z → Prop :=
  | pq_push l e l' : e ∉ l → l' ≡ₚ e :: l → pq_step k oom l (Push e) (Code 0) l'
  | pq_push_fails l e : e ∉ l → oom → pq_step k oom l (Push e) (Code (-1)) l
  | pq_push_again l e : e ∈ l → pq_step k oom l (Push e) (Code 1) l
  | pq_erase l e l' : l ≡ₚ e :: l' → pq_step k oom l (Erase e) (Code 0) l'
  | pq_erase_absent l e : e ∉ l → pq_step k oom l (Erase e) (Code (-1)) l
  | pq_pop l e l' : l ≡ₚ e :: l' → (∀ q, q ∈ l → tv_le (k e) (k q)) → pq_step k oom l Pop (Elem (Some e)) l'
  | pq_pop_empty : pq_step k oom [] Pop (Elem None) []
  | pq_top l e : e ∈ l → (∀ q, q ∈ l → tv_le (k e) (k q)) → pq_step k oom l Top (Elem (Some e)) l
  | pq_top_empty : pq_step k oom [] Top (Elem None) [].

Inductive pq_run (k : Z → timeval) (oom : Prop) : list Z → list heap_op → list heap_reply → list Z → Prop :=
  | pq_done l : pq_run k oom l [] [] l
  | pq_next l o r l1 ops rs l2 :
      pq_step k oom l o r l1 → pq_run k oom l1 ops rs l2 → pq_run k oom l (o :: ops) (r :: rs) l2.

Lemma pq_run_ext k k' oom l ops rs l' :
  (∀ e, k e = k' e) → pq_run k oom l ops rs l' → pq_run k' oom l ops rs l'.
Proof.
  intros E. assert (∀ l o r l', pq_step k oom l o r l' → pq_step k' oom l o r l') as Hs.
  { intros l1 o r l2 []; constructor; try done; intros; rewrite <- !E; eauto. }
  induction 1; econstructor; eauto.
Qed.

Definition op_events (o : heap_op) : list Z := match o with Push e | Erase e => [e] | _ => [] end.

Section queue.
Context {W : Type} `{!EvOs W}.
Implicit Types w : W.

(** An event is pushed when it is not in the heap, as [event_queue_insert] does. *)
Definition heap_op_run (w : W) (evs : store) (s : min_heap) (o : heap_op) : outcome (heap_reply * (store * min_heap * W)) :=
  match o with
  | Push e =>
      v ← ev_get evs e;
      if decide (min_heap_idx v ≠ -1) then Ret (Code 1, (evs, s, w))
      else x ← min_heap_push w evs s e; Ret (Code x.1.1.1, (x.1.1.2, x.1.2, x.2))
  | Pop => x ← min_heap_pop evs s; Ret (Elem x.1.1, (x.1.2, x.2, w))
  | Erase e => x ← min_heap_erase evs s e; Ret (Code x.1.1, (x.1.2, x.2, w))
  | Top => t ← min_heap_top s; Ret (Elem t, (evs, s, w))
  end.

Fixpoint heap_run (w : W) (evs : store) (s : min_heap) (ops : list heap_op) : outcome (list heap_reply * (store * min_heap * W)) :=
  match ops with
  | [] => Ret ([], (evs, s, w))
  | o :: ops =>
      x ← heap_op_run w evs s o;
      y ← heap_run x.2.2 x.2.1.1 x.2.1.2 ops;
      Ret (x.1 :: y.1, y.2)
  end.

Lemma heap_size_strict evs s l e : heap_ok evs s l → is_Some (evs !! e) → e ∉ l → n s < Z.of_nat (size evs).
Proof.
  intros H He Hl. rewrite (rep_len _ _ _ (ok_rep _ _ _ H)).
  pose proof (rep_nodup _ _ _ (ok_rep _ _ _ H)) as Hnd.
  assert (size (list_to_set (e :: l) : gset Z) <= size (dom evs))%nat as Hs.
  { apply subseteq_size. intros q Hq. apply elem_of_dom.
    rewrite elem_of_list_to_set, elem_of_cons in Hq. destruct Hq as [->|[i Hi]%list_elem_of_lookup]; [done|].
    by destruct (rep_idx _ _ _ (ok_rep _ _ _ H) i q Hi) as (v & -> & _). }
  rewrite size_list_to_set, size_dom in Hs by (by constructor). cbn in Hs. lia.
Qed.

Lemma heap_member evs s l e v :
  heap_ok evs s l → evs !! e = Some v → min_heap_idx v = -1 ↔ e ∉ l.
Proof.
  intros H Hv. split; [|by apply H]. intros Hi [i He]%list_elem_of_lookup.
  destruct (rep_idx _ _ _ (ok_rep _ _ _ H) i e He) as (w & Hw & E). simplify_eq. lia.
Qed.

Lemma heap_op_ok w evs s l o :
  heap_ok evs s l → Z.of_nat (size evs) <= INT_MAX → (∀ e, e ∈ op_events o → is_Some (evs !! e)) →
  ∃ r evs' s' w' l', heap_op_run w evs s o = Ret (r, (evs', s', w')) ∧ heap_ok evs' s' l' ∧
    pq_step (due evs) (∃ w m, (os_realloc w m).1 = false) l o r l' ∧
    (∀ e, due evs' e = due evs e) ∧ dom evs' = dom evs.
Proof.
  intros H Hsz Hev.
  assert (∀ L evs', idx_upd L evs evs' → (∀ e, due evs' e = due evs e) ∧ dom evs' = dom evs) as Hupd.
  { intros L evs' Hu. split; [intros e; by eapply idx_upd_due|]. apply set_eq. intros e.
    rewrite !elem_of_dom. destruct (Hu e) as [_ [i ->]]. by rewrite fmap_is_Some. }
  destruct o as [e| |e|]; cbn [heap_op_run].
  - destruct (Hev e) as [v Hv]; [left|]. unfold ev_get. rewrite Hv. cbn [mbind outcome_bind].
    pose proof (heap_member _ _ _ _ _ H Hv) as Hm. case_decide as Hi.
    { exists (Code 1), evs, s, w, l. split_and!; [done..| |done|done]. constructor.
      destruct (decide (e ∈ l)); [done|]. naive_solver. }
    apply Hm in Hi. pose proof (heap_size_strict _ _ _ _ H (ex_intro _ v Hv) Hi).
    destruct (push_ok w evs s l e H) as (evs' & s' & w' & [(-> & -> & -> & _ & m & Hf)|(-> & l' & Hok & Hp & Hu)]);
      [done|done|lia| |]; cbn [mbind outcome_bind fst snd].
    + exists (Code (-1)), evs, s, w', l. split_and!; [done..| |done|done]. constructor; eauto.
    + exists (Code 0), evs', s', w', l'. split_and!; [done|done|by constructor|by eapply Hupd..].
  - destruct l as [|e l].
    + exists (Elem None), evs, s, w, []. unfold min_heap_pop.
      rewrite decide_False by (rewrite (rep_len _ _ _ (ok_rep _ _ _ H)); intros []; done).
      split_and!; [done..| |done|done]. constructor.
    + destruct (pop_ok _ _ _ _ H) as (evs' & s' & l' & -> & Hok & Hp & Hu). cbn [mbind outcome_bind fst snd].
      exists (Elem (Some e)), evs', s', w, l'. split_and!; [done|done| |by eapply Hupd..].
      constructor; [by rewrite Hp|]. intros q. by apply (top_ok _ _ _ H).
  - destruct (Hev e) as [v Hv]; [left|]. destruct (decide (e ∈ l)) as [He|He].
    + destruct (erase_ok _ _ _ _ H He) as (evs' & s' & l' & -> & Hok & Hp & Hu & _). cbn [mbind outcome_bind fst snd].
      exists (Code 0), evs', s', w, l'. split_and!; [done|done|by constructor|by eapply Hupd..].
    + rewrite (erase_absent _ _ l) by done. cbn [mbind outcome_bind fst snd].
      exists (Code (-1)), evs, s, w, l. split_and!; [done|done|by constructor|done..].
  - destruct (top_ok _ _ _ H) as [-> Hmin]. cbn [mbind outcome_bind].
    exists (Elem (head l)), evs, s, w, l. split_and!; [done|done| |done..].
    destruct l as [|e l]; cbn; constructor; [left|naive_solver].
Qed.

(** C16: The heap of timers behaves as a priority queue: on a heap that satisfies the invariant, any
    sequence of [min_heap_push], [min_heap_pop], [min_heap_erase] and [min_heap_top] ends, reads no
    cell that is outside of the array or was never written, keeps the invariant, and answers as a
    multiset of events does from which the one that is due first is taken; a push fails only when
    [realloc] does, and changes nothing then. *)
Theorem heap_refines ops w evs s l :
  heap_ok evs s l → Z.of_nat (size evs) <= INT_MAX → (∀ o e, o ∈ ops → e ∈ op_events o → is_Some (evs !! e)) →
  ∃ rs evs' s' w' l', heap_run w evs s ops = Ret (rs, (evs', s', w')) ∧ heap_ok evs' s' l' ∧
    pq_run (due evs) (∃ w m, (os_realloc w m).1 = false) l ops rs l'.
Proof.
  revert w evs s l. induction ops as [|o ops IH]; intros w evs s l H Hsz Hev.
  { exists [], evs, s, w, l. split_and!; [done..|constructor]. }
  destruct (heap_op_ok w evs s l o H Hsz) as (r & evs1 & s1 & w1 & l1 & E & H1 & St & Hd & Hdom).
  { intros e. apply Hev. left. }
  cbn [heap_run]. rewrite E. cbn [mbind outcome_bind fst snd].
  destruct (IH w1 evs1 s1 l1 H1) as (rs & evs2 & s2 & w2 & l2 & -> & H2 & Run).
  - by rewrite <- size_dom, Hdom, size_dom.
  - intros o' e Ho He. apply elem_of_dom. rewrite Hdom. apply elem_of_dom. apply (Hev o'); [by right|done].
  - cbn [mbind outcome_bind fst snd]. exists (r :: rs), evs2, s2, w2, l2. split_and!; [done|done|].
    eapply pq_next; [done|]. by eapply pq_run_ext.
Qed.
End queue.

(** * An example *)

(** Memory that never runs out; a clock that stands still; no descriptor is ready. *)
#[local] Instance demo_os : EvOs unit := {|
  use_monotonic := true;
  os_realloc w _ := (true, w);
  clock_gettime w := (Some (1, 0), w);
  gettimeofday w := (Some {| tv_sec := 1; tv_usec := 0 |}, w);
  epoll_ctl w _ _ _ := (0, w);
  epoll_wait w _ _ := (inr [], w)
|}.

Definition demo_event (s us : Z) : event := {|
  ev_base := true; ev_fd := -1; ev_events := EV_TIMEOUT; ev_flags := EVLIST_INIT; ev_res := 0; ev_ncalls := 0;
  ev_pncalls := false; ev_pri := 0; ev_closure := EV_CLOSURE_NONE; ev_callback := UserCb 0; ev_arg := 0;
  ev_timeout := {| tv_sec := s; tv_usec := us |}; ev_io_timeout := evutil_timerclear; min_heap_idx := -1 |}.

Definition demo_events : store :=
  list_to_map [(10, demo_event 5 0); (11, demo_event 3 500); (12, demo_event 3 20); (13, demo_event 9 0)].

Definition demo_ops : list heap_op :=
  [Push 10; Push 11; Push 13; Push 12; Push 11; Top; Erase 10; Erase 10; Pop; Pop; Pop; Pop].

Definition heap_replies (x : outcome (list heap_reply * (store * min_heap * unit))) : list heap_reply :=
  match x with Ret (rs, _) => rs | _ => [] end.

Lemma heap_refines_witness :
  heap_replies (heap_run () demo_events min_heap_ctor demo_ops) =
    [Code 0; Code 0; Code 0; Code 0; Code 1; Elem (Some 12); Code 0; Code (-1);
     Elem (Some 12); Elem (Some 11); Elem (Some 13); Elem None] ∧
  ∃ rs evs' s' w' l', heap_run () demo_events min_heap_ctor demo_ops = Ret (rs, (evs', s', w')) ∧
    heap_ok evs' s' l' ∧ pq_run (due demo_events) (∃ w m, (os_realloc w m).1 = false) [] demo_ops rs l'.
Proof.
  split; [vm_compute; reflexivity|].
  apply (heap_refines demo_ops () demo_events min_heap_ctor []).
  - apply ctor_ok. intros e v Hv.
    assert (map_Forall (λ _ v, min_heap_idx v = -1) demo_events) as Hd
      by (apply (bool_decide_unpack _); vm_compute; exact I).
    by apply (Hd e).
  - vm_compute. discriminate.
  - assert (Forall (λ o, Forall (λ e, is_Some (demo_events !! e)) (op_events o)) demo_ops) as Hd
      by (repeat constructor; vm_compute; eauto).
    intros o e Ho He. rewrite Forall_forall in Hd. specialize (Hd o Ho). rewrite Forall_forall in Hd. by apply Hd.
Defined.
