(* ===== verification/Epoll.v ===== *)
(** How libevent tells the kernel what to watch: [src/deps/libevent2/epoll.c] and the map from
    descriptors to events of [evmap.c].

    [interest] is the kernel's list: for a descriptor, the events it is watched for.  The main lemmas
    say that an entry of the map and the kernel's list stay in step. *)
From S2P Require Import Prelude Evbuffer EventData.

Definition ENOENT : Z := 2.
Definition EPERM : Z := 1.
Definition EBADF : Z := 9.
Definition EEXIST : Z := 17.

Definition EPOLLIN : Z := 1.
Definition EPOLLOUT : Z := 4.
Definition EPOLLERR : Z := 8.
Definition EPOLLHUP : Z := 16.
Definition EPOLLET : Z := 2 ^ 31.
Definition EPOLL_CTL_ADD : Z := 1.
Definition EPOLL_CTL_DEL : Z := 2.
Definition EPOLL_CTL_MOD : Z := 3.

Definition EV_CHANGE_ADD : Z := 1.
Definition EV_CHANGE_DEL : Z := 2.

Record event_change := { ch_fd : Z; old_events : Z; read_change : Z; write_change : Z }.

(** * [epoll_apply_one_change] *)

(** The operation to try, and the events. *)
Definition change_op (ch : event_change) : Z * Z :=
  let rc := read_change ch in
  let wc := write_change ch in
  let old := old_events ch in
  if has rc EV_CHANGE_ADD || has wc EV_CHANGE_ADD then
    let e := if has rc EV_CHANGE_ADD then EPOLLIN else if has rc EV_CHANGE_DEL then 0
             else if has old EV_READ then EPOLLIN else 0 in
    let e := Z.lor e (if has wc EV_CHANGE_ADD then EPOLLOUT else if has wc EV_CHANGE_DEL then 0
                      else if has old EV_WRITE then EPOLLOUT else 0) in
    let e := if has (Z.lor rc wc) EV_ET then Z.lor e EPOLLET else e in
    (if negb (old =? 0) then EPOLL_CTL_MOD else EPOLL_CTL_ADD, e)
  else if has rc EV_CHANGE_DEL then
    if has wc EV_CHANGE_DEL then (EPOLL_CTL_DEL, Z.lor EPOLLIN EPOLLOUT)
    else if has old EV_WRITE then (EPOLL_CTL_MOD, EPOLLOUT)
    else (EPOLL_CTL_DEL, EPOLLIN)
  else if has wc EV_CHANGE_DEL then
    if has old EV_READ then (EPOLL_CTL_MOD, EPOLLIN) else (EPOLL_CTL_DEL, EPOLLOUT)
  else (0, 0).

Section epoll.
Context {W : Type} `{!EvOs W}.

(** 0, or -1 when the kernel refuses. *)
Definition epoll_apply_one_change (w : W) (ch : event_change) : Z * W :=
  let '(op, events) := change_op ch in
  if events =? 0 then (0, w)
  else
    let r := epoll_ctl w op (ch_fd ch) events in
    if r.1 =? 0 then (0, r.2)
    else if (op =? EPOLL_CTL_MOD) && (r.1 =? ENOENT) then
      let r := epoll_ctl r.2 EPOLL_CTL_ADD (ch_fd ch) events in
      (if r.1 =? 0 then 0 else -1, r.2)
    else if (op =? EPOLL_CTL_ADD) && (r.1 =? EEXIST) then
      let r := epoll_ctl r.2 EPOLL_CTL_MOD (ch_fd ch) events in
      (if r.1 =? 0 then 0 else -1, r.2)
    else if (op =? EPOLL_CTL_DEL) && ((r.1 =? ENOENT) || (r.1 =? EBADF) || (r.1 =? EPERM)) then (0, r.2)
    else (-1, r.2).

Definition epoll_nochangelist_add (w : W) (fd old events : Z) : Z * W :=
  epoll_apply_one_change w {|
    ch_fd := fd; old_events := old;
    write_change := if has events EV_WRITE then Z.lor EV_CHANGE_ADD (Z.land events EV_ET) else 0;
    read_change := if has events EV_READ then Z.lor EV_CHANGE_ADD (Z.land events EV_ET) else 0 |}.

Definition epoll_nochangelist_del (w : W) (fd old events : Z) : Z * W :=
  epoll_apply_one_change w {|
    ch_fd := fd; old_events := old;
    write_change := if has events EV_WRITE then EV_CHANGE_DEL else 0;
    read_change := if has events EV_READ then EV_CHANGE_DEL else 0 |}.

(** What [epoll_dispatch] makes of an event the kernel reports. *)
Definition epoll_what (what : Z) : Z :=
  if has what (Z.lor EPOLLHUP EPOLLERR) then Z.lor EV_READ EV_WRITE
  else Z.lor (if has what EPOLLIN then EV_READ else 0) (if has what EPOLLOUT then EV_WRITE else 0).
End epoll.

(** * The map of descriptors *)

(** [TAILQ_REMOVE]: unlinking what is not linked writes through stale pointers. *)
Definition tailq_remove (e : Z) (l : list Z) : outcome (list Z) :=
  if decide (e ∈ l) then Ret (filter (λ x, x ≠ e) l) else Undef OutOfBounds.

(** An entry: the events on a descriptor, and how many want to read and write. *)
Record evmap_io := { io_events : list Z; nread : Z; nwrite : Z }.

(** [entries], whose length is [nentries]; [None] is [NULL]. *)
Abbreviation io_map := (list (option evmap_io)).

Definition evmap_io_init : evmap_io := {| io_events := []; nread := 0; nwrite := 0 |}.

(** [while (nentries <= slot) nentries <<= 1] on an [int]. *)
Fixpoint grow_loop (fuel : nat) (nentries slot : Z) : outcome Z :=
  match fuel with
  | O => NoFuel
  | S fuel =>
      if decide (nentries <= slot) then
        if decide (is_int (nentries * 2)) then grow_loop fuel (nentries * 2) slot else Undef IntOverflow
      else Ret nentries
  end.

Section evmap.
Context {W : Type} `{!EvOs W}.

(** Room for [slot] in a map of pointers; the doubling takes at most 31 turns. *)
Definition evmap_make_space {A} (w : W) (m : list (option A)) (slot : Z) : outcome (Z * list (option A) * W) :=
  let n := Z.of_nat (length m) in
  if decide (n <= slot) then
    k ← grow_loop 32 (if decide (n ≠ 0) then n else 32) slot;
    if decide (¬ is_int (k * 8)) then Undef IntOverflow else
    let r := os_realloc w (k * 8) in
    if r.1 then Ret (0, m ++ replicate (Z.to_nat k - length m) None, r.2) else Ret (-1, m, r.2)
  else Ret (0, m, w).

(** [GET_IO_SLOT_AND_CTOR]; [None] when there is no memory. *)
Definition io_slot_ctor (w : W) (m : io_map) (fd : Z) : outcome (option evmap_io * io_map * W) :=
  match m !! Z.to_nat fd with
  | None => Undef OutOfBounds
  | Some (Some ctx) => Ret (Some ctx, m, w)
  | Some None =>
      let r := os_realloc w 24 in
      if r.1 then Ret (Some evmap_io_init, <[Z.to_nat fd := Some evmap_io_init]> m, r.2) else Ret (None, m, r.2)
  end.

Definition old_of (nr nw : Z) : Z :=
  Z.lor (if nr =? 0 then 0 else EV_READ) (if nw =? 0 then 0 else EV_WRITE).

(** The map becomes ready for another event [e], whose [ev_events] are [want], on the entry [ctx]. *)
Definition evmap_io_join (w : W) (m : io_map) (fd e want : Z) (ctx : evmap_io) : outcome (Z * io_map * W) :=
  let nr := if has want EV_READ then nread ctx + 1 else nread ctx in
  let nw := if has want EV_WRITE then nwrite ctx + 1 else nwrite ctx in
  let old := old_of (nread ctx) (nwrite ctx) in
  let res := Z.lor (if has want EV_READ && (nr =? 1) then EV_READ else 0)
                   (if has want EV_WRITE && (nw =? 1) then EV_WRITE else 0) in
  if decide (65535 < nr ∨ 65535 < nw) then Ret (-1, m, w)
  else
    let joined w r :=
      Ret (r, <[Z.to_nat fd := Some {| io_events := io_events ctx ++ [e]; nread := u16 nr; nwrite := u16 nw |}]> m, w) in
    if res =? 0 then joined w 0
    else
      let r := epoll_nochangelist_add w fd old (Z.lor (Z.land want EV_ET) res) in
      if r.1 =? -1 then Ret (-1, m, r.2) else joined r.2 1.

Definition evmap_io_add (w : W) (m : io_map) (fd e want : Z) : outcome (Z * io_map * W) :=
  if decide (fd < 0) then Ret (0, m, w)
  else
    s ← evmap_make_space w m fd;
    if decide (s.1.1 = -1) then Ret (-1, s.1.2, s.2)
    else
      c ← io_slot_ctor s.2 s.1.2 fd;
      match c.1.1 with
      | None => Ret (-1, c.1.2, c.2)
      | Some ctx => evmap_io_join c.2 c.1.2 fd e want ctx
      end.


Definition evmap_io_del (w : W) (m : io_map) (fd e want : Z) : outcome (Z * io_map * W) :=
  if decide (fd < 0) then Ret (0, m, w)
  else if decide (Z.of_nat (length m) <= fd) then Ret (-1, m, w)
  else
    match m !! Z.to_nat fd with
    | Some (Some ctx) =>
        let nr := if has want EV_READ then nread ctx - 1 else nread ctx in
        let nw := if has want EV_WRITE then nwrite ctx - 1 else nwrite ctx in
        let old := old_of (nread ctx) (nwrite ctx) in
        let res := Z.lor (if has want EV_READ && (nr =? 0) then EV_READ else 0)
                         (if has want EV_WRITE && (nw =? 0) then EV_WRITE else 0) in
        _ ← EVUTIL_ASSERT (bool_decide (0 <= nr) && bool_decide (0 <= nw));
        let left w r :=
          l ← tailq_remove e (io_events ctx);
          Ret (r, <[Z.to_nat fd := Some {| io_events := l; nread := u16 nr; nwrite := u16 nw |}]> m, w) in
        if res =? 0 then left w 0
        else
          let r := epoll_nochangelist_del w fd old res in
          if r.1 =? -1 then Ret (-1, m, r.2) else left r.2 1
    | _ => Undef NullPointer
    end.

(** * Signals *)

Definition evmap_signal_init : list Z := [].

(** [evsig_add] and [evsig_del] of signal.c stand for [base->evsigsel]. *)
Class Evsig := { evsig_add : W → Z → Z * W; evsig_del : W → Z → Z * W }.
Context `{!Evsig}.

Definition evmap_signal_add (w : W) (m : list (option (list Z))) (sig e : Z) : outcome (Z * list (option (list Z)) * W) :=
  s ← evmap_make_space w m sig;
  if decide (s.1.1 = -1) then Ret (-1, s.1.2, s.2)
  else
    match s.1.2 !! Z.to_nat sig with
    | None => Undef OutOfBounds
    | Some c =>
        let r := match c with Some l => (true, s.2) | None => os_realloc s.2 16 end in
        if negb r.1 then Ret (-1, s.1.2, r.2)
        else
          let l := default evmap_signal_init c in
          let m := <[Z.to_nat sig := Some l]> s.1.2 in
          let x := match l with [] => evsig_add r.2 sig | _ => (0, r.2) end in
          if decide (x.1 = -1) then Ret (-1, m, x.2)
          else Ret (1, <[Z.to_nat sig := Some (l ++ [e])]> m, x.2)
    end.

Definition evmap_signal_del (w : W) (m : list (option (list Z))) (sig e : Z) : outcome (Z * list (option (list Z)) * W) :=
  if decide (Z.of_nat (length m) <= sig) then Ret (-1, m, w)
  else
    match m !! Z.to_nat sig with
    | Some (Some l) =>
        let x := if decide (head l = last l) then evsig_del w sig else (0, w) in
        if decide (x.1 = -1) then Ret (-1, m, x.2)
        else l ← tailq_remove e l; Ret (1, <[Z.to_nat sig := Some l]> m, x.2)
    | _ => Undef NullPointer
    end.
End evmap.
Arguments Evsig W : clear implicits.

(** * The kernel's list *)

(** [interest] is the list of the base's epoll descriptor; an operation does what [epoll_ctl(2)] says
    or fails and does nothing.  What is waited for is reported, with errors and hang-ups. *)
Class EpollOk (W : Type) `{!EvOs W} := {
  interest : W → gmap Z Z;
  ctl_done w op fd ev :
    (epoll_ctl w op fd ev).1 = 0 →
    op = EPOLL_CTL_ADD ∧ interest w !! fd = None ∧ interest (epoll_ctl w op fd ev).2 = <[fd := ev]> (interest w) ∨
    op = EPOLL_CTL_MOD ∧ is_Some (interest w !! fd) ∧ interest (epoll_ctl w op fd ev).2 = <[fd := ev]> (interest w) ∨
    op = EPOLL_CTL_DEL ∧ is_Some (interest w !! fd) ∧ interest (epoll_ctl w op fd ev).2 = delete fd (interest w);
  ctl_fails w op fd ev : (epoll_ctl w op fd ev).1 ≠ 0 → interest (epoll_ctl w op fd ev).2 = interest w;
  ctl_del_absent w fd ev :
    is_Some (interest w !! fd) → (epoll_ctl w EPOLL_CTL_DEL fd ev).1 ∉ [ENOENT; EBADF; EPERM];
  realloc_interest w k : interest (os_realloc w k).2 = interest w;
  clock_interest w : interest (clock_gettime w).2 = interest w;
  timeofday_interest w : interest (gettimeofday w).2 = interest w;
  wait_interest w k t : interest (epoll_wait w k t).2 = interest w;
  wait_reports w k t l : (epoll_wait w k t).1 = inr l →
    Z.of_nat (length l) <= k ∧
    ∀ fd what, (fd, what) ∈ l → ∃ m, interest w !! fd = Some m ∧
      Z.land what (Z.lnot (Z.lor m (Z.lor EPOLLERR EPOLLHUP))) = 0
}.

(** The kernel's view of the set [old] of [EV_READ] and [EV_WRITE]. *)
Definition io_mask (old : Z) : option Z :=
  if old =? 0 then None
  else Some (Z.lor (if has old EV_READ then EPOLLIN else 0) (if has old EV_WRITE then EPOLLOUT else 0)).

(** A set of [EV_READ] and [EV_WRITE]. *)
Definition rw_set (z : Z) : Prop := z ∈ [0; 2; 4; 6].

Section kernel.
Context {W : Type} `{!EvOs W, !EpollOk W}.
Implicit Types w : W.

(** An operation that takes interest off an entry the kernel has: it deletes it, or leaves it no more
    events than it had. *)
Definition takes_off (w : W) (op fd ev : Z) : Prop :=
  ∃ m, interest w !! fd = Some m ∧ (op = EPOLL_CTL_DEL ∨ op = EPOLL_CTL_MOD ∧ Z.land ev (Z.lnot m) = 0).

(** The kernel refuses to take interest off. *)
Definition refused (w : W) (fd : Z) : Prop := ∃ op ev, takes_off w op fd ev ∧ (epoll_ctl w op fd ev).1 ≠ 0.

(** What a change with the operation [op] and the events [ev] leads to, from a kernel in step. *)
Lemma change_add w fd ev ch :
  change_op ch = (EPOLL_CTL_ADD, ev) → ev ≠ 0 → ch_fd ch = fd → interest w !! fd = None →
  (epoll_apply_one_change w ch).1 = 0 ∧ interest (epoll_apply_one_change w ch).2 = <[fd := ev]> (interest w) ∨
  (epoll_apply_one_change w ch).1 = -1 ∧ interest (epoll_apply_one_change w ch).2 = interest w.
Proof.
  intros E Hev <- Hi. unfold epoll_apply_one_change. rewrite E, (proj2 (Z.eqb_neq ev 0) Hev).
  pose proof (ctl_done w EPOLL_CTL_ADD (ch_fd ch) ev) as Hd. pose proof (ctl_fails w EPOLL_CTL_ADD (ch_fd ch) ev) as Hf.
  destruct (epoll_ctl w EPOLL_CTL_ADD (ch_fd ch) ev) as [r w1]. cbn [fst snd] in *.
  destruct (Z.eqb_spec r 0) as [->|Hr]; [left|right]; cbn.
  { destruct (Hd eq_refl) as [(_ & _ & ?)|[(? & _)|(? & _)]]; done. }
  specialize (Hf Hr). destruct (Z.eqb_spec r EEXIST); [|done]. cbn.
  pose proof (ctl_done w1 EPOLL_CTL_MOD (ch_fd ch) ev) as Hd2. pose proof (ctl_fails w1 EPOLL_CTL_MOD (ch_fd ch) ev) as Hf2.
  rewrite Hf in *. destruct (Z.eqb_spec (epoll_ctl w1 EPOLL_CTL_MOD (ch_fd ch) ev).1 0) as [E0|E0]; [|auto].
  destruct (Hd2 E0) as [(? & _)|[(_ & [? Hs] & _)|(? & _)]]; [done|congruence|done].
Qed.

Lemma change_mod w fd ev ch :
  change_op ch = (EPOLL_CTL_MOD, ev) → ev ≠ 0 → ch_fd ch = fd → is_Some (interest w !! fd) →
  (epoll_apply_one_change w ch).1 = 0 ∧ interest (epoll_apply_one_change w ch).2 = <[fd := ev]> (interest w) ∨
  (epoll_apply_one_change w ch).1 = -1 ∧ interest (epoll_apply_one_change w ch).2 = interest w ∧
    (epoll_ctl w EPOLL_CTL_MOD fd ev).1 ≠ 0.
Proof.
  intros E Hev <- Hi. unfold epoll_apply_one_change. rewrite E, (proj2 (Z.eqb_neq ev 0) Hev).
  pose proof (ctl_done w EPOLL_CTL_MOD (ch_fd ch) ev) as Hd. pose proof (ctl_fails w EPOLL_CTL_MOD (ch_fd ch) ev) as Hf.
  destruct (epoll_ctl w EPOLL_CTL_MOD (ch_fd ch) ev) as [r w1]. cbn [fst snd] in *.
  destruct (Z.eqb_spec r 0) as [->|Hr]; [left|right]; cbn.
  { destruct (Hd eq_refl) as [(? & _)|[(_ & _ & ?)|(? & _)]]; done. }
  specialize (Hf Hr). destruct (Z.eqb_spec r ENOENT); [|done]. cbn.
  pose proof (ctl_done w1 EPOLL_CTL_ADD (ch_fd ch) ev) as Hd2. pose proof (ctl_fails w1 EPOLL_CTL_ADD (ch_fd ch) ev) as Hf2.
  rewrite Hf in *. destruct (Z.eqb_spec (epoll_ctl w1 EPOLL_CTL_ADD (ch_fd ch) ev).1 0) as [E0|E0]; [|auto].
  destruct Hi as [? Hi]. destruct (Hd2 E0) as [(_ & Hn & _)|[(? & _)|(? & _)]]; [congruence|done|done].
Qed.

Lemma change_del w fd ev ch :
  change_op ch = (EPOLL_CTL_DEL, ev) → ev ≠ 0 → ch_fd ch = fd → is_Some (interest w !! fd) →
  (epoll_apply_one_change w ch).1 = 0 ∧ interest (epoll_apply_one_change w ch).2 = delete fd (interest w) ∨
  (epoll_apply_one_change w ch).1 = -1 ∧ interest (epoll_apply_one_change w ch).2 = interest w ∧ refused w fd.
Proof.
  intros E Hev <- Hi. unfold epoll_apply_one_change. rewrite E, (proj2 (Z.eqb_neq ev 0) Hev).
  pose proof (ctl_done w EPOLL_CTL_DEL (ch_fd ch) ev) as Hd. pose proof (ctl_fails w EPOLL_CTL_DEL (ch_fd ch) ev) as Hf.
  pose proof (ctl_del_absent w (ch_fd ch) ev Hi) as Ha.
  assert ((epoll_ctl w EPOLL_CTL_DEL (ch_fd ch) ev).1 ≠ 0 → refused w (ch_fd ch)) as Href.
  { intros Hr. destruct Hi as [m Hm]. exists EPOLL_CTL_DEL, ev. split; [|done]. exists m. auto. }
  destruct (epoll_ctl w EPOLL_CTL_DEL (ch_fd ch) ev) as [r w1]. cbn [fst snd] in *.
  destruct (Z.eqb_spec r 0) as [->|Hr]; [left|right]; cbn.
  { destruct (Hd eq_refl) as [(? & _)|[(? & _)|(_ & _ & ?)]]; done. }
  specialize (Hf Hr). specialize (Href Hr). rewrite !not_elem_of_cons in Ha. destruct Ha as (H1 & H2 & H3 & _).
  rewrite (proj2 (Z.eqb_neq _ _) H1), (proj2 (Z.eqb_neq _ _) H2), (proj2 (Z.eqb_neq _ _) H3). done.
Qed.

(** In the kernel's list, only [fd] changes, to the set [new]. *)
Definition watched (w w' : W) (fd new : Z) : Prop :=
  ∀ fd', interest w' !! fd' = if decide (fd' = fd) then io_mask new else interest w !! fd'.

Lemma watched_insert w w' fd new ev :
  interest w' = <[fd := ev]> (interest w) → io_mask new = Some ev → watched w w' fd new.
Proof.
  intros E Hm fd'. rewrite E. case_decide as Hfd; [subst|].
  - by rewrite lookup_insert_eq, Hm.
  - by rewrite lookup_insert_ne by congruence.
Qed.

Lemma watched_delete w w' fd : interest w' = delete fd (interest w) → watched w w' fd 0.
Proof.
  intros E fd'. rewrite E. case_decide as Hfd; [subst|].
  - by rewrite lookup_delete_eq.
  - by rewrite lookup_delete_ne by congruence.
Qed.

Lemma nochangelist_add_ok w fd old ev :
  rw_set old → rw_set ev → ev ≠ 0 → interest w !! fd = io_mask old →
  let r := epoll_nochangelist_add w fd old ev in
  r.1 = 0 ∧ watched w r.2 fd (Z.lor old ev) ∨ r.1 = -1 ∧ interest r.2 = interest w.
Proof.
  intros Ho He Hne Hi. unfold epoll_nochangelist_add. set (ch := {| ch_fd := fd |}). cbn zeta.
  assert (∃ m, io_mask (Z.lor old ev) = Some m ∧ m ≠ 0 ∧
    change_op ch = (if old =? 0 then EPOLL_CTL_ADD else EPOLL_CTL_MOD, m)) as (m & Hm & Hm0 & Hop).
  { unfold rw_set in *. rewrite !elem_of_cons in Ho, He.
    destruct Ho as [->|[->|[->|[->|[]%elem_of_nil]]]], He as [->|[->|[->|[->|[]%elem_of_nil]]]]; try done;
      eexists; (split; [reflexivity|split; [done|reflexivity]]). }
  destruct (Z.eqb_spec old 0) as [->|H0].
  - destruct (change_add w fd m ch Hop Hm0 eq_refl Hi) as [[? E]|?]; [left|by right].
    split; [done|]. by eapply watched_insert.
  - assert (is_Some (interest w !! fd)) as Hs.
    { rewrite Hi. unfold io_mask. by rewrite (proj2 (Z.eqb_neq _ _) H0). }
    destruct (change_mod w fd m ch Hop Hm0 eq_refl Hs) as [[? E]|(? & ? & _)]; [left|by right].
    split; [done|]. by eapply watched_insert.
Qed.

Lemma nochangelist_del_ok w fd old ev :
  rw_set old → rw_set ev → ev ≠ 0 → Z.land ev (Z.lnot old) = 0 → interest w !! fd = io_mask old →
  let r := epoll_nochangelist_del w fd old ev in
  r.1 = 0 ∧ watched w r.2 fd (Z.land old (Z.lnot ev)) ∨ r.1 = -1 ∧ interest r.2 = interest w ∧ refused w fd.
Proof.
  intros Ho He Hne Hsub Hi. unfold epoll_nochangelist_del. set (ch := {| ch_fd := fd |}). cbn zeta.
  assert (is_Some (interest w !! fd) ∧ ∃ m, m ≠ 0 ∧
    ((Z.land old (Z.lnot ev) = 0 ∧ change_op ch = (EPOLL_CTL_DEL, m)) ∨
     (io_mask (Z.land old (Z.lnot ev)) = Some m ∧ change_op ch = (EPOLL_CTL_MOD, m) ∧
      ∃ m0, io_mask old = Some m0 ∧ Z.land m (Z.lnot m0) = 0))) as (Hs & m & Hm0 & Hop).
  { rewrite Hi. unfold rw_set in *. rewrite !elem_of_cons in Ho, He.
    destruct Ho as [->|[->|[->|[->|[]%elem_of_nil]]]], He as [->|[->|[->|[->|[]%elem_of_nil]]]]; try done;
      (split; [done|]); eexists;
      (split; [|first [left; split; reflexivity|right; split; [reflexivity|split; [reflexivity|eexists; split; reflexivity]]]]); done. }
  destruct Hop as [[E0 Hop]|(Hm & Hop & m0 & Hm1 & Hsub')].
  - destruct (change_del w fd m ch Hop Hm0 eq_refl Hs) as [[? E]|?]; [left|by right].
    split; [done|]. rewrite E0. by apply watched_delete.
  - destruct (change_mod w fd m ch Hop Hm0 eq_refl Hs) as [[? E]|(? & ? & Hr)]; [left|right].
    + split; [done|]. by eapply watched_insert.
    + split; [done|]. split; [done|]. exists EPOLL_CTL_MOD, m. split; [|done]. exists m0. rewrite Hi. auto.
Qed.
End kernel.

(** * The map's invariant *)

(** The events on a descriptor. *)
Definition io_on (m : io_map) (fd : Z) : list Z :=
  match m !! Z.to_nat fd with Some (Some c) => io_events c | _ => [] end.

(** How many of the events [l] want [q]; [want] gives their [ev_events]. *)
Definition wanting (want : Z → Z) (q : Z) (l : list Z) : Z :=
  Z.of_nat (length (filter (λ e, has (want e) q = true) l)).

Definition io_old (want : Z → Z) (l : list Z) : Z := old_of (wanting want EV_READ l) (wanting want EV_WRITE l).

Definition entry_ok (want : Z → Z) (c : evmap_io) : Prop :=
  NoDup (io_events c) ∧ nread c = wanting want EV_READ (io_events c) ∧ nwrite c = wanting want EV_WRITE (io_events c) ∧
  nread c <= 65535 ∧ nwrite c <= 65535.

(** The counters count, and the kernel watches a descriptor for what its events want. *)
Record io_ok {W} `{!EvOs W, !EpollOk W} (want : Z → Z) (w : W) (m : io_map) : Prop := {
  io_entry fd c : m !! fd = Some (Some c) → entry_ok want c;
  io_kernel fd : 0 <= fd → interest w !! fd = io_mask (io_old want (io_on m fd))
}.

(** The descriptors that [evmap_make_space] has room for: the map's size in bytes is an [int]. *)
Definition FD_LIMIT : Z := 2 ^ 26.

Lemma grow_loop_S fuel k slot :
  grow_loop (S fuel) k slot =
  if decide (k <= slot) then if decide (is_int (k * 2)) then grow_loop fuel (k * 2) slot else Undef IntOverflow
  else Ret k.
Proof. done. Qed.

Lemma grow_loop_ok fuel k slot :
  0 < k → slot < k * 2 ^ Z.of_nat fuel → slot < FD_LIMIT →
  ∃ k', grow_loop (S fuel) k slot = Ret k' ∧ slot < k' ∧ k <= k' <= Z.max k (2 * FD_LIMIT).
Proof.
  unfold FD_LIMIT. revert k. induction fuel as [|fuel IH]; intros k Hk Hs Hl; rewrite grow_loop_S.
  { rewrite decide_False by (cbn in Hs; lia). exists k. split; [done|]. cbn in Hs. lia. }
  rewrite Nat2Z.inj_succ, Z.pow_succ_r in Hs by lia.
  destruct (decide (k <= slot)) as [Hle|Hgt]; [|exists k; split; [done|lia]].
  rewrite decide_True by (unfold is_int, INT_MIN, INT_MAX; lia).
  destruct (IH (k * 2)) as (k' & -> & ? & ?); [lia|lia|done|]. exists k'. split; [done|]. lia.
Qed.

Lemma wanting_snoc want q l e : wanting want q (l ++ [e]) = wanting want q l + (if has (want e) q then 1 else 0).
Proof.
  unfold wanting. rewrite filter_app, length_app. destruct (has (want e) q) eqn:E.
  - rewrite (filter_cons_True _ _ []) by done. cbn. lia.
  - rewrite (filter_cons_False _ _ []) by (rewrite E; done). cbn. lia.
Qed.

Lemma wanting_cons want q l e : wanting want q (e :: l) = wanting want q l + (if has (want e) q then 1 else 0).
Proof.
  unfold wanting. destruct (has (want e) q) eqn:E.
  - rewrite filter_cons_True by done. cbn. lia.
  - rewrite filter_cons_False by (rewrite E; done). cbn. lia.
Qed.

Lemma wanting_perm want q l l' : l ≡ₚ l' → wanting want q l = wanting want q l'.
Proof. intros H. unfold wanting. by rewrite H. Qed.

Lemma wanting_nonneg want q l : 0 <= wanting want q l.
Proof. unfold wanting. lia. Qed.

Lemma remove_perm (e : Z) l : NoDup l → e ∈ l → l ≡ₚ e :: filter (λ x, x ≠ e) l.
Proof.
  intros Hnd He. apply NoDup_Permutation; [done| |].
  - constructor; [rewrite list_elem_of_filter; naive_solver|by apply NoDup_filter].
  - intros x. rewrite elem_of_cons, list_elem_of_filter. destruct (decide (x = e)); naive_solver.
Qed.

Lemma tailq_remove_ok e l : e ∈ l → tailq_remove e l = Ret (filter (λ x, x ≠ e) l).
Proof. intros H. unfold tailq_remove. by rewrite decide_True. Qed.

Lemma old_of_rw x y : rw_set (old_of x y).
Proof. unfold rw_set, old_of. repeat case_match; cbn; set_solver. Qed.

Lemma io_on_insert m fd c fd' :
  0 <= fd → 0 <= fd' → (Z.to_nat fd < length m)%nat →
  io_on (<[Z.to_nat fd := Some c]> m) fd' = if decide (fd' = fd) then io_events c else io_on m fd'.
Proof.
  intros H0 H1 Hl. unfold io_on. case_decide as Hfd; [subst|].
  - by rewrite list_lookup_insert_eq.
  - by rewrite list_lookup_insert_ne by lia.
Qed.

Lemma io_on_grow m k fd : io_on (m ++ replicate k None) fd = io_on m fd.
Proof.
  unfold io_on. destruct (m !! Z.to_nat fd) as [c|] eqn:E.
  - by rewrite (lookup_app_l_Some _ _ _ _ E).
  - rewrite lookup_app_r by (by apply lookup_ge_None).
    destruct (replicate k None !! (Z.to_nat fd - length m)%nat) as [o|] eqn:E2; [|done].
    apply lookup_replicate in E2 as [-> _]. done.
Qed.

Section map.
Context {W : Type} `{!EvOs W, !EpollOk W}.
Context (want : Z → Z).
Implicit Types w : W.

Lemma make_space_ok w m fd :
  io_ok want w m → 0 <= fd < FD_LIMIT → Z.of_nat (length m) <= 2 * FD_LIMIT →
  ∃ r m' w', evmap_make_space w m fd = Ret (r, m', w') ∧ io_ok want w' m' ∧ (∀ fd', io_on m' fd' = io_on m fd') ∧
    interest w' = interest w ∧ Z.of_nat (length m') <= 2 * FD_LIMIT ∧
    (r = -1 ∨ r = 0 ∧ (Z.to_nat fd < length m')%nat).
Proof.
  intros H Hfd Hm. unfold evmap_make_space.
  destruct (decide (Z.of_nat (length m) <= fd)) as [Hle|Hgt].
  2: { exists 0, m, w. split_and!; try done. right. lia. }
  set (k0 := if decide (Z.of_nat (length m) ≠ 0) then _ else 32).
  assert (0 < k0 ∧ Z.of_nat (length m) <= k0 <= 2 * FD_LIMIT) as Hk0.
  { subst k0. unfold FD_LIMIT in *. case_decide; lia. }
  destruct (grow_loop_ok 31 k0 fd) as (k & -> & Hk & Hkk); [lia|unfold FD_LIMIT in *; lia|lia|].
  cbn [mbind outcome_bind]. rewrite (decide_False (P := ¬ is_int (k * 8))).
  2: { intros Hn. apply Hn. unfold is_int, INT_MIN, INT_MAX, FD_LIMIT in *. lia. }
  pose proof (realloc_interest w (k * 8)) as Hw.
  destruct (os_realloc w (k * 8)) as [[|] w1]; cbn [fst snd] in *.
  - eexists 0, _, w1. split; [done|]. split_and!; [split|intros; apply io_on_grow|done| |right; split; [done|]].
    + intros i c Hc. apply lookup_app_Some in Hc as [Hc|[_ Hc]]; [by eapply H|].
      apply lookup_replicate in Hc as [? _]. done.
    + intros i Hi. rewrite io_on_grow, Hw. by apply H.
    + rewrite length_app, length_replicate. lia.
    + rewrite length_app, length_replicate. lia.
  - exists (-1), m, w1. split_and!; try done; [|by left]. split; [apply H|]. intros i Hi. rewrite Hw. by apply H.
Qed.

Lemma slot_ctor_ok w m fd :
  io_ok want w m → 0 <= fd → (Z.to_nat fd < length m)%nat →
  ∃ c m' w', io_slot_ctor w m fd = Ret (c, m', w') ∧ io_ok want w' m' ∧ (∀ fd', 0 <= fd' → io_on m' fd' = io_on m fd') ∧
    interest w' = interest w ∧ length m' = length m ∧
    (c = None ∨ ∃ ctx, c = Some ctx ∧ m' !! Z.to_nat fd = Some (Some ctx)).
Proof.
  intros H Hfd Hl. unfold io_slot_ctor. destruct (lookup_lt_is_Some_2 m (Z.to_nat fd) Hl) as [[ctx|] E]; rewrite E.
  { exists (Some ctx), m, w. split_and!; try done. right. eauto. }
  pose proof (realloc_interest w 24) as Hw.
  destruct (os_realloc w 24) as [[|] w1]; cbn [fst snd] in *.
  - assert (∀ fd', 0 <= fd' → io_on (<[Z.to_nat fd:=Some evmap_io_init]> m) fd' = io_on m fd') as Hon.
    { intros fd' Hf. rewrite io_on_insert by done. case_decide; [subst|done]. unfold io_on. by rewrite E. }
    eexists (Some _), _, w1. split; [done|]. split_and!; [split|done|done|by rewrite length_insert|].
    + intros i c Hc. destruct (decide (i = Z.to_nat fd)) as [->|Hi].
      * rewrite list_lookup_insert_eq in Hc by done. simplify_eq. split; [constructor|done].
      * rewrite list_lookup_insert_ne in Hc by done. by eapply H.
    + intros i Hi. rewrite Hon, Hw by done. by apply H.
    + right. eexists. split; [done|]. by rewrite list_lookup_insert_eq.
  - exists None, m, w1. split_and!; try done; [|by left]. split; [apply H|]. intros i Hi. rewrite Hw. by apply H.
Qed.

(** The entry of [fd] is replaced. *)
Lemma io_ok_insert w w' m fd c :
  io_ok want w m → 0 <= fd → (Z.to_nat fd < length m)%nat → entry_ok want c →
  watched w w' fd (io_old want (io_events c)) → io_ok want w' (<[Z.to_nat fd := Some c]> m).
Proof.
  intros H Hfd Hl Hc Hw. split.
  - intros i ctx Hi. destruct (decide (i = Z.to_nat fd)) as [->|Hne].
    + rewrite list_lookup_insert_eq in Hi by done. by simplify_eq.
    + rewrite list_lookup_insert_ne in Hi by done. by eapply H.
  - intros fd' Hf. rewrite io_on_insert, Hw by done. case_decide; [done|]. by apply H.
Qed.

Lemma watched_same w w' m fd c :
  io_ok want w m → 0 <= fd → m !! Z.to_nat fd = Some (Some c) → interest w' = interest w →
  watched w w' fd (io_old want (io_events c)).
Proof.
  intros H Hfd Hc E fd'. rewrite E. case_decide; [subst|done].
  rewrite (io_kernel _ _ _ H) by done. unfold io_on. by rewrite Hc.
Qed.

(** The change of the counters, and what it asks of the kernel. *)
Lemma join_old l e :
  let nr := wanting want EV_READ l in
  let nw := wanting want EV_WRITE l in
  let res := Z.lor (if has (want e) EV_READ && ((if has (want e) EV_READ then nr + 1 else nr) =? 1) then EV_READ else 0)
                   (if has (want e) EV_WRITE && ((if has (want e) EV_WRITE then nw + 1 else nw) =? 1) then EV_WRITE else 0) in
  rw_set res ∧ io_old want (l ++ [e]) = Z.lor (io_old want l) res.
Proof.
  intros nr nw res. unfold io_old. rewrite !wanting_snoc. fold nr nw.
  pose proof (wanting_nonneg want EV_READ l) as Hr. pose proof (wanting_nonneg want EV_WRITE l) as Hw.
  fold nr nw in Hr, Hw. subst res. unfold old_of, rw_set.
  destruct (has (want e) EV_READ), (has (want e) EV_WRITE); cbn [andb];
    destruct (Z.eqb_spec nr 0) as [->|], (Z.eqb_spec nw 0) as [->|]; cbn [Z.add Z.eqb Pos.eqb];
    rewrite ?Z.add_0_r;
    repeat match goal with |- context [?x =? ?y] => rewrite (proj2 (Z.eqb_neq x y)) by lia end;
    (split; [set_solver|done]).
Qed.

Lemma evmap_io_join_ok w m fd e c :
  io_ok want w m → 0 <= fd → m !! Z.to_nat fd = Some (Some c) → e ∉ io_events c → Z.land (want e) EV_ET = 0 →
  ∃ r m' w', evmap_io_join w m fd e (want e) c = Ret (r, m', w') ∧ io_ok want w' m' ∧
    (r = -1 ∧ m' = m ∨ (r = 0 ∨ r = 1) ∧ ∃ c', m' = <[Z.to_nat fd := Some c']> m ∧ io_events c' = io_events c ++ [e]).
Proof.
  intros H Hfd Hc He Het. pose proof (io_entry _ _ _ H _ _ Hc) as (Hnd & Hnr & Hnw & Br & Bw).
  pose proof (io_kernel _ _ _ H fd Hfd) as Hk. unfold io_on in Hk. rewrite Hc in Hk.
  pose proof (lookup_lt_Some _ _ _ Hc) as Hl.
  pose proof (wanting_nonneg want EV_READ (io_events c ++ [e])) as Gr.
  pose proof (wanting_nonneg want EV_WRITE (io_events c ++ [e])) as Gw.
  unfold evmap_io_join. rewrite Het, Z.lor_0_l, Hnr, Hnw. cbn zeta.
  destruct (join_old (io_events c) e) as [Hrw Hold]. cbn zeta in Hrw, Hold.
  fold (io_old want (io_events c)).
  set (res := Z.lor _ _) in *. clearbody res.
  set (nr := if has (want e) EV_READ then _ else _). set (nw := if has (want e) EV_WRITE then _ else _).
  assert (nr = wanting want EV_READ (io_events c ++ [e])) as Enr
    by (unfold nr; rewrite wanting_snoc; destruct (has (want e) EV_READ); by rewrite ?Z.add_0_r).
  assert (nw = wanting want EV_WRITE (io_events c ++ [e])) as Enw
    by (unfold nw; rewrite wanting_snoc; destruct (has (want e) EV_WRITE); by rewrite ?Z.add_0_r).
  clearbody nr nw. rewrite <- Enr in Gr. rewrite <- Enw in Gw.
  destruct (decide (65535 < nr ∨ 65535 < nw)) as [Hbig|Hsmall]; [exists (-1), m, w; auto|].
  assert (∀ w', watched w w' fd (Z.lor (io_old want (io_events c)) res) →
     io_ok want w' (<[Z.to_nat fd := Some {| io_events := io_events c ++ [e]; nread := u16 nr; nwrite := u16 nw |}]> m)) as Hok.
  { intros w' Hw. apply io_ok_insert with w; [done..| |cbn [io_events]; by rewrite Hold].
    rewrite !u16_small by lia. split; [|split; [done|split; [done|cbn; lia]]].
    apply NoDup_app. split_and!; [done| |apply NoDup_singleton].
    intros x Hx ->%list_elem_of_singleton. done. }
  destruct (Z.eqb_spec res 0) as [->|Hres].
  - do 3 eexists. split; [done|]. split; [apply Hok|right; split; [by left|eauto]].
    rewrite Z.lor_0_r. by eapply watched_same.
  - pose proof (nochangelist_add_ok w fd (io_old want (io_events c)) res (old_of_rw _ _) Hrw Hres Hk) as Hadd.
    cbn zeta in Hadd. destruct (epoll_nochangelist_add w fd _ res) as [r1 w1]. cbn [fst snd] in *.
    destruct Hadd as [[-> Hw]|[-> Hw]]; cbn.
    + do 3 eexists. split; [done|]. split; [by apply Hok|right; split; [by right|eauto]].
    + do 3 eexists. split; [done|]. split; [|by left]. split; [apply H|]. intros i Hi. rewrite Hw. by apply H.
Qed.

(** [evmap_io_add] puts the event on its descriptor and has the kernel watch for what it wants, or
    fails and leaves the events and the kernel as they were. *)
Lemma evmap_io_add_ok w m fd e :
  io_ok want w m → 0 <= fd < FD_LIMIT → Z.of_nat (length m) <= 2 * FD_LIMIT → e ∉ io_on m fd → Z.land (want e) EV_ET = 0 →
  ∃ r m' w', evmap_io_add w m fd e (want e) = Ret (r, m', w') ∧ io_ok want w' m' ∧ Z.of_nat (length m') <= 2 * FD_LIMIT ∧
    (r = -1 ∧ (∀ fd', 0 <= fd' → io_on m' fd' = io_on m fd') ∨
     (r = 0 ∨ r = 1) ∧ (∀ fd', 0 <= fd' → io_on m' fd' = if decide (fd' = fd) then io_on m fd ++ [e] else io_on m fd')).
Proof.
  intros H Hfd Hm He Het. unfold evmap_io_add. rewrite decide_False by lia.
  destruct (make_space_ok w m fd H Hfd Hm) as (r1 & m1 & w1 & -> & H1 & On1 & _ & L1 & Hr1).
  cbn [mbind outcome_bind fst snd].
  destruct Hr1 as [->|[-> Hl1]]; [rewrite decide_True by done; exists (-1), m1, w1; auto 10|].
  rewrite decide_False by done.
  destruct (slot_ctor_ok w1 m1 fd H1) as (c & m2 & w2 & -> & H2 & On2 & _ & L2 & Hc); [lia|done|].
  cbn [mbind outcome_bind fst snd]. rewrite <- L2 in Hl1, L1.
  destruct Hc as [->|(ctx & -> & Hc)].
  { exists (-1), m2, w2. split_and!; try done. left. split; [done|]. intros. by rewrite On2, On1. }
  assert (io_on m2 fd = io_events ctx) as Ectx by (unfold io_on; by rewrite Hc).
  assert (io_events ctx = io_on m fd) as Eon by (rewrite <- Ectx, On2, On1 by lia; done).
  destruct (evmap_io_join_ok w2 m2 fd e ctx H2) as (r3 & m3 & w3 & -> & H3 & Hr3); [lia|done|by rewrite Eon|done|].
  exists r3, m3, w3. split; [done|]. split; [done|].
  destruct Hr3 as [[-> ->]|(Hr3 & c' & -> & Hc')].
  - split; [done|]. left. split; [done|]. intros. by rewrite On2, On1.
  - split; [by rewrite length_insert|]. right. split; [done|]. intros fd' Hf.
    rewrite io_on_insert by (done || lia). case_decide; [by rewrite Hc', Eon|]. by rewrite On2, On1.
Qed.

Lemma leave_old l e :
  e ∈ l → NoDup l →
  let l' := filter (λ x, x ≠ e) l in
  let nr := wanting want EV_READ l' in
  let nw := wanting want EV_WRITE l' in
  let res := Z.lor (if has (want e) EV_READ && (nr =? 0) then EV_READ else 0)
                   (if has (want e) EV_WRITE && (nw =? 0) then EV_WRITE else 0) in
  rw_set res ∧ Z.land res (Z.lnot (io_old want l)) = 0 ∧ io_old want l' = Z.land (io_old want l) (Z.lnot res).
Proof.
  intros He Hnd l' nr nw res. unfold io_old.
  rewrite !(wanting_perm want _ l (e :: l')) by (by apply remove_perm). rewrite !wanting_cons. fold nr nw.
  pose proof (wanting_nonneg want EV_READ l') as Hr. pose proof (wanting_nonneg want EV_WRITE l') as Hw.
  fold nr nw in Hr, Hw. subst res. unfold old_of, rw_set.
  destruct (has (want e) EV_READ), (has (want e) EV_WRITE); cbn [andb];
    destruct (Z.eqb_spec nr 0) as [->|], (Z.eqb_spec nw 0) as [->|]; cbn [Z.add Z.eqb Pos.eqb];
    rewrite ?Z.add_0_r;
    repeat match goal with |- context [?x =? ?y] => rewrite (proj2 (Z.eqb_neq x y)) by lia end;
    (split; [set_solver|done]).
Qed.

(** [evmap_io_del] takes the event off, and has the kernel watch for what the others want; when the
    kernel refuses, it stays. *)
Lemma evmap_io_del_ok w m fd e :
  io_ok want w m → 0 <= fd → e ∈ io_on m fd →
  ∃ r m' w', evmap_io_del w m fd e (want e) = Ret (r, m', w') ∧ io_ok want w' m' ∧ length m' = length m ∧
    (r = -1 ∧ m' = m ∧ refused w fd ∨
     (r = 0 ∨ r = 1) ∧ (∀ fd', 0 <= fd' → io_on m' fd' =
       if decide (fd' = fd) then filter (λ x, x ≠ e) (io_on m fd) else io_on m fd')).
Proof.
  intros H Hfd He. unfold evmap_io_del. rewrite decide_False by lia.
  pose proof (io_kernel _ _ _ H fd Hfd) as Hk.
  assert (∃ c, m !! Z.to_nat fd = Some (Some c) ∧ io_on m fd = io_events c) as (c & Hc & Eon).
  { unfold io_on in *. destruct (m !! Z.to_nat fd) as [[c|]|]; [by eauto|by apply elem_of_nil in He..]. }
  pose proof (lookup_lt_Some _ _ _ Hc) as Hl. rewrite decide_False by lia. rewrite Hc.
  rewrite Eon in *. pose proof (io_entry _ _ _ H _ _ Hc) as (Hnd & Hnr & Hnw & Br & Bw).
  destruct (leave_old (io_events c) e He Hnd) as (Hrw & Hsub & Hold). cbn zeta in Hrw, Hsub, Hold.
  set (l' := filter _ _) in *.
  assert (io_events c ≡ₚ e :: l') as Hperm by (by apply remove_perm).
  assert (tailq_remove e (io_events c) = Ret l') as Etq by (by apply tailq_remove_ok).
  assert (NoDup l') as Hnd' by (by apply NoDup_filter). clearbody l'.
  assert ((if has (want e) EV_READ then nread c - 1 else nread c) = wanting want EV_READ l') as ->
    by (rewrite Hnr, (wanting_perm want EV_READ _ _ Hperm), wanting_cons; destruct (has (want e) EV_READ); lia).
  assert ((if has (want e) EV_WRITE then nwrite c - 1 else nwrite c) = wanting want EV_WRITE l') as ->
    by (rewrite Hnw, (wanting_perm want EV_WRITE _ _ Hperm), wanting_cons; destruct (has (want e) EV_WRITE); lia).
  pose proof (wanting_nonneg want EV_READ l') as Gr. pose proof (wanting_nonneg want EV_WRITE l') as Gw.
  assert (wanting want EV_READ l' <= 65535 ∧ wanting want EV_WRITE l' <= 65535) as [Lr Lw].
  { rewrite Hnr, (wanting_perm _ _ _ _ Hperm), wanting_cons in Br.
    rewrite Hnw, (wanting_perm _ _ _ _ Hperm), wanting_cons in Bw. repeat case_match; lia. }
  rewrite !bool_decide_eq_true_2 by done. cbn [andb EVUTIL_ASSERT mbind outcome_bind].
  rewrite Hnr, Hnw. fold (io_old want (io_events c)).
  set (res := Z.lor _ _) in *. clearbody res. rewrite Etq. cbn [mbind outcome_bind].
  assert (∀ w', watched w w' fd (Z.land (io_old want (io_events c)) (Z.lnot res)) →
     io_ok want w' (<[Z.to_nat fd := Some {| io_events := l'; nread := u16 (wanting want EV_READ l');
       nwrite := u16 (wanting want EV_WRITE l') |}]> m)) as Hok.
  { intros w' Hw. apply io_ok_insert with w; [done..| |cbn [io_events]; by rewrite Hold].
    rewrite !u16_small by lia. split; done. }
  assert (∀ c' fd', io_events c' = l' → 0 <= fd' → io_on (<[Z.to_nat fd:=Some c']> m) fd' =
     if decide (fd' = fd) then l' else io_on m fd') as Hon.
  { intros c' fd' Hc' Hf. rewrite io_on_insert by done. by rewrite Hc'. }
  destruct (Z.eqb_spec res 0) as [->|Hres].
  - do 3 eexists. split; [done|]. split_and!; [apply Hok|by rewrite length_insert|right; split; [by left|auto]].
    rewrite Z.lnot_0, Z.land_m1_r. by eapply watched_same.
  - pose proof (nochangelist_del_ok w fd _ res (old_of_rw _ _) Hrw Hres Hsub Hk) as Hdel.
    cbn zeta in Hdel. fold (io_old want (io_events c)) in Hdel.
    destruct (epoll_nochangelist_del w fd _ res) as [r1 w1]. cbn [fst snd] in *.
    destruct Hdel as [[-> Hw]|(-> & Hw & Href)]; cbn.
    + do 3 eexists. split; [done|]. split_and!; [by apply Hok|by rewrite length_insert|right; split; [by right|auto]].
    + exists (-1), m, w1. split; [done|]. split_and!; [|done|left; done]. split; [apply H|].
      intros i Hi. rewrite Hw. by apply H.
Qed.
End map.
