(* ===== verification/EventCore.v ===== *)
(** The events of an event base: [src/deps/libevent2/event.c] - adding, deleting and activating events,
    and the queues they are on - with [evmap_io_active] of evmap.c.

    [event_base] is [struct event_base]: [qs] are the queues with the events themselves, [ctl] says
    where the loop is, [tm] are its clocks; [os] is the system, with the kernel's list of descriptors. *)
From S2P Require Import Prelude Evbuffer EventData MinHeap Epoll.

(** * The event base *)

(** [timeout_event] is the address of the event inside of the list. *)
Record common_timeout_list := { ct_events : list Z; duration : timeval; timeout_event : Z }.

Record queues := {
  evs : store;
  eventqueue : list Z;
  activequeues : list (list Z);
  timeheap : min_heap;
  common_timeout_queues : list common_timeout_list;
  event_count : Z;
  event_count_active : Z
}.

(** [closure_ncalls]: the signal closure that runs, as its event and its variable [ncalls], which
    [ev_pncalls] points to. *)
Record loop_ctl := {
  event_gotterm : bool; event_break : bool; event_continue : bool;
  event_running_priority : Z; running_loop : bool; closure_ncalls : option (Z * Z)
}.

Record clocks := { event_tv : timeval; tv_cache : timeval; tv_clock_diff : timeval; last_updated_clock_diff : Z }.

(** A deferred callback; [defer_queue] has them in order. *)
Record deferred_cb := { queued : bool; dcb_cb : Z; dcb_arg : Z }.
Record deferred_cb_queue := { dcbs : gmap Z deferred_cb; deferred_cb_list : list Z; active_count : Z }.

(** [onces]: the callback and the argument in each [struct event_once]; [nevents]: the room for what
    [epoll_wait] reports. *)
Record event_base (W : Type) := {
  os : W; qs : queues; io : io_map; sigmap : list (option (list Z)); ctl : loop_ctl; tm : clocks;
  defer_queue : deferred_cb_queue; onces : gmap Z (event_callback_fn * Z); virtual_event_count : Z; nevents : Z
}.
Arguments os {W}. Arguments qs {W}. Arguments io {W}. Arguments sigmap {W}. Arguments ctl {W}. Arguments tm {W}.
Arguments defer_queue {W}. Arguments onces {W}. Arguments virtual_event_count {W}. Arguments nevents {W}.
Arguments Build_event_base {W}.

Section setters.
Context {W : Type}.
Implicit Types b : event_base W.
Definition with_os b (x : W) := Build_event_base x (qs b) (io b) (sigmap b) (ctl b) (tm b) (defer_queue b) (onces b) (virtual_event_count b) (nevents b).
Definition with_qs b x := Build_event_base (os b) x (io b) (sigmap b) (ctl b) (tm b) (defer_queue b) (onces b) (virtual_event_count b) (nevents b).
Definition with_io b (w : W) x := Build_event_base w (qs b) x (sigmap b) (ctl b) (tm b) (defer_queue b) (onces b) (virtual_event_count b) (nevents b).
Definition with_sigmap b (w : W) x := Build_event_base w (qs b) (io b) x (ctl b) (tm b) (defer_queue b) (onces b) (virtual_event_count b) (nevents b).
Definition with_ctl b x := Build_event_base (os b) (qs b) (io b) (sigmap b) x (tm b) (defer_queue b) (onces b) (virtual_event_count b) (nevents b).
Definition with_tm b (w : W) x := Build_event_base w (qs b) (io b) (sigmap b) (ctl b) x (defer_queue b) (onces b) (virtual_event_count b) (nevents b).
Definition with_dq b x := Build_event_base (os b) (qs b) (io b) (sigmap b) (ctl b) (tm b) x (onces b) (virtual_event_count b) (nevents b).
Definition with_onces b x := Build_event_base (os b) (qs b) (io b) (sigmap b) (ctl b) (tm b) (defer_queue b) x (virtual_event_count b) (nevents b).
Definition with_nevents b (w : W) x := Build_event_base w (qs b) (io b) (sigmap b) (ctl b) (tm b) (defer_queue b) (onces b) (virtual_event_count b) x.
End setters.

Definition q_evs (q : queues) (x : store) : queues := {|
  evs := x; eventqueue := eventqueue q; activequeues := activequeues q; timeheap := timeheap q;
  common_timeout_queues := common_timeout_queues q; event_count := event_count q; event_count_active := event_count_active q |}.
Definition q_event (q : queues) (e : Z) (v : event) : queues := q_evs q (<[e := v]> (evs q)).
Definition q_count (q : queues) (k : Z) : queues := {|
  evs := evs q; eventqueue := eventqueue q; activequeues := activequeues q; timeheap := timeheap q;
  common_timeout_queues := common_timeout_queues q; event_count := k; event_count_active := event_count_active q |}.
Definition q_eventqueue (q : queues) (l : list Z) : queues := {|
  evs := evs q; eventqueue := l; activequeues := activequeues q; timeheap := timeheap q;
  common_timeout_queues := common_timeout_queues q; event_count := event_count q; event_count_active := event_count_active q |}.
Definition q_active (q : queues) (l : list (list Z)) (k : Z) : queues := {|
  evs := evs q; eventqueue := eventqueue q; activequeues := l; timeheap := timeheap q;
  common_timeout_queues := common_timeout_queues q; event_count := event_count q; event_count_active := k |}.
Definition q_heap (q : queues) (x : store) (h : min_heap) : queues := {|
  evs := x; eventqueue := eventqueue q; activequeues := activequeues q; timeheap := h;
  common_timeout_queues := common_timeout_queues q; event_count := event_count q; event_count_active := event_count_active q |}.
Definition q_ctls (q : queues) (l : list common_timeout_list) : queues := {|
  evs := evs q; eventqueue := eventqueue q; activequeues := activequeues q; timeheap := timeheap q;
  common_timeout_queues := l; event_count := event_count q; event_count_active := event_count_active q |}.

Definition ctl_continue (c : loop_ctl) (x : bool) : loop_ctl := {|
  event_gotterm := event_gotterm c; event_break := event_break c; event_continue := x;
  event_running_priority := event_running_priority c; running_loop := running_loop c;
  closure_ncalls := closure_ncalls c |}.
Definition ctl_closure (c : loop_ctl) (x : option (Z * Z)) : loop_ctl := {|
  event_gotterm := event_gotterm c; event_break := event_break c; event_continue := event_continue c;
  event_running_priority := event_running_priority c; running_loop := running_loop c; closure_ncalls := x |}.

(** * Common timeouts *)

Definition MICROSECONDS_MASK : Z := 1048575.
Definition COMMON_TIMEOUT_IDX_MASK : Z := 267386880.
Definition COMMON_TIMEOUT_IDX_SHIFT : Z := 20.
Definition COMMON_TIMEOUT_MASK : Z := 4026531840.
Definition COMMON_TIMEOUT_MAGIC : Z := 1342177280.

Definition COMMON_TIMEOUT_IDX (tv : timeval) : Z :=
  Z.shiftr (Z.land (tv_usec tv) COMMON_TIMEOUT_IDX_MASK) COMMON_TIMEOUT_IDX_SHIFT.

Definition is_common_timeout (tv : timeval) (q : queues) : bool :=
  (Z.land (tv_usec tv) COMMON_TIMEOUT_MASK =? COMMON_TIMEOUT_MAGIC) &&
  bool_decide (COMMON_TIMEOUT_IDX tv < Z.of_nat (length (common_timeout_queues q))).

Definition is_same_common_timeout (t u : timeval) : bool :=
  Z.land (tv_usec t) (Z.lnot MICROSECONDS_MASK) =? Z.land (tv_usec u) (Z.lnot MICROSECONDS_MASK).

Definition tv_mask (t : timeval) : timeval := {| tv_sec := tv_sec t; tv_usec := Z.land (tv_usec t) MICROSECONDS_MASK |}.
Definition tv_mark (t : timeval) (mark : Z) : timeval := {| tv_sec := tv_sec t; tv_usec := Z.lor (tv_usec t) mark |}.

Definition get_common_timeout_list (q : queues) (tv : timeval) : outcome common_timeout_list :=
  match common_timeout_queues q !! Z.to_nat (COMMON_TIMEOUT_IDX tv) with Some c => Ret c | None => Undef OutOfBounds end.

Definition set_common_timeout_list (q : queues) (tv : timeval) (l : list Z) : outcome queues :=
  c ← get_common_timeout_list q tv;
  Ret (q_ctls q (<[Z.to_nat (COMMON_TIMEOUT_IDX tv) :=
    {| ct_events := l; duration := duration c; timeout_event := timeout_event c |}]> (common_timeout_queues q))).

(** From the end of the list, past the events that are due later; [r] is the list reversed. *)
Fixpoint insert_from_end (evs : store) (e : Z) (t : timeval) (r : list Z) : outcome (list Z) :=
  match r with
  | [] => Ret [e]
  | x :: r' =>
      v ← ev_get evs x;
      _ ← EVUTIL_ASSERT (is_same_common_timeout (ev_timeout v) t);
      if evutil_timercmp Z.geb t (ev_timeout v) then Ret (e :: x :: r')
      else r' ← insert_from_end evs e t r'; Ret (x :: r')
  end.

Definition insert_common_timeout_inorder (q : queues) (l : list Z) (e : Z) : outcome (list Z) :=
  v ← ev_get (evs q) e;
  r ← insert_from_end (evs q) e (ev_timeout v) (reverse l);
  Ret (reverse r).

(** * Queues *)

(** [event_errx(1, ...)]. *)
Definition event_errx {A} : outcome A := Exit 1.

(** [base->activequeues[pri]]. *)
Definition active_queue (q : queues) (pri : Z) : outcome (list Z) :=
  if decide (0 <= pri)
  then match activequeues q !! Z.to_nat pri with Some l => Ret l | None => Undef OutOfBounds end
  else Undef OutOfBounds.

Definition event_queue_remove (q : queues) (e queue : Z) : outcome queues :=
  v ← ev_get (evs q) e;
  if negb (has (ev_flags v) queue) then event_errx
  else
    let q := if has (ev_flags v) EVLIST_INTERNAL then q else q_count q (event_count q - 1) in
    let v := ev_with_flags v (Z.land (ev_flags v) (Z.lnot queue)) in
    let q := q_event q e v in
    if decide (queue = EVLIST_INSERTED) then
      l ← tailq_remove e (eventqueue q); Ret (q_eventqueue q l)
    else if decide (queue = EVLIST_ACTIVE) then
      l ← active_queue q (ev_pri v);
      l ← tailq_remove e l;
      Ret (q_active q (<[Z.to_nat (ev_pri v) := l]> (activequeues q)) (event_count_active q - 1))
    else if decide (queue = EVLIST_TIMEOUT) then
      if is_common_timeout (ev_timeout v) q then
        c ← get_common_timeout_list q (ev_timeout v);
        l ← tailq_remove e (ct_events c);
        set_common_timeout_list q (ev_timeout v) l
      else
        r ← min_heap_erase (evs q) (timeheap q) e;
        Ret (q_heap q r.1.2 r.2)
    else event_errx.

Section core.
Context {W : Type} `{!EvOs W, !Evsig W}.
Implicit Types b : event_base W.

Definition event_queue_insert (w : W) (q : queues) (e queue : Z) : outcome (queues * W) :=
  v ← ev_get (evs q) e;
  if has (ev_flags v) queue then
    if has queue EVLIST_ACTIVE then Ret (q, w) else event_errx
  else
    let q := if has (ev_flags v) EVLIST_INTERNAL then q else q_count q (event_count q + 1) in
    let v := ev_with_flags v (Z.lor (ev_flags v) queue) in
    let q := q_event q e v in
    if decide (queue = EVLIST_INSERTED) then Ret (q_eventqueue q (eventqueue q ++ [e]), w)
    else if decide (queue = EVLIST_ACTIVE) then
      l ← active_queue q (ev_pri v);
      Ret (q_active q (<[Z.to_nat (ev_pri v) := l ++ [e]]> (activequeues q)) (event_count_active q + 1), w)
    else if decide (queue = EVLIST_TIMEOUT) then
      if is_common_timeout (ev_timeout v) q then
        c ← get_common_timeout_list q (ev_timeout v);
        l ← insert_common_timeout_inorder q (ct_events c) e;
        q ← set_common_timeout_list q (ev_timeout v) l;
        Ret (q, w)
      else
        r ← min_heap_push w (evs q) (timeheap q) e;
        Ret (q_heap q r.1.1.2 r.1.2, r.2)
    else event_errx.

(** * Time *)

Definition CLOCK_SYNC_INTERVAL : Z := -1.

(** [None] when the clock cannot be read. *)
Definition gettime b : outcome (option timeval * event_base W) :=
  let t := tm b in
  if decide (tv_sec (tv_cache t) ≠ 0) then Ret (Some (tv_cache t), b)
  else if use_monotonic then
    let r := clock_gettime (os b) in
    match r.1 with
    | None => Ret (None, with_os b r.2)
    | Some (s, ns) =>
        let tp := {| tv_sec := s; tv_usec := ns / 1000 |} in
        if decide (last_updated_clock_diff t + CLOCK_SYNC_INTERVAL < s) then
          let g := gettimeofday r.2 in
          match g.1 with
          | None => Undef Indeterminate
          | Some tv => Ret (Some tp, with_tm b g.2 {|
              event_tv := event_tv t; tv_cache := tv_cache t;
              tv_clock_diff := evutil_timersub tv tp; last_updated_clock_diff := s |})
          end
        else Ret (Some tp, with_os b r.2)
    end
  else
    let g := gettimeofday (os b) in
    Ret (g.1, with_os b g.2).

(** The callers that drop the result use the time regardless. *)
Definition gettime_use b : outcome (timeval * event_base W) :=
  r ← gettime b;
  match r.1 with Some t => Ret (t, r.2) | None => Undef Indeterminate end.

(** * Adding and deleting *)

Definition any_io : Z := Z.lor EV_READ (Z.lor EV_WRITE EV_SIGNAL).
Definition any_rw : Z := Z.lor EV_READ EV_WRITE.

(** The event goes to the map of descriptors or signals, unless it is there or active. *)
Definition add_io b (e : Z) (v : event) : outcome (Z * event_base W) :=
  if has (ev_events v) any_io && negb (has (ev_flags v) (Z.lor EVLIST_INSERTED EVLIST_ACTIVE)) then
    r ← (if has (ev_events v) any_rw then
           x ← evmap_io_add (os b) (io b) (ev_fd v) e (ev_events v); Ret (x.1.1, with_io b x.2 x.1.2)
         else if has (ev_events v) EV_SIGNAL then
           x ← evmap_signal_add (os b) (sigmap b) (ev_fd v) e; Ret (x.1.1, with_sigmap b x.2 x.1.2)
         else Ret (0, b));
    if decide (r.1 = -1) then Ret r
    else
      x ← event_queue_insert (os r.2) (qs r.2) e EVLIST_INSERTED;
      Ret (if decide (r.1 = 1) then 0 else r.1, with_os (with_qs r.2 x.1) x.2)
  else Ret (0, b).

(** [if (ev->ev_ncalls && ev->ev_pncalls) *ev->ev_pncalls = 0]: the closure's loop is to end.  When that
    closure has returned, the pointer is to a dead variable. *)
Definition abort_closure b (e : Z) (v : event) : outcome (event_base W) :=
  if has (ev_events v) EV_SIGNAL && negb (ev_ncalls v =? 0) && ev_pncalls v then
    match closure_ncalls (ctl b) with
    | Some (e', _) => if decide (e' = e) then Ret (with_ctl b (ctl_closure (ctl b) (Some (e, 0)))) else Undef OutOfBounds
    | None => Undef OutOfBounds
    end
  else Ret b.

(** A timeout that is set before is taken back, and an event that is active because of it, too. *)
Definition retract_timeout b (e : Z) : outcome (event_base W) :=
  v ← ev_get (evs (qs b)) e;
  q ← (if has (ev_flags v) EVLIST_TIMEOUT then event_queue_remove (qs b) e EVLIST_TIMEOUT else Ret (qs b));
  v ← ev_get (evs q) e;
  let b := with_qs b q in
  if has (ev_flags v) EVLIST_ACTIVE && has (ev_res v) EV_TIMEOUT then
    b ← abort_closure b e v;
    q ← event_queue_remove (qs b) e EVLIST_ACTIVE;
    Ret (with_qs b q)
  else Ret b.

(** When the event is due. *)
Definition due_time (q : queues) (now tv : timeval) (tv_is_absolute : bool) : timeval :=
  if tv_is_absolute then tv
  else if is_common_timeout tv q then
    tv_mark (evutil_timeradd now (tv_mask tv)) (Z.land (tv_usec tv) (Z.lnot MICROSECONDS_MASK))
  else evutil_timeradd now tv.

(** The event goes on the queue of timeouts; [again] adds the event of a common timeout. *)
Definition add_timeout (again : event_base W → Z → timeval → outcome (Z * event_base W))
    b (e : Z) (tv : timeval) (tv_is_absolute : bool) : outcome (event_base W) :=
  v ← ev_get (evs (qs b)) e;
  let b := if decide (ev_closure v = EV_CLOSURE_PERSIST ∧ tv_is_absolute = false)
           then with_qs b (q_event (qs b) e (ev_with_io_timeout v tv)) else b in
  b ← retract_timeout b e;
  t ← gettime_use b;
  let '(now, b) := t in
  let common := is_common_timeout tv (qs b) in
  v ← ev_get (evs (qs b)) e;
  let b := with_qs b (q_event (qs b) e (ev_with_timeout v (due_time (qs b) now tv tv_is_absolute))) in
  x ← event_queue_insert (os b) (qs b) e EVLIST_TIMEOUT;
  let b := with_os (with_qs b x.1) x.2 in
  if common then
    v ← ev_get (evs (qs b)) e;
    c ← get_common_timeout_list (qs b) (ev_timeout v);
    if decide (head (ct_events c) = Some e) then
      y ← again b (timeout_event c) (tv_mask (ev_timeout v)); Ret y.2
    else Ret b
  else Ret b.

(** [depth] bounds the calls within calls: the event of a common timeout is no common timeout itself. *)
Fixpoint event_add_internal (depth : nat) b (e : Z) (tv : option timeval) (tv_is_absolute : bool) : outcome (Z * event_base W) :=
  match depth with
  | O => NoFuel
  | S depth =>
      v ← ev_get (evs (qs b)) e;
      _ ← EVUTIL_ASSERT (Z.land (ev_flags v) (Z.lnot EVLIST_ALL) =? 0);
      let '(r, b) :=
        match tv with
        | Some _ =>
            if has (ev_flags v) EVLIST_TIMEOUT then (0, b)
            else
              let x := min_heap_reserve (os b) (timeheap (qs b)) (u32 (1 + min_heap_size (timeheap (qs b)))) in
              (x.1.1, with_os (with_qs b (q_heap (qs b) (evs (qs b)) x.1.2)) x.2)
        | None => (0, b)
        end in
      if decide (r = -1) then Ret (-1, b)
      else
        x ← add_io b e v;
        match tv with
        | Some tv =>
            if decide (x.1 = -1) then Ret x
            else
              b ← add_timeout (λ b e tv, event_add_internal depth b e (Some tv) true) x.2 e tv tv_is_absolute;
              Ret (x.1, b)
        | None => Ret x
        end
  end.

Definition event_add b (e : Z) (tv : option timeval) : outcome (Z * event_base W) :=
  v ← ev_get (evs (qs b)) e;
  if negb (ev_base v) then Ret (-1, b) else event_add_internal 2 b e tv false.

Definition event_del_internal b (e : Z) : outcome (Z * event_base W) :=
  v ← ev_get (evs (qs b)) e;
  if negb (ev_base v) then Ret (-1, b)
  else
    _ ← EVUTIL_ASSERT (Z.land (ev_flags v) (Z.lnot EVLIST_ALL) =? 0);
    b ← abort_closure b e v;
    q ← (if has (ev_flags v) EVLIST_TIMEOUT then event_queue_remove (qs b) e EVLIST_TIMEOUT else Ret (qs b));
    q ← (if has (ev_flags v) EVLIST_ACTIVE then event_queue_remove q e EVLIST_ACTIVE else Ret q);
    if has (ev_flags v) EVLIST_INSERTED then
      q ← event_queue_remove q e EVLIST_INSERTED;
      let b := with_qs b q in
      r ← (if has (ev_events v) any_rw then
             x ← evmap_io_del (os b) (io b) (ev_fd v) e (ev_events v); Ret (x.1.1, with_io b x.2 x.1.2)
           else
             x ← evmap_signal_del (os b) (sigmap b) (ev_fd v) e; Ret (x.1.1, with_sigmap b x.2 x.1.2));
      Ret (if decide (r.1 = 1) then 0 else r.1, r.2)
    else Ret (0, with_qs b q).

Definition event_del b (e : Z) : outcome (Z * event_base W) :=
  v ← ev_get (evs (qs b)) e;
  if negb (ev_base v) then Ret (-1, b) else event_del_internal b e.

Definition event_active_nolock b (e res ncalls : Z) : outcome (event_base W) :=
  v ← ev_get (evs (qs b)) e;
  if has (ev_flags v) EVLIST_ACTIVE
  then Ret (with_qs b (q_event (qs b) e (ev_with_res v (Z.lor (ev_res v) res))))
  else
    let v := ev_with_res v res in
    let b := if decide (ev_pri v < event_running_priority (ctl b)) then with_ctl b (ctl_continue (ctl b) true) else b in
    let v := if has (ev_events v) EV_SIGNAL then ev_with_ncalls v ncalls false else v in
    x ← event_queue_insert (os b) (q_event (qs b) e v) e EVLIST_ACTIVE;
    Ret (with_os (with_qs b x.1) x.2).

Definition event_active b (e res ncalls : Z) : outcome (event_base W) :=
  v ← ev_get (evs (qs b)) e;
  if negb (ev_base v) then Ret b else event_active_nolock b e res ncalls.

(** [ev_res] is [event]'s part of what is pending. *)
Definition event_pending b (e event : Z) : outcome Z :=
  v ← ev_get (evs (qs b)) e;
  if negb (ev_base v) then Ret 0
  else
    let flags := Z.lor (if has (ev_flags v) EVLIST_INSERTED then Z.land (ev_events v) any_io else 0)
                  (Z.lor (if has (ev_flags v) EVLIST_ACTIVE then ev_res v else 0)
                         (if has (ev_flags v) EVLIST_TIMEOUT then EV_TIMEOUT else 0)) in
    Ret (Z.land flags (Z.land event (Z.lor EV_TIMEOUT any_io))).

(** * Making events *)

Definition event_assign b (e fd events : Z) (cb : event_callback_fn) (arg : Z) : Z * event_base W :=
  let old := evs (qs b) !! e in
  let mk cl io_t idx pri := with_qs b (q_event (qs b) e {|
    ev_base := true; ev_fd := fd; ev_events := events; ev_flags := EVLIST_INIT; ev_res := 0; ev_ncalls := 0;
    ev_pncalls := false; ev_pri := pri; ev_closure := cl; ev_callback := cb; ev_arg := arg;
    ev_timeout := from_option ev_timeout evutil_timerclear old; ev_io_timeout := io_t; min_heap_idx := idx |}) in
  let old_io := from_option ev_io_timeout evutil_timerclear old in
  let pri := Z.of_nat (length (activequeues (qs b))) / 2 in
  if has events EV_SIGNAL then
    if has events any_rw
    then (-1, mk (from_option ev_closure EV_CLOSURE_NONE old) old_io (from_option min_heap_idx 0 old) (from_option ev_pri 0 old))
    else (0, mk EV_CLOSURE_SIGNAL old_io (-1) pri)
  else if has events EV_PERSIST then (0, mk EV_CLOSURE_PERSIST evutil_timerclear (-1) pri)
  else (0, mk EV_CLOSURE_NONE old_io (-1) pri).

Definition event_priority_set b (e pri : Z) : outcome (Z * event_base W) :=
  v ← ev_get (evs (qs b)) e;
  if has (ev_flags v) EVLIST_ACTIVE then Ret (-1, b)
  else if decide (pri < 0 ∨ Z.of_nat (length (activequeues (qs b))) <= pri) then Ret (-1, b)
  else Ret (0, with_qs b (q_event (qs b) e (ev_with_pri v pri))).

(** [mm_free]. *)
Definition ev_free b (e : Z) : event_base W := with_qs b (q_evs (qs b) (delete e (evs (qs b)))).

Definition event_free b (e : Z) : outcome (event_base W) :=
  r ← event_del b e; Ret (ev_free r.2 e).

(** Where [malloc] puts a new event: somewhere that is not in use. *)
Definition ev_alloc b : Z := fresh (dom (evs (qs b))).

Definition event_new b (fd events : Z) (cb : event_callback_fn) (arg : Z) : option Z * event_base W :=
  let r := os_realloc (os b) 128 in
  let b := with_os b r.2 in
  if negb r.1 then (None, b)
  else
    let e := ev_alloc b in
    let x := event_assign b e fd events cb arg in
    if x.1 <? 0 then (None, ev_free x.2 e) else (Some e, x.2).

Definition event_base_once b (fd events : Z) (cb : event_callback_fn) (arg : Z) (tv : option timeval) : outcome (Z * event_base W) :=
  if has events (Z.lor EV_SIGNAL EV_PERSIST) then Ret (-1, b)
  else
    let r := os_realloc (os b) 144 in
    let b := with_os b r.2 in
    if negb r.1 then Ret (-1, b)
    else
      let e := ev_alloc b in
      let b := with_onces b (<[e := (cb, arg)]> (onces b)) in
      let gone b := with_onces (ev_free b e) (delete e (onces b)) in
      let go ev tv :=
        let x := event_assign b e (if decide (ev = EV_TIMEOUT) then -1 else fd)
                   (if decide (ev = EV_TIMEOUT) then 0 else ev) Event_once_cb e in
        y ← event_add x.2 e tv;
        if decide (y.1 ≠ 0) then Ret (y.1, gone y.2) else Ret (0, y.2) in
      if decide (events = EV_TIMEOUT) then go EV_TIMEOUT (Some (default evutil_timerclear tv))
      else if has events any_rw then go (Z.land events any_rw) tv
      else Ret (-1, gone b).

(** * Descriptors that are ready *)

Fixpoint io_active_loop b (l : list Z) (events : Z) : outcome (event_base W) :=
  match l with
  | [] => Ret b
  | e :: l =>
      v ← ev_get (evs (qs b)) e;
      b ← (if has (ev_events v) events then event_active_nolock b e (Z.land (ev_events v) events) 1 else Ret b);
      io_active_loop b l events
  end.

Definition evmap_io_active b (fd events : Z) : outcome (event_base W) :=
  _ ← EVUTIL_ASSERT (bool_decide (fd < Z.of_nat (length (io b))));
  if decide (fd < 0) then Undef OutOfBounds
  else
    match io b !! Z.to_nat fd with
    | Some (Some ctx) => io_active_loop b (io_events ctx) events
    | _ => Exit 134
    end.

Fixpoint signal_active_loop b (l : list Z) (ncalls : Z) : outcome (event_base W) :=
  match l with
  | [] => Ret b
  | e :: l => b ← event_active_nolock b e EV_SIGNAL ncalls; signal_active_loop b l ncalls
  end.

Definition evmap_signal_active b (sig ncalls : Z) : outcome (event_base W) :=
  _ ← EVUTIL_ASSERT (bool_decide (sig < Z.of_nat (length (sigmap b))));
  match sigmap b !! Z.to_nat sig with
  | Some (Some l) => signal_active_loop b l ncalls
  | _ => Undef NullPointer
  end.
End core.
