(* ===== verification/EventInv.v ===== *)
(** The invariant of an event base, and that the operations of EventCore keep it.

    [q_ok]: an event's flags say on which queues it is, and the counters count.  [base_ok] adds the map
    of descriptors: an event that is inserted is in the map under its descriptor, and the kernel watches
    the descriptor for what its events want.  Both are about bases without common timeouts, and events
    that are neither for signals nor edge-triggered, as a worker of the program has them. *)
From S2P Require Import Prelude Evbuffer EventData MinHeap Epoll EventCore.

(** * Events but for their place in the heap *)

Definition core (v : event) : event := ev_with_idx v 0.
Definition cores (evs : store) (e : Z) : option event := core <$> evs !! e.

Definition flag (evs : store) (e queue : Z) : bool := from_option (λ v, has (ev_flags v) queue) false (cores evs e).
Definition pri_of (evs : store) (e : Z) : Z := from_option ev_pri 0 (cores evs e).
Definition want_of (evs : store) (e : Z) : Z := from_option ev_events 0 (cores evs e).

(** Nothing but [e] differs. *)
Definition frame (e : Z) (evs evs' : store) : Prop := ∀ x, x ≠ e → cores evs' x = cores evs x.

Lemma ev_get_ret evs e v : evs !! e = Some v → ev_get evs e = Ret v.
Proof. apply ev_get_Some. Qed.

Lemma cores_idx_upd l evs evs' x : idx_upd l evs evs' → cores evs' x = cores evs x.
Proof. intros H. destruct (H x) as [_ [i E]]. unfold cores. rewrite E. by destruct (evs !! x). Qed.

Lemma cores_insert evs e v x : cores (<[e := v]> evs) x = if decide (x = e) then Some (core v) else cores evs x.
Proof.
  unfold cores. case_decide as H; [subst; by rewrite lookup_insert_eq|by rewrite lookup_insert_ne by congruence].
Qed.

Lemma cores_delete evs e x : cores (delete e evs) x = if decide (x = e) then None else cores evs x.
Proof.
  unfold cores. case_decide as H; [subst; by rewrite lookup_delete_eq|by rewrite lookup_delete_ne by congruence].
Qed.

Lemma cores_Some evs e v : evs !! e = Some v → cores evs e = Some (core v).
Proof. unfold cores. by intros ->. Qed.

Lemma cores_inv evs e u : cores evs e = Some u → ∃ v, evs !! e = Some v ∧ u = core v.
Proof. unfold cores. destruct (evs !! e); naive_solver. Qed.

Lemma frame_refl e evs : frame e evs evs.
Proof. done. Qed.
Lemma frame_trans e evs1 evs2 evs3 : frame e evs1 evs2 → frame e evs2 evs3 → frame e evs1 evs3.
Proof. intros H1 H2 x Hx. by rewrite H2, H1. Qed.
Lemma frame_insert e evs v : frame e evs (<[e := v]> evs).
Proof. intros x Hx. rewrite cores_insert. by rewrite decide_False. Qed.
Lemma frame_idx e l evs evs' : idx_upd l evs evs' → frame e evs evs'.
Proof. intros H x _. by eapply cores_idx_upd. Qed.
#[export] Hint Resolve frame_refl frame_insert frame_idx : kv.

(** * The queues *)

Definition qbit (queue : Z) : Prop := queue = EVLIST_INSERTED ∨ queue = EVLIST_ACTIVE ∨ queue = EVLIST_TIMEOUT.

(** The events on a queue; [h] are the ones in the heap. *)
Definition listed (q : queues) (h : list Z) (queue : Z) : list Z :=
  if decide (queue = EVLIST_INSERTED) then eventqueue q
  else if decide (queue = EVLIST_ACTIVE) then concat (activequeues q)
  else h.

(** How many of them are not internal. *)
Definition visible (evs : store) (l : list Z) : Z :=
  Z.of_nat (length (filter (λ e, flag evs e EVLIST_INTERNAL = false) l)).

Record q_ok (q : queues) (h : list Z) : Prop := {
  qk_heap : heap_ok (evs q) (timeheap q) h;
  qk_common : common_timeout_queues q = [];
  qk_mem queue e : qbit queue → e ∈ listed q h queue ↔ flag (evs q) e queue = true;
  qk_nodup queue : qbit queue → NoDup (listed q h queue);
  qk_prio i l e : activequeues q !! i = Some l → e ∈ l → pri_of (evs q) e = Z.of_nat i;
  qk_vals e v : evs q !! e = Some v →
    0 <= ev_pri v < Z.of_nat (length (activequeues q)) ∧ Z.land (ev_flags v) (Z.lnot EVLIST_ALL) = 0;
  qk_count : event_count q = visible (evs q) (eventqueue q) + visible (evs q) (concat (activequeues q)) + visible (evs q) h;
  qk_active : event_count_active q = Z.of_nat (length (concat (activequeues q)));
  qk_size : Z.of_nat (size (evs q)) <= INT_MAX
}.

Lemma visible_perm evs l l' : l ≡ₚ l' → visible evs l = visible evs l'.
Proof. intros H. unfold visible. by rewrite H. Qed.

Lemma visible_cons evs e l : visible evs (e :: l) = visible evs l + (if flag evs e EVLIST_INTERNAL then 0 else 1).
Proof.
  unfold visible. destruct (flag evs e EVLIST_INTERNAL) eqn:E.
  - rewrite filter_cons_False by (rewrite E; done). lia.
  - rewrite filter_cons_True by done. cbn. lia.
Qed.

Lemma visible_ext evs evs' l :
  (∀ e, e ∈ l → flag evs' e EVLIST_INTERNAL = flag evs e EVLIST_INTERNAL) → visible evs' l = visible evs l.
Proof.
  intros H. unfold visible. do 2 f_equal. induction l as [|x l IH]; [done|].
  rewrite !filter_cons, H by left. rewrite IH; [done|]. intros e He. apply H. by right.
Qed.

Lemma concat_insert_perm (L : list (list Z)) i l l' :
  L !! i = Some l → concat (<[i := l']> L) ++ l ≡ₚ concat L ++ l'.
Proof.
  intros H. rewrite <- (take_drop_middle L i l H) at 2. rewrite insert_take_drop by (by eapply lookup_lt_Some).
  rewrite !concat_app. cbn. solve_Permutation.
Qed.

Lemma elem_of_concat_lookup (L : list (list Z)) e : e ∈ concat L ↔ ∃ i l, L !! i = Some l ∧ e ∈ l.
Proof.
  rewrite list_elem_of_In, in_concat. setoid_rewrite <- list_elem_of_In.
  split; [intros (l & [i Hi]%list_elem_of_lookup & He)|intros (i & l & Hi & He)]; eauto using list_elem_of_lookup_2.
Qed.

Lemma size_insert_dom (m : store) e v : is_Some (m !! e) → size (<[e := v]> m) = size m.
Proof. intros H. by rewrite map_size_insert_Some. Qed.

Lemma size_idx_upd l evs evs' : idx_upd l evs evs' → size evs' = size evs.
Proof.
  intros H. rewrite <- !size_dom. f_equal. apply set_eq. intros e. rewrite !elem_of_dom.
  destruct (H e) as [_ [i ->]]. by rewrite fmap_is_Some.
Qed.

Lemma flag_ext evs evs' e k : cores evs' e = cores evs e → flag evs' e k = flag evs e k.
Proof. unfold flag. by intros ->. Qed.

(** ** Flags *)

Definition tested (k : Z) : Prop := qbit k ∨ k = EVLIST_INTERNAL.

Lemma tested_qbit k : qbit k → tested k.
Proof. by left. Qed.
Lemma tested_internal : tested EVLIST_INTERNAL.
Proof. by right. Qed.
Lemma qbit_inserted : qbit EVLIST_INSERTED.
Proof. by left. Qed.
Lemma qbit_active : qbit EVLIST_ACTIVE.
Proof. by right; left. Qed.
Lemma qbit_timeout : qbit EVLIST_TIMEOUT.
Proof. by right; right. Qed.
#[export] Hint Resolve tested_qbit tested_internal qbit_inserted qbit_active qbit_timeout : kv.

Lemma has_set f queue k : tested k → qbit queue → has (Z.lor f queue) k = has f k || bool_decide (k = queue).
Proof.
  intros Hk Hq. rewrite has_lor. f_equal. unfold tested, qbit in *. naive_solver.
Qed.

Lemma has_cleared f queue k :
  tested k → qbit queue → has (Z.land f (Z.lnot queue)) k = has f k && negb (bool_decide (k = queue)).
Proof.
  intros Hk Hq. destruct (decide (k = queue)) as [->|Hne].
  - rewrite has_clear, bool_decide_eq_true_2 by done. by rewrite andb_false_r.
  - rewrite bool_decide_eq_false_2, andb_true_r by done. apply has_clear_other.
    unfold tested, qbit in *. naive_solver.
Qed.

Lemma all_set f queue : Z.land f (Z.lnot EVLIST_ALL) = 0 → qbit queue → Z.land (Z.lor f queue) (Z.lnot EVLIST_ALL) = 0.
Proof.
  intros Hf Hq. rewrite Z.land_lor_distr_l, Hf. destruct Hq as [->|[->| ->]]; done.
Qed.

Lemma all_cleared f queue : Z.land f (Z.lnot EVLIST_ALL) = 0 → Z.land (Z.land f (Z.lnot queue)) (Z.lnot EVLIST_ALL) = 0.
Proof.
  intros Hf. by rewrite <- Z.land_assoc, (Z.land_comm (Z.lnot queue)), Z.land_assoc, Hf, Z.land_0_l.
Qed.

Lemma flag_lookup evs e v k : evs !! e = Some v → flag evs e k = has (ev_flags v) k.
Proof. intros H. unfold flag. by rewrite (cores_Some _ _ _ H). Qed.

Lemma flag_dom evs e k : flag evs e k = true → ∃ v, evs !! e = Some v ∧ has (ev_flags v) k = true.
Proof.
  unfold flag. destruct (cores evs e) as [u|] eqn:E; [|done]. intros Hk.
  apply cores_inv in E as (v & Hv & ->). eauto.
Qed.

(** ** The flag of a queue is set, or cleared *)

(** [q'] is [q] with the flags of [e] replaced by [f] and the counters moved by [d]. *)
Record moved (q q' : queues) (h' : list Z) (e : Z) (v : event) (f queue d : Z) : Prop := {
  mv_heap : heap_ok (evs q') (timeheap q') h';
  mv_common : common_timeout_queues q' = common_timeout_queues q;
  mv_cores x : cores (evs q') x = cores (<[e := ev_with_flags v f]> (evs q)) x;
  mv_prio i l x : activequeues q' !! i = Some l → x ∈ l → pri_of (evs q') x = Z.of_nat i;
  mv_len : length (activequeues q') = length (activequeues q);
  mv_count : event_count q' = event_count q + (if has (ev_flags v) EVLIST_INTERNAL then 0 else d);
  mv_active : event_count_active q' = event_count_active q + (if decide (queue = EVLIST_ACTIVE) then d else 0);
  mv_size : size (evs q') = size (evs q)
}.

Lemma moved_vals q q' h h' e v f queue d x w :
  q_ok q h → moved q q' h' e v f queue d → evs q !! e = Some v → Z.land f (Z.lnot EVLIST_ALL) = 0 →
  evs q' !! x = Some w →
  0 <= ev_pri w < Z.of_nat (length (activequeues q')) ∧ Z.land (ev_flags w) (Z.lnot EVLIST_ALL) = 0.
Proof.
  intros H M Hv Hf Hw. rewrite (mv_len _ _ _ _ _ _ _ _ M).
  pose proof (mv_cores _ _ _ _ _ _ _ _ M x) as C. rewrite (cores_Some _ _ _ Hw), cores_insert in C.
  case_decide as Hx.
  - simplify_eq. destruct w; cbn in *; simplify_eq/=. split; [|done]. by apply (qk_vals _ _ H e v).
  - symmetry in C. apply cores_inv in C as (u & Hu & E). destruct (qk_vals _ _ H x u Hu).
    destruct w, u; cbn in *; by simplify_eq/=.
Qed.

Lemma moved_flag q q' h' e v f queue d x k :
  moved q q' h' e v f queue d →
  flag (evs q') x k = if decide (x = e) then has f k else flag (evs q) x k.
Proof.
  intros M. unfold flag. rewrite (mv_cores _ _ _ _ _ _ _ _ M x), cores_insert. by case_decide.
Qed.

Lemma moved_internal q q' h' e v f queue d x :
  moved q q' h' e v f queue d → evs q !! e = Some v → has f EVLIST_INTERNAL = has (ev_flags v) EVLIST_INTERNAL →
  flag (evs q') x EVLIST_INTERNAL = flag (evs q) x EVLIST_INTERNAL.
Proof.
  intros M Hv Hf. rewrite (moved_flag _ _ _ _ _ _ _ _ _ _ M). case_decide; [subst|done].
  by rewrite (flag_lookup _ _ _ _ Hv).
Qed.

Lemma listed_queue q h :
  listed q h EVLIST_INSERTED = eventqueue q ∧ listed q h EVLIST_ACTIVE = concat (activequeues q) ∧
  listed q h EVLIST_TIMEOUT = h.
Proof. done. Qed.

Lemma moved_visible q q' h' e v f queue d l :
  moved q q' h' e v f queue d → evs q !! e = Some v → has f EVLIST_INTERNAL = has (ev_flags v) EVLIST_INTERNAL →
  visible (evs q') l = visible (evs q) l.
Proof. intros M Hv Hf. apply visible_ext. intros x _. by eapply moved_internal. Qed.

Lemma set_ok q q' h h' e v queue :
  q_ok q h → qbit queue → evs q !! e = Some v → has (ev_flags v) queue = false →
  moved q q' h' e v (Z.lor (ev_flags v) queue) queue 1 →
  (∀ k, qbit k → listed q' h' k ≡ₚ if decide (k = queue) then e :: listed q h k else listed q h k) →
  q_ok q' h'.
Proof.
  intros H Hq Hv Hf M Hl.
  assert (has (Z.lor (ev_flags v) queue) EVLIST_INTERNAL = has (ev_flags v) EVLIST_INTERNAL) as Hint.
  { rewrite has_set by auto with kv. rewrite bool_decide_eq_false_2, orb_false_r; [done|].
    destruct Hq as [->|[->| ->]]; done. }
  assert (∀ k, qbit k → visible (evs q') (listed q' h' k) = visible (evs q) (listed q h k) +
            if decide (k = queue) then if has (ev_flags v) EVLIST_INTERNAL then 0 else 1 else 0) as Hvis.
  { intros k Hk. rewrite (visible_perm _ _ _ (Hl k Hk)), (moved_visible _ _ _ _ _ _ _ _ _ M Hv Hint).
    case_decide; [|lia]. by rewrite visible_cons, (flag_lookup _ _ _ _ Hv). }
  split; try apply M.
  - rewrite (mv_common _ _ _ _ _ _ _ _ M). apply H.
  - intros k x Hk. rewrite (Hl k Hk), (moved_flag _ _ _ _ _ _ _ _ _ _ M).
    pose proof (qk_mem _ _ H k x Hk) as Hx. case_decide as Hkq; [subst k; rewrite elem_of_cons|];
      (destruct (decide (x = e)) as [->|Hxe]; [rewrite (flag_lookup _ _ _ _ Hv) in Hx; rewrite has_set by auto with kv|]).
    + rewrite bool_decide_eq_true_2, orb_true_r by done. naive_solver.
    + naive_solver.
    + rewrite bool_decide_eq_false_2, orb_false_r by done. done.
    + done.
  - intros k Hk. rewrite (Hl k Hk). pose proof (qk_nodup _ _ H k Hk). case_decide; [subst|done].
    constructor; [|done]. rewrite (qk_mem _ _ H _ _ Hk), (flag_lookup _ _ _ _ Hv). by rewrite Hf.
  - intros x w. eapply moved_vals; eauto. apply all_set; [|done]. by apply (qk_vals _ _ H e v).
  - rewrite (mv_count _ _ _ _ _ _ _ _ M), (qk_count _ _ H).
    pose proof (Hvis EVLIST_INSERTED ltac:(by left)). pose proof (Hvis EVLIST_ACTIVE ltac:(by right; left)).
    pose proof (Hvis EVLIST_TIMEOUT ltac:(by right; right)). cbn [listed] in *.
    destruct (listed_queue q h) as (E1 & E2 & E3), (listed_queue q' h') as (E1' & E2' & E3').
    rewrite ?E1, ?E2, ?E3, ?E1', ?E2', ?E3' in *.
    destruct Hq as [->|[->| ->]]; repeat case_decide; try done; lia.
  - rewrite (mv_active _ _ _ _ _ _ _ _ M), (qk_active _ _ H).
    pose proof (Permutation_length (Hl EVLIST_ACTIVE ltac:(by right; left))) as HL.
    rewrite (proj1 (proj2 (listed_queue q' h'))), (proj1 (proj2 (listed_queue q h))) in HL.
    repeat case_decide; subst; cbn [length] in *; try done; lia.
  - rewrite (mv_size _ _ _ _ _ _ _ _ M). apply H.
Qed.

Lemma cleared_ok q q' h h' e v queue :
  q_ok q h → qbit queue → evs q !! e = Some v → has (ev_flags v) queue = true →
  moved q q' h' e v (Z.land (ev_flags v) (Z.lnot queue)) queue (-1) →
  (∀ k, qbit k → (if decide (k = queue) then e :: listed q' h' k else listed q' h' k) ≡ₚ listed q h k) →
  q_ok q' h'.
Proof.
  intros H Hq Hv Hf M Hl.
  assert (has (Z.land (ev_flags v) (Z.lnot queue)) EVLIST_INTERNAL = has (ev_flags v) EVLIST_INTERNAL) as Hint.
  { rewrite has_cleared by auto with kv. rewrite bool_decide_eq_false_2, andb_true_r; [done|].
    destruct Hq as [->|[->| ->]]; done. }
  assert (∀ k, qbit k → visible (evs q') (listed q' h' k) = visible (evs q) (listed q h k) -
            if decide (k = queue) then if has (ev_flags v) EVLIST_INTERNAL then 0 else 1 else 0) as Hvis.
  { intros k Hk. rewrite <- (visible_perm _ _ _ (Hl k Hk)), (moved_visible _ _ _ _ _ _ _ _ _ M Hv Hint).
    case_decide; [|lia]. rewrite visible_cons, (flag_lookup _ _ _ _ Hv). lia. }
  split; try apply M.
  - rewrite (mv_common _ _ _ _ _ _ _ _ M). apply H.
  - intros k x Hk. rewrite (moved_flag _ _ _ _ _ _ _ _ _ _ M).
    pose proof (qk_mem _ _ H k x Hk) as Hx. pose proof (qk_nodup _ _ H k Hk) as Hnd.
    specialize (Hl k Hk). rewrite <- Hl in Hx, Hnd. case_decide as Hkq; [subst k; rewrite elem_of_cons in Hx|];
      (destruct (decide (x = e)) as [->|Hxe]; [rewrite (flag_lookup _ _ _ _ Hv) in Hx; rewrite has_cleared by auto with kv|]).
    + rewrite bool_decide_eq_true_2, andb_false_r by done. apply NoDup_cons in Hnd. naive_solver.
    + naive_solver.
    + rewrite bool_decide_eq_false_2, andb_true_r by done. done.
    + done.
  - intros k Hk. pose proof (qk_nodup _ _ H k Hk) as Hnd. specialize (Hl k Hk). rewrite <- Hl in Hnd.
    case_decide; [by apply NoDup_cons in Hnd as []|done].
  - intros x w. eapply moved_vals; eauto. apply all_cleared. by apply (qk_vals _ _ H e v).
  - rewrite (mv_count _ _ _ _ _ _ _ _ M), (qk_count _ _ H).
    pose proof (Hvis EVLIST_INSERTED ltac:(by left)). pose proof (Hvis EVLIST_ACTIVE ltac:(by right; left)).
    pose proof (Hvis EVLIST_TIMEOUT ltac:(by right; right)).
    destruct (listed_queue q h) as (E1 & E2 & E3), (listed_queue q' h') as (E1' & E2' & E3').
    rewrite ?E1, ?E2, ?E3, ?E1', ?E2', ?E3' in *.
    destruct Hq as [->|[->| ->]]; repeat case_decide; try done; case_match; lia.
  - rewrite (mv_active _ _ _ _ _ _ _ _ M), (qk_active _ _ H).
    pose proof (Permutation_length (Hl EVLIST_ACTIVE ltac:(by right; left))) as HL.
    rewrite (proj1 (proj2 (listed_queue q' h'))), (proj1 (proj2 (listed_queue q h))) in HL.
    repeat case_decide; subst; cbn [length] in *; try done; lia.
  - rewrite (mv_size _ _ _ _ _ _ _ _ M). apply H.
Qed.

(** ** The heap when other fields change *)

Lemma heap_ok_same evs evs' s l :
  heap_ok evs s l → (∀ x, min_heap_idx <$> evs' !! x = min_heap_idx <$> evs !! x) →
  (∀ x, x ∈ l → ev_timeout <$> evs' !! x = ev_timeout <$> evs !! x) → heap_ok evs' s l.
Proof.
  intros [[R1 R2 R3 R4] Ho Hc Hout] Hi Ht. split; [split; try done| |done|].
  - intros i e He. destruct (R4 i e He) as (v & Hv & E). pose proof (Hi e) as Hx. rewrite Hv in Hx.
    destruct (evs' !! e) as [v'|]; [|done]. simplify_eq/=. exists v'. split; [done|congruence].
  - assert (∀ x, x ∈ l → due evs' x = due evs x) as Hd.
    { intros x Hx. unfold due. specialize (Ht x Hx). destruct (evs' !! x), (evs !! x); by simplify_eq/=. }
    intros i x y H0 Hy Hx. rewrite !Hd by (by eapply list_elem_of_lookup_2). by eapply Ho.
  - intros x v' Hv' Hx. specialize (Hi x). rewrite Hv' in Hi.
    destruct (evs !! x) as [v|] eqn:Hv; [|done]. simplify_eq/=. rewrite Hi. by eapply Hout.
Qed.

Lemma heap_ok_insert evs s l e v v' :
  heap_ok evs s l → evs !! e = Some v → min_heap_idx v' = min_heap_idx v → (e ∈ l → ev_timeout v' = ev_timeout v) →
  heap_ok (<[e := v']> evs) s l.
Proof.
  intros H Hv Hi Ht. eapply heap_ok_same; [done|intros x|intros x Hx];
    (destruct (decide (x = e)) as [->|Hne]; [rewrite lookup_insert_eq, Hv; cbn|by rewrite lookup_insert_ne]).
  - by rewrite Hi.
  - by rewrite Ht.
Qed.

(** ** Insertion and removal *)

Lemma alter_insert_lookup {A} (f : A → A) (L : list A) i l : L !! i = Some l → alter f i L = <[i := f l]> L.
Proof. revert i. induction L as [|y L IH]; intros [|i] Hl; cbn in *; simplify_eq; [done|]. f_equal. by apply IH. Qed.

Definition enqueue (q : queues) (e : Z) (v : event) (f d : Z) : queues :=
  q_event (if has (ev_flags v) EVLIST_INTERNAL then q else q_count q (event_count q + d)) e (ev_with_flags v f).

Lemma enqueue_fields q e v f d :
  evs (enqueue q e v f d) = <[e := ev_with_flags v f]> (evs q) ∧ eventqueue (enqueue q e v f d) = eventqueue q ∧
  activequeues (enqueue q e v f d) = activequeues q ∧ timeheap (enqueue q e v f d) = timeheap q ∧
  common_timeout_queues (enqueue q e v f d) = common_timeout_queues q ∧
  event_count (enqueue q e v f d) = event_count q + (if has (ev_flags v) EVLIST_INTERNAL then 0 else d) ∧
  event_count_active (enqueue q e v f d) = event_count_active q.
Proof. unfold enqueue. destruct (has _ _); cbn; split_and!; try done; lia. Qed.

Lemma prio_frame q h evs' e v f i l x :
  q_ok q h → evs q !! e = Some v → (∀ x, cores evs' x = cores (<[e := ev_with_flags v f]> (evs q)) x) →
  activequeues q !! i = Some l → x ∈ l → pri_of evs' x = Z.of_nat i.
Proof.
  intros H Hv Hc Hl Hx. rewrite <- (qk_prio _ _ H i l x Hl Hx). unfold pri_of.
  rewrite Hc, cores_insert. case_decide; [subst|done]. by rewrite (cores_Some _ _ _ Hv).
Qed.

(** The same when [e] may join the active queue of its priority. *)
Lemma prio_active q h evs' e v f l l' :
  q_ok q h → evs q !! e = Some v → (∀ x, cores evs' x = cores (<[e := ev_with_flags v f]> (evs q)) x) →
  activequeues q !! Z.to_nat (ev_pri v) = Some l → (∀ x, x ∈ l' → x ∈ l ∨ x = e) →
  ∀ i k x, <[Z.to_nat (ev_pri v) := l']> (activequeues q) !! i = Some k → x ∈ k → pri_of evs' x = Z.of_nat i.
Proof.
  intros H Hv Hc Hl Hin i k x Hk Hx. destruct (decide (i = Z.to_nat (ev_pri v))) as [->|Hi].
  - rewrite list_lookup_insert_eq in Hk by (by eapply lookup_lt_Some). simplify_eq.
    destruct (Hin x Hx) as [?| ->]; [by eapply (prio_frame q h)|].
    destruct (qk_vals _ _ H e v Hv) as [Hpr _]. unfold pri_of. rewrite Hc, cores_insert, decide_True by done. cbn. lia.
  - rewrite list_lookup_insert_ne in Hk by done. by eapply (prio_frame q h).
Qed.

Lemma is_common_none tv q : common_timeout_queues q = [] → 0 <= tv_usec tv → is_common_timeout tv q = false.
Proof.
  intros Hq Ht. unfold is_common_timeout. rewrite Hq, (bool_decide_eq_false_2 (_ < _)); [by rewrite andb_false_r|].
  cbn. unfold COMMON_TIMEOUT_IDX. assert (0 <= Z.shiftr (Z.land (tv_usec tv) COMMON_TIMEOUT_IDX_MASK) COMMON_TIMEOUT_IDX_SHIFT); [|lia].
  apply Z.shiftr_nonneg, Z.land_nonneg. by left.
Qed.

(** An event that is active. *)
Lemma active_lookup q h e v :
  q_ok q h → evs q !! e = Some v →
  ∃ l, activequeues q !! Z.to_nat (ev_pri v) = Some l ∧ active_queue q (ev_pri v) = Ret l ∧
    (has (ev_flags v) EVLIST_ACTIVE = true → e ∈ l) ∧ NoDup l.
Proof.
  intros H Hv. destruct (qk_vals _ _ H e v Hv) as [Hp _].
  destruct (lookup_lt_is_Some_2 (activequeues q) (Z.to_nat (ev_pri v))) as [l Hl]; [lia|].
  exists l. split; [done|]. unfold active_queue. rewrite decide_True, Hl by lia. split; [done|].
  pose proof (qk_nodup _ _ H EVLIST_ACTIVE ltac:(by right; left)) as Hnd.
  pose proof (qk_mem _ _ H EVLIST_ACTIVE e ltac:(by right; left)) as Hm.
  destruct (listed_queue q h) as (_ & E & _). rewrite E in *. split.
  - intros Hf. rewrite (flag_lookup _ _ _ _ Hv) in Hm. apply Hm in Hf as (i & l' & Hl' & He)%elem_of_concat_lookup.
    pose proof (qk_prio _ _ H i l' e Hl' He) as Hpr. unfold pri_of in Hpr. rewrite (cores_Some _ _ _ Hv) in Hpr.
    cbn in Hpr. rewrite Hpr, Nat2Z.id in Hl. by simplify_eq.
  - rewrite <- (take_drop_middle _ _ _ Hl), concat_app in Hnd. cbn in Hnd. by apply NoDup_app in Hnd as (_ & _ & [? _]%NoDup_app).
Qed.

(** The flags and the counter of an event that moves; what stays. *)
Ltac queue_moves H Hv fl d :=
  match type of Hv with evs ?q !! ?e = Some ?v =>
    set (f := fl); fold (enqueue q e v f d);
    destruct (enqueue_fields q e v f d) as (F1 & F2 & F3 & F4 & F5 & F6 & F7);
    pose proof (heap_ok_insert _ _ _ e v (ev_with_flags v f) (qk_heap _ _ H) Hv eq_refl ltac:(done)) as Hheap;
    assert (size (<[e:=ev_with_flags v f]> (evs q)) = size (evs q)) as Hsz by (apply size_insert_dom; by rewrite Hv);
    set (q1 := enqueue q e v f d) in *; clearbody q1
  end.

(** [event_queue_insert]: where the event ends up. *)
Record inserted (q q' : queues) (h h' : list Z) (e : Z) (v : event) (queue : Z) : Prop := {
  is_ok : q_ok q' h';
  is_cores x : cores (evs q') x = cores (<[e := ev_with_flags v (Z.lor (ev_flags v) queue)]> (evs q)) x;
  is_eventqueue : eventqueue q' = if decide (queue = EVLIST_INSERTED) then eventqueue q ++ [e] else eventqueue q;
  is_active : activequeues q' =
    if decide (queue = EVLIST_ACTIVE)
    then alter (λ l, l ++ [e]) (Z.to_nat (ev_pri v)) (activequeues q) else activequeues q;
  is_heap : h' ≡ₚ if decide (queue = EVLIST_TIMEOUT) then e :: h else h;
  is_size : size (evs q') = size (evs q);
  is_same : queue ≠ EVLIST_TIMEOUT → timeheap q' = timeheap q
}.

Section inserting.
Context {W : Type} `{!EvOs W}.

Lemma queue_insert_timeout (w : W) q h e v :
  q_ok q h → evs q !! e = Some v → has (ev_flags v) EVLIST_TIMEOUT = false →
  n (timeheap q) < a (timeheap q) → 0 <= tv_usec (ev_timeout v) →
  ∃ q' h', event_queue_insert w q e EVLIST_TIMEOUT = Ret (q', w) ∧ inserted q q' h h' e v EVLIST_TIMEOUT.
Proof.
  intros H Hv Hf Hna Hus. unfold event_queue_insert, ev_get. rewrite Hv. cbn [mbind outcome_bind]. rewrite Hf.
  queue_moves H Hv (Z.lor (ev_flags v) EVLIST_TIMEOUT) 1.
  rewrite decide_False, decide_False, decide_True by done. cbn [ev_timeout ev_with_flags].
  rewrite is_common_none by (rewrite ?F5; first [done|apply H]). rewrite F1, F4.
  assert (e ∉ h) as Heh.
  { pose proof (qk_mem _ _ H EVLIST_TIMEOUT e ltac:(by right; right)) as Hm. rewrite (flag_lookup _ _ _ _ Hv) in Hm.
    intros He. apply Hm in He. congruence. }
  pose proof (heap_size_strict _ _ _ e Hheap ltac:(by rewrite lookup_insert_eq) Heh) as Hsz'.
  rewrite Hsz in Hsz'. pose proof (qk_size _ _ H).
  destruct (push_ok w _ _ _ e Hheap) as (evs' & s' & w' & [(_ & _ & _ & Ha & _)|(E & h' & Hok & Hp & Hu)]);
    [by rewrite lookup_insert_eq|done|lia|lia|].
  assert (w' = w) as ->.
  { eapply push_room; [| |done]; pose proof (ok_cap _ _ _ Hheap); pose proof (rep_len _ _ _ (ok_rep _ _ _ Hheap)); lia. }
  rewrite E. cbn [mbind outcome_bind fst snd]. eexists _, h'. split; [done|].
  assert (∀ x, cores evs' x = cores (<[e:=ev_with_flags v f]> (evs q)) x) as Hc by (intros x; by eapply cores_idx_upd).
  assert (size evs' = size (evs q)) as Hsize by (by rewrite (size_idx_upd _ _ _ Hu)).
  split; cbn; rewrite ?F2, ?F3; try done.
  eapply (set_ok q _ h h' e v EVLIST_TIMEOUT); try done; [by right; right| |].
  - split; cbn; rewrite ?F2, ?F3, ?F4, ?F5, ?F6, ?F7; try done; [|by rewrite decide_False, Z.add_0_r by done].
    intros i l x Hl Hx. by eapply (prio_frame q h).
  - intros k Hk. unfold listed. cbn. rewrite ?F2, ?F3. destruct Hk as [->|[->| ->]]; done.
Qed.

Lemma queue_insert_ok (w : W) q h e v queue :
  q_ok q h → qbit queue → evs q !! e = Some v → has (ev_flags v) queue = false →
  (queue = EVLIST_TIMEOUT → n (timeheap q) < a (timeheap q) ∧ 0 <= tv_usec (ev_timeout v)) →
  ∃ q' h', event_queue_insert w q e queue = Ret (q', w) ∧ inserted q q' h h' e v queue.
Proof.
  intros H Hq Hv Hf Hroom. destruct (decide (queue = EVLIST_TIMEOUT)) as [->|Hnt].
  { destruct (Hroom eq_refl). by apply queue_insert_timeout. }
  unfold event_queue_insert, ev_get. rewrite Hv. cbn [mbind outcome_bind]. rewrite Hf.
  queue_moves H Hv (Z.lor (ev_flags v) queue) 1.
  destruct Hq as [->|[->| ->]]; [| |done].
  - rewrite decide_True by done. eexists _, h. split; [done|].
    split; cbn; rewrite ?F1, ?F2, ?F3; try done.
    eapply (set_ok q _ h h e v EVLIST_INSERTED); try done; [by left| |].
    + split; cbn; rewrite ?F1, ?F2, ?F3, ?F4, ?F5, ?F6, ?F7; try done; [|by rewrite decide_False, Z.add_0_r by done].
      intros i l x Hl Hx. by eapply (prio_frame q h).
    + intros k Hk. unfold listed. cbn. rewrite ?F2, ?F3. repeat case_decide; subst; try done. solve_Permutation.
  - rewrite decide_False, decide_True by done. cbn [ev_pri ev_with_flags].
    destruct (active_lookup _ _ _ _ H Hv) as (l & Hl & _).
    destruct (qk_vals _ _ H e v Hv) as [Hpr _].
    unfold active_queue. rewrite F3, decide_True, Hl by lia. cbn [mbind outcome_bind].
    eexists _, h. split; [done|].
    split; cbn; rewrite ?F1, ?F2; try done; [|by rewrite decide_True, (alter_insert_lookup _ _ _ _ Hl)].
    eapply (set_ok q _ h h e v EVLIST_ACTIVE); try done; [by right; left| |].
    + split; cbn; rewrite ?F1, ?F2, ?F3, ?F4, ?F5, ?F6, ?F7; try done; [|by rewrite length_insert].
      apply (prio_active q h _ e v f l); try done. intros x. rewrite elem_of_app, list_elem_of_singleton. tauto.
    + intros k Hk. unfold listed. cbn. rewrite ?F2. repeat case_decide; subst; try done.
      pose proof (concat_insert_perm _ _ _ (l ++ [e]) Hl) as Hp. 
      apply (Permutation_app_inv_r l). rewrite Hp. solve_Permutation.
Qed.
End inserting.

(** [event_queue_remove]. *)
Record taken (q q' : queues) (h h' : list Z) (e : Z) (v : event) (queue : Z) : Prop := {
  tk_ok : q_ok q' h';
  tk_cores x : cores (evs q') x = cores (<[e := ev_with_flags v (Z.land (ev_flags v) (Z.lnot queue))]> (evs q)) x;
  tk_eventqueue : eventqueue q' = if decide (queue = EVLIST_INSERTED) then filter (λ x, x ≠ e) (eventqueue q) else eventqueue q;
  tk_active : activequeues q' =
    if decide (queue = EVLIST_ACTIVE)
    then alter (filter (λ x, x ≠ e)) (Z.to_nat (ev_pri v)) (activequeues q) else activequeues q;
  tk_heap : if decide (queue = EVLIST_TIMEOUT) then h ≡ₚ e :: h' else h' = h;
  tk_size : size (evs q') = size (evs q);
  tk_room : n (timeheap q') + (if decide (queue = EVLIST_TIMEOUT) then 1 else 0) <= a (timeheap q');
  tk_same : queue ≠ EVLIST_TIMEOUT → timeheap q' = timeheap q
}.

Lemma queue_remove_timeout q h e v :
  q_ok q h → evs q !! e = Some v → has (ev_flags v) EVLIST_TIMEOUT = true → 0 <= tv_usec (ev_timeout v) →
  ∃ q' h', event_queue_remove q e EVLIST_TIMEOUT = Ret q' ∧ taken q q' h h' e v EVLIST_TIMEOUT.
Proof.
  intros H Hv Hf Hus. unfold event_queue_remove, ev_get. rewrite Hv. cbn [mbind outcome_bind]. rewrite Hf. cbn [negb].
  replace (event_count q - 1) with (event_count q + -1) by lia.
  pose proof (qk_mem _ _ H EVLIST_TIMEOUT e ltac:(by right; right)) as Hmem. rewrite (flag_lookup _ _ _ _ Hv) in Hmem.
  pose proof (proj2 Hmem Hf) as Hin. clear Hmem. pose proof (ok_cap _ _ _ (qk_heap _ _ H)) as [_ Hcap].
  queue_moves H Hv (Z.land (ev_flags v) (Z.lnot EVLIST_TIMEOUT)) (-1).
  rewrite decide_False, decide_False, decide_True by done. cbn [ev_timeout ev_with_flags].
  rewrite is_common_none by (rewrite ?F5; first [done|apply H]). rewrite F1, F4. cbn in Hin.
  destruct (erase_ok _ _ _ _ Hheap Hin) as (evs' & s' & h' & -> & Hok & Hp & Hu & Ha).
  cbn [mbind outcome_bind fst snd]. eexists _, h'. split; [done|].
  assert (∀ x, cores evs' x = cores (<[e:=ev_with_flags v f]> (evs q)) x) as Hc by (intros x; by eapply cores_idx_upd).
  assert (size evs' = size (evs q)) as Hsize by (by rewrite (size_idx_upd _ _ _ Hu)).
  split; cbn; rewrite ?F2, ?F3; try done.
  2: { rewrite decide_True by done. rewrite Ha, (rep_len _ _ _ (ok_rep _ _ _ Hok)).
       rewrite (rep_len _ _ _ (ok_rep _ _ _ Hheap)), Hp in Hcap. cbn in Hcap. lia. }
  eapply (cleared_ok q _ h h' e v EVLIST_TIMEOUT); try done; [by right; right| |].
  - split; cbn; rewrite ?F2, ?F3, ?F4, ?F5, ?F6, ?F7; try done; [|by rewrite decide_False, Z.add_0_r by done].
    intros i l x Hl Hx. by eapply (prio_frame q h).
  - intros k Hk. unfold listed. cbn. rewrite ?F2, ?F3. destruct Hk as [->|[->| ->]]; try done.
Qed.

Lemma queue_remove_ok q h e v queue :
  q_ok q h → qbit queue → evs q !! e = Some v → has (ev_flags v) queue = true →
  (queue = EVLIST_TIMEOUT → 0 <= tv_usec (ev_timeout v)) →
  ∃ q' h', event_queue_remove q e queue = Ret q' ∧ taken q q' h h' e v queue.
Proof.
  intros H Hq Hv Hf Hus. destruct (decide (queue = EVLIST_TIMEOUT)) as [->|Hnt].
  { apply queue_remove_timeout; auto. }
  unfold event_queue_remove, ev_get. rewrite Hv. cbn [mbind outcome_bind]. rewrite Hf. cbn [negb].
  replace (event_count q - 1) with (event_count q + -1) by lia.
  pose proof (qk_mem _ _ H queue e Hq) as Hmem. rewrite (flag_lookup _ _ _ _ Hv) in Hmem.
  pose proof (proj2 Hmem Hf) as Hin. pose proof (qk_nodup _ _ H queue Hq) as Hnd. clear Hmem.
  pose proof (ok_cap _ _ _ (qk_heap _ _ H)) as [_ Hcap].
  queue_moves H Hv (Z.land (ev_flags v) (Z.lnot queue)) (-1).
  destruct Hq as [->|[->| ->]]; [| |done].
  - rewrite decide_True by done. cbn in Hin, Hnd. rewrite F2, tailq_remove_ok by done. cbn [mbind outcome_bind].
    eexists _, h. split; [done|].
    split; cbn; rewrite ?F1, ?F3, ?F4; try done; [|rewrite decide_False by done; lia].
    eapply (cleared_ok q _ h h e v EVLIST_INSERTED); try done; [by left| |].
    + split; cbn; rewrite ?F1, ?F2, ?F3, ?F4, ?F5, ?F6, ?F7; try done; [|by rewrite decide_False, Z.add_0_r by done].
      intros i l x Hl Hx. by eapply (prio_frame q h).
    + intros k Hk. unfold listed. cbn. rewrite ?F2, ?F3. repeat case_decide; subst; try done.
      symmetry. by apply remove_perm.
  - rewrite decide_False, decide_True by done. cbn [ev_pri ev_with_flags].
    destruct (active_lookup _ _ _ _ H Hv) as (l & Hl & _ & He & Hndl). specialize (He Hf).
    destruct (qk_vals _ _ H e v Hv) as [Hpr _].
    unfold active_queue. rewrite F3, decide_True, Hl by lia. cbn [mbind outcome_bind].
    rewrite tailq_remove_ok by done. cbn [mbind outcome_bind].
    eexists _, h. split; [done|].
    split; cbn; rewrite ?F1, ?F2, ?F4; try done;
      [|by rewrite decide_True, (alter_insert_lookup _ _ _ _ Hl)|rewrite decide_False by done; lia].
    eapply (cleared_ok q _ h h e v EVLIST_ACTIVE); try done; [by right; left| |].
    + split; cbn; rewrite ?F1, ?F2, ?F3, ?F4, ?F5, ?F6, ?F7; try done; [|by rewrite length_insert].
      apply (prio_active q h _ e v f l); try done. intros x Hx%list_elem_of_filter. tauto.
    + intros k Hk. unfold listed. cbn. rewrite ?F2. repeat case_decide; subst; try done.
      pose proof (concat_insert_perm _ _ _ (filter (λ x, x ≠ e) l) Hl) as Hp.
      apply (Permutation_app_inv_r (filter (λ x, x ≠ e) l)). rewrite <- Hp.
      etrans; [|apply Permutation_app_head; symmetry; by apply (remove_perm e)]. solve_Permutation.
Qed.

(** * The base *)

Definition tv_normal (t : timeval) : Prop := 0 <= tv_usec t < 1000000.

(** An event for a descriptor, a timeout or both, with a callback that is not a signal's. *)
Record plain_event (v : event) : Prop := {
  pe_base : ev_base v = true;
  pe_signal : has (ev_events v) EV_SIGNAL = false;
  pe_et : Z.land (ev_events v) EV_ET = 0;
  pe_fd : ev_fd v < FD_LIMIT;
  pe_due : tv_normal (ev_timeout v);
  pe_interval : tv_normal (ev_io_timeout v);
  pe_closure : ev_closure v = if has (ev_events v) EV_PERSIST then EV_CLOSURE_PERSIST else EV_CLOSURE_NONE
}.

Definition fd_of (evs : store) (e : Z) : Z := from_option ev_fd (-1) (cores evs e).

(** The clocks can be read. *)
Class ClockOk (W : Type) `{!EvOs W} := {
  clock_reads (w : W) : ∃ s ns, (clock_gettime w).1 = Some (s, ns) ∧ 0 <= ns < 1000000000;
  timeofday_reads (w : W) : ∃ t, (gettimeofday w).1 = Some t ∧ tv_normal t
}.

Section base.
Context {W : Type} `{!EvOs W, !EpollOk W, !Evsig W}.
Implicit Types b : event_base W.

(** [h]: the events in the heap. *)
Record base_ok b (h : list Z) : Prop := {
  bo_q : q_ok (qs b) h;
  bo_io : io_ok (want_of (evs (qs b))) (os b) (io b);
  bo_len : Z.of_nat (length (io b)) <= 2 * FD_LIMIT;
  bo_map e fd : 0 <= fd →
    e ∈ io_on (io b) fd ↔ flag (evs (qs b)) e EVLIST_INSERTED = true ∧ fd_of (evs (qs b)) e = fd;
  bo_want e : flag (evs (qs b)) e EVLIST_INSERTED = true → has (want_of (evs (qs b)) e) any_rw = true;
  bo_ev e v : evs (qs b) !! e = Some v → plain_event v;
  bo_now : tv_normal (tv_cache (tm b))
}.

(** The loop's state is the same. *)
Definition quiet b b' : Prop :=
  ctl b' = ctl b ∧ defer_queue b' = defer_queue b ∧ onces b' = onces b ∧
  virtual_event_count b' = virtual_event_count b ∧ nevents b' = nevents b.

Lemma quiet_trans b1 b2 b3 : quiet b1 b2 → quiet b2 b3 → quiet b1 b3.
Proof. unfold quiet. intuition congruence. Qed.

Lemma plain_core v w : core v = core w → plain_event v → plain_event w.
Proof. intros E [H1 H2 H3 H4 H5 H6 H7]. destruct v, w; unfold core in E; cbn in *; simplify_eq/=. by split. Qed.

Lemma plain_flags v f : plain_event v → plain_event (ev_with_flags v f).
Proof. intros [H1 H2 H3 H4 H5 H6 H7]. by split. Qed.

(** The events after a change of [e]'s flags are plain, too. *)
Lemma plain_moved (evs1 evs2 : store) e v f x w :
  (∀ x v, evs1 !! x = Some v → plain_event v) → evs1 !! e = Some v →
  (∀ x, cores evs2 x = cores (<[e := ev_with_flags v f]> evs1) x) → evs2 !! x = Some w → plain_event w.
Proof.
  intros H Hv Hc Hw. specialize (Hc x). rewrite (cores_Some _ _ _ Hw), cores_insert in Hc. case_decide.
  - apply (inj Some) in Hc. apply (plain_core (ev_with_flags v f)); [done|]. apply plain_flags. eauto.
  - symmetry in Hc. apply cores_inv in Hc as (u & Hu & E). eapply plain_core; [by symmetry|]. eauto.
Qed.

Lemma want_moved (evs1 evs2 : store) e v f x :
  evs1 !! e = Some v → (∀ x, cores evs2 x = cores (<[e := ev_with_flags v f]> evs1) x) → want_of evs2 x = want_of evs1 x.
Proof.
  intros Hv Hc. unfold want_of. rewrite Hc, cores_insert. case_decide; [subst|done]. by rewrite (cores_Some _ _ _ Hv).
Qed.

Lemma fd_moved (evs1 evs2 : store) e v f x :
  evs1 !! e = Some v → (∀ x, cores evs2 x = cores (<[e := ev_with_flags v f]> evs1) x) → fd_of evs2 x = fd_of evs1 x.
Proof.
  intros Hv Hc. unfold fd_of. rewrite Hc, cores_insert. case_decide; [subst|done]. by rewrite (cores_Some _ _ _ Hv).
Qed.

Lemma flag_moved (evs1 evs2 : store) e v f x k :
  (∀ x, cores evs2 x = cores (<[e := ev_with_flags v f]> evs1) x) →
  flag evs2 x k = if decide (x = e) then has f k else flag evs1 x k.
Proof. intros Hc. unfold flag. rewrite Hc, cores_insert. by case_decide. Qed.

(** What the map needs to know of the events. *)
Lemma io_ok_want (want want' : Z → Z) (w : W) m :
  (∀ fd x, 0 <= fd → x ∈ io_on m fd → want' x = want x) → io_ok want w m → io_ok want' w m.
Proof.
  intros E H.
  assert (∀ q l, (∀ x, x ∈ l → want' x = want x) → wanting want' q l = wanting want q l) as Hl.
  { intros q l Hx. unfold wanting. do 2 f_equal. induction l as [|x l IH]; [done|].
    rewrite !filter_cons, Hx by left. rewrite IH; [done|]. intros y Hy. apply Hx. by right. }
  split.
  - intros fd c Hc. destruct (io_entry _ _ _ H fd c Hc) as (H1 & H2 & H3 & H4).
    assert (∀ x, x ∈ io_events c → want' x = want x) as Hx.
    { intros x Hx. apply (E (Z.of_nat fd)); [lia|]. unfold io_on. by rewrite Nat2Z.id, Hc. }
    split; [done|]. by rewrite !Hl.
  - intros fd Hfd. rewrite (io_kernel _ _ _ H fd Hfd). unfold io_old. rewrite !Hl; [done|intros x; by apply E..].
Qed.

Lemma io_ok_os (want : Z → Z) (w w' : W) m : interest w' = interest w → io_ok want w m → io_ok want w' m.
Proof. intros E H. split; [apply H|]. intros fd Hfd. rewrite E. by apply H. Qed.

(** ** [event_add]'s first half: the descriptor *)

Definition wants_io (v : event) : bool :=
  has (ev_events v) any_io && negb (has (ev_flags v) (Z.lor EVLIST_INSERTED EVLIST_ACTIVE)).

Lemma has_or f p q : has f (Z.lor p q) = has f p || has f q.
Proof.
  unfold has. rewrite Z.land_lor_distr_r.
  destruct (Z.eqb_spec (Z.lor (Z.land f p) (Z.land f q)) 0) as [E|E];
    rewrite ?Z.lor_eq_0_iff in E; destruct (Z.eqb_spec (Z.land f p) 0), (Z.eqb_spec (Z.land f q) 0); naive_solver.
Qed.

Lemma any_io_rw v : plain_event v → has (ev_events v) any_io = has (ev_events v) any_rw.
Proof.
  intros H. unfold any_io, any_rw. rewrite !has_or, (pe_signal _ H). by rewrite orb_false_r.
Qed.

Lemma map_add_ok b h e v :
  base_ok b h → evs (qs b) !! e = Some v → (∀ fd, 0 <= fd → e ∉ io_on (io b) fd) →
  ∃ r m w, evmap_io_add (os b) (io b) (ev_fd v) e (ev_events v) = Ret (r, m, w) ∧
    io_ok (want_of (evs (qs b))) w m ∧ Z.of_nat (length m) <= 2 * FD_LIMIT ∧
    (r = -1 ∧ (∀ fd, 0 <= fd → io_on m fd = io_on (io b) fd) ∨
     (r = 0 ∨ r = 1) ∧ ∀ fd, 0 <= fd → io_on m fd = if decide (fd = ev_fd v) then io_on (io b) fd ++ [e] else io_on (io b) fd).
Proof.
  intros H Hv Hnot. pose proof (bo_ev _ _ H e v Hv) as Hpe.
  assert (want_of (evs (qs b)) e = ev_events v) as Hwant by (unfold want_of; by rewrite (cores_Some _ _ _ Hv)).
  destruct (decide (ev_fd v < 0)) as [Hneg|Hpos].
  - exists 0, (io b), (os b). unfold evmap_io_add. rewrite decide_True by done. split; [done|].
    split; [apply H|]. split; [apply H|]. right. split; [by left|]. intros fd Hfd. by rewrite decide_False by lia.
  - destruct (evmap_io_add_ok (want_of (evs (qs b))) (os b) (io b) (ev_fd v) e) as (r & m & w & E & Hm & Lm & Hr);
      [apply H|pose proof (pe_fd _ Hpe); lia|apply H|apply Hnot; lia|rewrite Hwant; apply Hpe|].
    rewrite Hwant in E. exists r, m, w. split; [done|]. split; [done|]. split; [done|].
    destruct Hr as [?|[? Hon]]; [by left|right]. split; [done|]. intros fd Hfd. rewrite Hon by done. by case_decide; subst.
Qed.

Lemma add_io_ok b h e v :
  base_ok b h → evs (qs b) !! e = Some v →
  ∃ r b' h', add_io b e v = Ret (r, b') ∧ base_ok b' h' ∧ quiet b b' ∧ tm b' = tm b ∧ h' ≡ₚ h ∧
    timeheap (qs b') = timeheap (qs b) ∧
    (r = -1 ∧ qs b' = qs b ∧ wants_io v = true ∨
     r = 0 ∧ if wants_io v then inserted (qs b) (qs b') h h' e v EVLIST_INSERTED else b' = b ∧ h' = h).
Proof.
  intros H Hv. pose proof (bo_ev _ _ H e v Hv) as Hpe. unfold add_io. fold (wants_io v).
  destruct (wants_io v) eqn:Hw; [|exists 0, b, h; split_and!; first [done|by right]].
  unfold wants_io in Hw. apply andb_true_iff in Hw as [Hrw Hfl]. rewrite any_io_rw in Hrw by done. rewrite Hrw.
  rewrite has_or in Hfl. apply negb_true_iff, orb_false_iff in Hfl as [Hins Hact].
  assert (∀ fd, 0 <= fd → e ∉ io_on (io b) fd) as Hnot.
  { intros fd Hfd He. apply (bo_map _ _ H) in He as [He _]; [|done]. rewrite (flag_lookup _ _ _ _ Hv) in He. congruence. }
  assert (want_of (evs (qs b)) e = ev_events v) as Hwant by (unfold want_of; by rewrite (cores_Some _ _ _ Hv)).
  assert (fd_of (evs (qs b)) e = ev_fd v) as Hfde by (unfold fd_of; by rewrite (cores_Some _ _ _ Hv)).
  destruct (map_add_ok b h e v H Hv Hnot) as (r & m & w & -> & Hm & Lm & Hr).
  cbn [mbind outcome_bind fst snd]. destruct Hr as [[-> Hon]|[Hr Hon]].
  { rewrite decide_True by done. eexists (-1), _, h. split; [done|]. split; [|split; [done|auto 10]].
    split; cbn; try apply H; try done. intros x fd Hfd. rewrite Hon by done. by apply H. }
  rewrite decide_False by lia. cbn [os qs with_io].
  destruct (queue_insert_ok w (qs b) h e v EVLIST_INSERTED (bo_q _ _ H)) as (q' & h' & -> & Hi);
    [by left|done|done|done|].
  cbn [mbind outcome_bind fst snd].
  pose proof (is_cores _ _ _ _ _ _ _ Hi) as Hc.
  eexists (if decide (r = 1) then 0 else r), _, h'. split; [done|].
  split; [|split_and!; [done|done|apply (is_heap _ _ _ _ _ _ _ Hi)|apply (is_same _ _ _ _ _ _ _ Hi); done|]].
  2: { right. split; [case_decide; lia|done]. }
  split; cbn; [apply Hi| |done| | | |apply H].
  - eapply io_ok_want; [|done]. intros fd x _ _. by eapply want_moved.
  - intros x fd Hfd. rewrite Hon, (flag_moved _ _ _ _ _ _ _ Hc), (fd_moved _ _ _ _ _ _ Hv Hc) by done.
    pose proof (bo_map _ _ H x fd Hfd) as Hb. destruct (decide (x = e)) as [->|Hx].
    + rewrite has_set by auto with kv. rewrite bool_decide_eq_true_2, orb_true_r, Hfde by done.
      specialize (Hnot fd Hfd). case_decide; [subst; rewrite elem_of_app, list_elem_of_singleton; naive_solver|naive_solver].
    + rewrite <- Hb. case_decide; [|done]. rewrite elem_of_app, list_elem_of_singleton. naive_solver.
  - intros x. rewrite (flag_moved _ _ _ _ _ _ _ Hc), (want_moved _ _ _ _ _ _ Hv Hc). case_decide; [|apply H].
    subst. by rewrite Hwant.
  - intros x w' Hw'. eapply plain_moved; [apply H|done|done|done].
Qed.

(** ** Changes of one event *)

Lemma base_ok_moved b h q' h' e v f :
  base_ok b h → evs (qs b) !! e = Some v → q_ok q' h' →
  (∀ x, cores (evs q') x = cores (<[e := ev_with_flags v f]> (evs (qs b))) x) →
  has f EVLIST_INSERTED = has (ev_flags v) EVLIST_INSERTED → base_ok (with_qs b q') h'.
Proof.
  intros H Hv Hq Hc Hf.
  assert (∀ x, flag (evs q') x EVLIST_INSERTED = flag (evs (qs b)) x EVLIST_INSERTED) as Hfl.
  { intros x. rewrite (flag_moved _ _ _ _ _ _ _ Hc). case_decide; [subst|done]. by rewrite (flag_lookup _ _ _ _ Hv). }
  split; cbn; [done| |apply H| | | |apply H].
  - eapply io_ok_want; [|apply H]. intros fd x _ _. by eapply want_moved.
  - intros x fd Hfd. rewrite Hfl, (fd_moved _ _ _ _ _ _ Hv Hc). by apply H.
  - intros x. rewrite Hfl, (want_moved _ _ _ _ _ _ Hv Hc). apply H.
  - intros x w Hw. eapply plain_moved; [apply H|done|done|done].
Qed.

(** Fields that neither the queues nor the map depend on. *)
Definition same_place (v v' : event) : Prop :=
  ev_flags v' = ev_flags v ∧ ev_pri v' = ev_pri v ∧ min_heap_idx v' = min_heap_idx v ∧
  (has (ev_flags v) EVLIST_TIMEOUT = true → ev_timeout v' = ev_timeout v).

Lemma q_ok_event q h e v v' :
  q_ok q h → evs q !! e = Some v → same_place v v' → q_ok (q_event q e v') h.
Proof.
  intros H Hv (Ef & Ep & Ei & Et).
  assert (∀ x k, flag (evs (q_event q e v')) x k = flag (evs q) x k) as Hfl.
  { intros x k. unfold flag. cbn. rewrite cores_insert. case_decide; [subst|done].
    rewrite (cores_Some _ _ _ Hv). cbn. by rewrite Ef. }
  assert (∀ x, pri_of (evs (q_event q e v')) x = pri_of (evs q) x) as Hpr.
  { intros x. unfold pri_of. cbn. rewrite cores_insert. case_decide; [subst|done].
    by rewrite (cores_Some _ _ _ Hv). }
  assert (∀ l, visible (evs (q_event q e v')) l = visible (evs q) l) as Hvis by (intros l; by apply visible_ext).
  split; cbn -[evs]; try apply H.
  - cbn. eapply heap_ok_insert; [apply H|done|done|]. intros He. apply Et.
    rewrite <- (flag_lookup _ _ _ _ Hv). by apply (qk_mem _ _ H EVLIST_TIMEOUT e); [auto with kv|].
  - intros k x Hk. rewrite Hfl. by apply H.
  - intros i l x Hl Hx. rewrite Hpr. by apply (qk_prio _ _ H i l).
  - intros x w Hw. cbn in Hw. apply lookup_insert_Some in Hw as [[<- <-]|[_ Hw]]; [|by apply (qk_vals _ _ H x w)].
    rewrite Ef, Ep. by apply (qk_vals _ _ H e v).
  - rewrite !Hvis. apply H.
  - cbn. rewrite size_insert_dom by (by rewrite Hv). apply H.
Qed.

Lemma base_ok_event b h e v v' :
  base_ok b h → evs (qs b) !! e = Some v → same_place v v' → ev_events v' = ev_events v → ev_fd v' = ev_fd v →
  plain_event v' → base_ok (with_qs b (q_event (qs b) e v')) h.
Proof.
  intros H Hv Hs Ee Efd Hpe.
  assert (∀ x k, flag (evs (q_event (qs b) e v')) x k = flag (evs (qs b)) x k) as Hfl.
  { intros x k. unfold flag. cbn. rewrite cores_insert. case_decide; [subst|done].
    rewrite (cores_Some _ _ _ Hv). cbn. by rewrite (proj1 Hs). }
  assert (∀ x, want_of (evs (q_event (qs b) e v')) x = want_of (evs (qs b)) x) as Hwn.
  { intros x. unfold want_of. cbn. rewrite cores_insert. case_decide; [subst|done].
    by rewrite (cores_Some _ _ _ Hv). }
  assert (∀ x, fd_of (evs (q_event (qs b) e v')) x = fd_of (evs (qs b)) x) as Hfd.
  { intros x. unfold fd_of. cbn. rewrite cores_insert. case_decide; [subst|done].
    by rewrite (cores_Some _ _ _ Hv). }
  split; cbn -[evs]; [eapply q_ok_event; [apply H|done|done]| |apply H| | | |apply H].
  - eapply io_ok_want; [|apply H]. intros fd x _ _. apply Hwn.
  - intros x fd Hx. rewrite Hfl, Hfd. by apply H.
  - intros x. rewrite Hfl, Hwn. apply H.
  - intros x w Hw. cbn in Hw. apply lookup_insert_Some in Hw as [[<- <-]|[_ Hw]]; [done|]. by eapply H.
Qed.

Context `{!ClockOk W}.

(** ** The time *)

Lemma gettime_ok b h :
  base_ok b h →
  ∃ now b', gettime b = Ret (Some now, b') ∧ base_ok b' h ∧ tv_normal now ∧ quiet b b' ∧ qs b' = qs b ∧ io b' = io b ∧
    interest (os b') = interest (os b) ∧ tv_cache (tm b') = tv_cache (tm b) ∧
    (tv_sec (tv_cache (tm b)) ≠ 0 → now = tv_cache (tm b)).
Proof.
  intros H. unfold gettime. destruct (decide (tv_sec (tv_cache (tm b)) ≠ 0)) as [Hc|Hc].
  { exists (tv_cache (tm b)), b. split_and!; try done. apply H. }
  assert (∀ w t, interest w = interest (os b) → tv_cache t = tv_cache (tm b) → base_ok (with_tm b w t) h) as Hos.
  { intros w t Hw Ht. split; cbn; try apply H; [|rewrite Ht; apply H]. eapply io_ok_os; [done|apply H]. }
  destruct use_monotonic.
  - destruct (clock_reads (os b)) as (s & ns & E & Hns). rewrite E.
    pose proof (clock_interest (os b)) as Hi1. set (w1 := (clock_gettime (os b)).2) in *.
    assert (tv_normal {| tv_sec := s; tv_usec := ns / 1000 |}) as Hn.
    { split; cbn; [apply Z.div_pos; lia|apply Z.div_lt_upper_bound; lia]. }
    case_decide.
    + destruct (timeofday_reads w1) as (t & E2 & Ht). rewrite E2.
      eexists _, _. split; [done|]. pose proof (timeofday_interest w1).
      split_and!; try done; [apply Hos; cbn; congruence|cbn; congruence].
    + eexists _, _. split; [done|]. split_and!; try done. by apply (Hos w1 (tm b)).
  - destruct (timeofday_reads (os b)) as (t & E2 & Ht). rewrite E2.
    pose proof (timeofday_interest (os b)) as Hi. eexists _, _. split; [done|]. split_and!; try done. by apply (Hos _ (tm b)).
Qed.

Lemma gettime_use_ok b h :
  base_ok b h →
  ∃ now b', gettime_use b = Ret (now, b') ∧ base_ok b' h ∧ tv_normal now ∧ quiet b b' ∧ qs b' = qs b ∧ io b' = io b ∧
    interest (os b') = interest (os b) ∧ tv_cache (tm b') = tv_cache (tm b) ∧
    (tv_sec (tv_cache (tm b)) ≠ 0 → now = tv_cache (tm b)).
Proof.
  intros H. destruct (gettime_ok b h H) as (now & b' & E & R). exists now, b'. unfold gettime_use. by rewrite E.
Qed.

Lemma timeradd_normal t u : tv_normal t → tv_normal u → tv_normal (evutil_timeradd t u).
Proof. unfold tv_normal, evutil_timeradd. intros ? ?. case_decide; cbn; lia. Qed.

(** ** Taking a timeout back *)

(** The event [e] was [v] and has the flags [f] now, off the active queue if [off]; nothing else changed. *)
Record reflagged b b' (h h' : list Z) (e : Z) (v : event) (f : Z) (off : bool) : Prop := {
  rf_ok : base_ok b' h';
  rf_same : quiet b b' ∧ os b' = os b ∧ io b' = io b ∧ tm b' = tm b;
  rf_core : ∃ v', evs (qs b') !! e = Some v' ∧ core v' = core (ev_with_flags v f);
  rf_frame : frame e (evs (qs b)) (evs (qs b'));
  rf_active : activequeues (qs b') =
    if off then alter (filter (λ x, x ≠ e)) (Z.to_nat (ev_pri v)) (activequeues (qs b)) else activequeues (qs b);
  rf_eventqueue : eventqueue (qs b') = eventqueue (qs b);
  rf_size : size (evs (qs b')) = size (evs (qs b))
}.

Lemma core_flags v w f : core w = core (ev_with_flags v f) →
  ev_flags w = f ∧ ev_base w = ev_base v ∧ ev_fd w = ev_fd v ∧ ev_events w = ev_events v ∧ ev_res w = ev_res v ∧
  ev_ncalls w = ev_ncalls v ∧ ev_pncalls w = ev_pncalls v ∧ ev_pri w = ev_pri v ∧ ev_closure w = ev_closure v ∧
  ev_callback w = ev_callback v ∧ ev_arg w = ev_arg v ∧ ev_timeout w = ev_timeout v ∧ ev_io_timeout w = ev_io_timeout v.
Proof. intros E. destruct v, w; unfold core in E; cbn in *. by simplify_eq/=. Qed.

Lemma taken_core q q' h h' e v queue :
  taken q q' h h' e v queue →
  ∃ v', evs q' !! e = Some v' ∧ core v' = core (ev_with_flags v (Z.land (ev_flags v) (Z.lnot queue))).
Proof.
  intros T. pose proof (tk_cores _ _ _ _ _ _ _ T e) as C. rewrite cores_insert, decide_True in C by done.
  apply cores_inv in C as (v' & Hv' & E). eauto.
Qed.

Lemma taken_frame q q' h h' e v queue : taken q q' h h' e v queue → frame e (evs q) (evs q').
Proof. intros T x Hx. rewrite (tk_cores _ _ _ _ _ _ _ T x), cores_insert. by rewrite decide_False. Qed.

(** [event_queue_remove] for a timeout or an active event. *)
Lemma queue_remove_held b h e v queue :
  base_ok b h → evs (qs b) !! e = Some v → has (ev_flags v) queue = true →
  queue = EVLIST_TIMEOUT ∨ queue = EVLIST_ACTIVE →
  ∃ q' h', event_queue_remove (qs b) e queue = Ret q' ∧ taken (qs b) q' h h' e v queue ∧
    reflagged b (with_qs b q') h h' e v (Z.land (ev_flags v) (Z.lnot queue)) (bool_decide (queue = EVLIST_ACTIVE)).
Proof.
  intros H Hv Hf Hq.
  assert (qbit queue) as Hqb by (destruct Hq as [->| ->]; auto with kv).
  destruct (queue_remove_ok _ _ e v queue (bo_q _ _ H) Hqb Hv Hf) as (q' & h' & E & T).
  { intros _. apply (pe_due _ (bo_ev _ _ H e v Hv)). }
  exists q', h'. split; [done|]. split; [done|]. split; try done; cbn.
  - eapply base_ok_moved; [done|done|apply T|apply T|]. rewrite has_cleared by auto with kv.
    rewrite bool_decide_eq_false_2, andb_true_r; [done|]. by destruct Hq as [->| ->].
  - by eapply taken_core.
  - by eapply taken_frame.
  - rewrite (tk_active _ _ _ _ _ _ _ T). destruct Hq as [->| ->]; done.
  - rewrite (tk_eventqueue _ _ _ _ _ _ _ T), decide_False; [done|]. by destruct Hq as [->| ->].
  - apply T.
Qed.

Lemma reflagged_trans b1 b2 b3 h1 h2 h3 e v w f1 f2 off :
  reflagged b1 b2 h1 h2 e v f1 false → core w = core (ev_with_flags v f1) →
  reflagged b2 b3 h2 h3 e w f2 off → reflagged b1 b3 h1 h3 e v f2 off.
Proof.
  intros R1 Ew R2. destruct (core_flags _ _ _ Ew) as (_ & ? & ? & ? & ? & ? & ? & Ep & ?).
  split; [apply R2| | | | | |].
  - destruct (rf_same _ _ _ _ _ _ _ _ R1) as (? & ? & ? & ?), (rf_same _ _ _ _ _ _ _ _ R2) as (? & ? & ? & ?).
    split_and!; [by eapply quiet_trans|congruence..].
  - destruct (rf_core _ _ _ _ _ _ _ _ R2) as (v' & Hv' & E). exists v'. split; [done|].
    rewrite E. destruct v, w; unfold core in *; cbn in *. by simplify_eq/=.
  - eapply frame_trans; [apply R1|apply R2].
  - rewrite (rf_active _ _ _ _ _ _ _ _ R2), (rf_active _ _ _ _ _ _ _ _ R1). by rewrite Ep.
  - rewrite (rf_eventqueue _ _ _ _ _ _ _ _ R2). apply R1.
  - rewrite (rf_size _ _ _ _ _ _ _ _ R2). apply R1.
Qed.

Lemma reflagged_refl b h e v : base_ok b h → evs (qs b) !! e = Some v → reflagged b b h h e v (ev_flags v) false.
Proof. intros H Hv. split; try done. exists v. split; [done|]. by destruct v. Qed.

Definition retracts (v : event) : bool := has (ev_flags v) EVLIST_ACTIVE && has (ev_res v) EV_TIMEOUT.

Definition without (f queue : Z) : Z := if has f queue then Z.land f (Z.lnot queue) else f.

Definition retracted (v : event) : Z :=
  let f := without (ev_flags v) EVLIST_TIMEOUT in if retracts v then Z.land f (Z.lnot EVLIST_ACTIVE) else f.

Lemma abort_plain b e v : has (ev_events v) EV_SIGNAL = false → abort_closure b e v = Ret b.
Proof. intros H. unfold abort_closure. by rewrite H. Qed.

Lemma has_without f queue k :
  tested k → qbit queue → has (without f queue) k = has f k && negb (bool_decide (k = queue)).
Proof.
  intros Hk Hq. unfold without. destruct (has f queue) eqn:E; [by apply has_cleared|].
  case_bool_decide; [subst; by rewrite E|by rewrite andb_true_r].
Qed.

Lemma retract_timeout_ok b h e v :
  base_ok b h → evs (qs b) !! e = Some v →
  ∃ b' h', retract_timeout b e = Ret b' ∧ reflagged b b' h h' e v (retracted v) (retracts v) ∧
    (if has (ev_flags v) EVLIST_TIMEOUT then n (timeheap (qs b')) < a (timeheap (qs b')) ∧ h ≡ₚ e :: h'
     else timeheap (qs b') = timeheap (qs b) ∧ h' = h).
Proof.
  intros H Hv. unfold retract_timeout. rewrite (ev_get_ret _ _ _ Hv). cbn [mbind outcome_bind].
  assert (∃ q1 h1, (if has (ev_flags v) EVLIST_TIMEOUT then event_queue_remove (qs b) e EVLIST_TIMEOUT else Ret (qs b)) = Ret q1 ∧
     reflagged b (with_qs b q1) h h1 e v (without (ev_flags v) EVLIST_TIMEOUT) false ∧
     (if has (ev_flags v) EVLIST_TIMEOUT then n (timeheap q1) < a (timeheap q1) ∧ h ≡ₚ e :: h1 else q1 = qs b ∧ h1 = h))
    as (q1 & h1 & -> & R1 & Hr1).
  { unfold without. destruct (has (ev_flags v) EVLIST_TIMEOUT) eqn:Ht.
    - destruct (queue_remove_held b h e v EVLIST_TIMEOUT H Hv Ht) as (q1 & h1 & E & T & R); [by left|].
      exists q1, h1. split_and!; [done|done| |apply (tk_heap _ _ _ _ _ _ _ T)].
      pose proof (tk_room _ _ _ _ _ _ _ T) as Hroom. rewrite decide_True in Hroom by done. lia.
    - exists (qs b), h. split_and!; try done. replace (with_qs b (qs b)) with b by (by destruct b). by apply reflagged_refl. }
  cbn [mbind outcome_bind].
  destruct (rf_core _ _ _ _ _ _ _ _ R1) as (v1 & Hv1 & E1). cbn in Hv1.
  destruct (core_flags _ _ _ E1) as (Ef & _ & _ & Ee & Er & _).
  rewrite (ev_get_ret _ _ _ Hv1). cbn [mbind outcome_bind]. rewrite Ef, Er.
  assert (has (without (ev_flags v) EVLIST_TIMEOUT) EVLIST_ACTIVE && has (ev_res v) EV_TIMEOUT = retracts v) as Hret.
  { unfold retracts. rewrite has_without by auto with kv. by rewrite bool_decide_eq_false_2, andb_true_r. }
  rewrite Hret. unfold retracted. destruct (retracts v) eqn:Hrv.
  - rewrite abort_plain by (rewrite Ee; apply (bo_ev _ _ H e v Hv)). cbn [mbind outcome_bind].
    apply andb_true_iff in Hret as [Hact _].
    destruct (queue_remove_held (with_qs b q1) h1 e v1 EVLIST_ACTIVE (rf_ok _ _ _ _ _ _ _ _ R1) Hv1) as (q2 & h2 & -> & T & R2);
      [by rewrite Ef|by right|].
    cbn [mbind outcome_bind]. eexists _, h2. split; [done|].
    pose proof (tk_heap _ _ _ _ _ _ _ T) as Hh. rewrite decide_False in Hh by done. subst h2.
    split; [eapply reflagged_trans; [exact R1|done|]; rewrite Ef in R2; exact R2|].
    cbn. rewrite (tk_same _ _ _ _ _ _ _ T) by done. cbn. destruct (has (ev_flags v) EVLIST_TIMEOUT); [done|].
    by destruct Hr1 as [-> ->].
  - eexists _, h1. split; [done|]. split; [done|]. cbn. destruct (has (ev_flags v) EVLIST_TIMEOUT); [done|].
    by destruct Hr1 as [-> ->].
Qed.

(** ** [event_add] *)

Lemma base_ok_heap b h s w :
  base_ok b h → heap_ok (evs (qs b)) s h → interest w = interest (os b) →
  base_ok (with_os (with_qs b (q_heap (qs b) (evs (qs b)) s)) w) h.
Proof.
  intros H Hs Hw. split; cbn; try apply H; [|eapply io_ok_os; [done|apply H]].
  pose proof (bo_q _ _ H) as Hq. split; cbn; try apply Hq. done.
Qed.

Lemma reserve_interest (w : W) s k : interest (min_heap_reserve w s k).2 = interest w.
Proof.
  unfold min_heap_reserve. case_decide; [|done].
  set (c := if decide (_ < k) then k else _). clearbody c.
  pose proof (realloc_interest w (c * 8)). by destruct (os_realloc w (c * 8)) as [[|] ?].
Qed.

(** An event that has no timeout leaves room in the heap's size. *)
Lemma heap_below b h e v :
  base_ok b h → evs (qs b) !! e = Some v → has (ev_flags v) EVLIST_TIMEOUT = false →
  (e ∉ h) ∧ 0 <= n (timeheap (qs b)) < INT_MAX.
Proof.
  intros H Hv Hf. pose proof (qk_heap _ _ (bo_q _ _ H)) as Hh.
  assert (e ∉ h) as He.
  { intros He. apply (qk_mem _ _ (bo_q _ _ H) EVLIST_TIMEOUT) in He; [|auto with kv].
    rewrite (flag_lookup _ _ _ _ Hv) in He. congruence. }
  pose proof (heap_size_strict _ _ _ e Hh (ex_intro _ v Hv) He). pose proof (qk_size _ _ (bo_q _ _ H)).
  pose proof (rep_len _ _ _ (ok_rep _ _ _ Hh)). split; [done|]. lia.
Qed.

(** Room for one more timeout, or nothing changed. *)
Lemma make_room_ok b h :
  base_ok b h → 0 <= n (timeheap (qs b)) < INT_MAX →
  let x := min_heap_reserve (os b) (timeheap (qs b)) (u32 (1 + min_heap_size (timeheap (qs b)))) in
  base_ok (with_os (with_qs b (q_heap (qs b) (evs (qs b)) x.1.2)) x.2) h ∧
  (x.1.1 = -1 ∨ x.1.1 = 0 ∧ n x.1.2 < a x.1.2).
Proof.
  intros H Hn x. pose proof (qk_heap _ _ (bo_q _ _ H)) as Hh.
  unfold min_heap_size in x. unfold INT_MAX in Hn. subst x. rewrite u32_small by lia.
  destruct (reserve_ok (os b) _ _ _ (1 + n (timeheap (qs b))) Hh) as (s' & w' & Hs & En & E); [unfold INT_MAX; lia|].
  pose proof (reserve_interest (os b) (timeheap (qs b)) (1 + n (timeheap (qs b)))) as Hi.
  destruct E as [[E Ha]|(E & -> & _)]; rewrite E in *; cbn in *.
  - split; [by apply base_ok_heap|]. right. split; [done|]. lia.
  - split; [by apply base_ok_heap|by left].
Qed.

Definition add_flags (v : event) : Z := if wants_io v then Z.lor (ev_flags v) EVLIST_INSERTED else ev_flags v.

(** The event after [event_add]. *)
Definition add_result (v : event) (tv : option timeval) (abs : bool) (now : timeval) : event :=
  let v := ev_with_flags v (add_flags v) in
  match tv with
  | None => v
  | Some t =>
      let u := if decide (ev_closure v = EV_CLOSURE_PERSIST ∧ abs = false) then ev_with_io_timeout v t else v in
      ev_with_timeout (ev_with_flags u (Z.lor (retracted v) EVLIST_TIMEOUT)) (if abs then t else evutil_timeradd now t)
  end.

Definition add_retracts (v : event) (tv : option timeval) : bool :=
  match tv with Some _ => retracts v | None => false end.

(** [event_add] on the event [v] of the base [b]: failing, it changes nothing but reserved memory. *)
Record add_failed b b' (h h' : list Z) : Prop := {
  af_cores x : cores (evs (qs b')) x = cores (evs (qs b)) x;
  af_heap : h' ≡ₚ h;
  af_active : activequeues (qs b') = activequeues (qs b);
  af_eventqueue : eventqueue (qs b') = eventqueue (qs b)
}.

Record add_done b b' (e : Z) (v : event) (tv : option timeval) (abs : bool) : Prop := {
  ad_result : ∃ now u, evs (qs b') !! e = Some u ∧ core u = core (add_result v tv abs now) ∧ tv_normal now ∧
    (tv_sec (tv_cache (tm b)) ≠ 0 → now = tv_cache (tm b));
  ad_frame : frame e (evs (qs b)) (evs (qs b'));
  ad_active : activequeues (qs b') =
    if add_retracts v tv then alter (filter (λ x, x ≠ e)) (Z.to_nat (ev_pri v)) (activequeues (qs b))
    else activequeues (qs b)
}.

Lemma add_retracts_flags v : retracts (ev_with_flags v (add_flags v)) = retracts v.
Proof.
  unfold retracts, add_flags. cbn. destruct (wants_io v); [|done].
  rewrite has_set by auto with kv. by rewrite bool_decide_eq_false_2, orb_false_r.
Qed.

(** [e] goes on the queue of timeouts. *)
Lemma retracted_timeout v : has (retracted v) EVLIST_TIMEOUT = false.
Proof.
  assert (has (without (ev_flags v) EVLIST_TIMEOUT) EVLIST_TIMEOUT = false) as Hw.
  { rewrite has_without by auto with kv. by rewrite bool_decide_eq_true_2, andb_false_r. }
  unfold retracted. cbn zeta. destruct (retracts v); [|done]. rewrite has_cleared by auto with kv. by rewrite Hw.
Qed.

(** A persistent event remembers its timeout. *)
Lemma io_timeout_ok b h e v t (abs : bool) :
  base_ok b h → evs (qs b) !! e = Some v → tv_normal t →
  let v1 := if decide (ev_closure v = EV_CLOSURE_PERSIST ∧ abs = false) then ev_with_io_timeout v t else v in
  let b1 := if decide (ev_closure v = EV_CLOSURE_PERSIST ∧ abs = false)
            then with_qs b (q_event (qs b) e (ev_with_io_timeout v t)) else b in
  base_ok b1 h ∧ evs (qs b1) !! e = Some v1 ∧ frame e (evs (qs b)) (evs (qs b1)) ∧
  activequeues (qs b1) = activequeues (qs b) ∧ timeheap (qs b1) = timeheap (qs b) ∧ quiet b b1 ∧ os b1 = os b ∧ tm b1 = tm b ∧
  ev_flags v1 = ev_flags v ∧ ev_res v1 = ev_res v ∧ ev_pri v1 = ev_pri v.
Proof.
  intros H Hv Ht v1 b1. subst b1 v1. case_decide; [|by split_and!]. split_and!; try done; cbn; [|by rewrite lookup_insert_eq|by auto with kv].
  destruct (bo_ev _ _ H e v Hv). by eapply base_ok_event.
Qed.

Lemma add_timeout_ok again b h e v t abs :
  base_ok b h → evs (qs b) !! e = Some v → tv_normal t →
  (has (ev_flags v) EVLIST_TIMEOUT = false → n (timeheap (qs b)) < a (timeheap (qs b))) →
  ∃ b' h' now u, add_timeout again b e t abs = Ret b' ∧ base_ok b' h' ∧ quiet b b' ∧
    interest (os b') = interest (os b) ∧ tv_cache (tm b') = tv_cache (tm b) ∧
    evs (qs b') !! e = Some u ∧ tv_normal now ∧ (tv_sec (tv_cache (tm b)) ≠ 0 → now = tv_cache (tm b)) ∧
    core u = core (ev_with_timeout (ev_with_flags
      (if decide (ev_closure v = EV_CLOSURE_PERSIST ∧ abs = false) then ev_with_io_timeout v t else v)
      (Z.lor (retracted v) EVLIST_TIMEOUT)) (if abs then t else evutil_timeradd now t)) ∧
    frame e (evs (qs b)) (evs (qs b')) ∧
    activequeues (qs b') = (if retracts v then alter (filter (λ x, x ≠ e)) (Z.to_nat (ev_pri v)) (activequeues (qs b))
                            else activequeues (qs b)).
Proof.
  intros H Hv Ht Hroom. unfold add_timeout. rewrite (ev_get_ret _ _ _ Hv). cbn [mbind outcome_bind].
  set (b1 := if decide (ev_closure v = EV_CLOSURE_PERSIST ∧ abs = false) then _ else b).
  destruct (io_timeout_ok b h e v t abs H Hv Ht) as (H1 & Hv1 & Fr1 & A1 & T1 & Q1 & O1 & M1 & Ef & Er & Ep).
  set (v1 := if decide (ev_closure v = EV_CLOSURE_PERSIST ∧ abs = false) then ev_with_io_timeout v t else v) in *.
  assert (retracts v1 = retracts v) as Ers by (unfold retracts; by rewrite Ef, Er).
  assert (retracted v1 = retracted v) as Ert by (unfold retracted; by rewrite Ers, Ef).
  fold b1 in H1, Hv1, Fr1, A1, T1, Q1, O1, M1. clearbody b1 v1.
  destruct (retract_timeout_ok b1 h e v1 H1 Hv1) as (b2 & h2 & -> & R & Hr). cbn [mbind outcome_bind].
  rewrite Ert, Ers in R. rewrite Ef in Hr.
  assert (n (timeheap (qs b2)) < a (timeheap (qs b2))) as Hroom2.
  { destruct (has (ev_flags v) EVLIST_TIMEOUT); [apply Hr|]. destruct Hr as [-> _]. rewrite T1. by apply Hroom. }
  destruct R as [H2 (Q2 & O2 & I2 & M2) (v2 & Hv2 & Ev2) Fr2 A2 E2 S2].
  destruct (gettime_use_ok b2 h2 H2) as (now & b3 & -> & H3 & Hnow & Q3 & Eq3 & _ & O3 & M3 & Hc3).
  cbn [mbind outcome_bind]. rewrite !Eq3. rewrite (ev_get_ret _ _ _ Hv2). cbn [mbind outcome_bind].
  destruct (core_flags _ _ _ Ev2) as (Ef2 & _ & Ee2 & Efd2 & Er2 & _ & _ & Ep2 & _).
  assert (is_common_timeout t (qs b2) = false) as Hnc by (apply is_common_none; [apply H2|apply Ht]).
  unfold due_time. rewrite Hnc.
  set (d := if abs then t else _).
  assert (tv_normal d) as Hd by (subst d; destruct abs; [done|by apply timeradd_normal]).
  assert (has (ev_flags v2) EVLIST_TIMEOUT = false) as Hf2 by (rewrite Ef2; apply retracted_timeout).
  assert (evs (qs b3) !! e = Some v2) as Hv3 by (by rewrite Eq3).
  assert (base_ok (with_qs b3 (q_event (qs b3) e (ev_with_timeout v2 d))) h2) as H4.
  { destruct (bo_ev _ _ H3 e v2 Hv3). eapply base_ok_event; try done. split_and!; try done.
    intros Hx. congruence. }
  rewrite Eq3 in H4. cbn [os qs with_qs] in *.
  destruct (queue_insert_ok (os b3) (q_event (qs b2) e (ev_with_timeout v2 d)) h2 e (ev_with_timeout v2 d) EVLIST_TIMEOUT)
    as (q5 & h5 & -> & Ins); [apply H4|auto with kv|cbn; by rewrite lookup_insert_eq|done| |].
  { intros _. split; [done|]. apply Hd. }
  cbn [mbind outcome_bind fst snd]. eexists _, h5, now.
  pose proof (is_cores _ _ _ _ _ _ _ Ins) as Hc5. cbn in Hc5.
  pose proof (Hc5 e) as Ce. rewrite cores_insert, decide_True in Ce by done.
  apply cores_inv in Ce as (u & Hu & Eu). exists u. split; [done|]. cbn [os qs tm with_os with_qs].
  assert (base_ok (with_qs b3 q5) h5) as H5.
  { apply (base_ok_moved _ _ q5 h5 e (ev_with_timeout v2 d) (Z.lor (ev_flags v2) EVLIST_TIMEOUT) H4); cbn.
    - by rewrite lookup_insert_eq.
    - apply Ins.
    - done.
    - rewrite has_set by auto with kv. by rewrite bool_decide_eq_false_2, orb_false_r. }
  split_and!; try done.
  - eapply quiet_trans; [exact Q1|]. eapply quiet_trans; [exact Q2|exact Q3].
  - congruence.
  - congruence.
  - rewrite <- M1, <- M2. done.
  - rewrite <- Eu. destruct v2, v1; unfold core in *; cbn in *. by simplify_eq/=.
  - eapply frame_trans; [exact Fr1|]. eapply frame_trans; [exact Fr2|].
    intros x Hx. rewrite Hc5, !cores_insert. by rewrite !decide_False.
  - rewrite (is_active _ _ _ _ _ _ _ Ins). cbn. rewrite A2, A1, Ep. by rewrite decide_False.
Qed.

(** [event_add], with the time a delay or a point in time. *)
Lemma reserve_timer_ok b h e v (tv : option timeval) :
  base_ok b h → evs (qs b) !! e = Some v →
  ∃ r b1,
    match tv with
    | Some _ =>
        if has (ev_flags v) EVLIST_TIMEOUT then (0, b)
        else
          let x := min_heap_reserve (os b) (timeheap (qs b)) (u32 (1 + min_heap_size (timeheap (qs b)))) in
          (x.1.1, with_os (with_qs b (q_heap (qs b) (evs (qs b)) x.1.2)) x.2)
    | None => (0, b)
    end = (r, b1) ∧ base_ok b1 h ∧ quiet b b1 ∧ tm b1 = tm b ∧ evs (qs b1) = evs (qs b) ∧
    activequeues (qs b1) = activequeues (qs b) ∧ eventqueue (qs b1) = eventqueue (qs b) ∧
    (r = -1 ∨ r = 0 ∧ (is_Some tv → has (ev_flags v) EVLIST_TIMEOUT = false → n (timeheap (qs b1)) < a (timeheap (qs b1)))).
Proof.
  intros H Hv. destruct tv as [t|]; cycle 1.
  { exists 0, b. split_and!; try done. right. split; [done|]. by intros []. }
  destruct (has (ev_flags v) EVLIST_TIMEOUT) eqn:Hf.
  { exists 0, b. split_and!; try done. by right. }
  destruct (heap_below _ _ _ _ H Hv Hf) as [_ Hn]. destruct (make_room_ok b h H Hn) as [H1 Hr].
  cbn zeta in H1, Hr. eexists _, _. split; [done|]. split; [exact H1|]. split_and!; try done.
  destruct Hr as [?|[? ?]]; [by left|right; done].
Qed.

(** What [add_io_ok] says of the event itself. *)
Lemma add_io_flags b b' h h' e v :
  evs (qs b) !! e = Some v →
  (if wants_io v then inserted (qs b) (qs b') h h' e v EVLIST_INSERTED else b' = b ∧ h' = h) →
  ∃ u, evs (qs b') !! e = Some u ∧ core u = core (ev_with_flags v (add_flags v)) ∧
    frame e (evs (qs b)) (evs (qs b')) ∧ activequeues (qs b') = activequeues (qs b).
Proof.
  intros Hv Hr. unfold add_flags. destruct (wants_io v); [|destruct Hr as [-> _]; by exists v].
  pose proof (is_cores _ _ _ _ _ _ _ Hr e) as C. rewrite cores_insert, decide_True in C by done.
  apply cores_inv in C as (u & Hu & E). exists u. split_and!; [done|done| |].
  - intros y Hy. rewrite (is_cores _ _ _ _ _ _ _ Hr y), cores_insert. by rewrite decide_False.
  - rewrite (is_active _ _ _ _ _ _ _ Hr). by rewrite decide_False.
Qed.

Lemma event_add_internal_ok depth b h e v tv abs :
  base_ok b h → evs (qs b) !! e = Some v → (∀ t, tv = Some t → tv_normal t) →
  ∃ r b' h', event_add_internal (S depth) b e tv abs = Ret (r, b') ∧ base_ok b' h' ∧ quiet b b' ∧
    tv_cache (tm b') = tv_cache (tm b) ∧
    (r = -1 ∧ add_failed b b' h h' ∨ r = 0 ∧ add_done b b' e v tv abs).
Proof.
  intros H Hv Htv. cbn [event_add_internal]. rewrite (ev_get_ret _ _ _ Hv). cbn [mbind outcome_bind].
  destruct (qk_vals _ _ (bo_q _ _ H) e v Hv) as [_ Hall]. rewrite Hall. cbn [EVUTIL_ASSERT Z.eqb mbind outcome_bind].
  set (x := match tv with Some _ => _ | None => _ end).
  destruct (reserve_timer_ok b h e v tv H Hv) as (r & b1 & Ex & H1 & Q1 & M1 & V1 & A1 & E1 & Hr). change (x = (r, b1)) in Ex.
  rewrite Ex. clear x Ex. destruct Hr as [->|[-> Hroom]].
  { rewrite decide_True by done. exists (-1), b1, h. split_and!; try done; [by rewrite M1|].
    left. split; [done|]. split; try done. by rewrite V1. }
  rewrite decide_False by done. rewrite <- V1 in Hv.
  destruct (add_io_ok b1 h e v H1 Hv) as (r & b2 & h2 & -> & H2 & Q2 & M2 & Ph & Th & Hr).
  cbn [mbind outcome_bind fst snd].
  assert (r = -1 → add_failed b b2 h h2) as Hfail.
  { intros ->. destruct Hr as [(_ & Eq & _)|[? _]]; [|done]. split; [intros x|..]; by rewrite ?Eq, ?V1. }
  assert (r = -1 ∨ r = 0) as [->| ->] by naive_solver.
  { destruct tv; [rewrite decide_True by done|]; exists (-1), b2, h2;
      (split_and!; [done|done|by eapply quiet_trans|by rewrite M2, M1|left; auto]). }
  clear Hfail. destruct Hr as [[? _]|[_ Hr]]; [done|].
  destruct (add_io_flags b1 b2 h h2 e v Hv Hr) as (v2 & Hv2 & Ev2 & Fr2 & A2). rewrite V1 in Fr2. rewrite A1 in A2.
  destruct (core_flags _ _ _ Ev2) as (Ef2 & _ & Ee2 & Efd2 & Er2 & _ & _ & Ep2 & Ec2 & _ & _ & Et2 & Ei2).
  assert (has (ev_flags v2) EVLIST_TIMEOUT = has (ev_flags v) EVLIST_TIMEOUT) as Htm.
  { rewrite Ef2. unfold add_flags. destruct (wants_io v); [|done].
    rewrite has_set by auto with kv. by rewrite bool_decide_eq_false_2, orb_false_r. }
  destruct tv as [t|].
  2: { exists 0, b2, h2. split_and!; [done|done|by eapply quiet_trans|by rewrite M2, M1|]. right. split; [done|].
       split; try done. exists (tv_cache (tm b)), v2. split_and!; try done. apply H. }
  rewrite decide_False by done.
  destruct (add_timeout_ok (λ b e tv, event_add_internal depth b e (Some tv) true) b2 h2 e v2 t abs H2 Hv2)
    as (b3 & h3 & now & u & -> & H3 & Q3 & O3 & M3 & Hu & Hn & Hc & Eu & Fr3 & A3); [by apply Htv| |].
  { intros Hf. rewrite Th. apply Hroom; [done|]. congruence. }
  cbn [mbind outcome_bind]. exists 0, b3, h3. split_and!; [done|done| |by rewrite M3, M2, M1|].
  { eapply quiet_trans; [exact Q1|]. by eapply quiet_trans. }
  right. split; [done|]. split.
  - exists now, u. rewrite M2, M1 in Hc. split_and!; try done. rewrite Eu.
    assert (retracted v2 = retracted (ev_with_flags v (add_flags v))) as ->
      by (unfold retracted, retracts; cbn; by rewrite Ef2, Er2).
    unfold add_result. cbn [ev_closure ev_with_flags]. rewrite Ec2.
    generalize (Z.lor (retracted (ev_with_flags v (add_flags v))) EVLIST_TIMEOUT), (if abs then t else evutil_timeradd now t).
    intros f d. clear -Ev2. destruct (decide (ev_closure v = EV_CLOSURE_PERSIST ∧ abs = false));
      destruct v2, v; unfold core in *; cbn in *; by simplify_eq/=.
  - by eapply frame_trans.
  - rewrite A3, A2, Ep2. cbn [add_retracts].
    assert (retracts v2 = retracts v) as ->; [|done].
    rewrite <- (add_retracts_flags v). unfold retracts. cbn. by rewrite Ef2, Er2.
Qed.

Lemma event_add_ok b h e v tv :
  base_ok b h → evs (qs b) !! e = Some v → (∀ t, tv = Some t → tv_normal t) →
  ∃ r b' h', event_add b e tv = Ret (r, b') ∧ base_ok b' h' ∧ quiet b b' ∧ tv_cache (tm b') = tv_cache (tm b) ∧
    (r = -1 ∧ add_failed b b' h h' ∨ r = 0 ∧ add_done b b' e v tv false).
Proof.
  intros H Hv Htv. unfold event_add. rewrite (ev_get_ret _ _ _ Hv). cbn [mbind outcome_bind].
  rewrite (pe_base _ (bo_ev _ _ H e v Hv)). by apply event_add_internal_ok.
Qed.

(** ** [event_del] *)

Lemma strip_ok b h e v queue :
  base_ok b h → evs (qs b) !! e = Some v → queue = EVLIST_TIMEOUT ∨ queue = EVLIST_ACTIVE →
  ∃ q' h', (if has (ev_flags v) queue then event_queue_remove (qs b) e queue else Ret (qs b)) = Ret q' ∧
    reflagged b (with_qs b q') h h' e v (without (ev_flags v) queue) (bool_decide (queue = EVLIST_ACTIVE) && has (ev_flags v) queue).
Proof.
  intros H Hv Hq. unfold without. destruct (has (ev_flags v) queue) eqn:Hf.
  - destruct (queue_remove_held b h e v queue H Hv Hf Hq) as (q' & h' & E & _ & R). exists q', h'. by rewrite andb_true_r.
  - exists (qs b), h. rewrite andb_false_r. split; [done|].
    replace (with_qs b (qs b)) with b by (by destruct b). by apply reflagged_refl.
Qed.

Definition del_flags (v : event) : Z :=
  without (without (without (ev_flags v) EVLIST_TIMEOUT) EVLIST_ACTIVE) EVLIST_INSERTED.

(** [e] is on no queue any more; nothing else changed. *)
Record deleted b b' (e : Z) (v : event) : Prop := {
  dl_core : ∃ u, evs (qs b') !! e = Some u ∧ core u = core (ev_with_flags v (del_flags v));
  dl_frame : frame e (evs (qs b)) (evs (qs b'));
  dl_active : activequeues (qs b') =
    if has (ev_flags v) EVLIST_ACTIVE
    then alter (filter (λ x, x ≠ e)) (Z.to_nat (ev_pri v)) (activequeues (qs b)) else activequeues (qs b);
  dl_size : size (evs (qs b')) = size (evs (qs b))
}.

(** The map when [e] leaves its descriptor. *)
Lemma del_io_ok b h e v :
  base_ok b h → evs (qs b) !! e = Some v → has (ev_flags v) EVLIST_INSERTED = true →
  ∃ r m w, evmap_io_del (os b) (io b) (ev_fd v) e (ev_events v) = Ret (r, m, w) ∧
    io_ok (want_of (evs (qs b))) w m ∧ Z.of_nat (length m) <= 2 * FD_LIMIT ∧
    (r = -1 ∧ refused (os b) (ev_fd v) ∨
     (r = 0 ∨ r = 1) ∧ ∀ fd x, 0 <= fd → x ∈ io_on m fd ↔ x ∈ io_on (io b) fd ∧ x ≠ e).
Proof.
  intros H Hv Hf.
  assert (want_of (evs (qs b)) e = ev_events v) as Hwant by (unfold want_of; by rewrite (cores_Some _ _ _ Hv)).
  assert (fd_of (evs (qs b)) e = ev_fd v) as Hfde by (unfold fd_of; by rewrite (cores_Some _ _ _ Hv)).
  assert (∀ fd, 0 <= fd → e ∈ io_on (io b) fd ↔ fd = ev_fd v) as Hon.
  { intros fd Hfd. rewrite (bo_map _ _ H e fd Hfd), (flag_lookup _ _ _ _ Hv), Hf, Hfde. naive_solver. }
  destruct (decide (ev_fd v < 0)) as [Hneg|Hpos].
  - exists 0, (io b), (os b). unfold evmap_io_del. rewrite decide_True by done. split; [done|].
    split; [apply H|]. split; [apply H|]. right. split; [by left|]. intros fd x Hfd.
    split; [|naive_solver]. intros Hx. split; [done|]. intros ->. apply Hon in Hx; lia.
  - destruct (evmap_io_del_ok (want_of (evs (qs b))) (os b) (io b) (ev_fd v) e) as (r & m & w & E & Hm & Lm & Hr).
    + apply H.
    + lia.
    + apply Hon; [lia|done].
    + rewrite Hwant in E. exists r, m, w. split; [done|]. split; [done|]. split; [rewrite Lm; apply H|].
      destruct Hr as [(? & _ & ?)|[? Ho]]; [by left|right]. split; [done|]. intros fd x Hfd. rewrite Ho by done.
      case_decide as Hd; [subst; rewrite list_elem_of_filter; naive_solver|]. split; [|naive_solver].
      intros Hx. split; [done|]. intros ->. apply Hon in Hx; naive_solver.
Qed.

Lemma without_idle f queue : has f queue = false → without f queue = f.
Proof. intros H. unfold without. by rewrite H. Qed.

(** The queues after the timeout and the active list. *)
Lemma unqueue_ok b h e v :
  base_ok b h → evs (qs b) !! e = Some v →
  ∃ q1 q2 h2, (if has (ev_flags v) EVLIST_TIMEOUT then event_queue_remove (qs b) e EVLIST_TIMEOUT else Ret (qs b)) = Ret q1 ∧
    (if has (ev_flags v) EVLIST_ACTIVE then event_queue_remove q1 e EVLIST_ACTIVE else Ret q1) = Ret q2 ∧
    reflagged b (with_qs b q2) h h2 e v (without (without (ev_flags v) EVLIST_TIMEOUT) EVLIST_ACTIVE)
      (has (ev_flags v) EVLIST_ACTIVE).
Proof.
  intros H Hv.
  destruct (strip_ok b h e v EVLIST_TIMEOUT H Hv) as (q1 & h1 & E1 & R1); [by left|]. cbn [andb] in R1.
  destruct (rf_core _ _ _ _ _ _ _ _ R1) as (v1 & Hv1 & Ev1). cbn in Hv1.
  destruct (core_flags _ _ _ Ev1) as (Ef1 & _).
  destruct (strip_ok (with_qs b q1) h1 e v1 EVLIST_ACTIVE (rf_ok _ _ _ _ _ _ _ _ R1) Hv1) as (q2 & h2 & E2 & R2); [by right|].
  assert (has (ev_flags v1) EVLIST_ACTIVE = has (ev_flags v) EVLIST_ACTIVE) as Ea.
  { rewrite Ef1, has_without by auto with kv. by rewrite bool_decide_eq_false_2, andb_true_r. }
  rewrite Ef1, <- Ef1 in R2. rewrite Ea in E2, R2. rewrite Ef1 in R2. cbn [andb] in R2.
  exists q1, q2, h2. split; [done|]. split; [done|]. eapply reflagged_trans; [exact R1|done|exact R2].
Qed.

(** [event_del]; when the kernel refuses, the map and the flags disagree. *)
Lemma event_del_internal_ok b h e v :
  base_ok b h → evs (qs b) !! e = Some v →
  ∃ r b', event_del_internal b e = Ret (r, b') ∧ quiet b b' ∧ tm b' = tm b ∧ deleted b b' e v ∧
    (r = 0 ∧ (∃ h', base_ok b' h') ∨ r = -1 ∧ refused (os b) (ev_fd v)).
Proof.
  intros H Hv. unfold event_del_internal. rewrite (ev_get_ret _ _ _ Hv). cbn [mbind outcome_bind].
  pose proof (bo_ev _ _ H e v Hv) as Hpe. rewrite (pe_base _ Hpe). cbn [negb].
  destruct (qk_vals _ _ (bo_q _ _ H) e v Hv) as [_ Hall]. rewrite Hall. cbn [EVUTIL_ASSERT Z.eqb mbind outcome_bind].
  rewrite abort_plain by apply Hpe. cbn [mbind outcome_bind].
  destruct (unqueue_ok b h e v H Hv) as (q1 & q2 & h2 & -> & E2 & R). cbn [mbind outcome_bind].
  rewrite E2. cbn [mbind outcome_bind]. clear E2 q1.
  destruct R as [H2 (Q2 & O2 & I2 & M2) (v2 & Hv2 & Ev2) Fr2 A2 E2 S2].
  destruct (core_flags _ _ _ Ev2) as (Ef2 & _ & Efd2 & Ee2 & _). cbn [qs with_qs] in *.
  assert (has (ev_flags v2) EVLIST_INSERTED = has (ev_flags v) EVLIST_INSERTED) as Hi.
  { rewrite Ef2, !has_without by auto with kv. by rewrite !bool_decide_eq_false_2, !andb_true_r. }
  destruct (has (ev_flags v) EVLIST_INSERTED) eqn:Hf.
  2: { exists 0, (with_qs b q2). split_and!; try done; [|left; eauto]. split; try done.
       exists v2. split; [done|]. unfold del_flags. rewrite (without_idle _ EVLIST_INSERTED) by congruence. done. }
  destruct (queue_remove_ok q2 h2 e v2 EVLIST_INSERTED (bo_q _ _ H2)) as (q3 & h3 & -> & T);
    [auto with kv|done|done|done|].
  pose proof (tk_heap _ _ _ _ _ _ _ T) as Hh. rewrite decide_False in Hh by done. subst h3.
  cbn [mbind outcome_bind os io with_qs].
  destruct (del_io_ok (with_qs b q2) h2 e v2 H2 Hv2 Hi) as (r & m & w & E & Hm & Lm & Hr). cbn [os io with_qs] in *.
  rewrite Efd2, Ee2 in E.
  assert (has (ev_events v) any_rw = true) as ->.
  { pose proof (bo_want _ _ H e) as Hw. rewrite (flag_lookup _ _ _ _ Hv) in Hw. unfold want_of in Hw.
    rewrite (cores_Some _ _ _ Hv) in Hw. by apply Hw. }
  rewrite E. cbn [mbind outcome_bind fst snd].
  pose proof (tk_cores _ _ _ _ _ _ _ T) as Hc.
  eexists (if decide (r = 1) then 0 else r), _. split; [done|]. split; [done|]. split; [done|]. split.
  - split; cbn.
    + destruct (taken_core _ _ _ _ _ _ _ T) as (v3 & Hv3 & Ev3). exists v3. split; [done|].
      rewrite Ev3. unfold del_flags. rewrite <- Ef2. unfold without at 1. rewrite Hi.
      destruct v, v2; unfold core in *; cbn in *. by simplify_eq/=.
    + eapply frame_trans; [exact Fr2|]. by eapply taken_frame.
    + rewrite (tk_active _ _ _ _ _ _ _ T), A2. by rewrite decide_False.
    + by rewrite (tk_size _ _ _ _ _ _ _ T).
  - destruct Hr as [[-> Href]|[Hr Hon]].
    + right. rewrite decide_False by done. rewrite <- Efd2. done.
    + left. split; [case_decide; lia|]. exists h2. split; cbn; [apply T| |done| | | |apply H].
      * eapply io_ok_want; [|done]. intros fd x _ _. by eapply want_moved.
      * intros x fd Hfd. rewrite Hon, (flag_moved _ _ _ _ _ _ _ Hc), (fd_moved _ _ _ _ _ _ Hv2 Hc) by done.
        pose proof (bo_map _ _ H2 x fd Hfd) as Hb. cbn in Hb. rewrite Hb. case_decide as Hx; [subst|naive_solver].
        rewrite has_cleared by auto with kv. rewrite bool_decide_eq_true_2, andb_false_r by done. naive_solver.
      * intros x. rewrite (flag_moved _ _ _ _ _ _ _ Hc), (want_moved _ _ _ _ _ _ Hv2 Hc). case_decide as Hx.
        -- rewrite has_cleared by auto with kv. by rewrite bool_decide_eq_true_2, andb_false_r.
        -- apply (bo_want _ _ H2).
      * intros x u Hu. eapply plain_moved; [apply H2|done|done|done].
Qed.

(** ** [event_active] *)

(** The event becomes active, at the end of its queue, or has more reasons to be. *)
Record activated b b' (e : Z) (v : event) (res : Z) : Prop := {
  ac_core : ∃ u, evs (qs b') !! e = Some u ∧ core u = core (
    if has (ev_flags v) EVLIST_ACTIVE then ev_with_res v (Z.lor (ev_res v) res)
    else ev_with_flags (ev_with_res v res) (Z.lor (ev_flags v) EVLIST_ACTIVE));
  ac_frame : frame e (evs (qs b)) (evs (qs b'));
  ac_active : activequeues (qs b') =
    if has (ev_flags v) EVLIST_ACTIVE then activequeues (qs b)
    else alter (λ l, l ++ [e]) (Z.to_nat (ev_pri v)) (activequeues (qs b));
  ac_ctl : ctl b' = if negb (has (ev_flags v) EVLIST_ACTIVE) && bool_decide (ev_pri v < event_running_priority (ctl b))
                    then ctl_continue (ctl b) true else ctl b;
  ac_same : io b' = io b ∧ os b' = os b ∧ tm b' = tm b ∧ defer_queue b' = defer_queue b ∧ onces b' = onces b ∧
    virtual_event_count b' = virtual_event_count b ∧ nevents b' = nevents b ∧ timeheap (qs b') = timeheap (qs b)
}.

Lemma event_active_nolock_ok b h e v res ncalls :
  base_ok b h → evs (qs b) !! e = Some v →
  ∃ b' h', event_active_nolock b e res ncalls = Ret b' ∧ base_ok b' h' ∧ h' ≡ₚ h ∧ activated b b' e v res.
Proof.
  intros H Hv. unfold event_active_nolock. rewrite (ev_get_ret _ _ _ Hv). cbn [mbind outcome_bind].
  pose proof (bo_ev _ _ H e v Hv) as Hpe.
  assert (∀ r, base_ok (with_qs b (q_event (qs b) e (ev_with_res v r))) h) as Hres.
  { intros r. destruct Hpe. by eapply base_ok_event. }
  destruct (has (ev_flags v) EVLIST_ACTIVE) eqn:Hf.
  { eexists _, h. split; [done|]. split; [done|]. split; [done|]. split; cbn; rewrite ?Hf; try done; [|by auto with kv].
    eexists. by rewrite lookup_insert_eq. }
  cbn [ev_pri ev_with_res ev_events]. rewrite (pe_signal _ Hpe).
  set (b1 := if decide _ then with_ctl b _ else b).
  assert (os b1 = os b ∧ qs b1 = qs b ∧ io b1 = io b ∧ tm b1 = tm b ∧ defer_queue b1 = defer_queue b ∧ onces b1 = onces b ∧
    virtual_event_count b1 = virtual_event_count b ∧ nevents b1 = nevents b ∧
    ctl b1 = if bool_decide (ev_pri v < event_running_priority (ctl b)) then ctl_continue (ctl b) true else ctl b)
    as (O1 & S1 & I1 & M1 & D1 & N1 & V1 & K1 & C1).
  { subst b1. destruct (decide (ev_pri v < event_running_priority (ctl b))).
    - by rewrite bool_decide_eq_true_2.
    - by rewrite bool_decide_eq_false_2. }
  rewrite O1, S1.
  destruct (queue_insert_ok (os b) (q_event (qs b) e (ev_with_res v res)) h e (ev_with_res v res) EVLIST_ACTIVE)
    as (q' & h' & -> & Ins); [apply (Hres res)|auto with kv|cbn; by rewrite lookup_insert_eq|done|done|].
  cbn [mbind outcome_bind fst snd]. eexists _, h'. split; [done|].
  pose proof (is_cores _ _ _ _ _ _ _ Ins) as Hc. cbn in Hc.
  split; [|split; [apply (is_heap _ _ _ _ _ _ _ Ins)|]].
  - assert (base_ok (with_qs b q') h') as H'.
    { apply (base_ok_moved _ _ q' h' e (ev_with_res v res) (Z.lor (ev_flags v) EVLIST_ACTIVE) (Hres res)); cbn.
      - by rewrite lookup_insert_eq.
      - apply Ins.
      - done.
      - rewrite has_set by auto with kv. by rewrite bool_decide_eq_false_2, orb_false_r. }
    destruct H' as [B1 B2 B3 B4 B5 B6 B7]. split; cbn in *; rewrite ?I1, ?M1; done.
  - split; cbn; rewrite ?Hf.
    + pose proof (Hc e) as Ce. rewrite cores_insert, decide_True in Ce by done.
      apply cores_inv in Ce as (u & Hu & Eu). exists u. done.
    + intros x Hx. rewrite Hc, !cores_insert. by rewrite !decide_False.
    + rewrite (is_active _ _ _ _ _ _ _ Ins). by rewrite decide_True.
    + done.
    + rewrite (is_same _ _ _ _ _ _ _ Ins) by done. split_and!; done.
Qed.

(** ** Events come and go *)

(** An event that is on no queue. *)
Definition idle (evs : store) (e : Z) : Prop := ∀ k, qbit k → flag evs e k = false.

(** [o] takes the place of the idle event [e]: another event, or nothing. *)
Definition replaced (evs : store) (e : Z) (o : option event) : store := partial_alter (λ _, o) e evs.

Lemma cores_replaced evs e o x : cores (replaced evs e o) x = if decide (x = e) then core <$> o else cores evs x.
Proof.
  unfold cores, replaced. case_decide as H; [subst; by rewrite lookup_partial_alter_eq|].
  by rewrite lookup_partial_alter_ne by congruence.
Qed.

Lemma flag_replaced evs e o x k :
  flag (replaced evs e o) x k = if decide (x = e) then from_option (λ v, has (ev_flags v) k) false o else flag evs x k.
Proof. unfold flag. rewrite cores_replaced. case_decide; [by destruct o|done]. Qed.

(** A new event as [event_assign] leaves it. *)
Record fresh_event (nq : nat) (v : event) : Prop := {
  fe_flags k : tested k → has (ev_flags v) k = false;
  fe_all : Z.land (ev_flags v) (Z.lnot EVLIST_ALL) = 0;
  fe_pri : 0 <= ev_pri v < Z.of_nat nq;
  fe_idx : min_heap_idx v = -1;
  fe_plain : plain_event v
}.

Lemma idle_out q h e k : q_ok q h → idle (evs q) e → qbit k → e ∉ listed q h k.
Proof. intros H Hi Hk He. apply (qk_mem _ _ H k e Hk) in He. rewrite (Hi k Hk) in He. done. Qed.

Lemma heap_ok_replaced evs s h e o :
  heap_ok evs s h → e ∉ h → (∀ v, o = Some v → min_heap_idx v = -1) → heap_ok (replaced evs e o) s h.
Proof.
  intros [[R1 R2 R3 R4] Ho Hc Hout] He Hv.
  assert (∀ x, x ∈ h → replaced evs e o !! x = evs !! x) as Hx.
  { intros x Hx. unfold replaced. rewrite lookup_partial_alter_ne; [done|]. intros <-. done. }
  split; [split; try done| |done|].
  - intros i x Hi. rewrite Hx by (by eapply list_elem_of_lookup_2). by apply R4.
  - intros i x y H0 Hy Hpx. unfold due. rewrite !Hx by (by eapply list_elem_of_lookup_2). by eapply Ho.
  - intros x v Hl Hxh. unfold replaced in Hl. destruct (decide (x = e)) as [->|Hne].
    + rewrite lookup_partial_alter_eq in Hl. by apply Hv.
    + rewrite lookup_partial_alter_ne in Hl by done. by apply (Hout x).
Qed.

Lemma q_ok_replaced q h e o :
  q_ok q h → idle (evs q) e → (∀ v, o = Some v → fresh_event (length (activequeues q)) v) →
  Z.of_nat (size (replaced (evs q) e o)) <= INT_MAX → q_ok (q_evs q (replaced (evs q) e o)) h.
Proof.
  intros H Hi Ho Hs.
  assert (∀ k, qbit k → e ∉ listed q h k) as Hout by (intros k; by apply (idle_out q h)).
  assert (∀ x k, qbit k → flag (replaced (evs q) e o) x k = flag (evs q) x k) as Hfl.
  { intros x k Hk. rewrite flag_replaced. case_decide; [subst|done]. rewrite (Hi k Hk).
    destruct o as [v|]; [|done]. cbn. apply (fe_flags _ _ (Ho v eq_refl)). auto with kv. }
  assert (∀ k, qbit k → visible (replaced (evs q) e o) (listed q h k) = visible (evs q) (listed q h k)) as Hvis.
  { intros k Hk. apply visible_ext. intros x Hx. rewrite flag_replaced, decide_False; [done|].
    intros ->. by apply (Hout k). }
  split; cbn; try apply H; try done.
  - apply heap_ok_replaced; [apply H|by apply (Hout EVLIST_TIMEOUT); auto with kv|].
    intros v Hv. by apply (Ho v).
  - intros k x Hk. change (listed _ h k) with (listed q h k). rewrite Hfl by done. by apply H.
  - intros i l x Hl Hx. rewrite <- (qk_prio _ _ H i l x Hl Hx). unfold pri_of. rewrite cores_replaced, decide_False; [done|].
    intros ->. apply (Hout EVLIST_ACTIVE); [auto with kv|]. apply elem_of_concat_lookup. eauto.
  - intros x v Hv. destruct (decide (x = e)) as [->|Hne].
    + unfold replaced in Hv. rewrite lookup_partial_alter_eq in Hv. split; by apply (Ho v Hv).
    + unfold replaced in Hv. rewrite lookup_partial_alter_ne in Hv by done. by apply (qk_vals _ _ H x).
  - pose proof (Hvis EVLIST_INSERTED qbit_inserted) as E1. pose proof (Hvis EVLIST_ACTIVE qbit_active) as E2.
    pose proof (Hvis EVLIST_TIMEOUT qbit_timeout) as E3. cbn in E1, E2, E3.
    destruct (listed_queue q h) as (L1 & L2 & L3). rewrite L1, L2, L3 in *. rewrite E1, E2, E3. apply H.
Qed.

Lemma base_ok_replaced b h e o :
  base_ok b h → idle (evs (qs b)) e → (∀ v, o = Some v → fresh_event (length (activequeues (qs b))) v) →
  Z.of_nat (size (replaced (evs (qs b)) e o)) <= INT_MAX →
  base_ok (with_qs b (q_evs (qs b) (replaced (evs (qs b)) e o))) h.
Proof.
  intros H Hi Ho Hs.
  assert (∀ x, flag (replaced (evs (qs b)) e o) x EVLIST_INSERTED = flag (evs (qs b)) x EVLIST_INSERTED) as Hfl.
  { intros x. rewrite flag_replaced. case_decide; [subst|done]. rewrite (Hi EVLIST_INSERTED) by auto with kv.
    destruct o as [v|]; [|done]. cbn. apply (fe_flags _ _ (Ho v eq_refl)). auto with kv. }
  assert (∀ x, flag (evs (qs b)) x EVLIST_INSERTED = true → x ≠ e) as Hne.
  { intros x Hx ->. rewrite (Hi EVLIST_INSERTED) in Hx; [done|auto with kv]. }
  split; cbn; try apply H.
  - apply q_ok_replaced; [apply H|done..].
  - eapply io_ok_want; [|apply H]. intros fd x Hfd Hx. apply (bo_map _ _ H) in Hx as [Hx _]; [|done].
    unfold want_of. rewrite cores_replaced, decide_False; [done|by apply Hne].
  - intros x fd Hfd. rewrite Hfl, (bo_map _ _ H x fd Hfd). unfold fd_of. rewrite cores_replaced.
    case_decide as Hx; [|done]. subst. rewrite (Hi EVLIST_INSERTED) by auto with kv. naive_solver.
  - intros x Hx. rewrite Hfl in Hx. unfold want_of. rewrite cores_replaced, decide_False by (by apply Hne).
    by apply (bo_want _ _ H).
  - intros x v Hv. unfold replaced in Hv. destruct (decide (x = e)) as [->|Hxe].
    + rewrite lookup_partial_alter_eq in Hv. by apply (Ho v).
    + rewrite lookup_partial_alter_ne in Hv by done. by apply (bo_ev _ _ H x).
Qed.

Lemma absent_idle evs e : evs !! e = None → idle evs e.
Proof. intros H k _. unfold flag, cores. by rewrite H. Qed.

Lemma del_idle b b' e v : deleted b b' e v → idle (evs (qs b')) e.
Proof.
  intros D k Hk. destruct (dl_core _ _ _ _ D) as (u & Hu & Eu). rewrite (flag_lookup _ _ _ _ Hu).
  destruct (core_flags _ _ _ Eu) as (-> & _). unfold del_flags. rewrite !has_without by auto with kv.
  destruct (has (ev_flags v) k), Hk as [->|[->| ->]]; done.
Qed.

(** [event_free] of an event that [event_del] took off. *)
Lemma ev_free_ok b h e : base_ok b h → idle (evs (qs b)) e → base_ok (ev_free b e) h.
Proof.
  intros H Hi. apply (base_ok_replaced b h e None H Hi); [done|].
  pose proof (qk_size _ _ (bo_q _ _ H)). unfold replaced.
  destruct (evs (qs b) !! e) as [v|] eqn:E.
  - change (partial_alter _ e (evs (qs b))) with (delete e (evs (qs b))).
    rewrite map_size_delete_Some by (by rewrite E). lia.
  - change (partial_alter _ e (evs (qs b))) with (delete e (evs (qs b))).
    rewrite map_size_delete_None by done. lia.
Qed.

(** [event_assign] of a new event. *)
Lemma event_assign_ok b h e fd events cb arg :
  base_ok b h → idle (evs (qs b)) e → has events EV_SIGNAL = false → Z.land events EV_ET = 0 → fd < FD_LIMIT →
  (0 < length (activequeues (qs b)))%nat → Z.of_nat (size (evs (qs b))) < INT_MAX →
  (∀ v, evs (qs b) !! e = Some v → tv_normal (ev_timeout v) ∧ tv_normal (ev_io_timeout v)) →
  ∃ b', event_assign b e fd events cb arg = (0, b') ∧ base_ok b' h ∧ quiet b b' ∧ tm b' = tm b ∧
    (∃ v, evs (qs b') !! e = Some v ∧ ev_flags v = EVLIST_INIT ∧ ev_fd v = fd ∧ ev_events v = events ∧
       ev_callback v = cb ∧ ev_arg v = arg) ∧
    frame e (evs (qs b)) (evs (qs b')) ∧ activequeues (qs b') = activequeues (qs b).
Proof.
  intros H Hi Hsig Het Hfd Hnq Hs Hold. unfold event_assign. rewrite Hsig.
  set (old := evs (qs b) !! e) in *. set (pri := Z.of_nat (length (activequeues (qs b))) / 2).
  assert (tv_normal (from_option ev_timeout evutil_timerclear old) ∧ tv_normal (from_option ev_io_timeout evutil_timerclear old)) as [N1 N2].
  { destruct old as [v|]; [by apply Hold|]. unfold tv_normal. cbn. lia. }
  assert (0 <= pri < Z.of_nat (length (activequeues (qs b)))) as Hpri.
  { subst pri. split; [apply Z.div_pos; lia|apply Z.div_lt_upper_bound; lia]. }
  clearbody old pri.
  assert (∀ v, (∀ k, tested k → has (ev_flags v) k = false) → fresh_event (length (activequeues (qs b))) v →
     base_ok (with_qs b (q_event (qs b) e v)) h) as Hbase.
  { intros v Hv Hf. apply (base_ok_replaced b h e (Some v) H Hi); [by intros ? [= <-]|].
    change (replaced (evs (qs b)) e (Some v)) with (<[e := v]> (evs (qs b))).
    destruct (evs (qs b) !! e) eqn:E; [rewrite size_insert_dom by (by rewrite E)|rewrite map_size_insert_None by done]; lia. }
  assert (∀ k, tested k → has EVLIST_INIT k = false) as Hk.
  { intros k [[->|[->| ->]]| ->]; done. }
  destruct (has events EV_PERSIST) eqn:Hp; (eexists; split; [done|]; split; [apply Hbase; [done|]|]).
  - split; try done. split; try done; cbn. by rewrite Hp.
  - split_and!; try done; [|cbn; auto with kv]. cbn. eexists. rewrite lookup_insert_eq. split_and!; done.
  - split; try done. split; try done; cbn. by rewrite Hp.
  - split_and!; try done; [|cbn; auto with kv]. cbn. eexists. rewrite lookup_insert_eq. split_and!; done.
Qed.
End base.
