(* ===== verification/EventLoop.v ===== *)
(** libevent's loop: [event_base_loop] of [src/deps/libevent2/event.c] with the timeouts, the active
    events and their closures, and [epoll_dispatch] of [epoll.c].

    The callbacks of the program are a parameter ([user]), as functions on the event base, whose
    [os] has the program's state too.  No flags are set on a base ([event_base_new] sets none), and the
    changelist is off.  [evsig_set_base], which the loop calls when a signal event was added, belongs to
    signal.c. *)
From S2P Require Import Prelude Evbuffer EventData MinHeap Epoll EventCore.

Definition EVLOOP_ONCE : Z := 1.
Definition EVLOOP_NONBLOCK : Z := 2.
Definition MAX_NEVENT : Z := 4096.
Definition MAX_EPOLL_TIMEOUT_MSEC : Z := 35 * 60 * 1000.
Definition MAX_DEFERRED : nat := 16.

Definition ctl_gotterm (c : loop_ctl) (x : bool) : loop_ctl := {|
  event_gotterm := x; event_break := event_break c; event_continue := event_continue c;
  event_running_priority := event_running_priority c; running_loop := running_loop c; closure_ncalls := closure_ncalls c |}.
Definition ctl_break (c : loop_ctl) (x : bool) : loop_ctl := {|
  event_gotterm := event_gotterm c; event_break := x; event_continue := event_continue c;
  event_running_priority := event_running_priority c; running_loop := running_loop c; closure_ncalls := closure_ncalls c |}.
Definition ctl_priority (c : loop_ctl) (x : Z) : loop_ctl := {|
  event_gotterm := event_gotterm c; event_break := event_break c; event_continue := event_continue c;
  event_running_priority := x; running_loop := running_loop c; closure_ncalls := closure_ncalls c |}.
Definition ctl_running (c : loop_ctl) (x : bool) : loop_ctl := {|
  event_gotterm := event_gotterm c; event_break := event_break c; event_continue := event_continue c;
  event_running_priority := event_running_priority c; running_loop := x; closure_ncalls := closure_ncalls c |}.

Definition tm_cache (t : clocks) (x : timeval) : clocks := {|
  event_tv := event_tv t; tv_cache := x; tv_clock_diff := tv_clock_diff t; last_updated_clock_diff := last_updated_clock_diff t |}.
Definition tm_event_tv (t : clocks) (x : timeval) : clocks := {|
  event_tv := x; tv_cache := tv_cache t; tv_clock_diff := tv_clock_diff t; last_updated_clock_diff := last_updated_clock_diff t |}.

Section loop.
Context {W : Type} `{!EvOs W, !Evsig W}.
Implicit Types b : event_base W.

(** [user k fd res arg], and [user_deferred k cb arg] for deferred callbacks. *)
Context (user : Z → Z → Z → Z → event_base W → outcome (event_base W)).
Context (user_deferred : Z → Z → Z → event_base W → outcome (event_base W)).

Definition event_haveevents b : bool := (0 <? virtual_event_count b) || (0 <? event_count (qs b)).
Definition N_ACTIVE_CALLBACKS b : Z := event_count_active (qs b) + active_count (defer_queue b).

Definition event_base_loopexit b (tv : option timeval) : outcome (Z * event_base W) :=
  event_base_once b (-1) EV_TIMEOUT Event_loopexit_cb 0 tv.
Definition event_base_loopbreak b : Z * event_base W := (0, with_ctl b (ctl_break (ctl b) true)).
Definition event_base_got_break b : bool := event_break (ctl b).
Definition event_base_got_exit b : bool := event_gotterm (ctl b).

(** * The time *)

Definition clear_time_cache b : event_base W :=
  with_tm b (os b) (tm_cache (tm b) {| tv_sec := 0; tv_usec := tv_usec (tv_cache (tm b)) |}).

(** A clock that fails leaves the cache empty. *)
Definition update_time_cache b : outcome (event_base W) :=
  r ← gettime (clear_time_cache b);
  match r.1 with
  | Some t => Ret (with_tm r.2 (os r.2) (tm_cache (tm r.2) t))
  | None => Ret r.2
  end.

(** * Timeouts *)

(** [*tv_p] is [None] for [NULL]; [tv] is what the variable holds, [None] when it was never written. *)
Definition timeout_next b (tv : option timeval) : outcome (option timeval * event_base W) :=
  t ← min_heap_top (timeheap (qs b));
  match t with
  | None => Ret (None, b)
  | Some e =>
      r ← gettime b;
      match r.1 with
      | None => match tv with Some tv => Ret (Some tv, r.2) | None => Undef Indeterminate end
      | Some now =>
          v ← ev_get (evs (qs b)) e;
          if evutil_timercmp Z.leb (ev_timeout v) now then Ret (Some evutil_timerclear, r.2)
          else
            let d := evutil_timersub (ev_timeout v) now in
            _ ← EVUTIL_ASSERT (0 <=? tv_sec d);
            _ ← EVUTIL_ASSERT (0 <=? tv_usec d);
            Ret (Some d, r.2)
      end
  end.

Fixpoint shift_events (evs : store) (l : list (option Z)) (f : timeval → timeval) : outcome store :=
  match l with
  | [] => Ret evs
  | None :: _ => Undef Indeterminate
  | Some e :: l => v ← ev_get evs e; shift_events (<[e := ev_with_timeout v (f (ev_timeout v))]> evs) l f
  end.

Fixpoint shift_commons (evs : store) (i : Z) (l : list common_timeout_list) (off : timeval) : outcome store :=
  match l with
  | [] => Ret evs
  | c :: l =>
      evs ← shift_events evs (Some <$> ct_events c) (λ t,
        tv_mark (evutil_timersub (tv_mask t) off) (Z.lor COMMON_TIMEOUT_MAGIC (Z.shiftl i COMMON_TIMEOUT_IDX_SHIFT)));
      shift_commons evs (i + 1) l off
  end.

(** When the clock went back, every timeout goes back as far. *)
Definition timeout_correct b : outcome (option timeval * event_base W) :=
  if use_monotonic then Ret (None, b)
  else
    t ← gettime_use b;
    let '(tv, b) := t in
    if evutil_timercmp Z.geb tv (event_tv (tm b)) then Ret (Some tv, with_tm b (os b) (tm_event_tv (tm b) tv))
    else
      let off := evutil_timersub (event_tv (tm b)) tv in
      let h := timeheap (qs b) in
      evs ← shift_events (evs (qs b)) (take (Z.to_nat (n h)) (p h)) (λ t, evutil_timersub t off);
      evs ← shift_commons evs 0 (common_timeout_queues (qs b)) off;
      Ret (Some tv, with_tm (with_qs b (q_evs (qs b) evs)) (os b) (tm_event_tv (tm b) tv)).

(** Everything due at [now] becomes active. *)
Fixpoint timeout_loop (fuel : nat) b (now : timeval) : outcome (event_base W) :=
  match fuel with
  | O => NoFuel
  | S fuel =>
      t ← min_heap_top (timeheap (qs b));
      match t with
      | None => Ret b
      | Some e =>
          v ← ev_get (evs (qs b)) e;
          if evutil_timercmp Z.gtb (ev_timeout v) now then Ret b
          else
            r ← event_del_internal b e;
            b ← event_active_nolock r.2 e EV_TIMEOUT 1;
            timeout_loop fuel b now
      end
  end.

Definition timeout_process b : outcome (event_base W) :=
  if min_heap_empty (timeheap (qs b)) then Ret b
  else
    t ← gettime_use b;
    timeout_loop (heap_fuel (timeheap (qs t.2))) t.2 t.1.

(** * Descriptors *)

Fixpoint dispatch_loop b (l : list (Z * Z)) : outcome (event_base W) :=
  match l with
  | [] => Ret b
  | (fd, what) :: l =>
      let ev := epoll_what what in
      b ← (if decide (ev = 0) then Ret b else evmap_io_active b fd (Z.lor ev EV_ET));
      dispatch_loop b l
  end.

Definition epoll_dispatch b (tv : option timeval) : outcome (Z * event_base W) :=
  let timeout :=
    match tv with
    | None => -1
    | Some tv =>
        let t := evutil_tv_to_msec tv in
        if decide (t < 0 ∨ MAX_EPOLL_TIMEOUT_MSEC < t) then MAX_EPOLL_TIMEOUT_MSEC else t
    end in
  let r := epoll_wait (os b) (nevents b) timeout in
  let b := with_os b r.2 in
  match r.1 with
  | inl e => Ret (if decide (e = 4) then 0 else -1, b)
  | inr l =>
      _ ← EVUTIL_ASSERT (bool_decide (Z.of_nat (length l) <= nevents b));
      b ← dispatch_loop b l;
      if decide (Z.of_nat (length l) = nevents b ∧ nevents b < MAX_NEVENT) then
        let m := os_realloc (os b) (nevents b * 2 * 12) in
        Ret (0, if m.1 then with_nevents b m.2 (nevents b * 2) else with_os b m.2)
      else Ret (0, b)
  end.

(** * Running callbacks *)

(** The events of the common timeout [i] that are due become active; the first of the others is waited for. *)
Fixpoint common_timeout_loop (fuel : nat) b (i : nat) (now : timeval) : outcome (event_base W) :=
  match fuel with
  | O => NoFuel
  | S fuel =>
      match common_timeout_queues (qs b) !! i with
      | None => Undef OutOfBounds
      | Some c =>
          match ct_events c with
          | [] => Ret b
          | e :: _ =>
              v ← ev_get (evs (qs b)) e;
              let t := ev_timeout v in
              if (tv_sec now <? tv_sec t) || ((tv_sec t =? tv_sec now) && (tv_usec now <? Z.land (tv_usec t) MICROSECONDS_MASK))
              then x ← event_add_internal 2 b (timeout_event c) (Some (tv_mask t)) true; Ret x.2
              else
                r ← event_del_internal b e;
                b ← event_active_nolock r.2 e EV_TIMEOUT 1;
                common_timeout_loop fuel b i now
          end
      end
  end.

(** [depth]: the callback of [event_base_once] calls another. *)
Fixpoint run_callback (depth : nat) b (cb : event_callback_fn) (fd res arg : Z) : outcome (event_base W) :=
  match depth with
  | O => NoFuel
  | S depth =>
      match cb with
      | UserCb k => user k fd res arg b
      | Event_loopexit_cb => Ret (with_ctl b (ctl_gotterm (ctl b) true))
      | Common_timeout_callback =>
          t ← gettime_use b;
          match common_timeout_queues (qs t.2) !! Z.to_nat arg with
          | None => Undef OutOfBounds
          | Some c => common_timeout_loop (S (length (ct_events c))) t.2 (Z.to_nat arg) t.1
          end
      | Event_once_cb =>
          match onces b !! arg with
          | None => Undef OutOfBounds
          | Some (cb, a) =>
              b ← run_callback depth b cb fd res a;
              Ret (with_onces (ev_free b arg) (delete arg (onces b)))
          end
      end
  end.

Definition run_event b (e : Z) : outcome (event_base W) :=
  v ← ev_get (evs (qs b)) e;
  run_callback 2 b (ev_callback v) (ev_fd v) (ev_res v) (ev_arg v).

Definition event_of b (e : Z) (v : event) : event_base W := with_qs b (q_event (qs b) e v).

(** The signal's callback runs [ncalls] times. *)
Fixpoint signal_loop (fuel : nat) b (e : Z) : outcome (event_base W) :=
  match fuel with
  | O => NoFuel
  | S fuel =>
      match closure_ncalls (ctl b) with
      | None => Undef Indeterminate
      | Some (_, ncalls) =>
          if decide (ncalls = 0) then Ret b
          else
            v ← ev_get (evs (qs b)) e;
            let b := with_ctl (event_of b e (ev_with_ncalls v (ncalls - 1) (if decide (ncalls - 1 = 0) then false else ev_pncalls v)))
                       (ctl_closure (ctl b) (Some (e, ncalls - 1))) in
            b ← run_event b e;
            if event_break (ctl b) then
              match closure_ncalls (ctl b) with
              | Some (_, 0) | None => Ret b
              | _ => v ← ev_get (evs (qs b)) e; Ret (event_of b e (ev_with_ncalls v (ev_ncalls v) false))
              end
            else signal_loop fuel b e
      end
  end.

Definition event_signal_closure b (e : Z) : outcome (event_base W) :=
  v ← ev_get (evs (qs b)) e;
  let b := if decide (ev_ncalls v ≠ 0) then event_of b e (ev_with_ncalls v (ev_ncalls v) true) else b in
  b ← signal_loop (S (Z.to_nat (ev_ncalls v))) (with_ctl b (ctl_closure (ctl b) (Some (e, ev_ncalls v)))) e;
  Ret (with_ctl b (ctl_closure (ctl b) None)).

(** When a persistent event with a timeout is due next: an interval after it was due, or after now when
    it ran for another reason, or when that is over already. *)
Definition persist_run_at (q : queues) (v : event) (now : timeval) : timeval :=
  let common := is_common_timeout (ev_timeout v) q in
  let delay := if common then tv_mask (ev_io_timeout v) else ev_io_timeout v in
  let mask := if common then Z.land (tv_usec (ev_io_timeout v)) (Z.lnot MICROSECONDS_MASK) else 0 in
  let relative_to :=
    if has (ev_res v) EV_TIMEOUT then if common then tv_mask (ev_timeout v) else ev_timeout v else now in
  let run_at := evutil_timeradd relative_to delay in
  let run_at := if evutil_timercmp Z.ltb run_at now then evutil_timeradd now delay else run_at in
  tv_mark run_at mask.

Definition event_persist_closure b (e : Z) : outcome (event_base W) :=
  v ← ev_get (evs (qs b)) e;
  b ← (if decide (tv_sec (ev_io_timeout v) ≠ 0 ∨ tv_usec (ev_io_timeout v) ≠ 0) then
         _ ← EVUTIL_ASSERT (is_same_common_timeout (ev_timeout v) (ev_io_timeout v));
         t ← gettime_use b;
         r ← event_add_internal 2 t.2 e (Some (persist_run_at (qs t.2) v t.1)) true;
         Ret r.2
       else Ret b);
  run_event b e.

(** An event leaves the active queue, and the others too unless it is persistent, and runs. *)
Definition process_event b (e : Z) : outcome (Z * event_base W) :=
  v ← ev_get (evs (qs b)) e;
  b ← (if has (ev_events v) EV_PERSIST
       then q ← event_queue_remove (qs b) e EVLIST_ACTIVE; Ret (with_qs b q)
       else r ← event_del_internal b e; Ret r.2);
  v ← ev_get (evs (qs b)) e;
  b ← match ev_closure v with
      | EV_CLOSURE_SIGNAL => event_signal_closure b e
      | EV_CLOSURE_PERSIST => event_persist_closure b e
      | EV_CLOSURE_NONE => run_event b e
      end;
  Ret (if has (ev_flags v) EVLIST_INTERNAL then 0 else 1, b).

Fixpoint event_process_active_single_queue (fuel : nat) b (i count : Z) : outcome (Z * event_base W) :=
  match fuel with
  | O => NoFuel
  | S fuel =>
      l ← active_queue (qs b) i;
      match l with
      | [] => Ret (count, b)
      | e :: _ =>
          r ← process_event b e;
          let '(c, b) := r in
          if event_break (ctl b) then Ret (-1, b)
          else if event_continue (ctl b) then Ret (count + c, b)
          else event_process_active_single_queue fuel b i (count + c)
      end
  end.

(** At most [k] more deferred callbacks. *)
Fixpoint event_process_deferred_callbacks (k : nat) b : outcome (event_base W) :=
  match k with
  | O => Ret b
  | S k =>
      let d := defer_queue b in
      match deferred_cb_list d with
      | [] => Ret b
      | c :: l =>
          match dcbs d !! c with
          | None => Undef OutOfBounds
          | Some x =>
              let d := {| dcbs := <[c := {| queued := false; dcb_cb := dcb_cb x; dcb_arg := dcb_arg x |}]> (dcbs d);
                          deferred_cb_list := l; active_count := active_count d - 1 |} in
              b ← user_deferred (dcb_cb x) c (dcb_arg x) (with_dq b d);
              if event_break (ctl b) then Ret b else event_process_deferred_callbacks k b
          end
      end
  end.

Definition event_deferred_cb_schedule b (c : Z) : outcome (event_base W) :=
  let d := defer_queue b in
  match dcbs d !! c with
  | None => Undef OutOfBounds
  | Some x =>
      if queued x then Ret b
      else Ret (with_dq b {|
        dcbs := <[c := {| queued := true; dcb_cb := dcb_cb x; dcb_arg := dcb_arg x |}]> (dcbs d);
        deferred_cb_list := deferred_cb_list d ++ [c]; active_count := active_count d + 1 |})
  end.

Definition event_deferred_cb_cancel b (c : Z) : outcome (event_base W) :=
  let d := defer_queue b in
  match dcbs d !! c with
  | None => Undef OutOfBounds
  | Some x =>
      if queued x then
        l ← tailq_remove c (deferred_cb_list d);
        Ret (with_dq b {|
          dcbs := <[c := {| queued := false; dcb_cb := dcb_cb x; dcb_arg := dcb_arg x |}]> (dcbs d);
          deferred_cb_list := l; active_count := active_count d - 1 |})
      else Ret b
  end.

(** The queues from [i] on, [k] of them; [inr] ends the search. *)
Fixpoint process_queues (fuel k : nat) b (i : Z) : outcome (Z * event_base W) :=
  match k with
  | O => Ret (0, b)
  | S k =>
      l ← active_queue (qs b) i;
      match l with
      | [] => process_queues fuel k b (i + 1)
      | _ =>
          r ← event_process_active_single_queue fuel (with_ctl b (ctl_priority (ctl b) i)) i 0;
          if decide (r.1 = 0) then process_queues fuel k r.2 (i + 1) else Ret r
      end
  end.

Definition event_process_active (fuel : nat) b : outcome (Z * event_base W) :=
  r ← process_queues fuel (length (activequeues (qs b))) b 0;
  if decide (r.1 < 0) then Ret (-1, with_ctl r.2 (ctl_priority (ctl r.2) (-1)))
  else
    b ← event_process_deferred_callbacks MAX_DEFERRED r.2;
    Ret (r.1, with_ctl b (ctl_priority (ctl b) (-1))).

(** * The loop *)

(** One turn: [inl] is what the loop ends with. *)
Definition loop_turn (fuel : nat) b (flags : Z) : outcome ((Z + unit) * event_base W) :=
  let b := with_ctl b (ctl_continue (ctl b) false) in
  if event_gotterm (ctl b) then Ret (inl 0, b)
  else if event_break (ctl b) then Ret (inl 0, b)
  else
    t ← timeout_correct b;
    let '(tv, b) := t in
    t ← (if (N_ACTIVE_CALLBACKS b =? 0) && negb (has flags EVLOOP_NONBLOCK) then timeout_next b tv
         else Ret (Some evutil_timerclear, b));
    let '(tv_p, b) := t in
    if negb (event_haveevents b) && (N_ACTIVE_CALLBACKS b =? 0) then Ret (inl 1, b)
    else
      g ← gettime b;
      let b := match g.1 with Some t => with_tm g.2 (os g.2) (tm_event_tv (tm g.2) t) | None => g.2 end in
      d ← epoll_dispatch (clear_time_cache b) tv_p;
      if decide (d.1 = -1) then Ret (inl (-1), d.2)
      else
        b ← update_time_cache d.2;
        b ← timeout_process b;
        if negb (N_ACTIVE_CALLBACKS b =? 0) then
          r ← event_process_active fuel b;
          if has flags EVLOOP_ONCE && (N_ACTIVE_CALLBACKS r.2 =? 0) && negb (r.1 =? 0) then Ret (inl 0, r.2)
          else Ret (inr (), r.2)
        else if has flags EVLOOP_NONBLOCK then Ret (inl 0, b)
        else Ret (inr (), b).

Fixpoint loop_turns (turns fuel : nat) b (flags : Z) : outcome (Z * event_base W) :=
  match turns with
  | O => NoFuel
  | S turns =>
      r ← loop_turn fuel b flags;
      match r.1 with
      | inl z => Ret (z, r.2)
      | inr _ => loop_turns turns fuel r.2 flags
      end
  end.

Definition event_base_loop (turns fuel : nat) b (flags : Z) : outcome (Z * event_base W) :=
  if running_loop (ctl b) then Ret (-1, b)
  else
    let b := clear_time_cache (with_ctl b (ctl_running (ctl b) true)) in
    let b := with_ctl b (ctl_break (ctl_gotterm (ctl b) false) false) in
    r ← loop_turns turns fuel b flags;
    let b := clear_time_cache r.2 in
    Ret (r.1, with_ctl b (ctl_running (ctl b) false)).

Definition event_base_dispatch (turns fuel : nat) b : outcome (Z * event_base W) := event_base_loop turns fuel b 0.
End loop.
