(* ===== verification/EventRun.v ===== *)
(** What libevent's loop does with timeouts and descriptors that are ready, and that its turns keep the
    invariant of the event base. *)
From S2P Require Import Prelude Evbuffer EventData MinHeap Epoll EventCore EventInv EventLoop.

(** The kernel has entries for descriptors only.  It can take interest off an entry it has: deleting the
    entry, or leaving it fewer events, succeeds.  Of [epoll_ctl]'s documented errors those about absent or
    bad descriptors do not apply to such an entry, and ENOMEM is assumed not to occur in taking interest
    off; adding interest, with ADD or MOD, may fail in any way.  libevent does not survive a failure of
    the former kind: [event_del_internal] has taken the event's flag off by then. *)
Class EpollKeeps (W : Type) `{!EvOs W, !EpollOk W} := {
  interest_fd w fd : is_Some (interest w !! fd) → 0 <= fd;
  ctl_takes_off w op fd ev : takes_off w op fd ev → (epoll_ctl w op fd ev).1 = 0
}.

(** * Lists *)

Lemma filter_absent (e : Z) (l : list Z) : e ∉ l → filter (λ x, x ≠ e) l = l.
Proof.
  induction l as [|x l IH]; [done|]. rewrite not_elem_of_cons. intros [Hx Hl].
  rewrite filter_cons_True by done. by rewrite IH.
Qed.

Lemma alter_ext_at {A} (f g : A → A) (L : list A) i x : L !! i = Some x → f x = g x → alter f i L = alter g i L.
Proof.
  intros Hx E. apply list_eq. intros j. destruct (decide (j = i)) as [->|Hj].
  - rewrite !list_lookup_alter_eq, Hx. cbn. by rewrite E.
  - by rewrite !list_lookup_alter_ne.
Qed.

Lemma filter_ext_in {A} (P Q : A → Prop) `{!∀ x, Decision (P x), !∀ x, Decision (Q x)} (l : list A) :
  (∀ x, x ∈ l → P x ↔ Q x) → filter P l = filter Q l.
Proof.
  induction l as [|x l IH]; intros Hpq; [done|]. rewrite !filter_cons.
  pose proof (Hpq x ltac:(left)) as Hx. rewrite IH by (intros y Hy; apply Hpq; by right).
  destruct (decide (P x)), (decide (Q x)); naive_solver.
Qed.

Lemma filter_all {A} (P : A → Prop) `{!∀ x, Decision (P x)} (l : list A) : (∀ x, x ∈ l → P x) → filter P l = l.
Proof.
  induction l as [|x l IH]; intros Hp; [done|]. rewrite filter_cons_True by (apply Hp; left).
  rewrite IH; [done|]. intros y Hy. apply Hp. by right.
Qed.

Section run.
Context {W : Type} `{!EvOs W, !EpollOk W, !EpollKeeps W, !ClockOk W, !Evsig W}.
Implicit Types b : event_base W.

Lemma not_refused (w : W) fd : ¬ refused w fd.
Proof. intros (op & ev & Hop & Hne). by apply Hne, ctl_takes_off. Qed.

(** * Timeouts *)

Lemma timeout_members b h e : base_ok b h → e ∈ h ↔ flag (evs (qs b)) e EVLIST_TIMEOUT = true.
Proof. intros H. apply (qk_mem _ _ (bo_q _ _ H) EVLIST_TIMEOUT e qbit_timeout). Qed.

Lemma timeout_nodup b h : base_ok b h → NoDup h.
Proof. intros H. apply (qk_nodup _ _ (bo_q _ _ H) EVLIST_TIMEOUT qbit_timeout). Qed.

Lemma core_due evs evs' e : cores evs' e = cores evs e → due evs' e = due evs e.
Proof.
  unfold cores, due. destruct (evs' !! e), (evs !! e); cbn; [|done..]. intros E. apply (inj Some) in E.
  destruct e0, e1. unfold core in E. cbn in *. by simplify_eq/=.
Qed.

(** One event that is due: off every queue, and onto the active one. *)
Definition timed_out (v : event) : event :=
  ev_with_flags (ev_with_res v EV_TIMEOUT) (Z.lor (del_flags v) EVLIST_ACTIVE).

Lemma del_flags_queue v k : qbit k → has (del_flags v) k = false.
Proof.
  intros Hk. unfold del_flags. rewrite !has_without by auto with kv.
  destruct (has (ev_flags v) k), Hk as [->|[->| ->]]; done.
Qed.

(** The active queues when [e] moves to the end of its own. *)
Definition requeue (L : list (list Z)) (i : nat) (e : Z) : list (list Z) :=
  alter (λ l, filter (λ x, x ≠ e) l ++ [e]) i L.

Lemma timeout_step b h e v :
  base_ok b h → evs (qs b) !! e = Some v → e ∈ h →
  ∃ r b1 b2 h2, event_del_internal b e = Ret (r, b1) ∧ event_active_nolock b1 e EV_TIMEOUT 1 = Ret b2 ∧
    base_ok b2 h2 ∧ h ≡ₚ e :: h2 ∧
    (∀ x, cores (evs (qs b2)) x = if decide (x = e) then Some (core (timed_out v)) else cores (evs (qs b)) x) ∧
    activequeues (qs b2) = requeue (activequeues (qs b)) (Z.to_nat (ev_pri v)) e ∧
    tm b2 = tm b ∧ defer_queue b2 = defer_queue b ∧ onces b2 = onces b ∧ virtual_event_count b2 = virtual_event_count b ∧
    nevents b2 = nevents b ∧
    ctl b2 = (if bool_decide (ev_pri v < event_running_priority (ctl b)) then ctl_continue (ctl b) true else ctl b).
Proof.
  intros H Hv He.
  destruct (event_del_internal_ok b h e v H Hv) as (r & b1 & E1 & Q1 & M1 & D & [[-> [h1 H1]]|[_ []%not_refused]]).
  destruct (dl_core _ _ _ _ D) as (u & Hu & Eu). destruct (core_flags _ _ _ Eu) as (Ef & _ & _ & _ & _ & _ & _ & Ep & _).
  destruct (event_active_nolock_ok b1 h1 e u EV_TIMEOUT 1 H1 Hu) as (b2 & h2 & E2 & H2 & Ph & A).
  exists 0, b1, b2, h2. split; [done|]. split; [done|]. split; [done|].
  assert (has (ev_flags u) EVLIST_ACTIVE = false) as Hua by (rewrite Ef; apply del_flags_queue; auto with kv).
  destruct A as [(w & Hw & Ew) Fr Aq C (_ & _ & M2 & D2 & O2 & V2 & N2 & _)]. rewrite Hua in Ew, Aq, C. cbn [negb andb] in C.
  destruct Q1 as (Qc & Qd & Qo & Qv & Qn).
  split.
  { rewrite Ph. apply NoDup_Permutation; [by eapply timeout_nodup|constructor; [|by eapply timeout_nodup]|].
    - rewrite (timeout_members _ _ _ H1), (flag_lookup _ _ _ _ Hu), Ef, del_flags_queue by auto with kv. done.
    - intros x. rewrite elem_of_cons, (timeout_members _ _ x H), (timeout_members _ _ x H1).
      destruct (decide (x = e)) as [->|Hne]; [rewrite <- (timeout_members _ _ e H); naive_solver|].
      rewrite (flag_ext _ _ _ _ (dl_frame _ _ _ _ D x Hne)). naive_solver. }
  split.
  { intros x. destruct (decide (x = e)) as [->|Hx].
    - rewrite (cores_Some _ _ _ Hw), Ew. unfold timed_out. rewrite Ef. f_equal.
      destruct u, v; unfold core in *; cbn in *. by simplify_eq/=.
    - by rewrite (Fr x Hx), (dl_frame _ _ _ _ D x Hx). }
  split_and!; try congruence.
  - rewrite Aq, Ep, (dl_active _ _ _ _ D). unfold requeue.
    destruct (active_lookup _ _ _ _ (bo_q _ _ H) Hv) as (l & Hl & _ & Hel & _).
    destruct (has (ev_flags v) EVLIST_ACTIVE) eqn:Ha.
    + by rewrite list_alter_alter_eq.
    + eapply alter_ext_at; [done|]. cbn. rewrite filter_absent; [done|].
      intros Hin. assert (flag (evs (qs b)) e EVLIST_ACTIVE = true) as Hfl; [|rewrite (flag_lookup _ _ _ _ Hv) in Hfl; congruence].
      apply (qk_mem _ _ (bo_q _ _ H) EVLIST_ACTIVE e qbit_active).
      apply elem_of_concat_lookup. eauto.
  - by rewrite C, Ep, Qc.
Qed.

(** The events of a queue after those of [ts] moved to the ends of theirs. *)
Definition requeued (evs : store) (ts : list Z) (i : nat) (l : list Z) : list Z :=
  filter (λ x, x ∉ ts) l ++ filter (λ x, pri_of evs x = Z.of_nat i) ts.

Definition at_queue (L L' : list (list Z)) (f : nat → list Z → list Z) : Prop :=
  length L' = length L ∧ ∀ i l, L !! i = Some l → L' !! i = Some (f i l).

Lemma requeued_cons evs e ts i l :
  e ∉ ts →
  requeued evs ts i (if decide (pri_of evs e = Z.of_nat i) then filter (λ x, x ≠ e) l ++ [e] else l) =
  if decide (pri_of evs e = Z.of_nat i) then requeued evs (e :: ts) i l
  else filter (λ x, x ∉ ts) l ++ filter (λ x, pri_of evs x = Z.of_nat i) ts.
Proof.
  intros He. unfold requeued. case_decide as Hp; [|done].
  rewrite filter_app, list_filter_filter, (filter_cons_True _ e []) by done.
  rewrite (filter_cons_True (λ x, pri_of evs x = _)) by done. cbn.
  rewrite <- app_assoc. cbn. f_equal. apply list_filter_iff. intros x. rewrite not_elem_of_cons. naive_solver.
Qed.

(** What [timeout_loop] does: the events [ts] were due, [h'] are left. *)
Record timed b b' (h h' ts : list Z) (now : timeval) : Prop := {
  td_ok : base_ok b' h';
  td_split : h ≡ₚ ts ++ h';
  td_sorted : StronglySorted (λ x y, tv_le (due (evs (qs b)) x) (due (evs (qs b)) y)) ts;
  td_due e : e ∈ ts → tv_le (due (evs (qs b)) e) now;
  td_later e : e ∈ h' → ¬ tv_le (due (evs (qs b)) e) now;
  td_cores x : cores (evs (qs b')) x =
    if decide (x ∈ ts) then (λ c, core (timed_out c)) <$> cores (evs (qs b)) x else cores (evs (qs b)) x;
  td_active : at_queue (activequeues (qs b)) (activequeues (qs b')) (requeued (evs (qs b)) ts);
  td_same : tm b' = tm b ∧ defer_queue b' = defer_queue b ∧ onces b' = onces b ∧
    virtual_event_count b' = virtual_event_count b ∧ nevents b' = nevents b;
  td_ctl : event_running_priority (ctl b) <= 0 → ctl b' = ctl b
}.

Lemma timed_none b h now :
  base_ok b h → (∀ e, e ∈ h → ¬ tv_le (due (evs (qs b)) e) now) → timed b b h h [] now.
Proof.
  intros H Hl. split; try done.
  - constructor.
  - by intros e ?%elem_of_nil.
  - split; [done|]. intros i l Hi. rewrite Hi. unfold requeued. rewrite app_nil_r. f_equal.
    rewrite filter_all; [done|]. intros x _. apply not_elem_of_nil.
Qed.

Lemma pri_core evs e v : evs !! e = Some v → pri_of evs e = ev_pri v.
Proof. intros H. unfold pri_of. by rewrite (cores_Some _ _ _ H). Qed.

Lemma timed_more b b2 b3 h h2 h3 e v ts now :
  base_ok b h → evs (qs b) !! e = Some v → h ≡ₚ e :: h2 →
  (∀ x, x ∈ h → tv_le (due (evs (qs b)) e) (due (evs (qs b)) x)) → tv_le (due (evs (qs b)) e) now →
  (∀ x, cores (evs (qs b2)) x = if decide (x = e) then Some (core (timed_out v)) else cores (evs (qs b)) x) →
  activequeues (qs b2) = requeue (activequeues (qs b)) (Z.to_nat (ev_pri v)) e →
  timed b2 b3 h2 h3 ts now → tm b2 = tm b ∧ defer_queue b2 = defer_queue b ∧ onces b2 = onces b ∧
    virtual_event_count b2 = virtual_event_count b ∧ nevents b2 = nevents b →
  (event_running_priority (ctl b) <= 0 → ctl b2 = ctl b) →
  timed b b3 h h3 (e :: ts) now.
Proof.
  intros H Hv Hp Hmin Hnow Hc Ha T Hs Hctl.
  pose proof (timeout_nodup _ _ H) as Hnd. rewrite Hp in Hnd. apply NoDup_cons in Hnd as [He Hnd].
  assert (∀ x, x ∈ h2 → x ≠ e) as Hne by (intros x Hx ->; done).
  assert (∀ x, x ∈ ts ∨ x ∈ h3 → x ∈ h2) as Hsub by (intros x; rewrite (td_split _ _ _ _ _ _ T), elem_of_app; done).
  assert (∀ x, x ∈ h2 → due (evs (qs b2)) x = due (evs (qs b)) x) as Hdue.
  { intros x Hx. apply core_due. rewrite Hc, decide_False; [done|by apply Hne]. }
  assert (e ∉ ts) as Hets by (intros Hx; apply He, Hsub; by left).
  split.
  - apply T.
  - rewrite Hp, (td_split _ _ _ _ _ _ T). done.
  - constructor.
    + pose proof (td_sorted _ _ _ _ _ _ T) as Hst.
      assert (∀ l, (∀ x, x ∈ l → x ∈ h2) → StronglySorted (λ x y, tv_le (due (evs (qs b2)) x) (due (evs (qs b2)) y)) l →
         StronglySorted (λ x y, tv_le (due (evs (qs b)) x) (due (evs (qs b)) y)) l) as Hmono; [|by apply Hmono; eauto].
      clear -Hdue. induction l as [|x l IH]; intros Hl Hst; [constructor|].
      apply StronglySorted_inv in Hst as [Hst Hall]. constructor; [apply IH; [intros y Hy; apply Hl; by right|done]|].
      rewrite Forall_forall in *. intros y Hy. rewrite <- !Hdue by (apply Hl; (by left) || (by right)). by apply Hall.
    + apply Forall_forall. intros x Hx. apply Hmin. rewrite Hp. right. auto.
  - intros x [->|Hx]%elem_of_cons; [done|]. rewrite <- Hdue by auto. by apply (td_due _ _ _ _ _ _ T).
  - intros x Hx. rewrite <- Hdue by auto. by apply (td_later _ _ _ _ _ _ T).
  - intros x. rewrite (td_cores _ _ _ _ _ _ T), Hc. destruct (decide (x = e)) as [->|Hx].
    + rewrite decide_False, decide_True by (done || by left). rewrite (cores_Some _ _ _ Hv). done.
    + destruct (decide (x ∈ ts)); [rewrite decide_True by (by right)|rewrite decide_False by (by rewrite not_elem_of_cons)]; done.
  - destruct (td_active _ _ _ _ _ _ T) as [L Hl]. split; [rewrite L, Ha; unfold requeue; by rewrite length_alter|].
    intros i l Hi.
    assert (activequeues (qs b2) !! i = Some (if decide (pri_of (evs (qs b)) e = Z.of_nat i) then filter (λ x, x ≠ e) l ++ [e] else l)) as Hi2.
    { rewrite Ha. unfold requeue. rewrite (pri_core _ _ _ Hv). destruct (qk_vals _ _ (bo_q _ _ H) e v Hv) as [Hpr _].
      case_decide as Hpi; [rewrite Hpi, Nat2Z.id, list_lookup_alter_eq, Hi; done|].
      rewrite list_lookup_alter_ne, Hi by lia. done. }
    rewrite (Hl _ _ Hi2). f_equal.
    assert (∀ ts' l', (∀ x, x ∈ ts' → x ≠ e) → requeued (evs (qs b2)) ts' i l' = requeued (evs (qs b)) ts' i l') as Hq.
    { intros ts' l' Ht. unfold requeued. apply (f_equal (app _)). apply filter_ext_in. intros x Hx.
      unfold pri_of. by rewrite Hc, decide_False by (by apply Ht). }
    rewrite Hq by (intros x Hx; apply Hne; auto). rewrite requeued_cons by done. case_decide as Hpi; [done|].
    unfold requeued. rewrite (filter_cons_False (λ x, pri_of _ x = _)) by done. f_equal.
    apply filter_ext_in. intros x Hx. rewrite not_elem_of_cons. split; [|naive_solver].
    intros Hxt. split; [|done]. intros ->. apply Hpi. by apply (qk_prio _ _ (bo_q _ _ H) i l).
  - destruct (td_same _ _ _ _ _ _ T) as (-> & -> & -> & -> & ->). done.
  - intros Hr. rewrite (td_ctl _ _ _ _ _ _ T), Hctl; [done|done|by rewrite Hctl].
Qed.

Lemma timeout_loop_ok fuel b h now :
  (length h < fuel)%nat → base_ok b h →
  ∃ b' h' ts, timeout_loop fuel b now = Ret b' ∧ timed b b' h h' ts now.
Proof.
  revert b h. induction fuel as [|fuel IH]; intros b h Hf H; [lia|]. cbn [timeout_loop].
  destruct (top_ok _ _ _ (qk_heap _ _ (bo_q _ _ H))) as [-> Hmin]. cbn [mbind outcome_bind].
  destruct h as [|e h]; cbn [head].
  { exists b, [], []. split; [done|]. apply timed_none; [done|]. by intros e ?%elem_of_nil. }
  assert (e ∈ e :: h) as He by left.
  pose proof He as [v [Hv _]]%(timeout_members _ _ _ H)%flag_dom.
  rewrite (ev_get_ret _ _ _ Hv). cbn [mbind outcome_bind].
  assert (ev_timeout v = due (evs (qs b)) e) as -> by (unfold due; by rewrite Hv).
  rewrite timercmp_gt. case_bool_decide as Hd.
  { exists b, (e :: h), []. split; [done|]. apply timed_none; [done|]. intros x Hx Hle. apply Hd.
    transitivity (due (evs (qs b)) x); [by apply Hmin|done]. }
  destruct (timeout_step b (e :: h) e v H Hv He) as (r & b1 & b2 & h2 & -> & E2 & H2 & Hp & Hc & Ha & M & D & O & V & N & C).
  cbn [mbind outcome_bind fst snd]. rewrite E2. cbn [mbind outcome_bind].
  destruct (IH b2 h2) as (b3 & h3 & ts & -> & T); [|done|].
  { apply Permutation_length in Hp. cbn in Hp, Hf. lia. }
  exists b3, h3, (e :: ts). split; [done|].
  eapply timed_more; try done; [intros x Hx; by apply Hmin|].
  intros Hr. rewrite C, bool_decide_eq_false_2; [done|].
  destruct (qk_vals _ _ (bo_q _ _ H) e v Hv). lia.
Qed.

Lemma heap_length b h : base_ok b h → (length h < heap_fuel (timeheap (qs b)))%nat.
Proof.
  intros H. unfold heap_fuel. rewrite (rep_len _ _ _ (ok_rep _ _ _ (qk_heap _ _ (bo_q _ _ H)))). lia.
Qed.

Lemma timeout_process_ok b h :
  base_ok b h →
  ∃ b' b1 h' ts now, timeout_process b = Ret b' ∧ qs b1 = qs b ∧ quiet b b1 ∧ tv_cache (tm b1) = tv_cache (tm b) ∧
    (h ≠ [] → ∃ b2, gettime_use b = Ret (now, b2)) ∧ timed b1 b' h h' ts now.
Proof.
  intros H. unfold timeout_process, min_heap_empty.
  pose proof (rep_len _ _ _ (ok_rep _ _ _ (qk_heap _ _ (bo_q _ _ H)))) as Hn.
  case_bool_decide as Hz.
  - destruct h; [|cbn in Hn; lia]. exists b, b, [], [], (tv_cache (tm b)). split_and!; [done..|].
    apply timed_none; [done|]. by intros e ?%elem_of_nil.
  - destruct (gettime_use_ok b h H) as (now & b1 & -> & H1 & _ & Qt & Q1 & _ & _ & Hc & _). cbn [mbind outcome_bind fst snd].
    destruct (timeout_loop_ok (heap_fuel (timeheap (qs b1))) b1 h now) as (b' & h' & ts & -> & T); [by apply heap_length|done|].
    exists b', b1, h', ts, now. split_and!; try done. by exists b1.
Qed.

(** * Descriptors that are ready *)

(** What [evmap_io_active] does with an event on the descriptor. *)
Definition rouse (events : Z) (v : event) : event :=
  let res := Z.land (ev_events v) events in
  if has (ev_events v) events then
    if has (ev_flags v) EVLIST_ACTIVE then ev_with_res v (Z.lor (ev_res v) res)
    else ev_with_flags (ev_with_res v res) (Z.lor (ev_flags v) EVLIST_ACTIVE)
  else v.

Lemma rouse_core events v : core (rouse events (core v)) = core (rouse events v).
Proof. unfold rouse. cbn. by repeat case_match. Qed.

(** The rest of the base. *)
Definition only_queues b b' : Prop :=
  io b' = io b ∧ os b' = os b ∧ tm b' = tm b ∧ defer_queue b' = defer_queue b ∧ onces b' = onces b ∧
  virtual_event_count b' = virtual_event_count b ∧ nevents b' = nevents b.

Lemma only_queues_trans b1 b2 b3 : only_queues b1 b2 → only_queues b2 b3 → only_queues b1 b3.
Proof. unfold only_queues. intuition congruence. Qed.

Record roused b b' (h h' : list Z) (f : Z → event → event) : Prop := {
  rs_ok : base_ok b' h';
  rs_heap : h' ≡ₚ h;
  rs_cores x : cores (evs (qs b')) x = (λ c, core (f x c)) <$> cores (evs (qs b)) x;
  rs_active : Forall2 prefix (activequeues (qs b)) (activequeues (qs b'));
  rs_same : only_queues b b';
  rs_ctl : event_running_priority (ctl b) <= 0 → ctl b' = ctl b
}.

Lemma cores_core evs x : core <$> cores evs x = cores evs x.
Proof. unfold cores. by destruct (evs !! x). Qed.

Lemma roused_refl b h : base_ok b h → roused b b h h (λ _ v, v).
Proof. intros H. split; try done. intros x. by rewrite cores_core. Qed.

Lemma roused_trans b1 b2 b3 h1 h2 h3 f g :
  (∀ x v, core (g x (core v)) = core (g x v)) →
  roused b1 b2 h1 h2 f → roused b2 b3 h2 h3 g → roused b1 b3 h1 h3 (λ x v, g x (f x v)).
Proof.
  intros Hg [A1 A2 A3 A4 A5 A6] [B1 B2 B3 B4 B5 B6]. split; [done|by rewrite B2| | | |].
  - intros x. rewrite B3, A3. destruct (cores (evs (qs b1)) x); cbn; [|done]. by rewrite Hg.
  - by trans (activequeues (qs b2)).
  - by eapply only_queues_trans.
  - intros Hr. rewrite B6, A6; [done|done|by rewrite A6].
Qed.

Lemma roused_ext b b' h h' f g :
  (∀ x c, cores (evs (qs b)) x = Some c → core (f x c) = core (g x c)) → roused b b' h h' f → roused b b' h h' g.
Proof.
  intros E [A1 A2 A3 A4 A5 A6]. split; [done..| |done|done|done]. intros x. rewrite A3.
  destruct (cores (evs (qs b)) x) as [c|] eqn:Hc; cbn; [|done]. by rewrite E.
Qed.

Lemma alter_prefix (L : list (list Z)) i l : Forall2 prefix L (alter (λ k, k ++ l) i L).
Proof.
  apply Forall2_same_length_lookup_2; [by rewrite length_alter|]. intros j x y Hx Hy.
  destruct (decide (j = i)) as [->|Hj].
  - rewrite list_lookup_alter_eq, Hx in Hy. cbn in Hy. simplify_eq. by apply prefix_app_r.
  - rewrite list_lookup_alter_ne in Hy by done. by simplify_eq.
Qed.

Lemma rouse_one b h e v events :
  base_ok b h → evs (qs b) !! e = Some v →
  ∃ b' h', (if has (ev_events v) events then event_active_nolock b e (Z.land (ev_events v) events) 1 else Ret b) = Ret b' ∧
    roused b b' h h' (λ x v, if decide (x = e) then rouse events v else v).
Proof.
  intros H Hv. destruct (has (ev_events v) events) eqn:Hw.
  2: { exists b, h. split; [done|]. eapply roused_ext; [|by apply roused_refl]. intros x c Hc. case_decide as Hx; [|done]. subst.
       rewrite (cores_Some _ _ _ Hv) in Hc. simplify_eq. unfold rouse. cbn. by rewrite Hw. }
  destruct (event_active_nolock_ok b h e v (Z.land (ev_events v) events) 1 H Hv) as (b' & h' & -> & H' & Hp & A).
  exists b', h'. split; [done|]. destruct A as [(u & Hu & Eu) Fr Aq C S]. split; try done.
  - intros x. destruct (decide (x = e)) as [->|Hx].
    + rewrite (cores_Some _ _ _ Hu), (cores_Some _ _ _ Hv), Eu. cbn. rewrite rouse_core.
      unfold rouse. rewrite Hw. by case_match.
    + by rewrite Fr, cores_core.
  - rewrite Aq. destruct (has (ev_flags v) EVLIST_ACTIVE); [done|]. apply alter_prefix.
  - unfold only_queues. intuition.
  - intros Hr. rewrite C. destruct (qk_vals _ _ (bo_q _ _ H) e v Hv).
    rewrite bool_decide_eq_false_2 by lia. by rewrite andb_false_r.
Qed.

Lemma io_active_loop_ok l b h events :
  base_ok b h → NoDup l → (∀ x, x ∈ l → is_Some (evs (qs b) !! x)) →
  ∃ b' h', io_active_loop b l events = Ret b' ∧ roused b b' h h' (λ x v, if decide (x ∈ l) then rouse events v else v).
Proof.
  revert b h. induction l as [|e l IH]; intros b h H Hnd Hl; cbn [io_active_loop].
  { exists b, h. split; [done|]. eapply roused_ext; [|by apply roused_refl]. intros x c _.
    rewrite decide_False by apply not_elem_of_nil. done. }
  apply NoDup_cons in Hnd as [He Hnd].
  destruct (Hl e) as [v Hv]; [left|]. rewrite (ev_get_ret _ _ _ Hv). cbn [mbind outcome_bind].
  destruct (rouse_one b h e v events H Hv) as (b1 & h1 & -> & R1). cbn [mbind outcome_bind].
  destruct (IH b1 h1) as (b2 & h2 & -> & R2); [apply R1|done| |].
  { intros x Hx. destruct (Hl x) as [u Hu]; [by right|].
    pose proof (rs_cores _ _ _ _ _ R1 x) as Hc. rewrite (cores_Some _ _ _ Hu) in Hc. cbn in Hc.
    apply cores_inv in Hc as (w & Hw & _). eauto. }
  exists b2, h2. split; [done|]. eapply roused_ext; [|eapply roused_trans; [|exact R1|exact R2]].
  - intros x c _. cbn. destruct (decide (x = e)) as [->|Hx].
    + rewrite decide_False by done. by rewrite decide_True by left.
    + destruct (decide (x ∈ l)); [rewrite decide_True by (by right)|rewrite decide_False by (by rewrite not_elem_of_cons)]; done.
  - intros x c. cbn. case_decide; [apply rouse_core|done].
Qed.

(** Whether an event is on a descriptor. *)
Definition on_fd (fd : Z) (v : event) : bool := has (ev_flags v) EVLIST_INSERTED && bool_decide (ev_fd v = fd).

Lemma on_fd_member b h x v fd :
  base_ok b h → 0 <= fd → cores (evs (qs b)) x = Some v → x ∈ io_on (io b) fd ↔ on_fd fd v = true.
Proof.
  intros H Hfd Hx. rewrite (bo_map _ _ H x fd Hfd). unfold flag, fd_of, on_fd. rewrite Hx. cbn.
  rewrite andb_true_iff, bool_decide_eq_true. done.
Qed.

Lemma evmap_io_active_ok b h fd events :
  base_ok b h → is_Some (interest (os b) !! fd) →
  ∃ b' h', evmap_io_active b fd events = Ret b' ∧ roused b b' h h' (λ _ v, if on_fd fd v then rouse events v else v).
Proof.
  intros H Hi. pose proof (interest_fd _ _ Hi) as Hfd.
  rewrite (io_kernel _ _ _ (bo_io _ _ H) fd Hfd) in Hi.
  assert (∃ c, io b !! Z.to_nat fd = Some (Some c)) as [c Hc].
  { unfold io_on in Hi. destruct (io b !! Z.to_nat fd) as [[c|]|]; [by eauto|by destruct Hi..]. }
  assert (io_on (io b) fd = io_events c) as Eon by (unfold io_on; by rewrite Hc).
  pose proof (lookup_lt_Some _ _ _ Hc) as Hlt. pose proof (io_entry _ _ _ (bo_io _ _ H) _ _ Hc) as (Hnd & _).
  unfold evmap_io_active. rewrite bool_decide_eq_true_2 by lia. cbn [EVUTIL_ASSERT mbind outcome_bind].
  rewrite decide_False, Hc by lia.
  destruct (io_active_loop_ok (io_events c) b h events H Hnd) as (b' & h' & -> & R).
  { intros x Hx. rewrite <- Eon in Hx. apply (bo_map _ _ H) in Hx as [Hx _]; [|done].
    apply flag_dom in Hx as (v & Hv & _). eauto. }
  exists b', h'. split; [done|]. eapply roused_ext; [|done]. intros x v Hv. cbn. rewrite <- Eon.
  pose proof (on_fd_member b h x v fd H Hfd Hv) as Hm.
  destruct (on_fd fd v); case_decide as Hx; try done; exfalso; naive_solver.
Qed.

(** What a report of [epoll_wait] makes of an event, and what the reports [l] make of it. *)
Definition ready1 (v : event) (r : Z * Z) : event :=
  let ev := epoll_what r.2 in
  if negb (ev =? 0) && on_fd r.1 v then rouse (Z.lor ev EV_ET) v else v.
Definition ready (l : list (Z * Z)) (v : event) : event := foldl ready1 v l.

Lemma ready1_core r v : core (ready1 (core v) r) = core (ready1 v r).
Proof.
  unfold ready1. change (on_fd r.1 (core v)) with (on_fd r.1 v). case_match; [apply rouse_core|done].
Qed.

Lemma ready_core l v w : core v = core w → core (ready l v) = core (ready l w).
Proof.
  unfold ready. revert v w. induction l as [|r l IH]; intros v w E; cbn; [done|]. apply IH.
  by rewrite <- (ready1_core r v), E, ready1_core.
Qed.

Lemma dispatch_loop_ok l b h :
  base_ok b h → (∀ fd what, (fd, what) ∈ l → is_Some (interest (os b) !! fd)) →
  ∃ b' h', dispatch_loop b l = Ret b' ∧ roused b b' h h' (λ _, ready l).
Proof.
  revert b h. induction l as [|[fd what] l IH]; intros b h H Hl; cbn [dispatch_loop].
  { exists b, h. split; [done|]. by apply roused_refl. }
  assert (∃ b1 h1, (if decide (epoll_what what = 0) then Ret b else evmap_io_active b fd (Z.lor (epoll_what what) EV_ET)) = Ret b1 ∧
    roused b b1 h h1 (λ _ v, ready1 v (fd, what))) as (b1 & h1 & -> & R1).
  { unfold ready1. cbn. case_decide as Hz.
    - rewrite Hz. exists b, h. split; [done|]. by apply roused_refl.
    - rewrite (proj2 (Z.eqb_neq _ _) Hz). cbn. apply evmap_io_active_ok; [done|]. apply (Hl fd what). left. }
  cbn [mbind outcome_bind].
  destruct (IH b1 h1) as (b2 & h2 & -> & R2); [apply R1| |].
  { intros fd' what' Hin. destruct (rs_same _ _ _ _ _ R1) as (_ & -> & _). apply (Hl fd' what'). by right. }
  exists b2, h2. split; [done|]. eapply roused_ext; [|eapply roused_trans; [|exact R1|exact R2]].
  - done.
  - intros x v. cbn. by apply ready_core.
Qed.

(** A time in microseconds. *)
Definition tv_us (t : timeval) : Z := tv_sec t * 1000000 + tv_usec t.

(** How long [epoll_wait] may wait for [tv]: at least as long, unless that is more than its limit, and
    less than a millisecond longer. *)
Definition waits (tv : option timeval) (t : Z) : Prop :=
  match tv with
  | None => t = -1
  | Some d => 0 <= t <= MAX_EPOLL_TIMEOUT_MSEC ∧ t * 1000 < tv_us d + 1000 ∧
      (tv_us d <= t * 1000 ∨ t = MAX_EPOLL_TIMEOUT_MSEC)
  end.

Lemma msec_waits d :
  0 <= tv_sec d → tv_normal d →
  waits (Some d) (let t := evutil_tv_to_msec d in
    if decide (t < 0 ∨ MAX_EPOLL_TIMEOUT_MSEC < t) then MAX_EPOLL_TIMEOUT_MSEC else t).
Proof.
  intros Hs Hn. unfold waits, tv_us, evutil_tv_to_msec, tv_normal in *. cbn zeta.
  assert (MAX_SECONDS_IN_MSEC_LONG = 9223372036854774) as -> by done.
  assert (MAX_EPOLL_TIMEOUT_MSEC = 2100000) as -> by done.
  pose proof (Z.div_mod (tv_usec d + 999) 1000 ltac:(lia)). pose proof (Z.mod_pos_bound (tv_usec d + 999) 1000 ltac:(lia)).
  destruct (Z.ltb_spec 1000000 (tv_usec d)); [lia|]. cbn.
  destruct (Z.ltb_spec 9223372036854774 (tv_sec d)); case_decide; lia.
Qed.

Lemma base_ok_os b h w : interest w = interest (os b) → base_ok b h → base_ok (with_os b w) h.
Proof.
  intros Hw H. pose proof (io_ok_os _ _ _ _ Hw (bo_io _ _ H)). destruct H. by split.
Qed.

Lemma base_ok_nevents b h w k : interest w = interest (os b) → base_ok b h → base_ok (with_nevents b w k) h.
Proof.
  intros Hw H. pose proof (io_ok_os _ _ _ _ Hw (bo_io _ _ H)). destruct H. by split.
Qed.

Lemma epoll_dispatch_ok b h tv :
  base_ok b h → (∀ d, tv = Some d → 0 <= tv_sec d ∧ tv_normal d) →
  ∃ t r b' h', waits tv t ∧ epoll_dispatch b tv = Ret (r, b') ∧ base_ok b' h' ∧ h' ≡ₚ h ∧
    tm b' = tm b ∧ defer_queue b' = defer_queue b ∧ onces b' = onces b ∧ (event_running_priority (ctl b) <= 0 → ctl b' = ctl b) ∧
    match (epoll_wait (os b) (nevents b) t).1 with
    | inl e => r = (if decide (e = 4) then 0 else -1) ∧ qs b' = qs b
    | inr l => r = 0 ∧
        (∀ x, cores (evs (qs b')) x = (λ c, core (ready l c)) <$> cores (evs (qs b)) x) ∧
        Forall2 prefix (activequeues (qs b)) (activequeues (qs b'))
    end.
Proof.
  intros H Htv. unfold epoll_dispatch.
  set (t := match tv with None => _ | Some _ => _ end).
  assert (waits tv t) as Ht.
  { subst t. destruct tv as [d|]; [|done]. destruct (Htv d eq_refl). by apply msec_waits. }
  clearbody t. cbn zeta.
  pose proof (wait_interest (os b) (nevents b) t) as Hi. pose proof (wait_reports (os b) (nevents b) t) as Hr.
  destruct (epoll_wait (os b) (nevents b) t) as [[e|l] w] eqn:E; cbn [fst snd] in *.
  { exists t, (if decide (e = 4) then 0 else -1), (with_os b w), h. rewrite E. cbn. split_and!; try done. by apply base_ok_os. }
  destruct (Hr l eq_refl) as [Hlen Hl]. cbn [nevents with_os]. rewrite bool_decide_eq_true_2 by done. cbn [EVUTIL_ASSERT mbind outcome_bind].
  destruct (dispatch_loop_ok l (with_os b w) h) as (b1 & h1 & -> & [R1 R2 R3 R4 R5 R6]); [by apply base_ok_os| |].
  { intros fd what Hin. destruct (Hl fd what Hin) as (m & Hm & _). cbn. rewrite Hi, Hm. eauto. }
  destruct R5 as (_ & _ & S1 & S2 & S3 & _). cbn in S1, S2, S3, R6.
  cbn [mbind outcome_bind]. case_decide.
  - eexists t, 0, _, h1. split; [done|]. split; [done|]. rewrite E. cbn.
    assert (interest (os_realloc (os b1) (nevents b1 * 2 * 12)).2 = interest (os b1)) as Hm by apply realloc_interest.
    split; [case_match; [by apply base_ok_nevents|by apply base_ok_os]|]. split; [done|]. case_match; split_and!; done.
  - exists t, 0, b1, h1. rewrite E. done.
Qed.

End run.
