(* ===== verification/EventSafe.v ===== *)
(** The loop never goes wrong: with callbacks that keep the invariant of the base, [event_base_loop]
    has no undefined behaviour, never aborts, and ends only for the reasons it may end for.

    [loop_ok] adds to [base_ok] what the loop relies on: the callbacks are the program's or those of
    [event_base_once], whose events and records go together, and the deferred callbacks that are queued
    exist. *)
From S2P Require Import Prelude Evbuffer EventData MinHeap Epoll EventCore EventInv EventLoop EventRun.

(** A result that satisfies [P], or out of fuel. *)
Definition sound {A} (P : A → Prop) (o : outcome A) : Prop := o = NoFuel ∨ ∃ x, o = Ret x ∧ P x.

Lemma sound_ret {A} (P : A → Prop) x : P x → sound P (Ret x).
Proof. right. eauto. Qed.

Lemma sound_fuel {A} (P : A → Prop) : sound P NoFuel.
Proof. by left. Qed.

Lemma sound_bind {A B} (P : A → Prop) (Q : B → Prop) o (f : A → outcome B) :
  sound P o → (∀ x, P x → sound Q (f x)) → sound Q (o ≫= f).
Proof. intros [->|(x & -> & Hx)] Hf; [by left|by apply Hf]. Qed.

Lemma sound_mono {A} (P Q : A → Prop) o : sound P o → (∀ x, P x → Q x) → sound Q o.
Proof. intros [->|(x & -> & Hx)] H; [by left|right; eauto]. Qed.

#[export] Hint Resolve sound_ret sound_fuel : kv.

(** * The invariant of the loop *)

(** What an event does, for which events, and whether it is internal. *)
Definition shape (v : event) : event_callback_fn * Z * Z * bool :=
  (ev_callback v, ev_arg v, ev_events v, has (ev_flags v) EVLIST_INTERNAL).
Definition shapes (evs : store) (e : Z) : option (event_callback_fn * Z * Z * bool) := shape <$> cores evs e.

Lemma shapes_lookup evs e v : evs !! e = Some v → shapes evs e = Some (shape v).
Proof. intros H. unfold shapes. by rewrite (cores_Some _ _ _ H). Qed.

Lemma shapes_core evs evs' e : cores evs' e = cores evs e → shapes evs' e = shapes evs e.
Proof. unfold shapes. by intros ->. Qed.

(** Only [e] changed, and it does the same. *)
Lemma shapes_frame evs evs' e v w :
  frame e evs evs' → evs !! e = Some v → evs' !! e = Some w → shape w = shape v → ∀ x, shapes evs' x = shapes evs x.
Proof.
  intros Fr Hv Hw E x. destruct (decide (x = e)) as [->|Hx].
  - by rewrite (shapes_lookup _ _ _ Hv), (shapes_lookup _ _ _ Hw), E.
  - by apply shapes_core, Fr.
Qed.

Lemma core_shape v w : core v = core w → shape v = shape w.
Proof. intros E. destruct v, w. unfold core, shape in *. cbn in *. by simplify_eq/=. Qed.

(** The flags of the queues are not the one of internal events. *)
Lemma flags_shape v f : has f EVLIST_INTERNAL = has (ev_flags v) EVLIST_INTERNAL → shape (ev_with_flags v f) = shape v.
Proof. intros E. unfold shape. cbn. by rewrite E. Qed.

Lemma without_internal f queue : qbit queue → has (without f queue) EVLIST_INTERNAL = has f EVLIST_INTERNAL.
Proof.
  intros Hq. rewrite has_without by auto with kv. rewrite bool_decide_eq_false_2, andb_true_r; [done|].
  destruct Hq as [->|[->| ->]]; done.
Qed.

Lemma set_internal f queue : qbit queue → has (Z.lor f queue) EVLIST_INTERNAL = has f EVLIST_INTERNAL.
Proof.
  intros Hq. rewrite has_set by auto with kv. rewrite bool_decide_eq_false_2, orb_false_r; [done|].
  destruct Hq as [->|[->| ->]]; done.
Qed.

Lemma del_internal v : has (del_flags v) EVLIST_INTERNAL = has (ev_flags v) EVLIST_INTERNAL.
Proof. unfold del_flags. by rewrite !without_internal by auto with kv. Qed.

Lemma add_internal v : has (add_flags v) EVLIST_INTERNAL = has (ev_flags v) EVLIST_INTERNAL.
Proof. unfold add_flags. case_match; [|done]. by rewrite set_internal by auto with kv. Qed.

Lemma retracted_internal v : has (retracted v) EVLIST_INTERNAL = has (ev_flags v) EVLIST_INTERNAL.
Proof.
  unfold retracted. cbn zeta. destruct (retracts v); [rewrite (has_clear_other _ EVLIST_ACTIVE) by done|];
    by rewrite without_internal by auto with kv.
Qed.

Section safe.
Context {W : Type} `{!EvOs W, !EpollOk W, !EpollKeeps W, !ClockOk W, !Evsig W}.
Implicit Types b : event_base W.

Record loop_ok b (h : list Z) : Prop := {
  lp_base : base_ok b h;
  lp_cb e cb arg events internal : shapes (evs (qs b)) e = Some (cb, arg, events, internal) → internal = false ∧
    match cb with
    | UserCb _ => True
    | Event_once_cb => arg = e ∧ has events EV_PERSIST = false ∧ is_Some (onces b !! e)
    | _ => False
    end;
  lp_once e cb a : onces b !! e = Some (cb, a) →
    (cb = Event_loopexit_cb ∨ ∃ k, cb = UserCb k) ∧ ∃ events, shapes (evs (qs b)) e = Some (Event_once_cb, e, events, false);
  lp_dq c : c ∈ deferred_cb_list (defer_queue b) → is_Some (dcbs (defer_queue b) !! c)
}.

(** What a callback leaves alone: the number of queues, and the events of [event_base_once]. *)
Definition keeps b b' : Prop :=
  length (activequeues (qs b')) = length (activequeues (qs b)) ∧
  ∀ e, is_Some (onces b !! e) → onces b' !! e = onces b !! e ∧ cores (evs (qs b')) e = cores (evs (qs b)) e.

Lemma keeps_trans b1 b2 b3 : keeps b1 b2 → keeps b2 b3 → keeps b1 b3.
Proof.
  intros [L1 H1] [L2 H2]. split; [congruence|]. intros e He. destruct (H1 e He) as [O1 C1].
  destruct (H2 e) as [O2 C2]; [by rewrite O1|]. split; congruence.
Qed.

(** The base differs in what [loop_ok] does not look at. *)
Lemma loop_ok_step b b' h h' :
  loop_ok b h → base_ok b' h' → (∀ e, shapes (evs (qs b')) e = shapes (evs (qs b)) e) →
  onces b' = onces b → defer_queue b' = defer_queue b → loop_ok b' h'.
Proof.
  intros [H1 H2 H3 H4] H E O D. split; [done| | |].
  - intros e cb arg events i. rewrite E, O. apply H2.
  - intros e cb a. rewrite O, E. apply H3.
  - by rewrite D.
Qed.

Lemma loop_ok_ctl b h c : loop_ok b h → loop_ok (with_ctl b c) h.
Proof. intros H. eapply loop_ok_step; try done. destruct (lp_base _ _ H). by split. Qed.

Definition held b : Prop := ∃ h, loop_ok b h.

(** The number of active queues does not change. *)
Definition width b : nat := length (activequeues (qs b)).

(** An operation of the loop on the event [e]. *)
Definition moves b b' (e : Z) : Prop :=
  held b' ∧ width b' = width b ∧ (∀ x, shapes (evs (qs b')) x = shapes (evs (qs b)) x) ∧
  frame e (evs (qs b)) (evs (qs b')) ∧ onces b' = onces b.

Lemma moves_trans b1 b2 b3 e : moves b1 b2 e → moves b2 b3 e → moves b1 b3 e.
Proof.
  intros (_ & W1 & S1 & F1 & O1) (H2 & W2 & S2 & F2 & O2). split; [done|].
  split; [congruence|]. split; [intros x; by rewrite S2|]. split; [by eapply frame_trans|congruence].
Qed.

(** What [e] is after that. *)
Lemma moves_event b b' e v :
  moves b b' e → evs (qs b) !! e = Some v → ∃ w, evs (qs b') !! e = Some w ∧ shape w = shape v.
Proof.
  intros (_ & _ & S & _) Hv. specialize (S e). rewrite (shapes_lookup _ _ _ Hv) in S. unfold shapes in S.
  destruct (cores (evs (qs b')) e) as [u|] eqn:E; [|done]. apply cores_inv in E as (w & Hw & ->).
  exists w. split; [done|]. apply (inj Some) in S. exact S.
Qed.

Lemma moves_event_core b b' e v f :
  held b → (∃ h', base_ok b' h') → evs (qs b) !! e = Some v →
  (∃ u, evs (qs b') !! e = Some u ∧ core u = core (f v)) → shape (f v) = shape v → frame e (evs (qs b)) (evs (qs b')) →
  width b' = width b → onces b' = onces b → defer_queue b' = defer_queue b → moves b b' e.
Proof.
  intros [h H] [h' H'] Hv (u & Hu & Eu) Es Fr Wd O D.
  assert (∀ x, shapes (evs (qs b')) x = shapes (evs (qs b)) x) as Hs.
  { eapply shapes_frame; [done|done|done|]. by rewrite (core_shape _ _ Eu). }
  split_and!; try done. exists h'. by eapply loop_ok_step.
Qed.

Lemma del_held b e v :
  held b → evs (qs b) !! e = Some v →
  ∃ r b', event_del_internal b e = Ret (r, b') ∧ moves b b' e ∧ idle (evs (qs b')) e.
Proof.
  intros H Hv. pose proof H as [h Hl].
  destruct (event_del_internal_ok b h e v (lp_base _ _ Hl) Hv) as (r & b' & -> & (_ & Qd & Qo & _) & _ & D & [[-> H']|[_ []%not_refused]]).
  exists 0, b'. split; [done|]. split; [|by eapply del_idle]. destruct D as [Hu Fr Aq _].
  eapply (moves_event_core b b' e v (λ v, ev_with_flags v (del_flags v))); try done; [apply flags_shape, del_internal|].
  unfold width. rewrite Aq. case_match; [by rewrite length_alter|done].
Qed.

Lemma dequeue_held b e v :
  held b → evs (qs b) !! e = Some v → has (ev_flags v) EVLIST_ACTIVE = true →
  ∃ q, event_queue_remove (qs b) e EVLIST_ACTIVE = Ret q ∧ moves b (with_qs b q) e.
Proof.
  intros H Hv Hf. pose proof H as [h Hl].
  destruct (queue_remove_held b h e v EVLIST_ACTIVE (lp_base _ _ Hl) Hv Hf) as (q & h' & -> & _ & R); [by right|].
  exists q. split; [done|]. destruct R as [R1 _ R3 R4 R5 _ _].
  eapply (moves_event_core b _ e v (λ v, ev_with_flags v (Z.land (ev_flags v) (Z.lnot EVLIST_ACTIVE)))); try done; [by eauto|by apply flags_shape, has_clear_other|].
  unfold width. rewrite R5, bool_decide_eq_true_2 by done. by rewrite length_alter.
Qed.

Lemma add_held b e v tv abs :
  held b → evs (qs b) !! e = Some v → (∀ t, tv = Some t → tv_normal t) →
  ∃ r b', event_add_internal 2 b e tv abs = Ret (r, b') ∧ moves b b' e.
Proof.
  intros [h H] Hv Htv.
  destruct (event_add_internal_ok 1 b h e v tv abs (lp_base _ _ H) Hv Htv) as (r & b' & h' & -> & H' & (Qc & Qd & Qo & _) & _ & R).
  exists r, b'. split; [done|].
  destruct R as [[_ [Hc _ Ha _]]|[_ [(now & u & Hu & Eu & _) Fr Ha]]].
  - assert (∀ x, shapes (evs (qs b')) x = shapes (evs (qs b)) x) by (intros x; by apply shapes_core).
    split_and!; [exists h'; by eapply loop_ok_step|unfold width; by rewrite Ha|done|by intros x _|done].
  - eapply (moves_event_core b b' e v (λ v, add_result v tv abs now)); try done; [by exists h|by eauto|by eauto| |].
    + unfold add_result. assert (shape (ev_with_flags v (add_flags v)) = shape v) as E by apply flags_shape, add_internal.
      destruct tv as [t|]; [|done]. rewrite <- E. unfold shape.
      case_decide; cbn; by rewrite set_internal, retracted_internal, ?add_internal by auto with kv.
    + unfold width. rewrite Ha. case_match; [by rewrite length_alter|done].
Qed.

Lemma time_held b e :
  held b → ∃ now b', gettime_use b = Ret (now, b') ∧ tv_normal now ∧ moves b b' e ∧ qs b' = qs b.
Proof.
  intros [h H]. destruct (gettime_use_ok b h (lp_base _ _ H)) as (now & b' & -> & H' & Hn & (_ & Qd & Qo & _) & Eq & _).
  exists now, b'. split; [done|]. split; [done|]. split; [|done].
  unfold moves, width. rewrite Eq, Qo. split_and!; try done. exists h. eapply loop_ok_step; try done. intros x. by rewrite Eq.
Qed.

(** * Running callbacks *)

(** The program's callbacks keep the invariant, and leave the events of [event_base_once] alone. *)
Definition callbacks_ok (user : Z → Z → Z → Z → event_base W → outcome (event_base W)) : Prop :=
  ∀ k fd res arg b, held b → sound (λ b', held b' ∧ keeps b b') (user k fd res arg b).
Definition deferred_ok (user : Z → Z → Z → event_base W → outcome (event_base W)) : Prop :=
  ∀ k c arg b, held b → sound (λ b', held b' ∧ keeps b b') (user k c arg b).

Context (user : Z → Z → Z → Z → event_base W → outcome (event_base W)).
Context (user_deferred : Z → Z → Z → event_base W → outcome (event_base W)).
Context (Huser : callbacks_ok user) (Hdeferred : deferred_ok user_deferred).

Definition good (k : nat) b : Prop := held b ∧ width b = k.

Lemma good_ctl k b c : good k b → good k (with_ctl b c).
Proof. intros [[h H] ?]. split; [|done]. exists h. by apply loop_ok_ctl. Qed.

Lemma good_keeps k b b' : good k b → held b' ∧ keeps b b' → good k b'.
Proof. intros [_ Hw] [H [L _]]. split; [done|]. unfold width in *. congruence. Qed.

Lemma good_moves k b b' e : good k b → moves b b' e → good k b'.
Proof. intros [_ Hw] (H & L & _). split; [done|congruence]. Qed.

Lemma user_good k f fd res arg b : good k b → sound (λ b', good k b' ∧ keeps b b') (user f fd res arg b).
Proof.
  intros H. eapply sound_mono; [apply Huser, H|]. intros b' Hb. split; [by eapply good_keeps|apply Hb].
Qed.

(** The record of [event_base_once] is freed when its callback returns. *)
Lemma once_freed k b e :
  good k b → idle (evs (qs b)) e → is_Some (onces b !! e) → good k (with_onces (ev_free b e) (delete e (onces b))).
Proof.
  intros [[h H] Hw] Hi He. split; [|done]. exists h.
  assert (∀ x, shapes (evs (qs (ev_free b e))) x = if decide (x = e) then None else shapes (evs (qs b)) x) as Hs.
  { intros x. unfold shapes. cbn. rewrite cores_delete. by case_decide. }
  pose proof (ev_free_ok b h e (lp_base _ _ H) Hi) as Hb. destruct H as [H1 H2 H3 H4].
  split; [by destruct Hb; split| | |exact H4].
  - intros x cb arg events i Hx. cbn [qs with_onces onces] in *. rewrite Hs in Hx. case_decide as Hxe; [done|].
    specialize (H2 x cb arg events i Hx). rewrite lookup_delete_ne by congruence. exact H2.
  - intros x cb arg Hx. cbn [qs with_onces onces] in *. rewrite Hs.
    apply lookup_delete_Some in Hx as [Hne Hx]. rewrite decide_False by congruence. exact (H3 x cb arg Hx).
Qed.

Lemma run_event_sound k b e v :
  good k b → evs (qs b) !! e = Some v → (ev_callback v = Event_once_cb → idle (evs (qs b)) e) →
  sound (good k) (run_event user b e).
Proof.
  intros Hg Hv Hi. unfold run_event. rewrite (ev_get_ret _ _ _ Hv). cbn [mbind outcome_bind].
  pose proof Hg as [[h H] Hw].
  destruct (lp_cb _ _ H e _ _ _ _ (shapes_lookup _ _ _ Hv)) as [_ Hcb]. cbn [run_callback].
  destruct (ev_callback v) as [f| | |]; [|destruct Hcb as (-> & Hp & [[cb a] Ho])|done..].
  { eapply sound_mono; [by apply user_good|]. by intros b' []. }
  specialize (Hi eq_refl). rewrite Ho. destruct (lp_once _ _ H e cb a Ho) as [Hc _].
  assert (sound (λ b', good k b' ∧ keeps b b') (match cb with
      | UserCb k => user k (ev_fd v) (ev_res v) a b
      | Event_loopexit_cb => Ret (with_ctl b (ctl_gotterm (ctl b) true))
      | _ => NoFuel end)) as Hr.
  { destruct Hc as [->|[f ->]]; [|by apply user_good]. apply sound_ret. split; [by apply good_ctl|done]. }
  eapply sound_bind.
  - destruct Hc as [->|[f ->]]; exact Hr.
  - intros b' [Hg' [_ K]]. apply sound_ret. destruct (K e) as [Ko Kc]; [by rewrite Ho|].
    apply once_freed; [done| |by rewrite Ko, Ho]. intros q Hq. rewrite (flag_ext _ _ _ _ Kc). by apply Hi.
Qed.

Lemma persist_run_at_normal q v now :
  common_timeout_queues q = [] → plain_event v → tv_normal now → tv_normal (persist_run_at q v now).
Proof.
  intros Hq [_ _ _ _ Hd Hi _] Hn. unfold persist_run_at.
  rewrite is_common_none by (done || apply Hd). cbn zeta. unfold tv_mark. rewrite Z.lor_0_r.
  set (at' := if evutil_timercmp _ _ _ then _ else _).
  assert (tv_normal at') as H; [|by destruct at'].
  subst at'. repeat case_match; auto using timeradd_normal.
Qed.

Lemma same_common_plain t u : tv_normal t → tv_normal u → is_same_common_timeout t u = true.
Proof.
  intros Ht Hu. unfold is_same_common_timeout. apply Z.eqb_eq.
  assert (∀ x, 0 <= x < 1000000 → Z.land x (Z.lnot MICROSECONDS_MASK) = 0) as E; [|by rewrite !E].
  intros x Hx. rewrite <- Z.ldiff_land. change MICROSECONDS_MASK with (Z.ones 20). rewrite Z.ldiff_ones_r by lia.
  rewrite Z.shiftr_div_pow2, Z.div_small by lia. done.
Qed.

Lemma persist_sound k b e v :
  good k b → evs (qs b) !! e = Some v → ev_callback v ≠ Event_once_cb → sound (good k) (event_persist_closure user b e).
Proof.
  intros Hg Hv Hcb. unfold event_persist_closure. rewrite (ev_get_ret _ _ _ Hv). cbn [mbind outcome_bind].
  pose proof Hg as [[h H] Hw]. pose proof (bo_ev _ _ (lp_base _ _ H) e v Hv) as Hpe.
  assert (∃ b', (if decide (tv_sec (ev_io_timeout v) ≠ 0 ∨ tv_usec (ev_io_timeout v) ≠ 0) then
         _ ← EVUTIL_ASSERT (is_same_common_timeout (ev_timeout v) (ev_io_timeout v));
         t ← gettime_use b;
         r ← event_add_internal 2 t.2 e (Some (persist_run_at (qs t.2) v t.1)) true;
         Ret r.2
       else Ret b) = Ret b' ∧ good k b' ∧ ∃ w, evs (qs b') !! e = Some w ∧ shape w = shape v) as (b' & -> & Hg' & w & Hw' & Es).
  { case_decide; [|exists b; eauto].
    rewrite same_common_plain by apply Hpe. cbn [EVUTIL_ASSERT mbind outcome_bind].
    destruct (time_held b e (ex_intro _ h H)) as (now & b1 & -> & Hn & M1 & Eq). cbn [mbind outcome_bind fst snd].
    assert (common_timeout_queues (qs b1) = []) as Hcq by (rewrite Eq; apply (qk_common _ _ (bo_q _ _ (lp_base _ _ H)))).
    destruct (add_held b1 e v (Some (persist_run_at (qs b1) v now)) true) as (r & b2 & -> & M2).
    - apply M1.
    - by rewrite Eq.
    - intros t [= <-]. by apply persist_run_at_normal.
    - cbn [mbind outcome_bind fst snd]. pose proof (moves_trans _ _ _ _ M1 M2) as M.
      exists b2. split; [done|]. split; [by eapply good_moves|]. by eapply moves_event. }
  cbn [mbind outcome_bind]. eapply run_event_sound; [done|done|]. intros Ec.
  assert (ev_callback w = ev_callback v) by (unfold shape in Es; congruence). congruence.
Qed.

Lemma process_event_sound k b e v :
  good k b → evs (qs b) !! e = Some v → has (ev_flags v) EVLIST_ACTIVE = true →
  sound (λ r, good k r.2 ∧ 0 <= r.1) (process_event user b e).
Proof.
  intros Hg Hv Hf. unfold process_event. rewrite (ev_get_ret _ _ _ Hv). cbn [mbind outcome_bind].
  assert (∃ b', (if has (ev_events v) EV_PERSIST
       then q ← event_queue_remove (qs b) e EVLIST_ACTIVE; Ret (with_qs b q)
       else r ← event_del_internal b e; Ret r.2) = Ret b' ∧ moves b b' e ∧
     (has (ev_events v) EV_PERSIST = false → idle (evs (qs b')) e)) as (b1 & -> & M & Hi).
  { destruct (has (ev_events v) EV_PERSIST).
    - destruct (dequeue_held b e v (proj1 Hg) Hv Hf) as (q & -> & M). by exists (with_qs b q).
    - destruct (del_held b e v (proj1 Hg) Hv) as (r & b' & -> & M & Hi). by exists b'. }
  cbn [mbind outcome_bind]. destruct (moves_event _ _ _ _ M Hv) as (w & Hw & Es). rewrite (ev_get_ret _ _ _ Hw). cbn [mbind outcome_bind].
  pose proof (good_moves _ _ _ _ Hg M) as Hg1. pose proof Hg1 as [[h1 H1] _].
  pose proof (pe_closure _ (bo_ev _ _ (lp_base _ _ H1) e w Hw)) as Hcl.
  assert (ev_events w = ev_events v) as Ee by (unfold shape in Es; congruence).
  assert (ev_callback w = Event_once_cb → has (ev_events v) EV_PERSIST = false) as Honce.
  { intros Ec. destruct (lp_cb _ _ H1 e _ _ _ _ (shapes_lookup _ _ _ Hw)) as [_ Hcb]. rewrite Ec, Ee in Hcb. apply Hcb. }
  eapply sound_bind with (P := good k).
  - rewrite Hcl, Ee. destruct (has (ev_events v) EV_PERSIST) eqn:Hp.
    + eapply persist_sound; [done|done|]. intros Ec. by specialize (Honce Ec).
    + eapply run_event_sound; [done|done|]. auto.
  - intros b2 Hg2. apply sound_ret. split; [done|]. cbn [fst]. destruct (has _ EVLIST_INTERNAL); lia.
Qed.

(** * The queues *)

Lemma active_queue_good k b i :
  good k b → 0 <= i < Z.of_nat k → ∃ l, active_queue (qs b) i = Ret l ∧ activequeues (qs b) !! Z.to_nat i = Some l.
Proof.
  intros [_ Hw] Hi. unfold active_queue. rewrite decide_True by lia.
  destruct (lookup_lt_is_Some_2 (activequeues (qs b)) (Z.to_nat i)) as [l Hl]; [unfold width in Hw; lia|].
  rewrite Hl. eauto.
Qed.

Lemma active_member k b i l e :
  good k b → activequeues (qs b) !! i = Some l → e ∈ l →
  ∃ v, evs (qs b) !! e = Some v ∧ has (ev_flags v) EVLIST_ACTIVE = true.
Proof.
  intros [[h H] _] Hl He. apply flag_dom.
  apply (qk_mem _ _ (bo_q _ _ (lp_base _ _ H)) EVLIST_ACTIVE e qbit_active).
  apply elem_of_concat_lookup. eauto.
Qed.

(** What running a queue returns: how many ran, or -1 when the loop is to stop. *)
Definition ran (k : nat) (r : Z * event_base W) : Prop := good k r.2 ∧ (0 <= r.1 ∨ r.1 = -1 ∧ event_break (ctl r.2) = true).

Lemma single_queue_sound k fuel b i count :
  good k b → 0 <= i < Z.of_nat k → 0 <= count → sound (ran k) (event_process_active_single_queue user fuel b i count).
Proof.
  revert b count. induction fuel as [|fuel IH]; intros b count Hg Hi Hc; [apply sound_fuel|].
  cbn [event_process_active_single_queue].
  destruct (active_queue_good k b i Hg Hi) as (l & -> & Hl). cbn [mbind outcome_bind].
  destruct l as [|e l]; [apply sound_ret; split; [done|by left]|].
  destruct (active_member k b _ _ e Hg Hl) as (v & Hv & Hf); [left|].
  eapply sound_bind; [by eapply process_event_sound|]. intros [c b1] [Hg1 Hc1]. cbn [fst snd] in *.
  destruct (event_break (ctl b1)) eqn:Hb; [apply sound_ret; split; [done|by right]|].
  destruct (event_continue (ctl b1)); [apply sound_ret; split; [done|cbn; lia]|]. apply IH; [done|done|lia].
Qed.

Lemma process_queues_sound k fuel j b i :
  good k b → 0 <= i → i + Z.of_nat j = Z.of_nat k → sound (ran k) (process_queues user fuel j b i).
Proof.
  revert b i. induction j as [|j IH]; intros b i Hg H0 Hi; cbn [process_queues].
  { apply sound_ret. split; [done|]. by left. }
  destruct (active_queue_good k b i Hg) as (l & -> & Hl); [lia|]. cbn [mbind outcome_bind].
  destruct l as [|e l]; [apply IH; [done|lia|lia]|].
  eapply sound_bind; [apply (single_queue_sound k fuel); [by apply good_ctl|lia|lia]|].
  intros [r b1] [Hg1 Hr]. cbn [fst snd] in *. case_decide; [apply IH; [done|lia|lia]|].
  by apply sound_ret.
Qed.

(** A deferred callback leaves the queue before it runs. *)
Lemma dequeue_deferred b h c l x y k :
  loop_ok b h → deferred_cb_list (defer_queue b) = c :: l → dcbs (defer_queue b) !! c = Some x →
  loop_ok (with_dq b {| dcbs := <[c := y]> (dcbs (defer_queue b)); deferred_cb_list := l; active_count := k |}) h.
Proof.
  intros [H1 H2 H3 H4] El Hx. split; [by destruct H1; split|done|done|].
  intros c' Hc'. cbn in *. apply lookup_insert_is_Some'. right. apply H4. rewrite El. by right.
Qed.

Lemma deferred_callbacks_sound k j b : good k b → sound (good k) (event_process_deferred_callbacks user_deferred j b).
Proof.
  revert b. induction j as [|j IH]; intros b Hg; cbn [event_process_deferred_callbacks]; [by apply sound_ret|].
  destruct (deferred_cb_list (defer_queue b)) as [|c l] eqn:El; [by apply sound_ret|].
  pose proof Hg as [[h H] Hw]. destruct (lp_dq _ _ H c) as [x Hx]; [rewrite El; left|]. rewrite Hx.
  set (d := {| dcbs := _; deferred_cb_list := l; active_count := _ |}).
  assert (good k (with_dq b d)) as Hd by (split; [exists h; by eapply dequeue_deferred|done]).
  eapply sound_bind; [apply Hdeferred, Hd|]. intros b' Hb'.
  pose proof (good_keeps _ _ _ Hd Hb') as Hg'.
  destruct (event_break (ctl b')); [by apply sound_ret|by apply IH].
Qed.

Lemma process_active_sound k fuel b : good k b → sound (ran k) (event_process_active user user_deferred fuel b).
Proof.
  intros Hg. unfold event_process_active. pose proof Hg as [_ Hw]. unfold width in Hw.
  eapply sound_bind; [apply process_queues_sound; [done|done|lia]|].
  intros [r b1] [Hg1 Hr]. cbn [fst snd] in *. case_decide as Hd.
  - apply sound_ret. split; [by apply good_ctl|]. right. cbn. split; [done|]. destruct Hr as [|[]]; [lia|done].
  - eapply sound_bind; [by apply (deferred_callbacks_sound k)|]. intros b2 Hg2.
    apply sound_ret. split; [by apply good_ctl|]. left. cbn. lia.
Qed.

(** * The loop *)

Lemma timed_shape v : shape (timed_out v) = shape v.
Proof.
  unfold timed_out, shape. cbn [ev_callback ev_arg ev_events ev_flags ev_with_flags ev_with_res].
  by rewrite set_internal, del_internal by auto with kv.
Qed.

Lemma timed_held k b :
  good k b → ∃ b', timeout_process b = Ret b' ∧ good k b' ∧ ∀ x, shapes (evs (qs b')) x = shapes (evs (qs b)) x.
Proof.
  intros [[h H] Hw]. destruct (timeout_process_ok b h (lp_base _ _ H)) as (b' & b1 & h' & ts & now & -> & Eq & (_ & Qd & Qo & _) & _ & _ & T).
  exists b'. split; [done|]. destruct T as [T1 _ _ _ _ T6 [T7 _] (_ & Td & To & _) _]. rewrite Eq in *.
  assert (∀ x, shapes (evs (qs b')) x = shapes (evs (qs b)) x) as Hs.
  { intros x. unfold shapes. rewrite T6. case_decide; [|done]. destruct (cores (evs (qs b)) x) as [v|]; [|done].
    apply (f_equal Some), timed_shape. }
  split; [|done]. split; [|unfold width in *; congruence]. exists h'. eapply loop_ok_step; [done|done|done|congruence|congruence].
Qed.

Lemma rouse_shape events v : shape (rouse events v) = shape v.
Proof.
  unfold rouse. destruct (has (ev_events v) events); [|done]. destruct (has (ev_flags v) EVLIST_ACTIVE); [done|].
  unfold shape. cbn [ev_callback ev_arg ev_events ev_flags ev_with_flags ev_with_res]. by rewrite set_internal by auto with kv.
Qed.

Lemma ready_shape l v : shape (ready l v) = shape v.
Proof.
  unfold ready. revert v. induction l as [|r l IH]; intros v; [done|]. cbn. rewrite IH. unfold ready1.
  case_match; [apply rouse_shape|done].
Qed.

(** Why [epoll_dispatch] fails. *)
Definition wait_failed : Prop := ∃ (w : W) k t e, (epoll_wait w k t).1 = inl e ∧ e ≠ 4.

Lemma dispatch_held k b tv :
  good k b → (∀ d, tv = Some d → 0 <= tv_sec d ∧ tv_normal d) →
  ∃ r b', epoll_dispatch b tv = Ret (r, b') ∧ good k b' ∧ (r = 0 ∨ r = -1 ∧ wait_failed) ∧
    ∀ x, shapes (evs (qs b')) x = shapes (evs (qs b)) x.
Proof.
  intros [[h H] Hw] Htv.
  destruct (epoll_dispatch_ok b h tv (lp_base _ _ H) Htv) as (t & r & b' & h' & _ & E & H' & _ & _ & Qd & Qo & _ & R).
  exists r, b'. split; [done|].
  assert ((∀ x, shapes (evs (qs b')) x = shapes (evs (qs b)) x) ∧ width b' = width b ∧ (r = 0 ∨ r = -1 ∧ wait_failed)) as (Hs & Hwd & Hr).
  { destruct (epoll_wait (os b) (nevents b) t).1 as [e|l] eqn:Ew.
    - destruct R as [-> Eq]. unfold width. rewrite Eq. split_and!; [done|done|].
      case_decide; [by left|]. right. split; [done|]. by exists (os b), (nevents b), t, e.
    - destruct R as (-> & Hc & Ha). split_and!; [|symmetry; exact (Forall2_length _ _ _ Ha)|by left].
      intros x. unfold shapes. rewrite Hc. destruct (cores (evs (qs b)) x) as [c|]; [|done]. cbn. f_equal. apply ready_shape. }
  split; [|by split]. split; [|congruence]. exists h'. by eapply loop_ok_step.
Qed.

Lemma timersub_later t u : tv_normal t → tv_normal u → tv_le u t → 0 <= tv_sec (evutil_timersub t u) ∧ tv_normal (evutil_timersub t u).
Proof.
  unfold tv_normal, evutil_timersub. rewrite tv_le_spec. intros Ht Hu Hle. case_decide; cbn; lia.
Qed.

Lemma gettime_good k b : good k b → ∃ now b', gettime b = Ret (Some now, b') ∧ good k b' ∧ tv_normal now ∧ qs b' = qs b.
Proof.
  intros [[h H] Hw]. destruct (gettime_ok b h (lp_base _ _ H)) as (now & b' & -> & H' & Hn & (_ & Qd & Qo & _) & Eq & _).
  exists now, b'. split; [done|]. split; [|done]. split; [|unfold width in *; by rewrite Eq].
  exists h. eapply loop_ok_step; try done. intros x. by rewrite Eq.
Qed.

Lemma timeout_next_good k b tv :
  good k b → ∃ d b', timeout_next b tv = Ret (d, b') ∧ good k b' ∧ (∀ d', d = Some d' → 0 <= tv_sec d' ∧ tv_normal d') ∧
    qs b' = qs b.
Proof.
  intros Hg. pose proof Hg as [[h H] _]. pose proof (lp_base _ _ H) as Hb.
  unfold timeout_next. destruct (top_ok _ _ _ (qk_heap _ _ (bo_q _ _ Hb))) as [-> _]. cbn [mbind outcome_bind].
  destruct h as [|e h]; cbn [head]; [by exists None, b|].
  destruct (gettime_good k b Hg) as (now & b' & -> & Hg' & Hn & Eq). cbn [mbind outcome_bind fst snd].
  assert (e ∈ e :: h) as He by left.
  apply (timeout_members _ _ _ Hb), flag_dom in He as (v & Hv & _). rewrite (ev_get_ret _ _ _ Hv). cbn [mbind outcome_bind].
  rewrite timercmp_le. case_bool_decide as Hle.
  { exists (Some evutil_timerclear), b'. split_and!; [done..| |done]. intros d [= <-]. unfold tv_normal. cbn. lia. }
  destruct (timersub_later (ev_timeout v) now) as [Hs Hu]; [apply (bo_ev _ _ Hb e v Hv)|done|by apply tv_gt_le|].
  pose proof Hu as [Hu0 _]. rewrite (proj2 (Z.leb_le _ _) Hs), (proj2 (Z.leb_le _ _) Hu0). cbn [EVUTIL_ASSERT mbind outcome_bind].
  eexists (Some _), b'. split_and!; [done..| |done]. by intros d [= <-].
Qed.

Lemma good_cache k b w t : good k b → interest w = interest (os b) → tv_normal (tv_cache t) → good k (with_tm b w t).
Proof.
  intros [[h H] Hw] Hi Ht. split; [|done]. exists h. pose proof (lp_base _ _ H) as Hb.
  pose proof (io_ok_os _ _ _ _ Hi (bo_io _ _ Hb)). eapply loop_ok_step; try done. destruct Hb. by split.
Qed.

Lemma cache_normal k b : good k b → tv_normal (tv_cache (tm b)).
Proof. intros [[h H] _]. apply (bo_now _ _ (lp_base _ _ H)). Qed.

Lemma clear_cache_good k b : good k b → good k (clear_time_cache b).
Proof. intros Hg. apply good_cache; [done..|]. exact (cache_normal _ _ Hg). Qed.

Lemma update_cache_good k b : good k b → ∃ b', update_time_cache b = Ret b' ∧ good k b' ∧ qs b' = qs b.
Proof.
  intros Hg. unfold update_time_cache.
  destruct (gettime_good k _ (clear_cache_good _ _ Hg)) as (now & b' & -> & Hg' & Hn & Eq). cbn [mbind outcome_bind fst snd].
  eexists. split; [done|]. split; [by apply good_cache|done].
Qed.

(** Why the loop ends with [z]. *)
Definition ended (flags : Z) (z : Z) b : Prop :=
  z = 0 ∧ (event_gotterm (ctl b) = true ∨ event_break (ctl b) = true ∨ has flags (Z.lor EVLOOP_ONCE EVLOOP_NONBLOCK) = true) ∨
  z = 1 ∧ event_haveevents b = false ∧ N_ACTIVE_CALLBACKS b = 0 ∨
  z = -1 ∧ wait_failed.

(** The end of a turn: the active events run. *)
Definition turn_end (fuel : nat) b (flags : Z) : outcome ((Z + unit) * event_base W) :=
  if negb (N_ACTIVE_CALLBACKS b =? 0) then
    r ← event_process_active user user_deferred fuel b;
    if has flags EVLOOP_ONCE && (N_ACTIVE_CALLBACKS r.2 =? 0) && negb (r.1 =? 0) then Ret (inl 0, r.2)
    else Ret (inr (), r.2)
  else if has flags EVLOOP_NONBLOCK then Ret (inl 0, b)
  else Ret (inr (), b).

(** A turn ends the loop, or gets to its end with the same events. *)
Lemma loop_turn_cases k fuel b flags :
  use_monotonic = true → good k b →
  (∃ z b', loop_turn user user_deferred fuel b flags = Ret (inl z, b') ∧ good k b' ∧ ended flags z b') ∨
  (∃ b', loop_turn user user_deferred fuel b flags = turn_end fuel b' flags ∧ good k b' ∧
     ∀ x, shapes (evs (qs b')) x = shapes (evs (qs b)) x).
Proof.
  intros Hmono Hg. unfold loop_turn.
  set (b0 := with_ctl b _). assert (good k b0) as H0 by (by apply good_ctl). change (qs b) with (qs b0). clearbody b0. cbn zeta.
  destruct (event_gotterm (ctl b0)) eqn:Eg; [left; exists 0, b0; split_and!; [done|done|left; auto]|].
  destruct (event_break (ctl b0)) eqn:Eb; [left; exists 0, b0; split_and!; [done|done|left; auto]|].
  unfold timeout_correct. rewrite Hmono. cbn [mbind outcome_bind].
  assert (∃ d b1, (if (N_ACTIVE_CALLBACKS b0 =? 0) && negb (has flags EVLOOP_NONBLOCK) then timeout_next b0 None
         else Ret (Some evutil_timerclear, b0)) = Ret (d, b1) ∧ good k b1 ∧
      (∀ d', d = Some d' → 0 <= tv_sec d' ∧ tv_normal d') ∧ qs b1 = qs b0) as (d & b1 & -> & H1 & Hd & Eq1).
  { case_match; [by apply timeout_next_good|]. exists (Some evutil_timerclear), b0. split_and!; [done..| |done].
    intros d' [= <-]. unfold tv_normal. cbn. lia. }
  cbn [mbind outcome_bind].
  destruct (negb (event_haveevents b1) && (N_ACTIVE_CALLBACKS b1 =? 0)) eqn:Ee.
  { left. exists 1, b1. split_and!; [done|done|]. right; left. apply andb_true_iff in Ee as [E1%negb_true_iff E2%Z.eqb_eq]. done. }
  destruct (gettime_good k b1 H1) as (now & b2 & -> & H2 & Hn & Eq2). cbn [mbind outcome_bind fst snd].
  set (b3 := with_tm b2 _ _). assert (good k b3) as H3 by (apply good_cache; [done..|apply (cache_normal _ _ H2)]).
  assert (qs b3 = qs b0) as Eq3 by (change (qs b3) with (qs b2); congruence). clearbody b3.
  destruct (dispatch_held k (clear_time_cache b3) d) as (r & b4 & -> & H4 & Hr & S4); [by apply clear_cache_good|done|].
  cbn [mbind outcome_bind fst snd].
  case_decide as Hr1.
  { left. exists (-1), b4. split_and!; [done|done|]. right; right. split; [done|]. destruct Hr as [|[]]; [lia|done]. }
  destruct (update_cache_good k b4 H4) as (b5 & -> & H5 & Eq5). cbn [mbind outcome_bind].
  destruct (timed_held k b5 H5) as (b6 & -> & H6 & S6). cbn [mbind outcome_bind].
  right. exists b6. split_and!; [done|done|]. intros x. rewrite S6, Eq5, S4. cbn. by rewrite Eq3.
Qed.

Lemma has_flag flags f : has flags f = true → f = EVLOOP_ONCE ∨ f = EVLOOP_NONBLOCK → has flags (Z.lor EVLOOP_ONCE EVLOOP_NONBLOCK) = true.
Proof. intros Hf [->| ->]; rewrite has_or, Hf; [done|apply orb_true_r]. Qed.

Lemma loop_turn_sound k fuel b flags :
  use_monotonic = true → good k b →
  sound (λ r, good k r.2 ∧ ∀ z, r.1 = inl z → ended flags z r.2) (loop_turn user user_deferred fuel b flags).
Proof.
  intros Hmono Hg.
  destruct (loop_turn_cases k fuel b flags Hmono Hg) as [(z & b' & -> & H' & He)|(b6 & -> & H6 & _)].
  { apply sound_ret. split; [done|]. by intros z' [= <-]. }
  unfold turn_end. destruct (negb (N_ACTIVE_CALLBACKS b6 =? 0)).
  - eapply sound_bind; [by apply (process_active_sound k)|]. intros [z b7] [H7 _]. cbn [fst snd] in *.
    destruct (has flags EVLOOP_ONCE && _ && _) eqn:Eo; apply sound_ret; (split; [done|]); intros z' [= <-].
    left. split; [done|]. right; right. eapply has_flag; [|by left].
    apply andb_true_iff in Eo as [[Eo _]%andb_true_iff _]. done.
  - destruct (has flags EVLOOP_NONBLOCK) eqn:En; apply sound_ret; (split; [done|]); intros z' [= <-].
    left. split; [done|]. right; right. eapply has_flag; [done|by right].
Qed.

Lemma loop_turns_sound k turns fuel b flags :
  use_monotonic = true → good k b →
  sound (λ r, good k r.2 ∧ ended flags r.1 r.2) (loop_turns user user_deferred turns fuel b flags).
Proof.
  intros Hmono. revert b. induction turns as [|turns IH]; intros b Hg; cbn [loop_turns]; [apply sound_fuel|].
  eapply sound_bind; [by apply (loop_turn_sound k)|]. intros [r b1] [H1 Hr]. cbn [fst snd] in *.
  destruct r as [z|]; [|by apply IH]. apply sound_ret. auto.
Qed.
End safe.

Lemma event_base_loop_sound {W : Type} `{!EvOs W, !EpollOk W, !EpollKeeps W, !ClockOk W, !Evsig W}
    (user user_deferred : _) turns fuel (b : event_base W) flags :
  use_monotonic = true → callbacks_ok user → deferred_ok user_deferred → held b →
  sound (λ r, held r.2 ∧ width r.2 = width b ∧
      (r.1 = -1 ∧ running_loop (ctl b) = true ∨ ended flags r.1 r.2))
    (event_base_loop user user_deferred turns fuel b flags).
Proof.
  intros Hmono Hu Hd Hb. unfold event_base_loop.
  destruct (running_loop (ctl b)); [apply sound_ret; auto|].
  eapply sound_bind; [apply (loop_turns_sound user user_deferred Hu Hd (width b)); [done|]|].
  - apply good_ctl, clear_cache_good, good_ctl. done.
  - intros [r b1] [[H1 W1] He]. cbn [fst snd] in *. apply sound_ret.
    assert (good (width b) (with_ctl (clear_time_cache b1) (ctl_running (ctl (clear_time_cache b1)) false))) as [H2 W2]
      by (by apply good_ctl, clear_cache_good).
    split; [exact H2|]. split; [exact W2|]. right. exact He.
Qed.
