(* ===== verification/EventBase.v ===== *)
(** The life of an event base: [event_base_new], [event_base_priority_init] and [event_base_free] of
    [src/deps/libevent2/event.c], and what a program may do with a base in between.

    The backend's part of [event_base_new] - [epoll_init], which makes the kernel's list and the pair of
    sockets for signals - is taken to succeed; the event for that pair is not added before the first
    signal event is, and is left out. *)
From S2P Require Import Prelude Evbuffer EventData MinHeap Epoll EventCore EventInv EventLoop EventRun EventSafe.

Definition EVENT_MAX_PRIORITIES : Z := 256.
Definition INITIAL_NEVENT : Z := 32.

Section life.
Context {W : Type} `{!EvOs W, !Evsig W}.
Implicit Types b : event_base W.

Definition event_base_priority_init b (npriorities : Z) : Z * event_base W :=
  if negb (N_ACTIVE_CALLBACKS b =? 0) || (npriorities <? 1) || (EVENT_MAX_PRIORITIES <=? npriorities) then (-1, b)
  else if npriorities =? Z.of_nat (length (activequeues (qs b))) then (0, b)
  else
    let r := os_realloc (os b) (npriorities * 16) in
    if r.1 then (0, with_os (with_qs b (q_active (qs b) (replicate (Z.to_nat npriorities) []) (event_count_active (qs b)))) r.2)
    else (-1, with_os (with_qs b (q_active (qs b) [] (event_count_active (qs b)))) r.2).

(** [calloc] gives a base of zeros; [evs] are the events there are in memory. *)
Definition base_zero (evs : store) (w : W) : event_base W := {|
  os := w;
  qs := {| evs := evs; eventqueue := []; activequeues := []; timeheap := min_heap_ctor; common_timeout_queues := [];
           event_count := 0; event_count_active := 0 |};
  io := []; sigmap := [];
  ctl := {| event_gotterm := false; event_break := false; event_continue := false; event_running_priority := 0;
            running_loop := false; closure_ncalls := None |};
  tm := {| event_tv := evutil_timerclear; tv_cache := evutil_timerclear; tv_clock_diff := evutil_timerclear;
           last_updated_clock_diff := 0 |};
  defer_queue := {| dcbs := ∅; deferred_cb_list := []; active_count := 0 |};
  onces := ∅; virtual_event_count := 0; nevents := 0
|}.

Definition event_base_new (w : W) : outcome (option (event_base W) * W) :=
  let r := os_realloc w 544 in
  if negb r.1 then Ret (None, r.2)
  else
    g ← gettime (base_zero ∅ r.2);
    let b := match g.1 with Some t => with_tm g.2 (os g.2) (tm_event_tv (tm g.2) t) | None => g.2 end in
    let x := event_base_priority_init (with_nevents b (os b) INITIAL_NEVENT) 1 in
    if x.1 <? 0 then Ret (None, os x.2) else Ret (Some x.2, os x.2).

(** [event_set] with no current base, as in a program that calls [event_base_new] and never
    [event_init]: the event has no base, and no priority, until [event_base_set]. *)
Definition ev_with_base (v : event) (base : bool) (pri : Z) : event := {|
  ev_base := base; ev_fd := ev_fd v; ev_events := ev_events v; ev_flags := ev_flags v; ev_res := ev_res v;
  ev_ncalls := ev_ncalls v; ev_pncalls := ev_pncalls v; ev_pri := pri; ev_closure := ev_closure v;
  ev_callback := ev_callback v; ev_arg := ev_arg v; ev_timeout := ev_timeout v;
  ev_io_timeout := ev_io_timeout v; min_heap_idx := min_heap_idx v |}.

Definition event_set b (e fd events : Z) (cb : event_callback_fn) (arg : Z) : outcome (event_base W) :=
  let pri := from_option ev_pri 0 (evs (qs b) !! e) in
  let x := event_assign b e fd events cb arg in
  _ ← EVUTIL_ASSERT (x.1 =? 0);
  v ← ev_get (evs (qs x.2)) e;
  Ret (with_qs x.2 (q_event (qs x.2) e (ev_with_base v false pri))).

Definition event_base_set b (e : Z) : outcome (Z * event_base W) :=
  v ← ev_get (evs (qs b)) e;
  if decide (ev_flags v ≠ EVLIST_INIT) then Ret (-1, b)
  else Ret (0, with_qs b (q_event (qs b) e (ev_with_base v true (Z.of_nat (length (activequeues (qs b))) / 2)))).

(** Things other than events that keep the loop going. *)
Definition with_virtual b (k : Z) : event_base W :=
  Build_event_base (os b) (qs b) (io b) (sigmap b) (ctl b) (tm b) (defer_queue b) (onces b) k (nevents b).
Definition event_base_add_virtual b : event_base W := with_virtual b (virtual_event_count b + 1).
Definition event_base_del_virtual b : outcome (event_base W) :=
  _ ← EVUTIL_ASSERT (0 <? virtual_event_count b);
  Ret (with_virtual b (virtual_event_count b - 1)).

(** The time of day, from the cache of the loop if there is one; [None] when [gettimeofday] fails. *)
Definition event_base_gettimeofday_cached b : option timeval * event_base W :=
  if decide (tv_sec (tv_cache (tm b)) = 0) then let g := gettimeofday (os b) in (g.1, with_os b g.2)
  else (Some (evutil_timeradd (tv_cache (tm b)) (tv_clock_diff (tm b))), b).

Definition event_deferred_cb_init (cb arg : Z) : deferred_cb := {| queued := false; dcb_cb := cb; dcb_arg := arg |}.

(** * [event_base_free] *)

(** [event_del] of the events of a list that are not internal; the next one is looked up before. *)
Fixpoint del_list b (l : list Z) : outcome (event_base W) :=
  match l with
  | [] => Ret b
  | e :: l =>
      v ← ev_get (evs (qs b)) e;
      b ← (if has (ev_flags v) EVLIST_INTERNAL then Ret b else r ← event_del b e; Ret r.2);
      del_list b l
  end.

Fixpoint del_heap (fuel : nat) b : outcome (event_base W) :=
  match fuel with
  | O => NoFuel
  | S fuel =>
      t ← min_heap_top (timeheap (qs b));
      match t with
      | None => Ret b
      | Some e => r ← event_del b e; del_heap fuel r.2
      end
  end.

(** A common timeout's own event is freed with its list. *)
Fixpoint del_commons (k : nat) b (i : nat) : outcome (event_base W) :=
  match k with
  | O => Ret b
  | S k =>
      match common_timeout_queues (qs b) !! i with
      | None => Undef OutOfBounds
      | Some c =>
          r ← event_del b (timeout_event c);
          b ← del_list r.2 (ct_events c);
          del_commons k (ev_free b (timeout_event c)) (S i)
      end
  end.

Fixpoint del_actives (k : nat) b (i : Z) : outcome (event_base W) :=
  match k with
  | O => Ret b
  | S k =>
      l ← active_queue (qs b) i;
      b ← del_list b l;
      del_actives k b (i + 1)
  end.

(** What is left: the memory and the system. *)
Definition event_base_free b : outcome (store * W) :=
  b ← del_list b (eventqueue (qs b));
  b ← del_heap (heap_fuel (timeheap (qs b))) b;
  b ← del_commons (length (common_timeout_queues (qs b))) b 0;
  b ← del_actives (length (activequeues (qs b))) b 0;
  _ ← EVUTIL_ASSERT (forallb (λ l, bool_decide (l = [])) (activequeues (qs b)));
  _ ← EVUTIL_ASSERT (min_heap_empty (timeheap (qs b)));
  _ ← EVUTIL_ASSERT (bool_decide (eventqueue (qs b) = []));
  Ret (evs (qs b), os b).
End life.

Section set.
Context {W : Type} `{!EvOs W, !Evsig W}.

(** [event_set] and [event_base_set] together are [event_assign], for events that are not for signals. *)
Lemma set_assign (b : event_base W) e fd events cb arg :
  has events EV_SIGNAL = false →
  (b ← event_set b e fd events cb arg; event_base_set b e) = Ret (event_assign b e fd events cb arg).
Proof.
  intros Hs. unfold event_set, event_assign. rewrite Hs.
  destruct (has events EV_PERSIST); cbn [fst snd Z.eqb EVUTIL_ASSERT mbind outcome_bind qs with_qs evs q_event q_evs];
    unfold ev_get at 1; rewrite lookup_insert_eq; cbn [mbind outcome_bind];
    unfold event_base_set; cbn [qs with_qs evs q_event q_evs activequeues];
    unfold ev_get; rewrite lookup_insert_eq; cbn [mbind outcome_bind ev_flags ev_with_base];
    (rewrite decide_False by tauto); unfold with_qs, q_event, q_evs; cbn; by rewrite !insert_insert_eq.
Qed.
End set.

(** * Bases that are new *)

Section life_ok.
Context {W : Type} `{!EvOs W, !EpollOk W, !EpollKeeps W, !ClockOk W, !Evsig W}.
Implicit Types b : event_base W.

Lemma zero_ok (w : W) : interest w = ∅ → base_ok (base_zero ∅ w) [].
Proof.
  intros Hi. assert (∀ fd, io_on [] fd = []) as Hio by (intros fd; unfold io_on; by rewrite lookup_nil).
  assert (q_ok (qs (base_zero ∅ w)) []) as Hq.
  { split.
    - apply ctor_ok. intros e v Hv; cbn in Hv; by apply lookup_empty_Some in Hv.
    - done.
    - intros q e [->|[->| ->]]; cbn; (split; [by intros ?%elem_of_nil|done]).
    - intros q [->|[->| ->]]; constructor.
    - intros i l e Hl. cbn in Hl. by rewrite lookup_nil in Hl.
    - intros e v Hv. cbn in Hv. by apply lookup_empty_Some in Hv.
    - done.
    - done.
    - done. }
  split; [exact Hq| |done| | | |done].
  - split; [intros fd c Hc; cbn in Hc; by rewrite lookup_nil in Hc|]. intros fd _. cbn. by rewrite Hi, lookup_empty, Hio.
  - intros e fd Hfd. cbn. rewrite Hio. split; [by intros ?%elem_of_nil|]. by intros [].
  - done.
  - intros e v Hv. cbn in Hv. by apply lookup_empty_Some in Hv.
Qed.

Lemma concat_empty k : concat (replicate k []) = ([] : list Z).
Proof. induction k; done. Qed.

Lemma queues_made b h k w :
  base_ok b h → activequeues (qs b) = [] → interest w = interest (os b) →
  base_ok (with_os (with_qs b (q_active (qs b) (replicate k []) (event_count_active (qs b)))) w) h.
Proof.
  intros H Ha Hw. pose proof (bo_q _ _ H) as Hq.
  assert (∀ e v, evs (qs b) !! e = Some v → False) as Hev.
  { intros e v Hv. destruct (qk_vals _ _ Hq e v Hv) as [Hp _]. rewrite Ha in Hp. cbn in Hp. lia. }
  pose proof (io_ok_os _ _ _ _ Hw (bo_io _ _ H)) as Hio.
  assert (q_ok (q_active (qs b) (replicate k []) (event_count_active (qs b))) h) as Hq'.
  { destruct Hq as [H1 H2 H3 H4 H5 H6 H7 H8 H9]. unfold listed in H3, H4. rewrite Ha in H3, H4, H7, H8.
    split; try done; unfold listed; cbn; rewrite ?concat_empty; try done.
    - intros i l e [-> _]%lookup_replicate_1 He. by apply elem_of_nil in He.
    - intros e v Hv. by destruct (Hev e v). }
  destruct H. by split.
Qed.

Lemma event_base_new_ok (w : W) :
  interest w = ∅ →
  ∃ o w', event_base_new w = Ret (o, w') ∧ interest w' = ∅ ∧ ∀ b, o = Some b → held b ∧ width b = 1%nat ∧ os b = w'.
Proof.
  intros Hi. unfold event_base_new.
  pose proof (realloc_interest w 544) as Hi1. set (w1 := (os_realloc w 544).2) in *.
  destruct (os_realloc w 544).1; cbn [negb]; [|exists None, w1; split_and!; [done|congruence|done]].
  destruct (gettime_ok (base_zero ∅ w1) []) as (now & b1 & -> & H1 & Hn & (_ & Qd & Qo & _) & Eq & Eio & Ei & Et & _);
    [apply zero_ok; congruence|].
  cbn [mbind outcome_bind fst snd].
  set (b2 := with_nevents _ _ _).
  assert (base_ok b2 []) as H2 by (destruct H1; by split).
  assert (qs b2 = qs (base_zero ∅ w1)) as E2 by exact Eq.
  assert (interest (os b2) = ∅) as I2 by (change (os b2) with (os b1); rewrite Ei; cbn; congruence).
  assert (onces b2 = ∅ ∧ deferred_cb_list (defer_queue b2) = []) as [O2 D2].
  { subst b2. cbn. rewrite Qo, Qd. done. }
  assert (N_ACTIVE_CALLBACKS b2 = 0) as N2.
  { unfold N_ACTIVE_CALLBACKS. rewrite E2. subst b2. cbn. by rewrite Qd. }
  clearbody b2. unfold event_base_priority_init. rewrite N2, E2. cbn [Z.eqb negb orb qs base_zero activequeues length Z.of_nat].
  change (1 <? 1) with false. change (EVENT_MAX_PRIORITIES <=? 1) with false. change (1 =? 0) with false. cbn [orb].
  pose proof (realloc_interest (os b2) (1 * 16)) as Hi2. set (w3 := (os_realloc (os b2) (1 * 16)).2) in *.
  destruct (os_realloc (os b2) (1 * 16)).1; cbn [fst snd Z.ltb Z.compare].
  - eexists (Some _), w3. split; [done|]. split; [congruence|]. intros b [= <-]. split; [|done]. exists [].
    assert (base_ok (with_os (with_qs b2 (q_active (qs b2) (replicate 1 []) (event_count_active (qs b2)))) w3) []) as Hb
      by (apply queues_made; [done|by rewrite E2|done]).
    rewrite E2 in Hb. split; [exact Hb| | |].
    + intros e cb arg events i He. done.
    + intros e cb a He. cbn in He. rewrite O2 in He. done.
    + intros c Hc. cbn in Hc. rewrite D2 in Hc. by apply elem_of_nil in Hc.
  - exists None, w3. split; [done|]. split; [congruence|]. done.
Qed.

(** * Bases that are freed *)

(** Every event is as it was, or was taken off every queue. *)
Definition fewer b b' : Prop :=
  held b' ∧ width b' = width b ∧ (∀ x, is_Some (evs (qs b') !! x) ↔ is_Some (evs (qs b) !! x)) ∧
  ∀ x, cores (evs (qs b')) x = cores (evs (qs b)) x ∨ idle (evs (qs b')) x.

Lemma fewer_refl b : held b → fewer b b.
Proof. intros H. split_and!; try done. by left. Qed.

Lemma idle_cores evs evs' x : cores evs' x = cores evs x → idle evs x → idle evs' x.
Proof. intros E Hi k Hk. rewrite (flag_ext _ _ _ _ E). by apply Hi. Qed.

Lemma fewer_idle b b' x : fewer b b' → idle (evs (qs b)) x → idle (evs (qs b')) x.
Proof. intros (_ & _ & _ & F) Hi. destruct (F x) as [E|]; [by eapply idle_cores|done]. Qed.

Lemma fewer_trans b1 b2 b3 : fewer b1 b2 → fewer b2 b3 → fewer b1 b3.
Proof.
  intros F1 F2. pose proof F1 as (_ & W1 & D1 & C1). pose proof F2 as (H2 & W2 & D2 & C2).
  split_and!; [done|congruence|intros x; by rewrite D2|]. intros x.
  destruct (C2 x) as [E|?]; [|by right]. destruct (C1 x) as [E1|?]; [left; congruence|right; by eapply idle_cores].
Qed.

(** An event that is on a queue still was not touched. *)
Lemma fewer_flag b b' x k : fewer b b' → qbit k → flag (evs (qs b')) x k = true → cores (evs (qs b')) x = cores (evs (qs b)) x.
Proof. intros (_ & _ & _ & F) Hk Hx. destruct (F x) as [E|Hi]; [done|]. by rewrite (Hi k Hk) in Hx. Qed.

Lemma del_fewer b e v :
  held b → evs (qs b) !! e = Some v → ∃ r b', event_del b e = Ret (r, b') ∧ fewer b b' ∧ idle (evs (qs b')) e.
Proof.
  intros H Hv. pose proof H as [h Hl]. unfold event_del. rewrite (ev_get_ret _ _ _ Hv). cbn [mbind outcome_bind].
  rewrite (pe_base _ (bo_ev _ _ (lp_base _ _ Hl) e v Hv)). cbn [negb].
  destruct (del_held b e v H Hv) as (r & b' & -> & (H' & Wd & S & Fr & _) & Hi).
  exists r, b'. split; [done|]. split; [|done]. split_and!; [done|done| |].
  - intros x. specialize (S x). unfold shapes, cores in S.
    destruct (evs (qs b') !! x), (evs (qs b) !! x); try done; split; by intros [].
  - intros x. destruct (decide (x = e)) as [->|Hx]; [by right|]. left. by apply Fr.
Qed.

Lemma fewer_exists b b' x : fewer b b' → is_Some (evs (qs b) !! x) → is_Some (evs (qs b') !! x).
Proof. intros (_ & _ & D & _). by rewrite D. Qed.

Lemma del_list_ok b l :
  held b → (∀ x, x ∈ l → is_Some (evs (qs b) !! x)) →
  ∃ b', del_list b l = Ret b' ∧ fewer b b' ∧ ∀ x, x ∈ l → idle (evs (qs b')) x.
Proof.
  revert b. induction l as [|e l IH]; intros b H Hl; cbn [del_list].
  { exists b. split; [done|]. split; [by apply fewer_refl|]. by intros x ?%elem_of_nil. }
  destruct (Hl e) as [v Hv]; [left|]. rewrite (ev_get_ret _ _ _ Hv). cbn [mbind outcome_bind].
  assert (has (ev_flags v) EVLIST_INTERNAL = false) as ->.
  { destruct H as [h H]. by destruct (lp_cb _ _ H e _ _ _ _ (shapes_lookup _ _ _ Hv)) as [? _]. }
  destruct (del_fewer b e v H Hv) as (r & b1 & -> & F1 & Hi). cbn [mbind outcome_bind fst snd].
  destruct (IH b1) as (b2 & -> & F2 & Hi2); [apply F1|intros x Hx; eapply fewer_exists; [done|]; apply Hl; by right|].
  exists b2. split; [done|]. split; [by eapply fewer_trans|].
  intros x [->|Hx]%elem_of_cons; [by eapply fewer_idle|by apply Hi2].
Qed.

Lemma del_heap_ok fuel b h :
  loop_ok b h → (length h < fuel)%nat →
  ∃ b', del_heap fuel b = Ret b' ∧ fewer b b' ∧ ∀ x, flag (evs (qs b')) x EVLIST_TIMEOUT = false.
Proof.
  revert b h. induction fuel as [|fuel IH]; intros b h H Hf; [lia|]. cbn [del_heap].
  pose proof (lp_base _ _ H) as Hb.
  destruct (top_ok _ _ _ (qk_heap _ _ (bo_q _ _ Hb))) as [-> _]. cbn [mbind outcome_bind].
  destruct h as [|e h]; cbn [head].
  { exists b. split; [done|]. split; [apply fewer_refl; by exists []|]. intros x.
    destruct (flag (evs (qs b)) x EVLIST_TIMEOUT) eqn:E; [|done].
    apply (timeout_members _ _ _ Hb), elem_of_nil in E. done. }
  assert (e ∈ e :: h) as He by left.
  pose proof He as [v [Hv _]]%(timeout_members _ _ _ Hb)%flag_dom.
  destruct (del_fewer b e v (ex_intro _ _ H) Hv) as (r & b1 & -> & F1 & Hi). cbn [mbind outcome_bind fst snd].
  pose proof F1 as ([h1 H1] & _). pose proof (lp_base _ _ H1) as Hb1.
  destruct (IH b1 h1 H1) as (b2 & -> & F2 & Hx).
  { assert (length (e :: h1) <= length (e :: h))%nat; [|cbn in *; lia].
    apply submseteq_length, NoDup_submseteq.
    - constructor; [|by eapply timeout_nodup]. intros Hin. apply (timeout_members _ _ _ Hb1) in Hin.
      rewrite (Hi EVLIST_TIMEOUT) in Hin; [done|auto with kv].
    - intros x [->|Hx]%elem_of_cons; [done|]. apply (timeout_members _ _ _ Hb1) in Hx.
      apply (timeout_members _ _ _ Hb). rewrite <- Hx. symmetry. apply flag_ext. eapply fewer_flag; [done| |done]. auto with kv. }
  exists b2. split; [done|]. split; [by eapply fewer_trans|done].
Qed.

Lemma del_actives_ok k b i :
  held b → 0 <= i → i + Z.of_nat k = Z.of_nat (width b) →
  ∃ b', del_actives k b i = Ret b' ∧ fewer b b' ∧
    ∀ x, flag (evs (qs b')) x EVLIST_ACTIVE = true → pri_of (evs (qs b')) x < i.
Proof.
  revert b i. induction k as [|k IH]; intros b i H H0 Hi; cbn [del_actives].
  { exists b. split; [done|]. split; [by apply fewer_refl|]. intros x Hx. destruct H as [h H].
    apply flag_dom in Hx as (v & Hv & _). rewrite (pri_core _ _ _ Hv).
    destruct (qk_vals _ _ (bo_q _ _ (lp_base _ _ H)) x v Hv) as [? _]. unfold width in Hi. lia. }
  destruct (active_queue_good (width b) b i) as (l & -> & Hl); [done|lia|]. cbn [mbind outcome_bind].
  destruct (del_list_ok b l H) as (b1 & -> & F1 & Hd).
  { intros x Hx. destruct (active_member (width b) b (Z.to_nat i) l x) as (v & Hv & _); [done|done|done|]. eauto. }
  cbn [mbind outcome_bind].
  destruct (IH b1 (i + 1)) as (b2 & -> & F2 & Hx); [apply F1|lia|destruct F1 as (_ & -> & _); lia|].
  exists b2. split; [done|]. split; [by eapply fewer_trans|].
  intros x Hxf. pose proof (Hx x Hxf) as Hp. destruct (decide (pri_of (evs (qs b2)) x = i)) as [Hpi|]; [|lia]. exfalso.
  pose proof (fewer_trans _ _ _ F1 F2) as F.
  pose proof (fewer_flag _ _ _ _ F qbit_active Hxf) as Ec.
  assert (x ∈ l) as Hxl.
  { destruct H as [h H]. assert (flag (evs (qs b)) x EVLIST_ACTIVE = true) as Hxb by (by rewrite <- (flag_ext _ _ _ _ Ec)).
    apply (qk_mem _ _ (bo_q _ _ (lp_base _ _ H)) EVLIST_ACTIVE x qbit_active) in Hxb.
    apply elem_of_concat_lookup in Hxb as (j & l' & Hj & Hxl).
    pose proof (qk_prio _ _ (bo_q _ _ (lp_base _ _ H)) j l' x Hj Hxl) as Hpj.
    assert (pri_of (evs (qs b)) x = i) as Hpb by (unfold pri_of in *; by rewrite <- Ec).
    rewrite Hpb in Hpj. rewrite Hpj, Nat2Z.id in Hl. congruence. }
  rewrite (fewer_idle _ _ _ F2 (Hd x Hxl) EVLIST_ACTIVE) in Hxf; [done|auto with kv].
Qed.

Lemma empty_members q h k : q_ok q h → qbit k → (∀ x, flag (evs q) x k = false) → listed q h k = [].
Proof.
  intros H Hk Hx. destruct (listed q h k) as [|x l] eqn:E; [done|].
  assert (x ∈ listed q h k) as Hin by (rewrite E; left). apply (qk_mem _ _ H k x Hk) in Hin. by rewrite Hx in Hin.
Qed.

(** Freeing a base takes every event off it. *)
(** With no event inserted the kernel watches nothing. *)
Lemma unwatched b h : base_ok b h → (∀ x, idle (evs (qs b)) x) → interest (os b) = ∅.
Proof.
  intros H Hidle. apply map_eq. intros fd. rewrite lookup_empty. destruct (interest (os b) !! fd) as [m|] eqn:Em; [|done].
  pose proof (interest_fd (os b) fd ltac:(by rewrite Em)) as Hfd.
  rewrite (io_kernel _ _ _ (bo_io _ _ H) fd Hfd) in Em.
  destruct (io_on (io b) fd) as [|x l] eqn:Eio; [done|].
  assert (x ∈ io_on (io b) fd) as Hx by (rewrite Eio; left).
  apply (bo_map _ _ H) in Hx as [Hx _]; [|done]. rewrite (Hidle x EVLIST_INSERTED) in Hx; [done|auto with kv].
Qed.

Lemma event_base_free_ok b :
  held b →
  ∃ evs' w, event_base_free b = Ret (evs', w) ∧ dom evs' = dom (evs (qs b)) ∧ (∀ x, idle evs' x) ∧ interest w = ∅.
Proof.
  intros H. unfold event_base_free.
  destruct (del_list_ok b (eventqueue (qs b)) H) as (b1 & -> & F1 & D1).
  { intros x Hx. destruct H as [h H]. apply (qk_mem _ _ (bo_q _ _ (lp_base _ _ H)) EVLIST_INSERTED x qbit_inserted) in Hx.
    apply flag_dom in Hx as (v & Hv & _). eauto. }
  cbn [mbind outcome_bind]. pose proof F1 as ([h1 H1] & _).
  destruct (del_heap_ok (heap_fuel (timeheap (qs b1))) b1 h1 H1) as (b2 & -> & F2 & D2); [by apply heap_length, lp_base|].
  cbn [mbind outcome_bind]. pose proof F2 as ([h2 H2] & _).
  rewrite (qk_common _ _ (bo_q _ _ (lp_base _ _ H2))). cbn [length del_commons mbind outcome_bind].
  destruct (del_actives_ok (length (activequeues (qs b2))) b2 0) as (b3 & -> & F3 & D3); [by exists h2|lia|done|].
  cbn [mbind outcome_bind]. pose proof F3 as ([h3 H3] & _). pose proof (lp_base _ _ H3) as Hb.
  pose proof (fewer_trans _ _ _ (fewer_trans _ _ _ F1 F2) F3) as F.
  assert (∀ x, idle (evs (qs b3)) x) as Hidle.
  { intros x k Hk. destruct (flag (evs (qs b3)) x k) eqn:E; [|done]. exfalso. destruct Hk as [->|[->| ->]].
    - pose proof (fewer_flag _ _ _ _ F qbit_inserted E) as Ec.
      assert (x ∈ eventqueue (qs b)) as Hx.
      { destruct H as [h H]. apply (qk_mem _ _ (bo_q _ _ (lp_base _ _ H)) EVLIST_INSERTED x qbit_inserted).
        by rewrite <- (flag_ext _ _ _ _ Ec). }
      rewrite (fewer_idle _ _ _ (fewer_trans _ _ _ F2 F3) (D1 x Hx) EVLIST_INSERTED) in E; [done|auto with kv].
    - pose proof (D3 x E). apply flag_dom in E as (v & Hv & _). rewrite (pri_core _ _ _ Hv) in *.
      destruct (qk_vals _ _ (bo_q _ _ Hb) x v Hv) as [? _]. lia.
    - rewrite (flag_ext (evs (qs b2))) in E by (eapply fewer_flag; [done| |done]; auto with kv). by rewrite D2 in E. }
  pose proof (empty_members _ _ _ (bo_q _ _ Hb) qbit_active (λ x, Hidle x _ qbit_active)) as E1.
  pose proof (empty_members _ _ _ (bo_q _ _ Hb) qbit_inserted (λ x, Hidle x _ qbit_inserted)) as E2.
  pose proof (empty_members _ _ _ (bo_q _ _ Hb) qbit_timeout (λ x, Hidle x _ qbit_timeout)) as E3.
  destruct (listed_queue (qs b3) h3) as (L1 & L2 & L3). rewrite L2 in E1. rewrite L1 in E2. rewrite L3 in E3.
  assert (forallb (λ l, bool_decide (l = [])) (activequeues (qs b3)) = true) as ->.
  { apply forallb_forall. intros l Hl%list_elem_of_In. apply bool_decide_eq_true.
    destruct l as [|x l]; [done|]. assert (x ∈ concat (activequeues (qs b3))) as Hx; [|rewrite E1 in Hx; by apply elem_of_nil in Hx].
    apply list_elem_of_lookup in Hl as [i Hi]. apply elem_of_concat_lookup. exists i, (x :: l). split; [done|]. left. }
  cbn [EVUTIL_ASSERT mbind outcome_bind].
  assert (min_heap_empty (timeheap (qs b3)) = true) as ->.
  { unfold min_heap_empty. apply bool_decide_eq_true.
    rewrite (rep_len _ _ _ (ok_rep _ _ _ (qk_heap _ _ (bo_q _ _ Hb)))), E3. done. }
  cbn [EVUTIL_ASSERT mbind outcome_bind]. rewrite bool_decide_eq_true_2 by done. cbn [EVUTIL_ASSERT mbind outcome_bind].
  eexists _, _. split; [done|]. split_and!; [|done|].
  - apply set_eq. intros x. rewrite !elem_of_dom. apply F.
  - by eapply unwatched.
Qed.
End life_ok.
