(* ===== verification/EventApi.v ===== *)
(** Programs that use an event base: any program that keeps to its own events keeps the invariant, from
    [event_base_new] through callbacks and the loop to [event_base_free].

    A program is a tree of calls ([client]) that goes on with what each call returns; a call about an
    event that is not the program's, or that was freed, is not made ([allowed]). *)
From S2P Require Import Prelude Evbuffer EventData MinHeap Epoll EventCore EventInv EventLoop EventRun EventSafe EventBase.

Inductive api_call :=
  | ApiNew (fd events k arg : Z)
  | ApiAdd (e : Z) (tv : option timeval)
  | ApiDel (e : Z)
  | ApiFree (e : Z)
  | ApiActive (e res : Z)
  | ApiPending (e what : Z)
  | ApiOnce (fd events k arg : Z) (tv : option timeval)
  | ApiLoopexit (tv : option timeval)
  | ApiLoopbreak.

(** What a call returns: an [int], or a pointer, which is [None] for [NULL]. *)
Inductive client := Done | Call (c : api_call) (go : option Z → client).

(** The program's own event. *)
Definition mine (evs : store) (e : Z) : bool :=
  match evs !! e with
  | Some v => match ev_callback v with UserCb _ => true | _ => false end
  | None => false
  end.

Definition normal_tv (tv : option timeval) : bool :=
  match tv with Some t => (0 <=? tv_usec t) && (tv_usec t <? 1000000) | None => true end.

Section api.
Context {W : Type} `{!EvOs W, !Evsig W}.
Implicit Types b : event_base W.

(** Descriptors are below the map's limit, there are fewer events than an [int] counts, the base has a
    queue, and no event is for signals or edge-triggered. *)
Definition allowed b (c : api_call) : bool :=
  let room := (Z.of_nat (size (evs (qs b))) <? INT_MAX) && negb (bool_decide (activequeues (qs b) = [])) in
  match c with
  | ApiNew fd events _ _ => (fd <? FD_LIMIT) && negb (has events EV_SIGNAL) && (Z.land events EV_ET =? 0) && room
  | ApiAdd e tv => mine (evs (qs b)) e && normal_tv tv
  | ApiDel e | ApiFree e | ApiActive e _ | ApiPending e _ => mine (evs (qs b)) e
  | ApiOnce fd _ _ _ tv => (fd <? FD_LIMIT) && normal_tv tv && room
  | ApiLoopexit tv => normal_tv tv && room
  | ApiLoopbreak => true
  end.

Definition api_do b (c : api_call) : outcome (option Z * event_base W) :=
  let int (o : outcome (Z * event_base W)) := r ← o; Ret (Some r.1, r.2) in
  match c with
  | ApiNew fd events k arg => let r := event_new b fd events (UserCb k) arg in Ret r
  | ApiAdd e tv => int (event_add b e tv)
  | ApiDel e => int (event_del b e)
  | ApiFree e => b ← event_free b e; Ret (None, b)
  | ApiActive e res => b ← event_active b e res 1; Ret (None, b)
  | ApiPending e what => r ← event_pending b e what; Ret (Some r, b)
  | ApiOnce fd events k arg tv => int (event_base_once b fd events (UserCb k) arg tv)
  | ApiLoopexit tv => int (event_base_loopexit b tv)
  | ApiLoopbreak => int (Ret (event_base_loopbreak b))
  end.

Fixpoint client_run b (p : client) : outcome (event_base W) :=
  match p with
  | Done => Ret b
  | Call c go => if allowed b c then r ← api_do b c; client_run r.2 (go r.1) else Ret b
  end.
End api.

Section api_ok.
Context {W : Type} `{!EvOs W, !EpollOk W, !EpollKeeps W, !ClockOk W, !Evsig W}.
Implicit Types b : event_base W.

(** What a call keeps. *)
Definition kept b b' : Prop := held b' ∧ keeps b b'.

Lemma mine_lookup evs e : mine evs e = true → ∃ v k, evs !! e = Some v ∧ ev_callback v = UserCb k.
Proof. unfold mine. destruct (evs !! e) as [v|]; [|done]. destruct (ev_callback v) eqn:E; naive_solver. Qed.

Lemma mine_not_once b h e v k :
  loop_ok b h → evs (qs b) !! e = Some v → ev_callback v = UserCb k → onces b !! e = None.
Proof.
  intros H Hv Hk. destruct (onces b !! e) as [[c a]|] eqn:E; [|done].
  destruct (lp_once _ _ H e c a E) as [_ [events Hs]]. rewrite (shapes_lookup _ _ _ Hv) in Hs. unfold shape in Hs. congruence.
Qed.

Lemma moves_kept b b' e : held b → onces b !! e = None → moves b b' e → kept b b'.
Proof.
  intros _ Ho (H & Wd & _ & Fr & O). split; [done|]. split; [done|]. intros x Hx. rewrite O. split; [done|].
  apply Fr. intros ->. rewrite Ho in Hx. by destruct Hx.
Qed.

(** The system or the loop's state moved on. *)
Lemma kept_same b b' :
  held b → (∀ h, base_ok b h → base_ok b' h) → qs b' = qs b → onces b' = onces b → defer_queue b' = defer_queue b → kept b b'.
Proof.
  intros [h H] Hb Eq O D. split; [|split; [by rewrite Eq|]].
  - exists h. eapply loop_ok_step; [done|apply Hb, H|intros x; by rewrite Eq|done|done].
  - intros x Hx. by rewrite O, Eq.
Qed.

(** A new event. *)
Lemma loop_ok_new b b' h h' e v :
  loop_ok b h → base_ok b' h' → evs (qs b) !! e = None → evs (qs b') !! e = Some v → frame e (evs (qs b)) (evs (qs b')) →
  defer_queue b' = defer_queue b → has (ev_flags v) EVLIST_INTERNAL = false →
  (onces b' = onces b ∧ ∃ k, ev_callback v = UserCb k) ∨
  (∃ c a, onces b' = <[e := (c, a)]> (onces b) ∧ (c = Event_loopexit_cb ∨ ∃ k, c = UserCb k) ∧
     ev_callback v = Event_once_cb ∧ ev_arg v = e ∧ has (ev_events v) EV_PERSIST = false) →
  loop_ok b' h'.
Proof.
  intros H Hb Hn Hv Fr D Hint Hc. pose proof H as [_ H2 H3 H4].
  assert (onces b !! e = None) as Hon.
  { destruct (onces b !! e) as [[c a]|] eqn:E; [|done]. destruct (H3 e c a E) as [_ [events Hs]].
    unfold shapes, cores in Hs. by rewrite Hn in Hs. }
  assert (∀ x, shapes (evs (qs b')) x = if decide (x = e) then Some (shape v) else shapes (evs (qs b)) x) as Hs.
  { intros x. case_decide as Hx; [subst; by apply shapes_lookup|]. by apply shapes_core, Fr. }
  split; [done| | |by rewrite D].
  - intros x cb arg events i Hx. rewrite Hs in Hx. case_decide as Hxe.
    + subst x. unfold shape in Hx. rewrite Hint in Hx. apply (inj Some) in Hx.
      destruct Hc as [[_ [k Hk]]|(c & a & O & _ & Hk & Ha & Hp)]; rewrite Hk in Hx; simplify_eq; [done|].
      split; [done|]. split; [done|]. split; [done|]. rewrite O, lookup_insert_eq. done.
    + destruct (H2 x cb arg events i Hx) as [Hi Hcb]. split; [done|]. destruct cb; try done.
      destruct Hc as [[-> _]|(c & a & -> & _)]; [done|]. by rewrite lookup_insert_ne by congruence.
  - intros x cb arg Hx. rewrite Hs.
    destruct Hc as [[O _]|(c & a & O & Hca & Hk & Ha & Hp)]; rewrite O in Hx.
    + rewrite decide_False by congruence. by eapply H3.
    + destruct (decide (x = e)) as [->|Hxe].
      * rewrite lookup_insert_eq in Hx. apply (inj Some) in Hx. injection Hx as <- <-. split; [done|]. exists (ev_events v). unfold shape. by rewrite Hint, Hk, Ha.
      * rewrite lookup_insert_ne in Hx by congruence. by eapply H3.
Qed.

(** * Calls *)

Lemma api_add_ok b e v tv :
  held b → evs (qs b) !! e = Some v → (∀ t, tv = Some t → tv_normal t) →
  ∃ r b', event_add b e tv = Ret (r, b') ∧ moves b b' e ∧ (r = -1 ∧ cores (evs (qs b')) e = cores (evs (qs b)) e ∨ r = 0).
Proof.
  intros H Hv Htv. pose proof H as [h Hl]. unfold event_add. rewrite (ev_get_ret _ _ _ Hv). cbn [mbind outcome_bind].
  rewrite (pe_base _ (bo_ev _ _ (lp_base _ _ Hl) e v Hv)). cbn [negb].
  destruct (event_add_internal_ok 1 b h e v tv false (lp_base _ _ Hl) Hv Htv) as (r & b' & h' & E & _ & _ & _ & R).
  destruct (add_held b e v tv false H Hv Htv) as (r' & b'' & E' & M). rewrite E in E'. simplify_eq.
  exists r', b''. split; [done|]. split; [done|]. destruct R as [[-> R]|[-> _]]; [|by right]. left. split; [done|]. apply R.
Qed.

Lemma normal_tv_ok tv : normal_tv tv = true → ∀ t, tv = Some t → tv_normal t.
Proof.
  intros H t ->. cbn in H. apply andb_true_iff in H as [H1%Z.leb_le H2%Z.ltb_lt]. unfold tv_normal. lia.
Qed.

Lemma active_kept b e res :
  held b → mine (evs (qs b)) e = true → ∃ b', event_active b e res 1 = Ret b' ∧ kept b b'.
Proof.
  intros H (v & k & Hv & Hk)%mine_lookup. pose proof H as [h Hl]. unfold event_active. rewrite (ev_get_ret _ _ _ Hv). cbn [mbind outcome_bind].
  rewrite (pe_base _ (bo_ev _ _ (lp_base _ _ Hl) e v Hv)). cbn [negb].
  destruct (event_active_nolock_ok b h e v res 1 (lp_base _ _ Hl) Hv) as (b' & h' & -> & H' & _ & [Hu Fr Aq _ S]).
  exists b'. split; [done|].
  eapply (moves_kept b b' e H); [by eapply mine_not_once|].
  eapply (moves_event_core b b' e v (λ v, if has (ev_flags v) EVLIST_ACTIVE then ev_with_res v (Z.lor (ev_res v) res)
    else ev_with_flags (ev_with_res v res) (Z.lor (ev_flags v) EVLIST_ACTIVE))); try done; [by eauto| | |apply S|apply S].
  - destruct (has (ev_flags v) EVLIST_ACTIVE); [done|]. unfold shape. cbn [ev_callback ev_arg ev_events ev_flags ev_with_flags ev_with_res].
    by rewrite set_internal by auto with kv.
  - unfold width. rewrite Aq. case_match; [done|by rewrite length_alter].
Qed.

Lemma free_held b e :
  held b → idle (evs (qs b)) e → onces b !! e = None → kept b (ev_free b e).
Proof.
  intros [h H] Hi Ho.
  assert (∀ x, cores (evs (qs (ev_free b e))) x = if decide (x = e) then None else cores (evs (qs b)) x) as Hc
    by (intros x; apply cores_delete).
  split; [|split; [done|]].
  - exists h. pose proof (ev_free_ok b h e (lp_base _ _ H) Hi) as Hb. destruct H as [H1 H2 H3 H4]. split; [done| | |done].
    + intros x cb arg events i Hx. unfold shapes in Hx. rewrite Hc in Hx. case_decide as Hxe; [done|]. by eapply H2.
    + intros x cb a Hx. destruct (H3 x cb a Hx) as [Hcb [events Hs]]. split; [done|]. exists events.
      unfold shapes. rewrite Hc, decide_False; [done|]. intros ->. cbn in Hx. congruence.
  - intros x Hx. split; [done|]. rewrite Hc, decide_False; [done|]. intros ->. rewrite Ho in Hx. by destruct Hx.
Qed.

Lemma kept_trans b1 b2 b3 : kept b1 b2 → kept b2 b3 → kept b1 b3.
Proof. intros [_ K1] [H2 K2]. split; [done|]. by eapply keeps_trans. Qed.

Lemma del_kept b e :
  held b → mine (evs (qs b)) e = true →
  ∃ r b', event_del b e = Ret (r, b') ∧ kept b b' ∧ idle (evs (qs b')) e ∧ onces b' !! e = None.
Proof.
  intros H (v & k & Hv & Hk)%mine_lookup. pose proof H as [h Hl]. unfold event_del. rewrite (ev_get_ret _ _ _ Hv). cbn [mbind outcome_bind].
  rewrite (pe_base _ (bo_ev _ _ (lp_base _ _ Hl) e v Hv)). cbn [negb].
  destruct (del_held b e v H Hv) as (r & b' & -> & M & Hi). exists r, b'. split; [done|].
  pose proof (mine_not_once _ _ _ _ _ Hl Hv Hk) as Ho.
  split; [by eapply moves_kept|]. split; [done|]. destruct M as (_ & _ & _ & _ & ->). done.
Qed.

Lemma alloc_fresh b : evs (qs b) !! ev_alloc b = None.
Proof. apply not_elem_of_dom, is_fresh. Qed.

Lemma new_kept b fd events k arg :
  held b → (0 < width b)%nat → fd < FD_LIMIT → has events EV_SIGNAL = false → Z.land events EV_ET = 0 →
  Z.of_nat (size (evs (qs b))) < INT_MAX → kept b (event_new b fd events (UserCb k) arg).2.
Proof.
  intros H Hw Hfd Hsig Het Hs. unfold event_new.
  set (b1 := with_os b (os_realloc (os b) 128).2).
  assert (kept b b1) as K1.
  { apply kept_same; try done. intros h Hb. apply base_ok_os; [apply realloc_interest|done]. }
  destruct (os_realloc (os b) 128).1; cbn [negb]; [|done].
  eapply kept_trans; [exact K1|]. destruct K1 as [[h H1] _].
  assert (evs (qs b1) !! ev_alloc b1 = None) as Hn by apply alloc_fresh.
  destruct (event_assign_ok b1 h (ev_alloc b1) fd events (UserCb k) arg (lp_base _ _ H1)) as
    (b2 & -> & H2 & (Qc & Qd & Qo & _) & _ & (v & Hv & Ef & _ & _ & Ec & _) & Fr & Ha); try done.
  - by apply absent_idle.
  - intros v Hv. congruence.
  - cbn [fst snd Z.ltb Z.compare]. split.
    + exists h. eapply loop_ok_new; [exact H1|exact H2|done|done|done|done|by rewrite Ef|]. left. split; [done|]. by eexists.
    + split; [by rewrite Ha|]. intros x Hx. rewrite Qo. split; [done|]. apply Fr. intros ->.
      destruct Hx as [[c a] Hx]. destruct (lp_once _ _ H1 _ _ _ Hx) as [_ [ev Hsh]]. unfold shapes, cores in Hsh. by rewrite Hn in Hsh.
Qed.

(** ** [event_base_once] *)

Lemma fresh_not_once b h e x : loop_ok b h → evs (qs b) !! e = None → is_Some (onces b !! x) → x ≠ e.
Proof.
  intros H Hn [[c a] Hx] ->. destruct (lp_once _ _ H _ _ _ Hx) as [_ [ev Hsh]]. unfold shapes, cores in Hsh. by rewrite Hn in Hsh.
Qed.

(** The record of [event_base_once] is made, and its event assigned. *)
Lemma once_assigned b e fd events cb arg :
  held b → (0 < width b)%nat → fd < FD_LIMIT → Z.land events any_rw = events →
  Z.of_nat (size (evs (qs b))) < INT_MAX → evs (qs b) !! e = None → cb = Event_loopexit_cb ∨ (∃ k, cb = UserCb k) →
  ∃ b' v, event_assign (with_onces b (<[e := (cb, arg)]> (onces b))) e fd events Event_once_cb e = (0, b') ∧ held b' ∧
    width b' = width b ∧ evs (qs b') !! e = Some v ∧ idle (evs (qs b')) e ∧ frame e (evs (qs b)) (evs (qs b')) ∧
    onces b' = <[e := (cb, arg)]> (onces b).
Proof.
  intros [h H] Hw Hfd Hrw Hs Hn Hcb.
  assert (∀ k, Z.land any_rw k = 0 → Z.land events k = 0) as Hbits.
  { intros k Hk. rewrite <- Hrw, <- Z.land_assoc, Hk. apply Z.land_0_r. }
  assert (∀ k, Z.land any_rw k = 0 → has events k = false) as Hhas by (intros k Hk; unfold has; by rewrite Hbits).
  set (b0 := with_onces b _).
  assert (base_ok b0 h) as H0 by (destruct (lp_base _ _ H); by split).
  destruct (event_assign_ok b0 h e fd events Event_once_cb e H0) as
    (b2 & E & H2 & (Qc & Qd & Qo & _) & _ & (v & Hv & Ef & _ & Ee & Ec & Ea) & Fr & Ha); try done.
  - by apply absent_idle.
  - by apply Hhas.
  - by apply Hbits.
  - intros v Hv. cbn in Hv. congruence.
  - exists b2, v. split; [done|]. split; [|split; [unfold width; by rewrite Ha|]].
    + exists h. eapply loop_ok_new; [exact H|exact H2|done|done|done|exact Qd|by rewrite Ef|].
      right. exists cb, arg. split; [exact Qo|]. split; [done|]. split; [done|]. split; [done|]. rewrite Ee. by apply Hhas.
    + split; [done|]. split; [|by split]. intros k Hk. rewrite (flag_lookup _ _ _ _ Hv), Ef. by destruct Hk as [->|[->| ->]].
Qed.

(** The event, whose record is freed or stays. *)
Lemma once_end b b' e :
  held b → evs (qs b) !! e = None → held b' → width b' = width b → frame e (evs (qs b)) (evs (qs b')) →
  (∀ x, x ≠ e → onces b' !! x = onces b !! x) → kept b b'.
Proof.
  intros [h H] Hn H' Wd Fr Ho. split; [done|]. split; [done|]. intros x Hx.
  pose proof (fresh_not_once _ _ _ _ H Hn Hx) as Hne. split; [by apply Ho|by apply Fr].
Qed.

(** The record of an event that was never assigned goes again. *)
Lemma once_dropped b e cb arg :
  held b → evs (qs b) !! e = None →
  let b1 := with_onces b (<[e := (cb, arg)]> (onces b)) in
  kept b (with_onces (ev_free b1 e) (delete e (onces b1))).
Proof.
  intros H Hn b1.
  assert (∀ h, base_ok b h → base_ok (ev_free b e) h) as Hf by (intros h Hb; apply ev_free_ok; [done|by apply absent_idle]).
  eapply (once_end b _ e); [done|done| |done| |].
  - destruct H as [h H]. exists h. pose proof (Hf h (lp_base _ _ H)) as Hb. destruct H as [_ L2 L3 L4].
    assert (∀ x, shapes (delete e (evs (qs b))) x = shapes (evs (qs b)) x) as Hsh by (intros x; by rewrite delete_id).
    split; [destruct Hb; by split| | |exact L4]; intros x cb' a.
    + intros ev i Hx. cbn in *. rewrite Hsh in Hx. rewrite delete_insert_id; [by eapply L2|].
      destruct (onces b !! e) as [[c' a']|] eqn:Eo; [|done]. destruct (L3 e c' a' Eo) as [_ [ev' Hx']].
      unfold shapes, cores in Hx'. by rewrite Hn in Hx'.
    + cbn. intros Hx. rewrite Hsh. apply lookup_delete_Some in Hx as [Hne Hx]. rewrite lookup_insert_ne in Hx by done. by eapply L3.
  - intros x Hx. cbn. by rewrite cores_delete, decide_False.
  - intros x Hx. cbn. by rewrite lookup_delete_ne, lookup_insert_ne by congruence.
Qed.

Lemma once_kept b fd events cb arg tv :
  held b → (0 < width b)%nat → fd < FD_LIMIT → (∀ t, tv = Some t → tv_normal t) →
  Z.of_nat (size (evs (qs b))) < INT_MAX → cb = Event_loopexit_cb ∨ (∃ k, cb = UserCb k) →
  ∃ r b', event_base_once b fd events cb arg tv = Ret (r, b') ∧ kept b b'.
Proof.
  intros H Hw Hfd Htv Hs Hcb. unfold event_base_once.
  destruct (has events (Z.lor EV_SIGNAL EV_PERSIST)); [exists (-1), b; split; [done|]; by split|].
  set (b1 := with_os b (os_realloc (os b) 144).2).
  assert (kept b b1) as K1.
  { apply kept_same; try done. intros h Hb. apply base_ok_os; [apply realloc_interest|done]. }
  destruct (os_realloc (os b) 144).1; cbn [negb]; [|by exists (-1), b1].
  cbn zeta. set (e := ev_alloc b1). pose proof (alloc_fresh b1) as Hn. fold e in Hn.
  assert (∀ o : outcome (Z * event_base W), (∃ r b', kept b1 b' ∧ o = Ret (r, b')) → ∃ r b', o = Ret (r, b') ∧ kept b b') as Hcut
    by (intros o (r & b' & K & E); exists r, b'; split; [done|exact (kept_trans _ _ _ K1 K)]).
  apply Hcut. clear Hcut.
  destruct K1 as [H1 [W1 _]]. change (evs (qs (with_onces b1 _))) with (evs (qs b1)).
  assert (∀ fd events tv, fd < FD_LIMIT → Z.land events any_rw = events → (∀ t, tv = Some t → tv_normal t) →
    ∃ r b', kept b1 b' ∧ (y ← event_add (event_assign (with_onces b1 (<[e := (cb, arg)]> (onces b1))) e fd events Event_once_cb e).2 e tv;
      if decide (y.1 ≠ 0) then Ret (y.1, with_onces (ev_free y.2 e) (delete e (onces y.2))) else Ret (0, y.2)) = Ret (r, b')) as Hgo.
  { intros fd' events' tv' Hfd' Hrw Htv'.
    destruct (once_assigned b1 e fd' events' cb arg H1) as (b2 & v & -> & H2 & Wd2 & Hv & Hi & Fr2 & O2); [done..|].
    cbn [snd]. destruct (api_add_ok b2 e v tv' H2 Hv Htv') as (r & b3 & -> & M & Hr). cbn [mbind outcome_bind fst snd].
    destruct M as (H3 & Wd3 & _ & Fr3 & O3).
    assert (∀ x, x ≠ e → onces b3 !! x = onces b1 !! x) as Ho by (intros x Hx; by rewrite O3, O2, lookup_insert_ne by congruence).
    assert (frame e (evs (qs b1)) (evs (qs b3))) as Fr by (by eapply frame_trans).
    case_decide as Hr0.
    - destruct Hr as [[-> Hc]|Hr]; [|done].
      destruct (once_freed (width b3) b3 e) as [H4 W4]; [done| |by rewrite O3, O2, lookup_insert_eq|].
      { intros k Hk. rewrite (flag_ext _ _ _ _ Hc). by apply Hi. }
      eexists _, _. split; [|done]. eapply (once_end b1 _ e); [done|done|exact H4|rewrite W4; congruence| |].
      + intros x Hx. cbn. rewrite cores_delete, decide_False by done. by apply Fr.
      + intros x Hx. cbn. rewrite lookup_delete_ne by congruence. by apply Ho.
    - eexists 0, b3. split; [|done]. eapply (once_end b1 _ e); [done|done|done|congruence|done|done]. }
  case_decide as Ht.
  - apply Hgo; [by vm_compute|done|]. intros t [= <-]. destruct tv as [t'|]; [by apply Htv|]. unfold tv_normal. cbn. lia.
  - destruct (has events any_rw).
    + assert (Z.land (Z.land events any_rw) any_rw = Z.land events any_rw) as Hrw by (by rewrite <- Z.land_assoc, Z.land_diag).
      destruct (decide (Z.land events any_rw = EV_TIMEOUT)) as [Et|Et]; [|by apply Hgo].
      exfalso. rewrite Et in Hrw. vm_compute in Hrw. discriminate.
    + eexists (-1), _. split; [|done]. by apply once_dropped.
Qed.

(** * Programs *)

Lemma do_kept b c :
  held b → allowed b c = true → ∃ r b', api_do b c = Ret (r, b') ∧ kept b b'.
Proof.
  intros H Ha.
  assert ((Z.of_nat (size (evs (qs b))) <? INT_MAX) && negb (bool_decide (activequeues (qs b) = [])) = true →
    Z.of_nat (size (evs (qs b))) < INT_MAX ∧ (0 < width b)%nat) as Hroom.
  { intros [H1%Z.ltb_lt H2%negb_true_iff]%andb_true_iff. apply bool_decide_eq_false in H2. split; [done|].
    unfold width. by destruct (activequeues (qs b)); cbn; [|lia]. }
  destruct c as [fd events k arg|e tv|e|e|e res|e what|fd events k arg tv|tv|]; cbn [allowed api_do] in *.
  - apply andb_true_iff in Ha as [[[Hfd%Z.ltb_lt Hs%negb_true_iff]%andb_true_iff He%Z.eqb_eq]%andb_true_iff [Hr Hw]%Hroom].
    pose proof (new_kept b fd events k arg H Hw Hfd Hs He Hr) as K.
    destruct (event_new b fd events (UserCb k) arg) as [r b']. by exists r, b'.
  - apply andb_true_iff in Ha as [(v & k & Hv & Hk)%mine_lookup Htv].
    destruct (api_add_ok b e v tv H Hv (normal_tv_ok _ Htv)) as (r & b' & -> & M & _). cbn [mbind outcome_bind fst snd].
    exists (Some r), b'. split; [done|]. pose proof H as [h Hl]. eapply moves_kept; [done| |done]. by eapply mine_not_once.
  - destruct (del_kept b e H Ha) as (r & b' & -> & K & _). by exists (Some r), b'.
  - unfold event_free. destruct (del_kept b e H Ha) as (r & b' & -> & K & Hi & Ho). cbn [mbind outcome_bind fst snd].
    exists None, (ev_free b' e). split; [done|]. eapply kept_trans; [exact K|]. apply free_held; [apply K|done|done].
  - destruct (active_kept b e res H Ha) as (b' & -> & K). by exists None, b'.
  - apply mine_lookup in Ha as (v & k & Hv & Hk). unfold event_pending. rewrite (ev_get_ret _ _ _ Hv). cbn [mbind outcome_bind].
    destruct (negb (ev_base v)); eexists _, b; (split; [done|]; by split).
  - apply andb_true_iff in Ha as [[Hfd%Z.ltb_lt Htv]%andb_true_iff [Hr Hw]%Hroom].
    destruct (once_kept b fd events (UserCb k) arg tv H Hw Hfd (normal_tv_ok _ Htv) Hr) as (r & b' & -> & K); [by right; eauto|].
    by exists (Some r), b'.
  - apply andb_true_iff in Ha as [Htv [Hr Hw]%Hroom]. unfold event_base_loopexit.
    destruct (once_kept b (-1) EV_TIMEOUT Event_loopexit_cb 0 tv H Hw) as (r & b' & -> & K);
      [by vm_compute|by apply normal_tv_ok|done|by left|]. by exists (Some r), b'.
  - exists (Some 0), (with_ctl b (ctl_break (ctl b) true)). split; [done|].
    split; [|done]. destruct H as [h H]. exists h. by apply loop_ok_ctl.
Qed.

Lemma client_kept p b : held b → ∃ b', client_run b p = Ret b' ∧ kept b b'.
Proof.
  revert b. induction p as [|c go IH]; intros b H; cbn [client_run]; [exists b; split; [done|by split]|].
  destruct (allowed b c) eqn:Ha; [|exists b; split; [done|by split]].
  destruct (do_kept b c H Ha) as (r & b1 & -> & K1). cbn [mbind outcome_bind fst snd].
  destruct (IH r b1 (proj1 K1)) as (b2 & -> & K2). exists b2. split; [done|]. by eapply kept_trans.
Qed.

(** Callbacks that are programs do what the loop relies on. *)
Lemma script_ok (script : Z → Z → Z → Z → client) : callbacks_ok (W := W) (λ k fd res arg b, client_run b (script k fd res arg)).
Proof. intros k fd res arg b H. destruct (client_kept (script k fd res arg) b H) as (b' & -> & K). by apply sound_ret. Qed.

Lemma no_deferred_ok : deferred_ok (W := W) (λ _ _ _ b, Ret b).
Proof. intros k c arg b H. apply sound_ret. by split. Qed.
End api_ok.
