(* ===== verification/EventTurn.v ===== *)
(** A turn of the loop ends, when the callbacks do and make no events active themselves: every event
    that runs was taken off its queue first, so the queues get shorter. *)
From S2P Require Import Prelude Evbuffer EventData MinHeap Epoll EventCore EventInv EventLoop EventRun EventSafe.

Section turn.
Context {W : Type} `{!EvOs W, !EpollOk W, !EpollKeeps W, !ClockOk W, !Evsig W}.
Implicit Types b : event_base W.

(** How many events are active. *)
Definition act b : nat := length (concat (activequeues (qs b))).

(** Callbacks that return and leave no more events active than there were. *)
Definition calm (user : Z → Z → Z → Z → event_base W → outcome (event_base W)) : Prop :=
  ∀ k fd res arg b, held b → ∃ b', user k fd res arg b = Ret b' ∧ held b' ∧ keeps b b' ∧ (act b' <= act b)%nat.

Lemma calm_ok user : calm user → callbacks_ok user.
Proof. intros H k fd res arg b Hb. destruct (H k fd res arg b Hb) as (b' & -> & ? & ? & _). by apply sound_ret. Qed.

Lemma concat_filter_lt (L : list (list Z)) e i l :
  L !! i = Some l → e ∈ l → (length (concat (alter (filter (λ x, x ≠ e)) i L)) < length (concat L))%nat.
Proof.
  revert i. induction L as [|l' L IH]; intros [|i] Hl He; cbn in *; [done|done| |]; rewrite !length_app.
  - simplify_eq. assert (length (filter (λ x, x ≠ e) l) < length l)%nat; [|lia].
    apply length_filter_lt with e; [done|]. by intros [].
  - specialize (IH i Hl He). lia.
Qed.

(** An active event leaves its queue. *)
Lemma process_take b e v :
  held b → evs (qs b) !! e = Some v → has (ev_flags v) EVLIST_ACTIVE = true →
  ∃ b', (if has (ev_events v) EV_PERSIST
       then q ← event_queue_remove (qs b) e EVLIST_ACTIVE; Ret (with_qs b q)
       else r ← event_del_internal b e; Ret r.2) = Ret b' ∧ held b' ∧ (act b' < act b)%nat ∧
     ∃ w, evs (qs b') !! e = Some w ∧ shape w = shape v ∧ has (ev_flags w) EVLIST_ACTIVE = false.
Proof.
  intros H Hv Hf. pose proof H as [h Hl]. pose proof (lp_base _ _ Hl) as Hb.
  destruct (active_lookup _ _ _ _ (bo_q _ _ Hb) Hv) as (l & Hl' & _ & He & _). specialize (He Hf).
  pose proof (concat_filter_lt _ e _ _ Hl' He) as Hlt.
  destruct (has (ev_events v) EV_PERSIST).
  - destruct (queue_remove_held b h e v EVLIST_ACTIVE Hb Hv Hf) as (q & h' & E & _ & R); [by right|].
    destruct (dequeue_held b e v H Hv Hf) as (q' & E' & M). rewrite E in E'. simplify_eq. rewrite E. cbn [mbind outcome_bind].
    exists (with_qs b q'). split; [done|]. split; [apply M|]. split.
    + unfold act. rewrite (rf_active _ _ _ _ _ _ _ _ R), bool_decide_eq_true_2 by done. done.
    + destruct (rf_core _ _ _ _ _ _ _ _ R) as (w & Hw & Ew). exists w. split; [done|].
      split; [rewrite (core_shape _ _ Ew); by apply flags_shape, has_clear_other|].
      destruct (core_flags _ _ _ Ew) as (-> & _). apply has_clear.
  - destruct (event_del_internal_ok b h e v Hb Hv) as (r & b1 & E & _ & _ & D & _).
    destruct (del_held b e v H Hv) as (r' & b1' & E' & M & Hi). rewrite E in E'. simplify_eq. rewrite E. cbn [mbind outcome_bind snd].
    exists b1'. split; [done|]. split; [apply M|]. split.
    + unfold act. rewrite (dl_active _ _ _ _ D), Hf. done.
    + destruct (dl_core _ _ _ _ D) as (w & Hw & Ew). exists w. split; [done|].
      split; [rewrite (core_shape _ _ Ew); apply flags_shape, del_internal|].
      specialize (Hi EVLIST_ACTIVE qbit_active). by rewrite (flag_lookup _ _ _ _ Hw) in Hi.
Qed.

Context (user : Z → Z → Z → Z → event_base W → outcome (event_base W)) (Hcalm : calm user).

Lemma run_event_ends b e v :
  held b → evs (qs b) !! e = Some v → ∃ b', run_event user b e = Ret b' ∧ (act b' <= act b)%nat.
Proof.
  intros H Hv. unfold run_event. rewrite (ev_get_ret _ _ _ Hv). cbn [mbind outcome_bind run_callback].
  pose proof H as [h Hl]. destruct (lp_cb _ _ Hl e _ _ _ _ (shapes_lookup _ _ _ Hv)) as [_ Hcb].
  destruct (ev_callback v) as [f| | |]; [|destruct Hcb as (-> & Hp & [[cb a] Ho])|done..].
  { destruct (Hcalm f (ev_fd v) (ev_res v) (ev_arg v) b H) as (b' & -> & _ & _ & Ha). eauto. }
  rewrite Ho. destruct (lp_once _ _ Hl e cb a Ho) as [[->|[f ->]] _]; cbn [mbind outcome_bind].
  - eexists. split; [done|]. done.
  - destruct (Hcalm f (ev_fd v) (ev_res v) a b H) as (b' & -> & _ & _ & Ha). cbn [mbind outcome_bind].
    eexists. split; [done|]. exact Ha.
Qed.

Lemma persist_ends k b e v :
  good k b → evs (qs b) !! e = Some v → has (ev_flags v) EVLIST_ACTIVE = false →
  ∃ b', event_persist_closure user b e = Ret b' ∧ (act b' <= act b)%nat.
Proof.
  intros Hg Hv Hf. unfold event_persist_closure. rewrite (ev_get_ret _ _ _ Hv). cbn [mbind outcome_bind].
  pose proof Hg as [[h H] Hw]. pose proof (bo_ev _ _ (lp_base _ _ H) e v Hv) as Hpe.
  assert (∃ b', (if decide (tv_sec (ev_io_timeout v) ≠ 0 ∨ tv_usec (ev_io_timeout v) ≠ 0) then
         _ ← EVUTIL_ASSERT (is_same_common_timeout (ev_timeout v) (ev_io_timeout v));
         t ← gettime_use b;
         r ← event_add_internal 2 t.2 e (Some (persist_run_at (qs t.2) v t.1)) true;
         Ret r.2
       else Ret b) = Ret b' ∧ held b' ∧ act b' = act b ∧ ∃ w, evs (qs b') !! e = Some w) as (b' & -> & H' & Ha & w & Hw').
  { case_decide; [|exists b; split_and!; [done|by exists h|done|by eauto]].
    rewrite same_common_plain by apply Hpe. cbn [EVUTIL_ASSERT mbind outcome_bind].
    destruct (time_held b e (ex_intro _ h H)) as (now & b1 & -> & Hn & M1 & Eq). cbn [mbind outcome_bind fst snd].
    pose proof M1 as ([h1 H1] & _).
    assert (common_timeout_queues (qs b1) = []) as Hcq by (rewrite Eq; apply (qk_common _ _ (bo_q _ _ (lp_base _ _ H)))).
    assert (evs (qs b1) !! e = Some v) as Hv1 by (by rewrite Eq).
    assert (∀ t, Some (persist_run_at (qs b1) v now) = Some t → tv_normal t) as Htv by (intros t [= <-]; by apply persist_run_at_normal).
    destruct (event_add_internal_ok 1 b1 h1 e v _ true (lp_base _ _ H1) Hv1 Htv) as (r & b2 & h2 & E & _ & _ & _ & R).
    destruct (add_held b1 e v _ true (proj1 M1) Hv1 Htv) as (r' & b2' & E' & M2). rewrite E in E'. simplify_eq. rewrite E.
    cbn [mbind outcome_bind fst snd]. exists b2'. split; [done|]. split; [apply M2|].
    destruct (moves_event _ _ _ _ M2 Hv1) as (w & Hw2 & _). split; [|eauto]. unfold act. rewrite <- Eq.
    destruct R as [[_ R]|[_ R]]; [by rewrite (af_active _ _ _ _ R)|].
    rewrite (ad_active _ _ _ _ _ _ R). cbn [add_retracts]. unfold retracts. by rewrite Hf. }
  cbn [mbind outcome_bind]. rewrite <- Ha. by eapply run_event_ends.
Qed.

Lemma process_event_ends k b e v :
  good k b → evs (qs b) !! e = Some v → has (ev_flags v) EVLIST_ACTIVE = true →
  ∃ r, process_event user b e = Ret r ∧ (act r.2 < act b)%nat.
Proof.
  intros Hg Hv Hf. unfold process_event. rewrite (ev_get_ret _ _ _ Hv). cbn [mbind outcome_bind].
  destruct (process_take b e v (proj1 Hg) Hv Hf) as (b1 & -> & H1 & Hlt & w & Hw & Es & Hwf). cbn [mbind outcome_bind].
  rewrite (ev_get_ret _ _ _ Hw). cbn [mbind outcome_bind]. pose proof H1 as [h1 Hl1].
  pose proof (pe_closure _ (bo_ev _ _ (lp_base _ _ Hl1) e w Hw)) as Hcl.
  assert (∃ b2, match ev_closure w with
      | EV_CLOSURE_SIGNAL => event_signal_closure user b1 e
      | EV_CLOSURE_PERSIST => event_persist_closure user b1 e
      | EV_CLOSURE_NONE => run_event user b1 e end = Ret b2 ∧ (act b2 <= act b1)%nat) as (b2 & -> & Hle).
  { rewrite Hcl. destruct (has (ev_events w) EV_PERSIST).
    - eapply (persist_ends (width b1)); [by split|done|done].
    - by eapply run_event_ends. }
  cbn [mbind outcome_bind]. eexists. split; [done|]. cbn. lia.
Qed.

Let Huser : callbacks_ok user := calm_ok user Hcalm.

Lemma single_queue_ends k fuel b i count :
  good k b → 0 <= i < Z.of_nat k → (act b < fuel)%nat →
  ∃ r, event_process_active_single_queue user fuel b i count = Ret r ∧ (act r.2 <= act b)%nat.
Proof.
  revert b count. induction fuel as [|fuel IH]; intros b count Hg Hi Hf; [lia|].
  cbn [event_process_active_single_queue].
  destruct (active_queue_good k b i Hg Hi) as (l & -> & Hl). cbn [mbind outcome_bind].
  destruct l as [|e l]; [by eexists|].
  destruct (active_member k b _ _ e Hg Hl) as (v & Hv & Hfl); [left|].
  destruct (process_event_ends k b e v Hg Hv Hfl) as ([c b1] & E & Hlt).
  destruct (process_event_sound user Huser k b e v Hg Hv Hfl) as [E'|([c' b1'] & E' & Hg1 & _)]; [congruence|].
  rewrite E in E'. simplify_eq. rewrite E. cbn [mbind outcome_bind snd] in *.
  destruct (event_break (ctl b1')); [eexists; split; [done|]; cbn; lia|].
  destruct (event_continue (ctl b1')); [eexists; split; [done|]; cbn; lia|].
  destruct (IH b1' (count + c') Hg1 Hi) as (r & -> & Hr); [lia|]. eexists. split; [done|]. lia.
Qed.

Lemma process_queues_ends k fuel j b i :
  good k b → 0 <= i → i + Z.of_nat j = Z.of_nat k → (act b < fuel)%nat →
  ∃ r, process_queues user fuel j b i = Ret r.
Proof.
  revert b i. induction j as [|j IH]; intros b i Hg H0 Hi Hf; cbn [process_queues]; [by eexists|].
  destruct (active_queue_good k b i Hg) as (l & -> & Hl); [lia|]. cbn [mbind outcome_bind].
  destruct l as [|e l]; [apply IH; [done|lia|lia|done]|].
  set (b0 := with_ctl b _). assert (good k b0) as Hg0 by (by apply good_ctl).
  destruct (single_queue_ends k fuel b0 i 0 Hg0) as (r & E & Hr); [lia|done|].
  destruct (single_queue_sound user Huser k fuel b0 i 0 Hg0) as [E'|(r' & E' & Hg1 & _)]; [lia|lia|congruence|].
  rewrite E in E'. simplify_eq. rewrite E. cbn [mbind outcome_bind].
  case_decide; [|by eexists]. apply IH; [done|lia|lia|]. change (act b0) with (act b) in Hr. lia.
Qed.

Context (user_deferred : Z → Z → Z → event_base W → outcome (event_base W)).
Context (Hdeferred : ∀ k c arg b, held b → ∃ b', user_deferred k c arg b = Ret b' ∧ held b' ∧ keeps b b').

Lemma deferred_ends j b : held b → ∃ b', event_process_deferred_callbacks user_deferred j b = Ret b'.
Proof.
  revert b. induction j as [|j IH]; intros b H; cbn [event_process_deferred_callbacks]; [by eexists|].
  destruct (deferred_cb_list (defer_queue b)) as [|c l] eqn:El; [by eexists|].
  pose proof H as [h Hl]. destruct (lp_dq _ _ Hl c) as [x Hx]; [rewrite El; left|]. rewrite Hx.
  set (d := {| dcbs := _; deferred_cb_list := l; active_count := _ |}).
  destruct (Hdeferred (dcb_cb x) c (dcb_arg x) (with_dq b d)) as (b' & -> & H' & _); [|].
  { exists h. eapply dequeue_deferred; [done|exact El|exact Hx]. }
  cbn [mbind outcome_bind]. destruct (event_break (ctl b')); [by eexists|by apply IH].
Qed.

Lemma process_active_ends k fuel b :
  good k b → (act b < fuel)%nat → ∃ r, event_process_active user user_deferred fuel b = Ret r.
Proof.
  intros Hg Hf. unfold event_process_active. pose proof Hg as [_ Hw]. unfold width in Hw.
  destruct (process_queues_ends k fuel (length (activequeues (qs b))) b 0 Hg) as (r & E); [done|lia|done|].
  destruct (process_queues_sound user Huser k fuel (length (activequeues (qs b))) b 0 Hg) as [E'|(r' & E' & Hg1 & _)];
    [lia|lia|congruence|].
  rewrite E in E'. simplify_eq. rewrite E. cbn [mbind outcome_bind]. case_decide; [by eexists|].
  destruct (deferred_ends MAX_DEFERRED r'.2 (proj1 Hg1)) as (b' & ->). by eexists.
Qed.

(** There are no more active events than events. *)
Lemma act_size b : held b → (act b <= size (evs (qs b)))%nat.
Proof.
  intros [h H]. pose proof (bo_q _ _ (lp_base _ _ H)) as Hq.
  pose proof (qk_nodup _ _ Hq EVLIST_ACTIVE qbit_active) as Hnd.
  destruct (listed_queue (qs b) h) as (_ & L & _). rewrite L in Hnd. unfold act.
  rewrite <- (size_list_to_set (C := gset Z)) by done. rewrite <- (size_dom (D := gset Z)). apply subseteq_size.
  intros e He%elem_of_list_to_set. apply elem_of_dom.
  rewrite <- L in He. apply (qk_mem _ _ Hq _ e qbit_active), flag_dom in He as (v & Hv & _). eauto.
Qed.

Lemma shapes_size evs evs' : (∀ x, shapes evs' x = shapes evs x) → size evs' = size evs.
Proof.
  intros H. rewrite <- !(size_dom (D := gset Z)). f_equal. apply set_eq. intros x. rewrite !elem_of_dom.
  specialize (H x). unfold shapes, cores in H. destruct (evs' !! x), (evs !! x); try done; split; by intros [].
Qed.

Lemma loop_turn_ends fuel b flags :
  use_monotonic = true → held b → (size (evs (qs b)) < fuel)%nat →
  ∃ r, loop_turn user user_deferred fuel b flags = Ret r.
Proof.
  intros Hmono H Hf.
  destruct (loop_turn_cases user user_deferred (width b) fuel b flags Hmono) as [(z & b' & -> & _)|(b6 & -> & H6 & S6)]; [done|by eexists|].
  unfold turn_end. destruct (negb (N_ACTIVE_CALLBACKS b6 =? 0)).
  - destruct (process_active_ends (width b) fuel b6 H6) as (r & ->).
    { pose proof (act_size b6 (proj1 H6)). rewrite (shapes_size _ _ S6) in *. lia. }
    cbn [mbind outcome_bind]. case_match; by eexists.
  - case_match; by eexists.
Qed.
End turn.
