(* ===== verification/EventLife.v ===== *)
(** The theorems about an event base: its turns, its loop and its life, with the program's callbacks as
    programs themselves, and an example on a kernel that reports what a list says. *)
From S2P Require Import Prelude Evbuffer EventData MinHeap Epoll EventCore EventInv EventLoop EventRun EventSafe EventBase EventApi EventTurn.

Section life.
Context {W : Type} `{!EvOs W, !Evsig W}.

(** A program makes a base, runs [p], runs the loop with the callbacks [script], runs [q], and frees the base. *)
Definition life (script : Z → Z → Z → Z → client) (turns fuel : nat) (flags : Z) (p q : client) (w : W) :
    outcome (option (Z * store * W)) :=
  x ← event_base_new w;
  match x.1 with
  | None => Ret None
  | Some b =>
      b ← client_run b p;
      r ← event_base_loop (λ k fd res arg b, client_run b (script k fd res arg)) (λ _ _ _ b, Ret b) turns fuel b flags;
      b ← client_run r.2 q;
      y ← event_base_free b;
      Ret (Some (r.1, y.1, y.2))
  end.
End life.

Section theorems.
Context {W : Type} `{!EvOs W, !EpollOk W, !EpollKeeps W, !ClockOk W, !Evsig W}.
Implicit Types b : event_base W.

(** C7: A program that keeps to its own events cannot bring libevent's core down.  From
    [event_base_new], through any calls - making, adding, deleting, activating and freeing events,
    [event_base_once], [event_base_loopexit] and [event_base_loopbreak], which go on with what the
    calls before returned - and the loop, whose callbacks make such calls too, to [event_base_free],
    there is no undefined behaviour, no failed assertion and no exit, whatever [epoll_wait] reports and
    whenever [realloc] fails or [epoll_ctl] refuses to add interest; and when the base was freed, no event is
    on a queue and the kernel watches nothing any more.  The program ([allowed]) has events for timeouts
    and for reading and writing, none for signals and none edge-triggered, on descriptors below
    [FD_LIMIT] that it does not close while they are registered; and the kernel ([EpollKeeps]) is always able
    to take interest off an entry it has: ENOMEM is excluded there. *)
Theorem base_life script turns fuel flags p q (w : W) :
  use_monotonic = true → interest w = ∅ →
  sound (λ o, ∀ r evs' w', o = Some (r, evs', w') → (r = 0 ∨ r = 1 ∨ r = -1) ∧ (∀ x, idle evs' x) ∧ interest w' = ∅)
    (life script turns fuel flags p q w).
Proof.
  intros Hmono Hi. unfold life.
  destruct (event_base_new_ok w Hi) as (o & w1 & -> & _ & Ho). cbn [mbind outcome_bind fst].
  destruct o as [b|]; [|by apply sound_ret]. destruct (Ho b eq_refl) as (H & _ & _).
  destruct (client_kept p b H) as (b1 & -> & H1 & _). cbn [mbind outcome_bind].
  eapply sound_bind; [apply (event_base_loop_sound _ _ turns fuel b1 flags Hmono (script_ok script) no_deferred_ok H1)|].
  intros [r b2] (H2 & _ & Hr). cbn [fst snd] in *.
  destruct (client_kept q b2 H2) as (b3 & -> & H3 & _). cbn [mbind outcome_bind].
  destruct (event_base_free_ok b3 H3) as (evs' & w' & -> & _ & Hidle & Hw). cbn [mbind outcome_bind fst snd].
  apply sound_ret. intros r' evs'' w'' [= <- <- <-]. split_and!; [|done|done]. destruct Hr as [[-> _]|[[-> _]|[[-> _]|[-> _]]]]; auto.
Qed.

(** C8: The event loop never goes wrong.  With callbacks of the program that keep the base's invariant
    and leave the events of [event_base_once] alone, [event_base_loop] on a base that satisfies it never
    reads an event that was freed or a cell that was never written, never aborts in an assertion and
    never exits, however long it runs: after any number of turns it is still running with the invariant
    kept or has returned.  It returns 0 only after [event_base_loopexit] or [event_base_loopbreak] or
    because of a flag, 1 only when there are no events left, and -1 only when [epoll_wait] failed or the
    loop runs already. *)
Theorem event_base_loop_safe (user user_deferred : _) turns fuel b flags :
  use_monotonic = true → callbacks_ok user → deferred_ok user_deferred → held b →
  sound (λ r, held r.2 ∧ width r.2 = width b ∧
      (r.1 = -1 ∧ running_loop (ctl b) = true ∨ ended flags r.1 r.2))
    (event_base_loop user user_deferred turns fuel b flags).
Proof. apply event_base_loop_sound. Qed.

(** C17: [timeout_process] makes exactly the events that are due active.  On a base that satisfies the
    invariant it ends, whatever the heap holds, and keeps the invariant; the time is what [gettime] says.  Of the events with a timeout the ones due by then leave every queue, in the order of
    their timeouts, and go to the ends of the active queues of their priorities with the result
    [EV_TIMEOUT]; the ones that are due later stay, and no other event changes. *)
Theorem timeout_process_fires b h :
  base_ok b h →
  ∃ b' h' ts now, timeout_process b = Ret b' ∧ base_ok b' h' ∧
    (h ≠ [] → ∃ b2, gettime_use b = Ret (now, b2)) ∧
    h ≡ₚ ts ++ h' ∧ StronglySorted (λ x y, tv_le (due (evs (qs b)) x) (due (evs (qs b)) y)) ts ∧
    (∀ e, e ∈ h → e ∈ ts ↔ tv_le (due (evs (qs b)) e) now) ∧
    (∀ x, cores (evs (qs b')) x =
       if decide (x ∈ ts) then (λ c, core (timed_out c)) <$> cores (evs (qs b)) x else cores (evs (qs b)) x) ∧
    at_queue (activequeues (qs b)) (activequeues (qs b')) (requeued (evs (qs b)) ts).
Proof.
  intros H. destruct (timeout_process_ok b h H) as (b' & b1 & h' & ts & now & -> & Eq & _ & _ & Hnow & T).
  destruct T as [T1 T2 T3 T4 T5 T6 T7 _ _]. rewrite Eq in *.
  exists b', h', ts, now. split_and!; try done.
  intros e He. split; [apply T4|]. intros Hle. rewrite T2, elem_of_app in He. destruct He as [|He]; [done|].
  by destruct (T5 e He).
Qed.

(** C18: [epoll_dispatch] tells every event what happened on its descriptor.  With no timeout it waits
    for as long as it takes, else at least as long as the timeout (up to a limit of 35 minutes) and
    less than a millisecond longer, so that a timer does not make the loop spin.  It fails when
    [epoll_wait] does, except for [EINTR], and changes no event then.  Otherwise the events that are inserted on a
    reported descriptor and want what was reported - reads and writes both when there was an error or a
    hang-up - become active, each active queue growing at its end; the others do not change, and the
    invariant holds. *)
Theorem epoll_dispatch_rouses b h tv :
  base_ok b h → (∀ d, tv = Some d → 0 <= tv_sec d ∧ tv_normal d) →
  ∃ t r b' h', waits tv t ∧ epoll_dispatch b tv = Ret (r, b') ∧ base_ok b' h' ∧ h' ≡ₚ h ∧
    match (epoll_wait (os b) (nevents b) t).1 with
    | inl e => r = (if decide (e = 4) then 0 else -1) ∧ qs b' = qs b
    | inr l => r = 0 ∧
        (∀ x, cores (evs (qs b')) x = (λ c, core (ready l c)) <$> cores (evs (qs b)) x) ∧
        Forall2 prefix (activequeues (qs b)) (activequeues (qs b'))
    end.
Proof.
  intros H Htv. destruct (epoll_dispatch_ok b h tv H Htv) as (t & r & b' & h' & Ht & E & H' & Hp & _ & _ & _ & _ & R).
  exists t, r, b', h'. done.
Qed.

(** C19: A turn of the loop ends.  With callbacks that return, keep the base's invariant and leave no
    more events active than they found, [loop_turn] returns, with fuel for as many events as the base
    has: every event that runs is off its queue before its callback is called, a persistent one is put
    back for its next timeout only, and at most sixteen deferred callbacks run. *)
Theorem loop_turn_returns user user_deferred fuel b flags :
  use_monotonic = true → calm user →
  (∀ k c arg b, held b → ∃ b', user_deferred k c arg b = Ret b' ∧ held b' ∧ keeps b b') →
  held b → (size (evs (qs b)) < fuel)%nat → ∃ r, loop_turn user user_deferred fuel b flags = Ret r.
Proof. intros. by apply loop_turn_ends. Qed.
(** An event that is active, and not on its descriptor, does not get there by [event_add], which returns 0
    all the same. *)
Lemma event_add_unwatched b h e v tv :
  base_ok b h → evs (qs b) !! e = Some v → has (ev_flags v) EVLIST_ACTIVE = true → has (ev_flags v) EVLIST_INSERTED = false →
  (∀ t, tv = Some t → tv_normal t) →
  ∃ r b', event_add b e tv = Ret (r, b') ∧ flag (evs (qs b')) e EVLIST_INSERTED = false.
Proof.
  intros H Hv Ha Hn Htv. destruct (event_add_ok b h e v tv H Hv Htv) as (r & b' & h' & -> & _ & _ & _ & R).
  exists r, b'. split; [done|]. destruct R as [[_ R]|[_ R]].
  - rewrite (flag_ext _ _ _ _ (af_cores _ _ _ _ R e)). by rewrite (flag_lookup _ _ _ _ Hv).
  - destruct (ad_result _ _ _ _ _ _ R) as (now & u & Hu & Eu & _). rewrite (flag_lookup _ _ _ _ Hu).
    assert (ev_flags u = ev_flags (add_result v tv false now)) as ->
      by (change (ev_flags (core u) = ev_flags (core (add_result v tv false now))); by rewrite Eu).
    assert (add_flags v = ev_flags v) as Ef by (unfold add_flags, wants_io; rewrite has_or, Hn, Ha; cbn; by rewrite andb_false_r).
    unfold add_result. rewrite Ef. destruct tv as [t|]; [|done].
    assert (has (Z.lor (retracted (ev_with_flags v (ev_flags v))) EVLIST_TIMEOUT) EVLIST_INSERTED = false) as Hr; [|by case_decide].
    rewrite has_set by auto with kv. rewrite bool_decide_eq_false_2, orb_false_r by done.
    unfold retracted. cbn zeta. destruct (retracts _); [rewrite (has_clear_other _ EVLIST_ACTIVE) by done|];
      rewrite has_without by auto with kv; cbn; by rewrite Hn.
Qed.
End theorems.

(** * An example *)

(** A kernel: its list, what [epoll_wait] is to report, call by call, and the time in milliseconds. *)
Record kernel := { watching : gmap Z Z; reports : list (list (Z * Z)); clock : Z }.

Definition demo_ctl (w : kernel) (op fd ev : Z) : Z * kernel :=
  let set m := {| watching := m; reports := reports w; clock := clock w |} in
  if fd <? 0 then (EBADF, w)
  else
    match decide (op = EPOLL_CTL_ADD), decide (op = EPOLL_CTL_MOD), decide (op = EPOLL_CTL_DEL), watching w !! fd with
    | left _, _, _, None => (0, set (<[fd := ev]> (watching w)))
    | left _, _, _, Some _ => (EEXIST, w)
    | _, left _, _, Some _ => (0, set (<[fd := ev]> (watching w)))
    | _, _, left _, Some _ => (0, set (delete fd (watching w)))
    | _, _, _, _ => (ENOENT, w)
    end.

(** What may be reported. *)
Definition demo_reported (m : gmap Z Z) (r : Z * Z) : Prop :=
  0 <= r.1 ∧ from_option (λ ev, Z.land r.2 (Z.lnot (Z.lor ev (Z.lor EPOLLERR EPOLLHUP))) = 0) False (m !! r.1).
#[local] Instance demo_reported_dec m r : Decision (demo_reported m r).
Proof. unfold demo_reported. destruct (m !! r.1); cbn; apply _. Defined.

Definition demo_wait (w : kernel) (k timeout : Z) : (Z + list (Z * Z)) * kernel :=
  if k <? 0 then (inl 22, w)
  else match reports w with
  | [] => (inr [], {| watching := watching w; reports := []; clock := clock w + Z.max 0 timeout |})
  | l :: rs =>
      let l := filter (demo_reported (watching w)) l in
      (inr (if decide (Z.of_nat (length l) <= k) then l else []), {| watching := watching w; reports := rs; clock := clock w + 1 |})
  end.

#[local] Instance kernel_os : EvOs kernel := {|
  use_monotonic := true;
  os_realloc w _ := (true, w);
  clock_gettime w := (Some (clock w / 1000, clock w mod 1000 * 1000000), w);
  gettimeofday w := (Some {| tv_sec := clock w / 1000; tv_usec := clock w mod 1000 * 1000 |}, w);
  epoll_ctl := demo_ctl;
  epoll_wait := demo_wait
|}.

#[local] Instance kernel_sig : Evsig kernel := {| evsig_add w _ := (0, w); evsig_del w _ := (0, w) |}.

Definition kernel_interest (w : kernel) : gmap Z Z := filter (λ x, 0 <= x.1) (watching w).

Lemma kernel_interest_lookup w fd : 0 <= fd → kernel_interest w !! fd = watching w !! fd.
Proof.
  intros Hfd. unfold kernel_interest. destruct (watching w !! fd) as [ev|] eqn:E.
  - by apply map_lookup_filter_Some.
  - apply map_lookup_filter_None. by left.
Qed.

Lemma kernel_interest_fd w fd : is_Some (kernel_interest w !! fd) → 0 <= fd.
Proof. intros [ev [_ ?]%map_lookup_filter_Some]. done. Qed.

Lemma demo_ctl_spec w op fd ev :
  let w' := (demo_ctl w op fd ev).2 in
  match (demo_ctl w op fd ev).1 with
  | 0 => op = EPOLL_CTL_ADD ∧ kernel_interest w !! fd = None ∧ kernel_interest w' = <[fd := ev]> (kernel_interest w) ∨
    op = EPOLL_CTL_MOD ∧ is_Some (kernel_interest w !! fd) ∧ kernel_interest w' = <[fd := ev]> (kernel_interest w) ∨
    op = EPOLL_CTL_DEL ∧ is_Some (kernel_interest w !! fd) ∧ kernel_interest w' = delete fd (kernel_interest w)
  | _ => w' = w ∧ (is_Some (kernel_interest w !! fd) → op ≠ EPOLL_CTL_MOD ∧ op ≠ EPOLL_CTL_DEL)
  end.
Proof.
  unfold demo_ctl. destruct (Z.ltb_spec fd 0) as [Hn|Hn].
  { cbn. split; [done|]. intros Hi%kernel_interest_fd. lia. }
  rewrite (kernel_interest_lookup w fd Hn).
  assert (∀ v, kernel_interest {| watching := <[fd := v]> (watching w); reports := reports w; clock := clock w |} = <[fd := v]> (kernel_interest w)) as Hins.
  { intros v. unfold kernel_interest. cbn. by rewrite map_filter_insert_True. }
  assert (kernel_interest {| watching := delete fd (watching w); reports := reports w; clock := clock w |} = delete fd (kernel_interest w)) as Hdel
    by (unfold kernel_interest; cbn; by rewrite map_filter_delete).
  destruct (decide (op = EPOLL_CTL_ADD)), (decide (op = EPOLL_CTL_MOD)), (decide (op = EPOLL_CTL_DEL)),
    (watching w !! fd) eqn:E; subst; cbn; try done; rewrite ?Hins, ?Hdel; eauto 10; split; try done; by intros [].
Qed.

#[local] Instance kernel_epoll : EpollOk kernel.
Proof.
  refine {| interest := kernel_interest |}; try done.
  - intros w op fd ev E. pose proof (demo_ctl_spec w op fd ev) as S. cbn in *. by rewrite E in S.
  - intros w op fd ev E. pose proof (demo_ctl_spec w op fd ev) as S. cbn in *.
    destruct (demo_ctl w op fd ev).1; [done|by destruct S as [-> _]..].
  - intros w fd ev Hi. pose proof (demo_ctl_spec w EPOLL_CTL_DEL fd ev) as S. cbn in *.
    destruct (demo_ctl w EPOLL_CTL_DEL fd ev).1; [set_solver|destruct S as [_ S]; by destruct (S Hi)..].
  - intros w k t. cbn. unfold demo_wait. destruct (k <? 0), (reports w); done.
  - intros w k t l. cbn. unfold demo_wait. destruct (Z.ltb_spec k 0); [done|].
    destruct (reports w) as [|rs r]; cbn; intros [= <-].
    + split; [cbn; lia|]. intros fd what ?%elem_of_nil. done.
    + split; [case_decide; [done|cbn; lia]|]. intros fd what Hin.
      assert (demo_reported (watching w) (fd, what)) as [Hfd Hr].
      { case_decide; [|by apply elem_of_nil in Hin]. by apply list_elem_of_filter in Hin as [? _]. }
      cbn in Hfd, Hr. rewrite kernel_interest_lookup by done. destruct (watching w !! fd) as [m|]; [|done]. by exists m.
Defined.

#[local] Instance kernel_keeps : EpollKeeps kernel.
Proof.
  split; [apply kernel_interest_fd|]. intros w op fd ev (m & Hm & Hop). assert (is_Some (interest w !! fd)) as Hi by eauto. pose proof (demo_ctl_spec w op fd ev) as S. cbn in *.
  destruct (demo_ctl w op fd ev).1; [done|destruct S as [_ S]; destruct (S Hi); naive_solver..].
Qed.

#[local] Instance kernel_clock : ClockOk kernel.
Proof.
  split; intros w; cbn; pose proof (Z.mod_pos_bound (clock w) 1000 ltac:(lia)).
  - eexists _, _. split; [done|]. lia.
  - eexists. split; [done|]. unfold tv_normal. cbn. lia.
Qed.

(** A program with a reader on descriptor 5 and a timer of 1.5 ms; the reader asks for the loop's exit
    in two seconds. *)
Definition demo_setup : client :=
  Call (ApiNew 5 (Z.lor EV_READ EV_PERSIST) 1 0) (λ r, match r with
  | Some e => Call (ApiAdd e None) (λ _,
      Call (ApiNew (-1) 0 2 e) (λ r, match r with
      | Some t => Call (ApiAdd t (Some {| tv_sec := 0; tv_usec := 1500 |})) (λ _, Done)
      | None => Done
      end))
  | None => Done
  end).

(** The timer's callback stops the reader, which is its argument. *)
Definition demo_script (k fd res arg : Z) : client :=
  if decide (k = 1) then Call (ApiLoopexit (Some {| tv_sec := 2; tv_usec := 0 |})) (λ _, Done)
  else Call (ApiDel arg) (λ _, Done).

Definition demo_kernel : kernel := {| watching := ∅; reports := [[(5, EPOLLIN)]; []; [(5, Z.lor EPOLLIN EPOLLHUP); (6, EPOLLIN)]]; clock := 7000 |}.

(** The loop's result, how many events were left, what the kernel watches and the time. *)
Definition life_result (o : outcome (option (Z * store * kernel))) : option (Z * nat * gmap Z Z * Z) :=
  match o with Ret (Some (r, evs, w)) => Some (r, size evs, watching w, clock w) | _ => None end.

Lemma base_life_witness :
  life_result (life demo_script 20 20 0 demo_setup Done demo_kernel) = Some (0, 2%nat, ∅, 9001) ∧
  sound (λ o, ∀ r evs' w', o = Some (r, evs', w') → (r = 0 ∨ r = 1 ∨ r = -1) ∧ (∀ x, idle evs' x) ∧ interest w' = ∅)
    (life demo_script 20 20 0 demo_setup Done demo_kernel).
Proof. split; [vm_compute; reflexivity|]. apply base_life; reflexivity. Defined.

(** The base after the setup. *)
Definition demo_started : outcome (event_base kernel) :=
  x ← event_base_new demo_kernel;
  match x.1 with Some b => client_run b demo_setup | None => NoFuel end.
Definition demo_base : event_base kernel := match demo_started with Ret b => b | _ => base_zero ∅ demo_kernel end.

Lemma demo_held : held demo_base.
Proof.
  unfold demo_base, demo_started.
  destruct (event_base_new_ok demo_kernel) as (o & w & -> & _ & Ho); [reflexivity|]. cbn [mbind outcome_bind fst].
  assert (held (base_zero ∅ demo_kernel)) as H0.
  { exists []. split; [by apply zero_ok|done|done|]. intros c Hc. by apply elem_of_nil in Hc. }
  destruct o as [b|]; [|exact H0]. destruct (Ho b eq_refl) as (H & _).
  by destruct (client_kept demo_setup b H) as (b' & -> & H' & _).
Qed.

Definition demo_user (k fd res arg : Z) (b : event_base kernel) : outcome (event_base kernel) := client_run b (demo_script k fd res arg).
Definition demo_idle (k c arg : Z) (b : event_base kernel) : outcome (event_base kernel) := Ret b.

Lemma event_base_loop_safe_witness :
  (∃ b, event_base_loop demo_user demo_idle 20 20 demo_base 0 = Ret (0, b)) ∧
  sound (λ r, held r.2 ∧ width r.2 = width demo_base ∧
      (r.1 = -1 ∧ running_loop (ctl demo_base) = true ∨ ended 0 r.1 r.2))
    (event_base_loop demo_user demo_idle 20 20 demo_base 0).
Proof.
  split; [vm_compute; eauto|].
  apply (event_base_loop_safe demo_user demo_idle 20 20 demo_base 0); [reflexivity|apply script_ok|apply no_deferred_ok|apply demo_held].
Defined.

(** Two milliseconds later the timer is due. *)
Definition demo_late : event_base kernel :=
  with_os demo_base {| watching := watching (os demo_base); reports := []; clock := clock (os demo_base) + 2 |}.

Lemma timeout_process_fires_witness :
  ∃ h b' h' ts now, base_ok demo_late h ∧ timeout_process demo_late = Ret b' ∧ base_ok b' h' ∧
    (h ≠ [] → ∃ b2, gettime_use demo_late = Ret (now, b2)) ∧
    h ≡ₚ ts ++ h' ∧ StronglySorted (λ x y, tv_le (due (evs (qs demo_late)) x) (due (evs (qs demo_late)) y)) ts ∧
    (∀ e, e ∈ h → e ∈ ts ↔ tv_le (due (evs (qs demo_late)) e) now) ∧
    (∀ x, cores (evs (qs b')) x =
       if decide (x ∈ ts) then (λ c, core (timed_out c)) <$> cores (evs (qs demo_late)) x else cores (evs (qs demo_late)) x) ∧
    at_queue (activequeues (qs demo_late)) (activequeues (qs b')) (requeued (evs (qs demo_late)) ts) ∧
    activequeues (qs demo_late) = [[]] ∧ length (concat (activequeues (qs b'))) = 1%nat.
Proof.
  assert (∃ h, base_ok demo_late h) as [h H].
  { destruct demo_held as [h H]. exists h. apply base_ok_os; [reflexivity|apply H]. }
  destruct (timeout_process_fires demo_late h H) as (b' & h' & ts & now & E & R).
  exists h, b', h', ts, now. split; [exact H|]. split; [exact E|].
  assert (activequeues (qs demo_late) = [[]]) as Ha by (vm_compute; reflexivity).
  assert (b' = match timeout_process demo_late with Ret b => b | _ => demo_late end) as Eb by (rewrite E; reflexivity).
  assert (length (concat (activequeues (qs b'))) = 1%nat) as Hl by (rewrite Eb; vm_compute; reflexivity).
  destruct R as (R1 & R2 & R3 & R4 & R5 & R6 & R7). split_and!; assumption.
Defined.

Lemma epoll_dispatch_rouses_witness :
  ∃ h t r b' h', base_ok demo_base h ∧ waits (Some {| tv_sec := 0; tv_usec := 1500 |}) t ∧
    epoll_dispatch demo_base (Some {| tv_sec := 0; tv_usec := 1500 |}) = Ret (r, b') ∧ base_ok b' h' ∧ h' ≡ₚ h ∧
    match (epoll_wait (os demo_base) (nevents demo_base) t).1 with
    | inl e => r = (if decide (e = 4) then 0 else -1) ∧ qs b' = qs demo_base
    | inr l => r = 0 ∧
        (∀ x, cores (evs (qs b')) x = (λ c, core (ready l c)) <$> cores (evs (qs demo_base)) x) ∧
        Forall2 prefix (activequeues (qs demo_base)) (activequeues (qs b'))
    end ∧ length (concat (activequeues (qs b'))) = 1%nat.
Proof.
  destruct demo_held as [h H].
  assert (∀ d, Some {| tv_sec := 0; tv_usec := 1500 |} = Some d → 0 <= tv_sec d ∧ tv_normal d) as Hd
    by (intros d [= <-]; unfold tv_normal; cbn; lia).
  destruct (epoll_dispatch_rouses demo_base h _ (lp_base _ _ H) Hd) as (t & r & b' & h' & Ht & E & H' & Hp & R).
  assert (b' = match epoll_dispatch demo_base (Some {| tv_sec := 0; tv_usec := 1500 |}) with Ret (_, b) => b | _ => demo_base end) as Eb
    by (rewrite E; reflexivity).
  assert (length (concat (activequeues (qs b'))) = 1%nat) as Hl by (rewrite Eb; vm_compute; reflexivity).
  exists h, t, r, b', h'. split; [apply H|]. split_and!; assumption.
Defined.

(** Callbacks that stop the loop. *)
Definition demo_stop (k fd res arg : Z) (b : event_base kernel) : outcome (event_base kernel) := Ret (event_base_loopbreak b).2.

Lemma loop_turn_returns_witness :
  (∃ b, loop_turn demo_stop demo_idle 3 demo_base 0 = Ret (inr (), b) ∧ event_break (ctl b) = true) ∧
  ∃ r, loop_turn demo_stop demo_idle 3 demo_base 0 = Ret r.
Proof.
  split; [vm_compute; eauto|].
  apply (loop_turn_returns demo_stop demo_idle 3 demo_base 0).
  - reflexivity.
  - intros k fd res arg b [h H]. eexists. split; [reflexivity|]. split; [exists h; by apply loop_ok_ctl|]. split; [done|]. done.
  - intros k c arg b H. exists b. by split_and!.
  - apply demo_held.
  - vm_compute. lia.
Defined.
